(* ===== verification/_CoqProject ===== *)
-Q . S2P
Prelude.v
Crc.v
NumericDfa.v
StateBench.v
Matrix.v
ListKernel.v
ListSort.v
CoreMain.v
Memory.v
IoMap.v
Devices.v
Cpu.v
Expr.v
Watchpoint.v
MiniRv.v
MiniRvCorrect.v
Int64.v
KString.v
KPrintf.v
ProfileCache.v
Profile.v
TracePack.v
BranchSim.v
BranchSimCorrect.v
EmulatorTrace.v
CacheSim.v
SocMem.v
Tracers.v
Debugger.v
DiffTest.v
SimCounters.v
NpcSim.v
CoSim.v
SimTools.v
AmRuntime.v
