(* ===== verification/Prelude.v ===== *)
(** * Verification of the jyd system: emulator, RTL simulation, tools, accelerated CoreMark, C library

    The repository holds a RISC-V computer for a processor design contest: an instruction
    set emulator (nemu) with a debugger and a profiler, offline simulators of branch
    predictors and caches that replay traces recorded by the emulator, a simulation of the
    processor's RTL (npc/sim) with its memories, counters and debugger (sdb), which compares
    every instruction with the emulator, the CoreMark benchmark
    with kernels that use custom instructions of the processor, the bare-metal C library
    (abstract-machine/klib) the guest programs are linked with, and a macro package that
    expresses the base instruction set in eight instructions (tools/minirv).  This development
    models these parts and proves that they do what they are meant to: the custom instructions compute
    what the software they replace computes, the benchmark's results do not depend on
    the choice, the emulator's memory, devices and execution loop keep their invariants,
    the debugger evaluates expressions and manages watchpoints, the simulators agree
    with what the emulator executed, an RTL simulation that passes the differential test agrees
    with the emulator, and the library functions meet their specifications.

    ** The parts and how they interact

    CoreMark (jyd-tests/coremark-official) runs three workloads - a linked list, matrices
    and a number recogniser - and folds their results into a CRC.  The wrappers under
    accel/ replace inner loops by custom instructions.  The emulator fetches and decodes
    instructions, executes the custom ones and the system ones itself, and reaches guest
    memory through one address decoder that falls back to a bus of memory-mapped
    devices.  The profiler observes every executed instruction and writes branch and
    address traces; branchsim and cachesim read them back.  The RTL simulation steps the
    Verilated model by cycles until an instruction is committed; the debugger steps it by
    instructions, calls its trace handlers around each one and lets the differential test
    execute the same instruction on the emulator, which is loaded as a library.

    ** The files

    - Prelude (this file): machine integers as [Z] with explicit wrap-around, faults and the
      result monad, counted loops, arrays, byte memories; the tactics [zbits] and
      [zcmp] and the hint database [cint].
    - Crc: crcu8/crcu16/crcu32/crc16 of core_util.c, crc_update of inst.c and the wrappers
      of xcrc_hw.h ([crc_update_is_coremark_crc]).
    - NumericDfa: core_state_transition, the recogniser instructions of inst.c and the token
      scans of xaccel_wrappers.c ([numeric_dfa_transitions_agree]).
    - StateBench: core_bench_state, core_init_state and the accelerated bodies
      ([bench_state_accel_equivalent], [bench_state_restores_block]).
    - Matrix: core_matrix.c, the multiply and matrix-sum instructions and their kernels
      ([matrix_kernels_correct], [bench_matrix_restores_operands], [core_init_matrix_fits]).
    - ListKernel, ListSort: core_list_join.c on a heap of cells, the list-reversal
      instructions ([list_reverse_correct], [list_remove_undo]), and the merge sort against
      the interface [CmpSpec] of its comparison function ([mergesort_by_idx_correct]).
    - CoreMain: the driver; which message a run ends with ([coremark_verdict]); one iteration for
      each published seed set, by evaluation ([coremark_runs_validate]).
    - Memory: paddr.c and vaddr.c over five host arrays; the device bus is the interface
      [MmioBus] ([paddr_store_load]).
    - IoMap: map.c, mmio.c and port-io.c, an implementation of [MmioBus]
      ([mmio_table_invariant]).
    - Devices: serial.c, keyboard.c, timer.c, vga.c, audio.c, sdcard.c, device.c; the
      receive and key rings refine queues ([serial_port_is_queue], [keyboard_is_queue],
      [sdcard_write_read], [init_device_tables]).
    - Cpu: inst.c with status registers and traps, cpu-exec.c ([cpu_exec_machine_ok]; the words
      the wrappers assemble run the operations the kernels are proved with
      [xaccel_instructions]; [traps], [cpu_exec_stepping]).
    - Expr, Watchpoint: the debugger's expressions (sdb/expr.c) and watchpoints
      (sdb/watchpoint.c) ([expr_evaluates], [watchpoints_refine]).
    - MiniRv, MiniRvCorrect: the assembler macros of tools/minirv/inst-replace.h, run on the eight
      instructions they expand to and compared with the instructions they replace
      ([minirv_instructions_correct], [minirv_branches_correct]).
    - Int64: int64.c, 64-bit division and zero counts on 32-bit words
      ([udivmoddi4_correct], [signed_division_correct]).
    - KString: string.c and stdlib.c ([string_comparisons_correct],
      [memory_functions_correct]).
    - KPrintf: my_putnum.c and stdio.c; the formatter is proved against the interface
      [Sink], which the console and the string sink implement
      ([number_printing_roundtrip], [printf_renders]).
    - ProfileCache, Profile: profile.c, its cache and branch predictor models
      ([assoc_probes_keep_no_recency]) and the recording of an instruction
      ([profile_run_guarantees]).
    - TracePack: the branch and address trace files, written by the emulator and read by
      the simulators ([branch_trace_roundtrip], [address_trace_order]).
    - BranchSim, BranchSimCorrect: branchsim/src/main.cc, its predictors, target buffer,
      return stack and counters ([branchsim_runs], [profiler_agrees],
      [steady_branch_learned]).
    - EmulatorTrace: the composition of Profile, TracePack and BranchSim: a run of the
      emulator, its trace file, its simulation ([emulator_trace_simulated]).
    - CacheSim: cachesim/src/main.cc ([cachesim_counts]).
    - SocMem: npc/sim/memory, the memories of the three systems over shared containers: direct
      mapped and SDRAM regions, the model's access functions, initialisation
      ([soc_memory_store_load], [psram_strobed_write], [jyd_memories_loaded]).
    - Tracers: the trace handlers of sdb/src: exceptions, function calls, recent instructions,
      self loops (lemmas [iringbuf_run], [jal_target_iff]).
    - Debugger: sdb.hpp, sdb.cpp, cmd.hpp, expr.cpp and difftest.cpp against the interfaces [Target]
      (a processor) and [Reference] (a simulator to compare with).
    - DiffTest: what stepping under the differential test establishes for any target and reference
      (lemma [difftest_lockstep]), and the fuel a step command needs when every call of the processor
      and the reference succeeds (lemma [step_command_returns]).
    - SimCounters: PerfCounter.cpp and AXI4PerfCounter.cpp ([counters_consistent],
      [axi_counter_exact]).
    - NpcSim: sim.cpp and sdbWrap.cpp over any Verilated model (class [Verilated]); an instance of
      [Target].
    - CoSim: nemu/src/cpu/difftest/ref.c makes the emulator of Cpu an instance of [Reference]; the
      composition with NpcSim and DiffTest ([rtl_matches_emulator]).
    - SimTools: gdbop.cpp and KonataLog ([gdb_reads_memory], [konata_log_replays], lemma
      [op_cont_breakpoint]).
    - AmRuntime: the guest side of the board support: 64-bit multiplication of libgcc, the contest
      board's start and end of a program, the boot loader of ysyxSoC, trap dispatch
      ([boot_loads_program], [muldi3_correct], [board_shows_result]).

    ** How the code is translated

    A function that cannot fail is a Rocq function; one that can returns [res]: an
    assertion failure is [Fault FAssert], a panic [Fault FPanic], behaviour C leaves
    undefined (a wild access, a division by zero, a missing variadic argument) [Fault
    FUndef].  Global and static variables are fields of a record that is passed through.
    Signed overflow wraps, as on the target.  A loop whose length is not known in advance
    takes fuel and answers [Fault FFuel] when it runs out; a functional theorem does not assume
    that it does not: it states the fuel that is enough (the length of the list, string or
    block, plus one) and concludes that the function returns.  For stepping in the debugger the
    two are separate: [rtl_matches_emulator] says what a run that came back has shown,
    [step_command_returns] that one unit of fuel per instruction is enough when the calls of the
    processor and the reference succeed.  Waiting for
    an instruction of the RTL ends after 16384 cycles, the limit of the source.  Loops with a
    constant bound carry that
    bound (64 digits, 16 or 8 buffer places, 65536 probes).

    Code outside the repository is a parameter: the interpreter of the standard
    instructions and their encoding and the Verilated model (generated by the build), the
    disassembler, the host's clock, terminal,
    window and card image, the regular-expression library behind the debugger's tokens,
    the compression program the traces are piped through.

    ** What the theorems show

    - Optimised code computes what its reference computes: the CRC, recogniser, matrix and
      list instructions, the state benchmark, the profiler's predictor against branchsim's.
    - The operations meet their specification on every input: sorting, memory, division,
      strings, the benchmark's verdict, the cache counters, the performance counters of the RTL
      simulation (each against its own condition on the signals), the boot loader for any
      placement of the sections in flash.
    - Round trips: store and load, remove and undo, print and parse, write and read traces and
      logs.
    - Refinement of an abstract specification: queues, the watchpoint pool, the formatter's
      rendering, the base instruction set under its eight-instruction encoding, the
      simulation of a run of the emulator, the RTL simulation against the emulator.
    - Invariants of the state, bounds and safety: tables, caches, machine words, regions,
      performance counters.
    - Error behaviour and progress: traps, stepping, trained branches.
    All functional theorems include termination.

    ** What is not modelled

    Host input and output (option parsing, files, windows, logging, the text of reports of the
    profiler and of the simulators, wave files, signal probes, the network side of the gdb
    server), the emulator as processor under test and the references other than the emulator
    (dut.c, tools/*-diff: sockets, KVM, foreign libraries), the instruction sets other than
    RISC-V, the floating-point glue to an external library, third-party build tools (kconfig,
    fixdep), the compiler plug-in, the assembly start-up and trap code and the device register
    access of the abstract machine, the macros of GCC's longlong.h, and the RTL (Scala,
    SystemVerilog) itself. *)

From stdpp Require Export prelude gmap list.
From Stdlib Require Export ZArith Lia.
From Stdlib Require Ascii String.
Export (notations) String.

#[global] Open Scope Z_scope.

(** ** Machine integers

    A [w]-bit C integer is a [Z]; every operation that the compiler performs
    modulo [2^w] goes through [wrap w] (unsigned) or [sext w] (two's complement). *)

Definition wrap (w x : Z) : Z := x mod 2 ^ w.
Definition sext (w x : Z) : Z := wrap w (x + 2 ^ (w - 1)) - 2 ^ (w - 1).

Declare Scope cint_scope.
Delimit Scope cint_scope with cint.
Abbreviation u8 := (wrap 8).
Abbreviation u16 := (wrap 16).
Abbreviation u32 := (wrap 32).
Abbreviation u64 := (wrap 64).
Abbreviation s8 := (sext 8).
Abbreviation s16 := (sext 16).
Abbreviation s32 := (sext 32).
Abbreviation s64 := (sext 64).
Notation "x '&&&' y" := (Z.land x y) (at level 40, left associativity) : cint_scope.
Notation "x '|||' y" := (Z.lor x y) (at level 50, left associativity) : cint_scope.
Notation "x '^^^' y" := (Z.lxor x y) (at level 45, left associativity) : cint_scope.
Notation "x '>>>' n" := (Z.shiftr x n) (at level 38, left associativity) : cint_scope.
Notation "x '<<<' n" := (Z.shiftl x n) (at level 38, left associativity) : cint_scope.
#[global] Open Scope cint_scope.

(** [~x] of an unsigned 32-bit word. *)
Definition not32 (x : Z) : Z := u32 (Z.lnot x).

(** C's [bool] to [int] conversion. *)
Definition b2z (b : bool) : Z := Z.b2z b.

Definition in_range (w x : Z) : Prop := 0 <= x < 2 ^ w.
Definition in_srange (w x : Z) : Prop := - 2 ^ (w - 1) <= x < 2 ^ (w - 1).

Create HintDb cint.
Create Rewrite HintDb cint.

Lemma wrap_range w x : 0 <= w -> in_range w (wrap w x).
Proof. intros Hw. apply Z.mod_pos_bound, Z.pow_pos_nonneg; lia. Qed.

Lemma wrap_small w x : in_range w x -> wrap w x = x.
Proof. apply Z.mod_small. Qed.

Lemma wrap_wrap w x : 0 <= w -> wrap w (wrap w x) = wrap w x.
Proof. intros. apply wrap_small, wrap_range. lia. Qed.

Lemma wrap_wrap_le v w x : 0 <= v <= w -> wrap v (wrap w x) = wrap v x.
Proof.
  intros H. unfold wrap. apply Z.mod_mod_divide.
  exists (2 ^ (w - v)). rewrite <- Z.pow_add_r by lia. f_equal; lia.
Qed.

Lemma wrap_add_l w x y : wrap w (wrap w x + y) = wrap w (x + y).
Proof. apply Zplus_mod_idemp_l. Qed.

Lemma wrap_add_r w x y : wrap w (x + wrap w y) = wrap w (x + y).
Proof. apply Zplus_mod_idemp_r. Qed.

Lemma wrap_sub_l w x y : wrap w (wrap w x - y) = wrap w (x - y).
Proof. apply Zminus_mod_idemp_l. Qed.

Lemma wrap_sub_r w x y : wrap w (x - wrap w y) = wrap w (x - y).
Proof. apply Zminus_mod_idemp_r. Qed.

Lemma wrap_mul_l w x y : wrap w (wrap w x * y) = wrap w (x * y).
Proof. apply Zmult_mod_idemp_l. Qed.

Lemma wrap_mul_r w x y : wrap w (x * wrap w y) = wrap w (x * y).
Proof. apply Zmult_mod_idemp_r. Qed.

Lemma sext_range w x : 0 < w -> in_srange w (sext w x).
Proof.
  intros Hw. unfold sext, in_srange.
  pose proof (wrap_range w (x + 2 ^ (w - 1)) ltac:(lia)) as H. unfold in_range in H.
  assert (2 ^ w = 2 * 2 ^ (w - 1)) as E.
  { replace w with (1 + (w - 1)) at 1 by lia. rewrite Z.pow_add_r; lia. }
  lia.
Qed.

Lemma sext_small w x : 0 < w -> in_srange w x -> sext w x = x.
Proof.
  intros Hw H. unfold sext, in_srange in *.
  assert (2 ^ w = 2 * 2 ^ (w - 1)) as E.
  { replace w with (1 + (w - 1)) at 1 by lia. rewrite Z.pow_add_r; lia. }
  rewrite wrap_small; [lia | unfold in_range; lia].
Qed.

Lemma wrap_sext w x : 0 < w -> wrap w (sext w x) = wrap w x.
Proof.
  intros. unfold sext. rewrite wrap_sub_l. f_equal. lia.
Qed.

Lemma sext_wrap w x : sext w (wrap w x) = sext w x.
Proof. unfold sext. by rewrite wrap_add_l. Qed.

Lemma sext_add_l w x y : 0 < w -> sext w (sext w x + y) = sext w (x + y).
Proof.
  intros Hw. rewrite <- (sext_wrap w (sext w x + y)), <- wrap_add_l, wrap_sext, wrap_add_l by done.
  apply sext_wrap.
Qed.

Lemma sext_wrap_le v w x : 0 <= v <= w -> sext v (wrap w x) = sext v x.
Proof. intros H. by rewrite <- sext_wrap, wrap_wrap_le, sext_wrap. Qed.

Lemma sext_add_r w x y : 0 < w -> sext w (x + sext w y) = sext w (x + y).
Proof. intros Hw. by rewrite Z.add_comm, sext_add_l, Z.add_comm. Qed.

Lemma sext_wrap_add_l w x y : sext w (wrap w x + y) = sext w (x + y).
Proof. by rewrite <- sext_wrap, wrap_add_l, sext_wrap. Qed.

Lemma sext_wrap_add_r w x y : sext w (x + wrap w y) = sext w (x + y).
Proof. by rewrite <- sext_wrap, wrap_add_r, sext_wrap. Qed.

#[export] Hint Resolve wrap_range sext_range : cint.
#[export] Hint Rewrite wrap_add_l wrap_add_r wrap_sub_l wrap_sub_r wrap_mul_l wrap_mul_r
  sext_wrap : cint.

(** ** Bits *)

Lemma testbit_wrap w x i : 0 <= w -> Z.testbit (wrap w x) i = (i <? w) && Z.testbit x i.
Proof.
  intros Hw. unfold wrap. destruct (Z.ltb_spec i w).
  - destruct (decide (0 <= i)).
    + rewrite Z.mod_pow2_bits_low by lia. done.
    + rewrite !Z.testbit_neg_r by lia. done.
  - rewrite Z.mod_pow2_bits_high by lia. done.
Qed.

Lemma testbit_high w x i : in_range w x -> 0 <= w <= i -> Z.testbit x i = false.
Proof.
  intros Hx Hi. rewrite <- (wrap_small w x Hx), testbit_wrap by lia.
  replace (i <? w) with false by lia. done.
Qed.

Lemma range_of_bits w x :
  0 <= w -> 0 <= x -> (forall i, w <= i -> Z.testbit x i = false) -> in_range w x.
Proof.
  intros Hw Hx Hb. assert (x = wrap w x) as ->; [| by apply wrap_range].
  apply Z.bits_inj'. intros i Hi. rewrite testbit_wrap by lia.
  destruct (Z.ltb_spec i w); [done | by apply Hb].
Qed.

Lemma land_range w x y : 0 <= w -> 0 <= x -> in_range w y -> in_range w (x &&& y).
Proof.
  intros Hw Hx Hy. apply range_of_bits; [lia | apply Z.land_nonneg; auto |].
  intros i Hi. rewrite Z.land_spec, (testbit_high w y) by (auto; lia). apply andb_false_r.
Qed.

Lemma lor_range w x y : 0 <= w -> in_range w x -> in_range w y -> in_range w (x ||| y).
Proof.
  intros Hw Hx Hy. apply range_of_bits; [lia | apply Z.lor_nonneg; unfold in_range in *; lia |].
  intros i Hi. rewrite Z.lor_spec, (testbit_high w y), (testbit_high w x) by (auto; lia). done.
Qed.

Lemma lxor_range w x y : 0 <= w -> in_range w x -> in_range w y -> in_range w (x ^^^ y).
Proof.
  intros Hw Hx Hy. apply range_of_bits; [lia | apply Z.lxor_nonneg; unfold in_range in *; lia |].
  intros i Hi. rewrite Z.lxor_spec, (testbit_high w y), (testbit_high w x) by (auto; lia). done.
Qed.

Lemma shiftr_range w x n : 0 <= n -> in_range w x -> in_range w (x >>> n).
Proof.
  intros Hn [H0 H1]. unfold in_range. rewrite Z.shiftr_div_pow2 by lia.
  assert (1 <= 2 ^ n) by (apply (Z.pow_le_mono_r 2 0 n); lia).
  split; [apply Z.div_pos; lia |].
  apply Z.div_lt_upper_bound; nia.
Qed.

Lemma lor_shiftl_low k a b :
  0 <= k -> in_range k a -> (a ||| (b <<< k)) &&& Z.ones k = a.
Proof.
  intros Hk Ha. apply Z.bits_inj'. intros i Hi.
  rewrite Z.land_spec, Z.lor_spec, Z.shiftl_spec, Z.testbit_ones_nonneg by lia.
  destruct (Z.ltb_spec i k).
  - rewrite (Z.testbit_neg_r b) by lia. by rewrite orb_false_r, andb_true_r.
  - rewrite (testbit_high k a) by (done || lia). by rewrite andb_false_r.
Qed.

Lemma lor_shiftl_high k a b :
  0 <= k -> in_range k a -> (a ||| (b <<< k)) >>> k = b.
Proof.
  intros Hk Ha. apply Z.bits_inj'. intros i Hi.
  rewrite Z.shiftr_spec, Z.lor_spec, Z.shiftl_spec by lia.
  rewrite (testbit_high k a) by (done || lia). by rewrite Z.add_simpl_r.
Qed.

#[export] Hint Resolve land_range lor_range lxor_range shiftr_range : cint.
#[export] Hint Extern 8 (in_range _ _) => (unfold in_range in *; lia) : cint.
#[export] Hint Extern 1 (_ <= _) => lia : cint.
#[export] Hint Extern 1 (_ < _) => lia : cint.

(** Decides an equation between bitwise expressions over non-negative indices
    by case analysis on the index bounds that occur. *)
Ltac zbits_step :=
  first
    [ rewrite Z.land_spec | rewrite Z.lor_spec | rewrite Z.lxor_spec
    | rewrite Z.lnot_spec by lia
    | rewrite Z.shiftr_spec by lia | rewrite Z.shiftl_spec by lia
    | rewrite testbit_wrap by lia ].
Ltac zbits := apply Z.bits_inj'; intros ?i ?Hi; repeat zbits_step.

(** A disjoint union of bits is a sum. *)
Lemma lor_add k a b : 0 <= k -> in_range k b -> (a <<< k) ||| b = a * 2 ^ k + b.
Proof.
  intros Hk Hb. assert ((a <<< k) &&& b = 0) as H0.
  { zbits. rewrite Z.bits_0. destruct (Z.ltb_spec i k).
    - by rewrite (Z.testbit_neg_r a) by lia.
    - by rewrite (testbit_high k b), andb_false_r by (done || lia). }
  by rewrite <- Z.lxor_lor, <- Z.add_nocarry_lxor, Z.shiftl_mul_pow2 by (done || lia).
Qed.

(** Low bits as remainders. *)
Lemma land_1 a : a &&& 1 = a mod 2.
Proof. exact (Z.land_ones a 1 ltac:(lia)). Qed.
Lemma land_3 a : a &&& 3 = a mod 4.
Proof. exact (Z.land_ones a 2 ltac:(lia)). Qed.
Lemma land_not_3 a : Z.land a (Z.lnot 3) = a - a mod 4.
Proof.
  rewrite <- Z.ldiff_land. change 3 with (Z.ones 2). rewrite Z.ldiff_ones_r by lia.
  rewrite Z.shiftl_mul_pow2, Z.shiftr_div_pow2 by lia. change (2 ^ 2) with 4.
  pose proof (Z.div_mod a 4). lia.
Qed.

Lemma align4 a : in_range 32 a -> a &&& not32 3 = a - (a &&& 3).
Proof.
  intros Ha. change (a &&& 3) with (a &&& Z.ones 2). rewrite Z.land_ones by lia.
  assert (a &&& not32 3 = (a >>> 2) <<< 2) as ->.
  { change 3 with (Z.ones 2). unfold not32. zbits. rewrite Z.testbit_ones_nonneg by lia.
    destruct (Z.ltb_spec i 2); cbn; rewrite ?andb_false_r, ?andb_true_r.
    - by rewrite Z.testbit_neg_r by lia.
    - rewrite Z.shiftr_spec, Z.sub_add by lia. destruct (Z.ltb_spec i 32);
        rewrite ?andb_true_r; [done |]. by rewrite (testbit_high 32 a) by (done || lia). }
  rewrite Z.shiftl_mul_pow2, Z.shiftr_div_pow2 by lia.
  pose proof (Z.div_mod a (2 ^ 2)). lia.
Qed.

(** Case analysis on every integer comparison of the goal. *)
Ltac zcmp :=
  repeat match goal with
  | |- context [?a <=? ?b] => destruct (Z.leb_spec a b)
  | |- context [?a <? ?b] => destruct (Z.ltb_spec a b)
  | |- context [?a =? ?b] => destruct (Z.eqb_spec a b)
  end; cbn; try lia; try done.

(** ** Faults and the result monad *)

Inductive fault := FAssert | FPanic | FUndef | FFuel.
#[export] Instance fault_eq_dec : EqDecision fault.
Proof. solve_decision. Defined.

Inductive res (A : Type) :=
| Ok (a : A)
| Fault (f : fault).
Arguments Ok {A} a.
Arguments Fault {A} f.

#[export] Instance res_ret : MRet res := @Ok.
#[export] Instance res_bind : MBind res := fun A B k m =>
  match m with Ok a => k a | Fault f => Fault f end.
#[export] Instance res_fmap : FMap res := fun A B g m =>
  match m with Ok a => Ok (g a) | Fault f => Fault f end.

Definition is_ok {A} (m : res A) : bool := match m with Ok _ => true | Fault _ => false end.

(** C's [assert(b)]. *)
Definition c_assert (b : bool) : res () := if b then Ok () else Fault FAssert.

Lemma bind_ok {A B} (m : res A) (k : A -> res B) b :
  (m ≫= k) = Ok b <-> exists a, m = Ok a /\ k a = Ok b.
Proof.
  destruct m as [a | f]; cbn; split.
  - intros E. by exists a.
  - intros (a' & [= <-] & E). done.
  - done.
  - intros (a & E & _). done.
Qed.

(** ** Counted loops: [for (i = 0; i < n; i++) st = f(st)] *)

Fixpoint loop {A} (n : nat) (f : A -> A) (st : A) : A :=
  match n with O => st | S n => loop n f (f st) end.

Lemma loop_S {A} n (f : A -> A) st : loop (S n) f st = f (loop n f st).
Proof. revert st. induction n as [|n IH]; intros st; [done |]. apply IH. Qed.

Lemma loop_inv {A} (P : A -> Prop) n f st :
  (forall x, P x -> P (f x)) -> P st -> P (loop n f st).
Proof. intros Hf. revert st. induction n as [|n IH]; intros st H; cbn; auto. Qed.

Lemma loop_sim {A} (P : A -> Prop) n (f g : A -> A) st :
  (forall x, P x -> f x = g x /\ P (f x)) -> P st ->
  loop n f st = loop n g st /\ P (loop n f st).
Proof.
  intros Hf. revert st. induction n as [|n IH]; intros st H; cbn; [done |].
  destruct (Hf st H) as [<- H']. by apply IH.
Qed.

(** [for (i = a; i < a + n; i++) st = f(i, st)] *)
Fixpoint for_from {A} (a : Z) (n : nat) (f : Z -> A -> A) (st : A) : A :=
  match n with O => st | S n => for_from (a + 1) n f (f a st) end.

Definition for_ {A} (n : Z) (f : Z -> A -> A) (st : A) : A := for_from 0 (Z.to_nat n) f st.

Lemma for_from_S {A} a n (f : Z -> A -> A) st :
  for_from a (S n) f st = f (a + Z.of_nat n) (for_from a n f st).
Proof.
  revert a st. induction n as [|n IH]; intros a st; [by rewrite Z.add_0_r |].
  cbn [for_from] in *. rewrite IH. f_equal. lia.
Qed.

Lemma for_from_app {A} a n k (f : Z -> A -> A) st :
  for_from a (n + k) f st = for_from (a + Z.of_nat n) k f (for_from a n f st).
Proof.
  revert a st. induction n as [|n IH]; intros a st; [by rewrite Z.add_0_r |].
  cbn [for_from Nat.add]. rewrite IH. f_equal. lia.
Qed.

(** Two loops whose bodies agree where the invariant holds. *)
Lemma for_from_sim {A B} (R : Z -> A -> B -> Prop) a n (f : Z -> A -> A) (g : Z -> B -> B) x y :
  (forall i x y, a <= i < a + Z.of_nat n -> R i x y -> R (i + 1) (f i x) (g i y)) ->
  R a x y -> R (a + Z.of_nat n) (for_from a n f x) (for_from a n g y).
Proof.
  revert a x y. induction n as [|n IH]; intros a x y Hs HR; [by rewrite Z.add_0_r |].
  cbn [for_from]. replace (a + Z.of_nat (S n)) with (a + 1 + Z.of_nat n) by lia.
  apply IH; [intros; apply Hs; [lia | done] | apply Hs; [lia | done]].
Qed.

Lemma for_ext {A} (P : A -> Prop) n (f g : Z -> A -> A) st :
  (forall i x, 0 <= i < n -> P x -> f i x = g i x /\ P (g i x)) -> P st ->
  for_ n f st = for_ n g st /\ P (for_ n g st).
Proof.
  intros H Hst. apply (for_from_sim (fun _ x y => x = y /\ P y)); [| done].
  intros i x y Hi [-> HP]. apply H; [lia | done].
Qed.

Lemma for_ind {A} (P : Z -> A -> Prop) n (f : Z -> A -> A) st :
  0 <= n -> (forall i x, 0 <= i < n -> P i x -> P (i + 1) (f i x)) -> P 0 st -> P n (for_ n f st).
Proof.
  intros Hn H Hst.
  pose proof (for_from_sim (fun i x (_ : A) => P i x) 0 (Z.to_nat n) f f st st) as HH.
  cbn in HH. rewrite Z2Nat.id in HH by lia. apply HH; [| done]. intros; apply H; [lia | done].
Qed.

(** A doubly nested loop over [i * n + j] is one loop over the product. *)
Lemma for_nested {A} n k (f : Z -> A -> A) st :
  0 <= k -> for_ n (fun i => for_ k (fun j => f (i * k + j))) st = for_ (n * k) f st.
Proof.
  intros Hk. destruct (decide (0 <= n)) as [Hn |].
  2: { unfold for_. replace (Z.to_nat n) with 0%nat by lia.
       by replace (Z.to_nat (n * k)) with 0%nat by nia. }
  assert (forall (a : Z) b (st : A), for_from 0 b (fun j => f (a + j)) st = for_from a b f st) as Hshift.
  { intros a b. revert a. assert (forall c a st, for_from c b (fun j => f (a + j)) st = for_from (a + c) b f st) as H.
    { induction b as [|b IH]; intros c a st'; [done |]. cbn [for_from]. rewrite IH. f_equal. lia. }
    intros a st'. rewrite H. f_equal. lia. }
  unfold for_. rewrite <- (Z2Nat.id n Hn) at 2. generalize (Z.to_nat n) as m. intros m.
  rewrite Z2Nat.inj_mul, Nat2Z.id by lia. induction m as [|m IH]; [done |].
  rewrite for_from_S, IH, Hshift. rewrite Nat.mul_succ_l, for_from_app. f_equal. lia.
Qed.

(** ** Arrays indexed by a C integer *)

Definition aget {A} (d : A) (l : list A) (i : Z) : A := nth (Z.to_nat i) l d.
Definition aset {A} (l : list A) (i : Z) (v : A) : list A := <[Z.to_nat i := v]> l.

Lemma aget_aset_eq {A} (d : A) l i v :
  0 <= i < Z.of_nat (length l) -> aget d (aset l i v) i = v.
Proof.
  intros Hi. unfold aget, aset. rewrite nth_lookup, list_lookup_insert_eq by lia. done.
Qed.

Lemma aget_aset_ne {A} (d : A) l i j v :
  0 <= i -> 0 <= j -> i <> j -> aget d (aset l i v) j = aget d l j.
Proof.
  intros Hi Hj Hne. unfold aget, aset.
  rewrite !nth_lookup, list_lookup_insert_ne by lia. done.
Qed.

Lemma length_aset {A} (l : list A) i v : length (aset l i v) = length l.
Proof. apply length_insert. Qed.

Lemma aset_aset {A} (l : list A) i v w : aset (aset l i v) i w = aset l i w.
Proof. apply list_insert_insert_eq. Qed.

Lemma aset_aget {A} (d : A) l i : 0 <= i < Z.of_nat (length l) -> aset l i (aget d l i) = l.
Proof.
  intros Hi. apply list_insert_id. unfold aget. rewrite nth_lookup.
  by destruct (lookup_lt_is_Some_2 l (Z.to_nat i)) as [x ->]; [lia |].
Qed.

Lemma aget_Forall {A} (P : A -> Prop) d l i : P d -> Forall P l -> P (aget d l i).
Proof.
  intros Hd Hl. unfold aget. rewrite nth_lookup. destruct (l !! _) eqn:E; [| done].
  by apply (Forall_lookup_1 _ _ _ _ Hl E).
Qed.

Lemma aset_Forall {A} (P : A -> Prop) l i v : P v -> Forall P l -> Forall P (aset l i v).
Proof. intros. by apply Forall_insert. Qed.

#[export] Hint Rewrite @length_aset : cint.

(** ** C string literals *)

(** The array of bytes of a C string literal, without its terminator. *)
Definition bytes (s : String.string) : list Z :=
  (fun c => Z.of_N (Ascii.N_of_ascii c)) <$> String.list_ascii_of_string s.

(** ** Byte memories *)

Definition mem := Z -> Z.
Definition mwrite (m : mem) (a v : Z) : mem := fun x => if x =? a then v else m x.
Definition bytes_ok (m : mem) : Prop := forall a, in_range 8 (m a).

Definition word_at (m : mem) (a : Z) : Z :=
  m a ||| (m (a + 1) <<< 8) ||| (m (a + 2) <<< 16) ||| (m (a + 3) <<< 24).

(** Memory holding the bytes of [l] from [base] on and zeros elsewhere. *)
Definition mem_of (base : Z) (l : list Z) : mem :=
  fun a => if base <=? a then nth (Z.to_nat (a - base)) l 0 else 0.

Lemma mem_of_bytes base l : Forall (in_range 8) l -> bytes_ok (mem_of base l).
Proof.
  intros Hl a. unfold mem_of. destruct (base <=? a); [| done].
  rewrite nth_lookup. destruct (l !! _) eqn:E; [| done].
  by apply (Forall_lookup_1 _ _ _ _ Hl E).
Qed.

(** Little-endian access to [n] bytes. *)
Fixpoint le_read (n : nat) (m : mem) (a : Z) : Z :=
  match n with O => 0 | S n => m a ||| (le_read n m (a + 1) <<< 8) end.

Fixpoint le_write (n : nat) (m : mem) (a v : Z) : mem :=
  match n with O => m | S n => mwrite (le_write n m (a + 1) (v >>> 8)) a (u8 v) end.

Lemma le_write_lookup n m a v x :
  le_write n m a v x =
  if (a <=? x) && (x <? a + Z.of_nat n) then u8 (v >>> (8 * (x - a))) else m x.
Proof.
  revert a v. induction n as [|n IH]; intros a v; cbn [le_write].
  { by zcmp. }
  unfold mwrite. destruct (Z.eqb_spec x a) as [-> |].
  - rewrite Z.sub_diag. by zcmp.
  - rewrite IH. destruct (Z.leb_spec (a + 1) x), (Z.leb_spec a x); try lia; cbn [andb]; [| done].
    rewrite Z.shiftr_shiftr by lia. replace (8 + 8 * (x - (a + 1))) with (8 * (x - a)) by lia.
    destruct (Z.ltb_spec x (a + 1 + Z.of_nat n)), (Z.ltb_spec x (a + Z.of_nat (S n))); lia || done.
Qed.

Lemma le_read_ext n m m' a :
  (forall x, a <= x < a + Z.of_nat n -> m x = m' x) -> le_read n m a = le_read n m' a.
Proof.
  revert a. induction n as [|n IH]; intros a H; [done |]. cbn [le_read].
  rewrite (H a) by lia. do 2 f_equal. apply IH. intros x Hx. apply H. lia.
Qed.

Lemma le_read_range n m a : bytes_ok m -> in_range (8 * Z.of_nat n) (le_read n m a).
Proof.
  intros Hb. revert a. induction n as [|n IH]; intros a; [done |]. cbn [le_read].
  apply lor_range; [lia | |].
  - pose proof (Hb a) as H. unfold in_range in *. split; [lia |].
    apply Z.lt_le_trans with (2 ^ 8); [lia |]. apply Z.pow_le_mono_r; lia.
  - specialize (IH (a + 1)). unfold in_range in *. rewrite Z.shiftl_mul_pow2 by lia.
    replace (8 * Z.of_nat (S n)) with (8 * Z.of_nat n + 8) by lia. rewrite Z.pow_add_r by lia. lia.
Qed.

Lemma wrap_split8 w v :
  0 <= w -> wrap (w + 8) v = u8 v ||| (wrap w (v >>> 8) <<< 8).
Proof.
  intros Hw. apply Z.bits_inj'. intros i Hi.
  rewrite Z.lor_spec, Z.shiftl_spec, !testbit_wrap by lia.
  destruct (Z.ltb_spec i 8).
  - rewrite (Z.testbit_neg_r _ (i - 8)), andb_false_r, orb_false_r by lia.
    by replace (i <? w + 8) with true by lia.
  - rewrite Z.shiftr_spec, Z.sub_add by lia. cbn [andb orb].
    destruct (Z.ltb_spec i (w + 8)), (Z.ltb_spec (i - 8) w); lia || done.
Qed.

(** Reading back what was written. *)
Lemma le_read_write n m a v : le_read n (le_write n m a v) a = wrap (8 * Z.of_nat n) v.
Proof.
  revert m a v. induction n as [|n IH]; intros m a v.
  { cbn. unfold wrap. by rewrite Z.mod_1_r. }
  cbn [le_read]. rewrite (le_read_ext n _ (le_write n m (a + 1) (v >>> 8)) (a + 1)).
  - rewrite IH. cbn [le_write]. unfold mwrite. rewrite Z.eqb_refl.
    replace (8 * Z.of_nat (S n)) with (8 * Z.of_nat n + 8) by lia. by rewrite wrap_split8 by lia.
  - intros x Hx. cbn [le_write]. unfold mwrite. by replace (x =? a) with false by lia.
Qed.

(** A write leaves disjoint ranges alone. *)
Lemma le_read_write_disjoint n k m a b v :
  a + Z.of_nat n <= b \/ b + Z.of_nat k <= a -> le_read k (le_write n m a v) b = le_read k m b.
Proof.
  intros H. apply le_read_ext. intros x Hx. rewrite le_write_lookup.
  destruct (Z.leb_spec a x), (Z.ltb_spec x (a + Z.of_nat n)); lia || done.
Qed.

Lemma le_write_bytes n m a v : bytes_ok m -> bytes_ok (le_write n m a v).
Proof.
  intros Hb x. rewrite le_write_lookup. destruct (_ && _); [auto with cint | apply Hb].
Qed.
