(* ===== verification/Crc.v ===== *)
(** The 16-bit CRC of CoreMark (jyd-tests/coremark-official/src/core_util.c), the
    emulator's custom CRC instructions (nemu/src/isa/riscv32/inst.c) and the
    wrappers that replace the former by the latter (accel/xcrc_hw.h and the
    [__xaccel_crc32_u8] helper of accel/xaccel_wrappers.c). *)

From S2P Require Import Prelude.

(** ** core_util.c *)

Definition crcu8_step (st : Z * Z) : Z * Z :=
  let '(data, crc) := st in
  let x16 := u8 ((data &&& 1) ^^^ (u8 crc &&& 1)) in
  let data := data >>> 1 in
  let '(crc, carry) := if x16 =? 1 then (crc ^^^ 0x4002, 1) else (crc, 0) in
  let crc := crc >>> 1 in
  let crc := if negb (carry =? 0) then crc ||| 0x8000 else crc &&& 0x7fff in
  (data, crc).

Definition crcu8 (data crc : Z) : Z := (loop 8 crcu8_step (data, crc)).2.

Definition crcu16 (newval crc : Z) : Z :=
  let crc := crcu8 (u8 newval) crc in
  crcu8 (u8 (newval >>> 8)) crc.

Definition crc16 (newval crc : Z) : Z := crcu16 (u16 newval) crc.

Definition crcu32 (newval crc : Z) : Z :=
  let crc := crc16 (s16 newval) crc in
  crc16 (s16 (newval >>> 16)) crc.

(** ** inst.c: [crc_update] and the three instructions that call it *)

Definition crc_update_bit (st : Z * Z) : Z * Z :=
  let '(value, crc) := st in
  let x16 := (value ^^^ crc) &&& 1 in
  let value := value >>> 1 in
  let crc := if negb (x16 =? 0) then crc ^^^ 0x4002 else crc in
  (value, (crc >>> 1) ||| u32 (x16 <<< 15)).

Definition crc_update_byte (st : Z * Z) : Z * Z :=
  let '(data, crc) := st in
  let value := data &&& 0xff in
  let data := data >>> 8 in
  (data, (loop 8 crc_update_bit (value, crc)).2).

Definition crc_update (data crc : Z) (bytes : nat) : Z :=
  let crc := crc &&& 0xffff in
  (loop bytes crc_update_byte (data, crc)).2 &&& 0xffff.

Definition xaccel_crcu8 (src1 src2 : Z) : Z := crc_update src1 src2 1.
Definition xaccel_crcu16 (src1 src2 : Z) : Z := crc_update src1 src2 2.
Definition xaccel_crcu32 (src1 src2 : Z) : Z := crc_update src1 src2 4.

(** ** xcrc_hw.h *)

Definition hw_crcu8 (data crc : Z) : Z := u16 (xaccel_crcu8 data crc).

Definition hw_crcu16 (data crc : Z) : Z :=
  let crc := hw_crcu8 (u8 data) crc in
  hw_crcu8 (u8 (data >>> 8)) crc.

Definition hw_crcu32 (data crc : Z) : Z :=
  let crc := hw_crcu16 (u16 data) crc in
  hw_crcu16 (u16 (data >>> 16)) crc.

Definition hw_crc16 (data crc : Z) : Z := hw_crcu16 (u16 data) crc.

(** ** xaccel_wrappers.c *)

Definition xaccel_crc32_u8_step (st : Z * Z) : Z * Z :=
  let '(data, crc) := st in
  let crc := u16 (xaccel_crcu8 data crc) in
  (data >>> 8, crc).

Definition xaccel_crc32_u8 (data crc : Z) : Z :=
  (loop 4 xaccel_crc32_u8_step (data, crc)).2.

(** ** One bit of the register

    Both loops perform the same shift of the feedback register; [crc_shift] is
    that shift with the feedback bit as an argument. *)

Definition crc_shift (x : bool) (crc : Z) : Z :=
  if x then ((crc ^^^ 0x4002) >>> 1) ||| 0x8000 else crc >>> 1.

Definition feedback (data crc : Z) : bool := xorb (Z.testbit data 0) (Z.testbit crc 0).

Lemma land1_bit x : x &&& 1 = Z.b2z (Z.testbit x 0).
Proof.
  change 1 with (Z.ones 1). rewrite Z.land_ones by lia.
  rewrite Z.bit0_mod. reflexivity.
Qed.

Lemma land_1_lxor x y : (x ^^^ y) &&& 1 = Z.b2z (feedback x y).
Proof. rewrite land1_bit, Z.lxor_spec. done. Qed.

Lemma crc_shift_range x crc : in_range 16 crc -> in_range 16 (crc_shift x crc).
Proof.
  intros H. unfold crc_shift. destruct x; auto with cint.
Qed.

Lemma crcu8_step_shift data crc :
  in_range 16 crc ->
  crcu8_step (data, crc) = (data >>> 1, crc_shift (feedback data crc) crc).
Proof.
  intros H. unfold crcu8_step. rewrite land1_bit.
  assert (u8 crc &&& 1 = Z.b2z (Z.testbit crc 0)) as ->.
  { rewrite land1_bit. by rewrite testbit_wrap. }
  assert ((u8 (Z.b2z (Z.testbit data 0) ^^^ Z.b2z (Z.testbit crc 0)) =? 1) = feedback data crc)
    as -> by (unfold feedback; by destruct (Z.testbit data 0), (Z.testbit crc 0)).
  unfold crc_shift. destruct (feedback data crc); cbn [negb Z.eqb]; [done |]. f_equal.
  change 0x7fff with (Z.ones 15). rewrite Z.land_ones, Z.shiftr_div_pow2 by lia.
  apply Z.mod_small. unfold in_range in H. split; [apply Z.div_pos; lia |].
  apply Z.div_lt_upper_bound; lia.
Qed.

Lemma crc_update_bit_shift data crc :
  crc_update_bit (data, crc) = (data >>> 1, crc_shift (feedback data crc) crc).
Proof.
  unfold crc_update_bit. rewrite land_1_lxor. f_equal.
  unfold crc_shift. destruct (feedback data crc); cbn -[Z.lxor Z.shiftr Z.lor]; [done |].
  by rewrite Z.lor_0_r.
Qed.

Lemma crc_steps_agree n data crc :
  in_range 16 crc ->
  loop n crcu8_step (data, crc) = loop n crc_update_bit (data, crc) /\
  in_range 16 (loop n crcu8_step (data, crc)).2.
Proof.
  intros H. apply (loop_sim (fun st => in_range 16 st.2)); [| done].
  intros [d c] Hc. cbn in Hc. rewrite crcu8_step_shift, crc_update_bit_shift by done.
  split; [done | by apply crc_shift_range].
Qed.

Lemma crcu8_range data crc : in_range 16 crc -> in_range 16 (crcu8 data crc).
Proof. intros H. apply crc_steps_agree; done. Qed.

Lemma crcu16_range data crc : in_range 16 crc -> in_range 16 (crcu16 data crc).
Proof. intros H. by apply crcu8_range, crcu8_range. Qed.

Lemma crc16_range data crc : in_range 16 crc -> in_range 16 (crc16 data crc).
Proof. apply crcu16_range. Qed.

Lemma crcu32_range data crc : in_range 16 crc -> in_range 16 (crcu32 data crc).
Proof. intros H. by apply crcu16_range, crcu16_range. Qed.

#[export] Hint Resolve crcu8_range crcu16_range crc16_range crcu32_range : cint.

Lemma land_ff x : x &&& 0xff = u8 x.
Proof. change 0xff with (Z.ones 8). by rewrite Z.land_ones. Qed.

Lemma land_ffff x : x &&& 0xffff = u16 x.
Proof. change 0xffff with (Z.ones 16). by rewrite Z.land_ones. Qed.

Lemma crc_update_byte_crcu8 data crc :
  in_range 16 crc ->
  crc_update_byte (data, crc) = (data >>> 8, crcu8 (u8 data) crc).
Proof.
  intros H. unfold crc_update_byte, crcu8. rewrite land_ff.
  by rewrite (proj1 (crc_steps_agree 8 (u8 data) crc H)).
Qed.

Lemma crc_update_iter n data crc :
  in_range 16 crc -> in_range 16 (loop n crc_update_byte (data, crc)).2.
Proof.
  intros H. apply (loop_inv (fun st => in_range 16 st.2)); [| done].
  intros [d c] Hc. rewrite crc_update_byte_crcu8 by done. by apply crcu8_range.
Qed.

Lemma crc_update_range data crc n : in_range 16 (crc_update data crc n).
Proof. unfold crc_update. rewrite land_ffff. by apply wrap_range. Qed.

Lemma crc_update_unfold n data crc :
  crc_update data crc n = (loop n crc_update_byte (data, u16 crc)).2.
Proof.
  unfold crc_update. rewrite !land_ffff. apply wrap_small, crc_update_iter.
  by apply wrap_range.
Qed.

Lemma u8_shift8_u16 x : u8 (u16 x >>> 8) = u8 (x >>> 8).
Proof.
  zbits. destruct (Z.ltb_spec i 8); [| done]. cbn. by replace (i + 8 <? 16) with true by lia.
Qed.

Lemma crcu16_u16 x crc : crcu16 (u16 x) crc = crcu16 x crc.
Proof.
  unfold crcu16. by rewrite u8_shift8_u16, wrap_wrap_le by lia.
Qed.

Lemma crc16_s16 x crc : crc16 (s16 x) crc = crcu16 x crc.
Proof. unfold crc16. rewrite wrap_sext by lia. apply crcu16_u16. Qed.

Lemma crcu32_bytes x crc :
  crcu32 x crc =
  crcu8 (u8 (x >>> 24)) (crcu8 (u8 (x >>> 16)) (crcu8 (u8 (x >>> 8)) (crcu8 (u8 x) crc))).
Proof.
  unfold crcu32. rewrite !crc16_s16. unfold crcu16. by rewrite Z.shiftr_shiftr.
Qed.

Lemma crc_update_1 data crc : crc_update data crc 1 = crcu8 (u8 data) (u16 crc).
Proof.
  rewrite crc_update_unfold. cbn [loop].
  by rewrite crc_update_byte_crcu8 by auto with cint.
Qed.

(** C2. The emulator's byte-serial CRC routine computes CoreMark's CRC: on any
    operands the 1-, 2- and 4-byte instructions return what [crcu8], [crcu16] and
    [crcu32] of core_util.c return on the low 8, 16 and 32 bits of the data
    operand and the low 16 bits of the CRC operand. *)
Theorem crc_update_is_coremark_crc data crc :
  crc_update data crc 1 = crcu8 (u8 data) (u16 crc) /\ 
  crc_update data crc 2 = crcu16 (u16 data) (u16 crc) /\ 
  crc_update data crc 4 = crcu32 (u32 data) (u16 crc).
Proof.
  assert (in_range 16 (u16 crc)) as H by auto with cint.
  split; [apply crc_update_1 |].
  rewrite !crc_update_unfold, crcu16_u16, crcu32_bytes. unfold crcu16.
  cbn [loop].
  rewrite !crc_update_byte_crcu8 by auto with cint.
  rewrite !Z.shiftr_shiftr by lia.
  split; [done |].
  assert (forall k, 0 <= k <= 24 -> u8 (u32 data >>> k) = u8 (data >>> k)) as E.
  { intros k Hk. zbits. destruct (Z.ltb_spec i 8); [| done]. cbn.
    by replace (i + k <? 32) with true by lia. }
  rewrite !E, (wrap_wrap_le 8 32) by lia. done.
Qed.

Lemma hw_crcu8_crcu8 data crc :
  in_range 8 data -> in_range 16 crc -> hw_crcu8 data crc = crcu8 data crc.
Proof.
  intros Hd Hc. unfold hw_crcu8, xaccel_crcu8.
  rewrite crc_update_1, (wrap_small 8), (wrap_small 16 crc) by done.
  apply wrap_small. by apply crcu8_range.
Qed.

Lemma xaccel_crc32_u8_crcu32 data crc :
  in_range 16 crc -> xaccel_crc32_u8 data crc = crcu32 data crc.
Proof.
  intros Hc. rewrite crcu32_bytes. unfold xaccel_crc32_u8. cbn [loop].
  unfold xaccel_crc32_u8_step.
  assert (forall x c, in_range 16 c -> u16 (xaccel_crcu8 x c) = crcu8 (u8 x) c) as E.
  { intros x c H. unfold xaccel_crcu8. rewrite crc_update_1.
    rewrite (wrap_small 16 c), wrap_small; auto with cint. }
  rewrite !E by auto 10 with cint. cbn [snd]. by rewrite !Z.shiftr_shiftr by lia.
Qed.

(** The C wrappers that execute the CRC instructions ([__hw_crcu8], [__hw_crcu16],
    [__hw_crcu32], [__hw_crc16] of xcrc_hw.h and the byte loop [__xaccel_crc32_u8])
    are interchangeable with the CoreMark routines they replace. *)
Theorem hw_crc_wrappers_correct data crc :
  in_range 16 crc ->
  hw_crcu8 (u8 data) crc = crcu8 (u8 data) crc /\ 
  hw_crcu16 (u16 data) crc = crcu16 (u16 data) crc /\ 
  hw_crc16 (s16 data) crc = crc16 (s16 data) crc /\ 
  hw_crcu32 (u32 data) crc = crcu32 (u32 data) crc /\ 
  xaccel_crc32_u8 (u32 data) crc = crcu32 (u32 data) crc.
Proof.
  intros Hc.
  assert (forall x c, in_range 16 c -> hw_crcu16 x c = crcu16 x c) as H16.
  { intros x c H. unfold hw_crcu16, crcu16.
    rewrite !hw_crcu8_crcu8; auto with cint.
    rewrite hw_crcu8_crcu8; auto with cint. }
  split_and!.
  - apply hw_crcu8_crcu8; auto with cint.
  - auto.
  - unfold hw_crc16, crc16. auto.
  - unfold hw_crcu32, crcu32. rewrite !crc16_s16, !H16, !crcu16_u16; auto with cint.
    rewrite H16; auto with cint.
  - by apply xaccel_crc32_u8_crcu32.
Qed.

(** The wrappers at a full 32-bit datum with its top bit set and a non-zero CRC. *)
Lemma hw_crc_wrappers_correct_witness :
  hw_crcu8 (u8 0xdeadbeef) 0x1234 = crcu8 (u8 0xdeadbeef) 0x1234 /\
  hw_crcu16 (u16 0xdeadbeef) 0x1234 = crcu16 (u16 0xdeadbeef) 0x1234 /\
  hw_crc16 (s16 0xdeadbeef) 0x1234 = crc16 (s16 0xdeadbeef) 0x1234 /\
  hw_crcu32 (u32 0xdeadbeef) 0x1234 = crcu32 (u32 0xdeadbeef) 0x1234 /\
  xaccel_crc32_u8 (u32 0xdeadbeef) 0x1234 = crcu32 (u32 0xdeadbeef) 0x1234.
Proof. apply hw_crc_wrappers_correct. unfold in_range. lia. Defined.

Example crcu32_example : crcu32 0xdeadbeef 0x1234 = 3334.
Proof. vm_compute. reflexivity. Qed.

(** ** The register update loses no information *)

Lemma crc_shift_bit15 x crc :
  in_range 16 crc -> Z.testbit (crc_shift x crc) 15 = x.
Proof.
  intros H. unfold crc_shift. destruct x.
  - rewrite Z.lor_spec. apply orb_true_r.
  - rewrite Z.shiftr_spec by lia. by apply (testbit_high 16).
Qed.

Lemma crc_shift_inj x c1 c2 :
  in_range 16 c1 -> in_range 16 c2 -> Z.testbit c1 0 = Z.testbit c2 0 ->
  crc_shift x c1 = crc_shift x c2 -> c1 = c2.
Proof.
  intros H1 H2 H0 E. apply Z.bits_inj'. intros i Hi.
  destruct (decide (i = 0)) as [-> | Hne]; [done |].
  destruct (decide (i < 16)) as [Hlt | Hge];
    [| by rewrite (testbit_high 16 c1), (testbit_high 16 c2) by (done || lia)].
  apply (f_equal (fun z => Z.testbit z (i - 1))) in E. unfold crc_shift in E.
  destruct x; repeat zbits_step; rewrite ?Z.lor_spec, ?Z.shiftr_spec, ?Z.lxor_spec in E by lia.
  - replace (i - 1 + 1) with i in E by lia.
    assert (i = 16 \/ i <> 16) by lia.
    destruct (Z.testbit 0x8000 (i - 1)) eqn:E8; rewrite ?orb_false_r in E.
    + change 0x8000 with (2 ^ 15) in E8. rewrite Z.pow2_bits_eqb in E8 by lia. lia.
    + destruct (Z.testbit c1 i), (Z.testbit c2 i), (Z.testbit 0x4002 i); done.
  - by replace (i - 1 + 1) with i in E by lia.
Qed.

Lemma crcu8_step_inj d c1 c2 :
  in_range 16 c1 -> in_range 16 c2 ->
  (crcu8_step (d, c1)).2 = (crcu8_step (d, c2)).2 -> c1 = c2.
Proof.
  intros H1 H2. rewrite !crcu8_step_shift by done. cbn [snd]. intros E.
  assert (feedback d c1 = feedback d c2) as Ef.
  { rewrite <- (crc_shift_bit15 (feedback d c1) c1), <- (crc_shift_bit15 (feedback d c2) c2)
      by done. by rewrite E. }
  rewrite Ef in E. apply crc_shift_inj in E; auto.
  unfold feedback in Ef. destruct (Z.testbit d 0), (Z.testbit c1 0), (Z.testbit c2 0); done.
Qed.

Lemma crcu8_loop_inj n d c1 c2 :
  in_range 16 c1 -> in_range 16 c2 ->
  (loop n crcu8_step (d, c1)).2 = (loop n crcu8_step (d, c2)).2 -> c1 = c2.
Proof.
  revert d c1 c2. induction n as [|n IH]; intros d c1 c2 H1 H2; cbn [loop]; [done |].
  pose proof (crcu8_step_inj d c1 c2 H1 H2) as Hinj.
  rewrite !crcu8_step_shift in * by done. cbn [snd] in Hinj. intros E.
  apply Hinj, (IH (d >>> 1)); auto using crc_shift_range.
Qed.

Lemma crcu8_inj d c1 c2 :
  in_range 16 c1 -> in_range 16 c2 -> crcu8 d c1 = crcu8 d c2 -> c1 = c2.
Proof. apply crcu8_loop_inj. Qed.

(** Feeding the same data never merges two different CRC values: for every
    8-, 16- and 32-bit datum the update is injective on 16-bit registers, so an
    earlier discrepancy is never masked by later data. *)
Theorem crc_keeps_discrepancy data c1 c2 :
  in_range 16 c1 -> in_range 16 c2 -> c1 <> c2 ->
  crcu8 data c1 <> crcu8 data c2 /\
  crcu16 data c1 <> crcu16 data c2 /\
  crcu32 data c1 <> crcu32 data c2.
Proof.
  intros H1 H2 Hne. rewrite !crcu32_bytes. unfold crcu16.
  split_and!; intros E; repeat (apply crcu8_inj in E; auto 10 with cint).
Qed.

Lemma crc_keeps_discrepancy_witness :
  crcu8 0x41 0x1234 <> crcu8 0x41 0x1235 /\
  crcu16 0x41 0x1234 <> crcu16 0x41 0x1235 /\
  crcu32 0x41 0x1234 <> crcu32 0x41 0x1235.
Proof. apply (crc_keeps_discrepancy 0x41 0x1234 0x1235); unfold in_range; lia. Defined.
