(* ===== verification/NumericDfa.v ===== *)
(** The number recogniser of CoreMark (src/core_state.c), the emulator's
    instructions that run it on whole memory words (nemu/src/isa/riscv32/inst.c)
    and the benchmark bodies that use those instructions
    (accel/xaccel_wrappers.c).

    Guest memory is a total map from addresses to bytes.  A pointer is an
    address; a loop over memory takes fuel, and the theorems give the fuel that
    is enough. *)

From S2P Require Import Prelude Crc.

(** ** core_state.c: the recogniser *)

Inductive CORE_STATE :=
| CORE_START | CORE_INVALID | CORE_S1 | CORE_S2
| CORE_INT | CORE_FLOAT | CORE_EXPONENT | CORE_SCIENTIFIC.

#[export] Instance core_state_eq_dec : EqDecision CORE_STATE.
Proof. solve_decision. Defined.

(** The integer value of the enumeration constant. *)
Definition code (s : CORE_STATE) : Z :=
  match s with
  | CORE_START => 0 | CORE_INVALID => 1 | CORE_S1 => 2 | CORE_S2 => 3
  | CORE_INT => 4 | CORE_FLOAT => 5 | CORE_EXPONENT => 6 | CORE_SCIENTIFIC => 7
  end.

Definition COMMA : Z := 44.
Definition PLUS : Z := 43.
Definition MINUS : Z := 45.
Definition DOT : Z := 46.
Definition UPPER_E : Z := 69.
Definition LOWER_E : Z := 101.

Definition ee_isdigit (c : Z) : bool := (48 <=? c) && (c <=? 57).

(** [transition_count[s]++] on an [ee_u32] array. *)
Definition count (s : Z) (cnt : list Z) : list Z := aset cnt s (u32 (aget 0 cnt s + 1)).

Definition core_state_switch (state : CORE_STATE) (c : Z) (cnt : list Z)
    : CORE_STATE * list Z :=
  match state with
  | CORE_START =>
      let '(state, cnt) :=
        if ee_isdigit c then (CORE_INT, cnt)
        else if (c =? PLUS) || (c =? MINUS) then (CORE_S1, cnt)
        else if c =? DOT then (CORE_FLOAT, cnt)
        else (CORE_INVALID, count (code CORE_INVALID) cnt) in
      (state, count (code CORE_START) cnt)
  | CORE_S1 =>
      if ee_isdigit c then (CORE_INT, count (code CORE_S1) cnt)
      else if c =? DOT then (CORE_FLOAT, count (code CORE_S1) cnt)
      else (CORE_INVALID, count (code CORE_S1) cnt)
  | CORE_INT =>
      if c =? DOT then (CORE_FLOAT, count (code CORE_INT) cnt)
      else if negb (ee_isdigit c) then (CORE_INVALID, count (code CORE_INT) cnt)
      else (state, cnt)
  | CORE_FLOAT =>
      if (c =? UPPER_E) || (c =? LOWER_E) then (CORE_S2, count (code CORE_FLOAT) cnt)
      else if negb (ee_isdigit c) then (CORE_INVALID, count (code CORE_FLOAT) cnt)
      else (state, cnt)
  | CORE_S2 =>
      if (c =? PLUS) || (c =? MINUS) then (CORE_EXPONENT, count (code CORE_S2) cnt)
      else (CORE_INVALID, count (code CORE_S2) cnt)
  | CORE_EXPONENT =>
      if ee_isdigit c then (CORE_SCIENTIFIC, count (code CORE_EXPONENT) cnt)
      else (CORE_INVALID, count (code CORE_EXPONENT) cnt)
  | CORE_SCIENTIFIC =>
      if negb (ee_isdigit c) then (CORE_INVALID, count (code CORE_INVALID) cnt)
      else (state, cnt)
  | CORE_INVALID => (state, cnt)
  end.

Fixpoint core_state_loop (fuel : nat) (m : mem) (str : Z) (state : CORE_STATE)
    (cnt : list Z) : res (Z * (CORE_STATE * list Z)) :=
  match fuel with
  | O => Fault FFuel
  | S fuel =>
      if negb (m str =? 0) && negb (bool_decide (state = CORE_INVALID)) then
        let c := m str in
        if c =? COMMA then Ok (str + 1, (state, cnt))
        else
          let '(state, cnt) := core_state_switch state c cnt in
          core_state_loop fuel m (str + 1) state cnt
      else Ok (str, (state, cnt))
  end.

Definition core_state_transition (fuel : nat) (m : mem) (instr : Z) (cnt : list Z) :=
  core_state_loop fuel m instr CORE_START cnt.

(** ** inst.c: the word-at-a-time step *)

Definition is_digit8 (c : Z) : bool := u8 (c - 48) <=? 9.

(** The [switch (state)] of [numeric_dfa_word_step]: next state, counter mask,
    stop flag. *)
Definition dfa_switch (state c mask stop : Z) : Z * Z * Z :=
  let digit := is_digit8 c in
  if state =? 0 then
    let '(state, mask) :=
      if digit then (4, mask)
      else if (c =? PLUS) || (c =? MINUS) then (2, mask)
      else if c =? DOT then (5, mask)
      else (1, mask ||| (1 <<< 1)) in
    (state, mask ||| (1 <<< 0), stop)
  else if state =? 2 then
    let state := if digit then 4 else if c =? DOT then 5 else 1 in
    (state, mask ||| (1 <<< 2), stop)
  else if state =? 4 then
    if c =? DOT then (5, mask ||| (1 <<< 4), stop)
    else if negb digit then (1, mask ||| (1 <<< 4), stop)
    else (state, mask, stop)
  else if state =? 5 then
    if (c =? UPPER_E) || (c =? LOWER_E) then (3, mask ||| (1 <<< 5), stop)
    else if negb digit then (1, mask ||| (1 <<< 5), stop)
    else (state, mask, stop)
  else if state =? 3 then
    ((if (c =? PLUS) || (c =? MINUS) then 6 else 1), mask ||| (1 <<< 3), stop)
  else if state =? 6 then
    ((if digit then 7 else 1), mask ||| (1 <<< 6), stop)
  else if state =? 7 then
    if negb digit then (1, mask ||| (1 <<< 1), stop) else (state, mask, stop)
  else (state, mask, 1).

(** The [for] loop from symbol [i] on, with [n] symbols left:
    state, consumed, mask, stop. *)
Fixpoint dfa_word_loop (n : nat) (i state symbols consumed mask stop : Z)
    : Z * Z * Z * Z :=
  match n with
  | O => (state, consumed, mask, stop)
  | S n =>
      if negb (stop =? 0) then (state, consumed, mask, stop)
      else
        let c := u8 (symbols >>> (8 * i)) in
        if c =? 0 then (state, consumed, mask, 1)
        else
          let consumed := u32 (consumed + 1) in
          if c =? COMMA then (state, consumed, mask, 1)
          else
            let '(state, mask, stop) := dfa_switch state c mask stop in
            let stop := if state =? 1 then 1 else stop in
            dfa_word_loop n (i + 1) state symbols consumed mask stop
  end.

Definition numeric_dfa_word_step (state symbols width : Z) (format2 : bool) : Z :=
  let '(state, consumed, mask, stop) :=
    dfa_word_loop (Z.to_nat width) 0 state symbols 0 0 0 in
  if format2 then
    state ||| u32 (consumed <<< 3) ||| u32 (stop <<< 5) ||| u32 (mask <<< 6)
  else
    state ||| u32 (consumed <<< 3) ||| u32 (stop <<< 6) ||| u32 (mask <<< 7).

(** The emulator's counters. *)
Record numeric_dfa := NumericDfa {
  transition_counts : list Z;
  final_counts : list Z;
  pending_mask : Z }.

Definition xdfacnt_init (_ : numeric_dfa) : numeric_dfa :=
  NumericDfa (replicate 8 0) (replicate 8 0) 0.

Definition xdfacnt_inc (state : Z) (d : numeric_dfa) : numeric_dfa :=
  if state <? 8 then
    NumericDfa (count state (transition_counts d)) (final_counts d) (pending_mask d)
  else d.

Definition xdfacnt_read (state : Z) (d : numeric_dfa) : Z :=
  if state <? 8 then aget 0 (transition_counts d) state else 0.

(** [for (state = 0; state < 8; state++) if (mask & (1u << state)) counts[state]++] *)
Definition count_mask_step (mask : Z) (st : Z * list Z) : Z * list Z :=
  let '(state, cnt) := st in
  (state + 1,
   if negb (mask &&& u32 (1 <<< state) =? 0) then count state cnt else cnt).

Definition count_mask (mask : Z) (cnt : list Z) : list Z :=
  (loop 8 (count_mask_step mask) (0, cnt)).2.

Definition xdfacnt_commit (mask : Z) (d : numeric_dfa) : numeric_dfa :=
  NumericDfa (count_mask mask (transition_counts d)) (final_counts d) (pending_mask d).

(** [vaddr_read(address & ~3u, 4) >> (8 * offset)], by the word read at the
    aligned address. *)
Definition xdfa_symbols (word : Z -> Z) (address : Z) : Z :=
  word (address &&& not32 3) >>> (8 * (address &&& 3)).

Definition xdfa2_step (word : Z -> Z) (state address : Z) : Z :=
  let offset := address &&& 3 in
  numeric_dfa_word_step state (xdfa_symbols word address)
    (if offset =? 3 then 1 else 2) true.

Definition xdfa4_step (word : Z -> Z) (state address : Z) : Z :=
  let offset := address &&& 3 in
  numeric_dfa_word_step state (xdfa_symbols word address) (4 - offset) false.

Definition xdfa4h_step (word : Z -> Z) (state address : Z) (d : numeric_dfa)
    : Z * numeric_dfa :=
  let offset := address &&& 3 in
  let result :=
    numeric_dfa_word_step state (xdfa_symbols word address) (4 - offset) false in
  let mask := result >>> 7 in
  let pending := pending_mask d ||| mask in
  (result,
   if negb (result &&& (1 <<< 6) =? 0) then
     NumericDfa (count_mask pending (transition_counts d))
       (count (result &&& 7) (final_counts d)) 0
   else NumericDfa (transition_counts d) (final_counts d) pending).

Definition xdfa4h_final_read (state : Z) (d : numeric_dfa) : Z :=
  if state <? 8 then aget 0 (final_counts d) state else 0.

(** ** xaccel_wrappers.c: one token *)

Definition xaccel_isdigit (c : Z) : bool := u8 (c - 48) <=? 9.

Definition xdfacnt_switch (state : CORE_STATE) (c : Z) (d : numeric_dfa)
    : CORE_STATE * numeric_dfa :=
  match state with
  | CORE_START =>
      let '(state, d) :=
        if xaccel_isdigit c then (CORE_INT, d)
        else if (c =? PLUS) || (c =? MINUS) then (CORE_S1, d)
        else if c =? DOT then (CORE_FLOAT, d)
        else (CORE_INVALID, xdfacnt_inc (code CORE_INVALID) d) in
      (state, xdfacnt_inc (code CORE_START) d)
  | CORE_S1 =>
      ((if xaccel_isdigit c then CORE_INT
        else if c =? DOT then CORE_FLOAT else CORE_INVALID),
       xdfacnt_inc (code CORE_S1) d)
  | CORE_INT =>
      if c =? DOT then (CORE_FLOAT, xdfacnt_inc (code CORE_INT) d)
      else if negb (xaccel_isdigit c) then
        (CORE_INVALID, xdfacnt_inc (code CORE_INT) d)
      else (state, d)
  | CORE_FLOAT =>
      if (c =? UPPER_E) || (c =? LOWER_E) then (CORE_S2, xdfacnt_inc (code CORE_FLOAT) d)
      else if negb (xaccel_isdigit c) then
        (CORE_INVALID, xdfacnt_inc (code CORE_FLOAT) d)
      else (state, d)
  | CORE_S2 =>
      ((if (c =? PLUS) || (c =? MINUS) then CORE_EXPONENT else CORE_INVALID),
       xdfacnt_inc (code CORE_S2) d)
  | CORE_EXPONENT =>
      ((if xaccel_isdigit c then CORE_SCIENTIFIC else CORE_INVALID),
       xdfacnt_inc (code CORE_EXPONENT) d)
  | CORE_SCIENTIFIC =>
      if negb (xaccel_isdigit c) then
        (CORE_INVALID, xdfacnt_inc (code CORE_INVALID) d)
      else (state, d)
  | CORE_INVALID => (state, d)
  end.

Fixpoint xdfacnt_loop (fuel : nat) (m : mem) (str : Z) (state : CORE_STATE)
    (d : numeric_dfa) : res (Z * (Z * numeric_dfa)) :=
  match fuel with
  | O => Fault FFuel
  | S fuel =>
      if negb (m str =? 0) && negb (bool_decide (state = CORE_INVALID)) then
        let c := m str in
        if c =? COMMA then Ok (str + 1, (code state, d))
        else
          let '(state, d) := xdfacnt_switch state c d in
          xdfacnt_loop fuel m (str + 1) state d
      else Ok (str, (code state, d))
  end.

Definition xdfacnt_transition (fuel : nat) (m : mem) (instr : Z) (d : numeric_dfa) :=
  xdfacnt_loop fuel m instr CORE_START d.

Fixpoint xdfa2_loop (fuel : nat) (m : mem) (str state mask : Z) : res (Z * Z * Z) :=
  match fuel with
  | O => Fault FFuel
  | S fuel =>
      let result := xdfa2_step (word_at m) state str in
      let state := result &&& 7 in
      let str := str + ((result >>> 3) &&& 3) in
      let mask := mask ||| ((result >>> 6) &&& 0xff) in
      if negb (result &&& (1 <<< 5) =? 0) then Ok (str, state, mask)
      else xdfa2_loop fuel m str state mask
  end.

Definition xdfa2_transition (fuel : nat) (m : mem) (instr : Z) (d : numeric_dfa)
    : res (Z * (Z * numeric_dfa)) :=
  '(str, state, mask) ← xdfa2_loop fuel m instr (code CORE_START) 0;
  Ok (str, (state, xdfacnt_commit mask d)).

Fixpoint xdfa4_loop (fuel : nat) (m : mem) (str state mask : Z) : res (Z * Z * Z) :=
  match fuel with
  | O => Fault FFuel
  | S fuel =>
      let result := xdfa4_step (word_at m) state str in
      let state := result &&& 7 in
      let str := str + ((result >>> 3) &&& 7) in
      let mask := mask ||| ((result >>> 7) &&& 0xff) in
      if negb (result &&& (1 <<< 6) =? 0) then Ok (str, state, mask)
      else xdfa4_loop fuel m str state mask
  end.

Definition xdfa4_transition (fuel : nat) (m : mem) (instr : Z) (d : numeric_dfa)
    : res (Z * (Z * numeric_dfa)) :=
  '(str, state, mask) ← xdfa4_loop fuel m instr (code CORE_START) 0;
  Ok (str, (state, xdfacnt_commit mask d)).

Fixpoint xdfa4h_loop (fuel : nat) (m : mem) (str state : Z) (d : numeric_dfa)
    : res (Z * numeric_dfa) :=
  match fuel with
  | O => Fault FFuel
  | S fuel =>
      let '(result, d) := xdfa4h_step (word_at m) state str d in
      let state := result &&& 7 in
      let str := str + ((result >>> 3) &&& 7) in
      if negb (result &&& (1 <<< 6) =? 0) then Ok (str, d)
      else xdfa4h_loop fuel m str state d
  end.

Definition xdfa4h_transition (fuel : nat) (m : mem) (instr : Z) (d : numeric_dfa) :=
  xdfa4h_loop fuel m instr (code CORE_START) d.

(** ** The automaton all four scanners implement *)

Definition dfa_next (s : CORE_STATE) (c : Z) : CORE_STATE :=
  match s with
  | CORE_START =>
      if ee_isdigit c then CORE_INT
      else if (c =? PLUS) || (c =? MINUS) then CORE_S1
      else if c =? DOT then CORE_FLOAT else CORE_INVALID
  | CORE_S1 =>
      if ee_isdigit c then CORE_INT else if c =? DOT then CORE_FLOAT else CORE_INVALID
  | CORE_INT =>
      if c =? DOT then CORE_FLOAT else if ee_isdigit c then CORE_INT else CORE_INVALID
  | CORE_FLOAT =>
      if (c =? UPPER_E) || (c =? LOWER_E) then CORE_S2
      else if ee_isdigit c then CORE_FLOAT else CORE_INVALID
  | CORE_S2 => if (c =? PLUS) || (c =? MINUS) then CORE_EXPONENT else CORE_INVALID
  | CORE_EXPONENT => if ee_isdigit c then CORE_SCIENTIFIC else CORE_INVALID
  | CORE_SCIENTIFIC => if ee_isdigit c then CORE_SCIENTIFIC else CORE_INVALID
  | CORE_INVALID => CORE_INVALID
  end.

(** The counters an edge of the automaton bumps, as a bit mask. *)
Definition dfa_emit (s : CORE_STATE) (c : Z) : Z :=
  match s, dfa_next s c with
  | CORE_START, CORE_INVALID => 3
  | CORE_START, _ => 1
  | CORE_S1, _ => 4
  | CORE_INT, CORE_INT => 0
  | CORE_INT, _ => 16
  | CORE_FLOAT, CORE_FLOAT => 0
  | CORE_FLOAT, _ => 32
  | CORE_S2, _ => 8
  | CORE_EXPONENT, _ => 64
  | CORE_SCIENTIFIC, CORE_INVALID => 2
  | CORE_SCIENTIFIC, _ => 0
  | CORE_INVALID, _ => 0
  end.

(** The counters that can still be bumped from a state on. *)
Definition dfa_future (s : CORE_STATE) : Z :=
  match s with
  | CORE_START => 0x7f
  | CORE_S1 => 0x7e
  | CORE_INT => 0x7a
  | CORE_FLOAT => 0x6a
  | CORE_S2 => 0x4a
  | CORE_EXPONENT => 0x42
  | CORE_SCIENTIFIC => 0x02
  | CORE_INVALID => 0
  end.

(** [token m str s mask str' s' mask']: reading from [str] in state [s], the
    automaton stops at [str'] in state [s'], having added to [mask] the counters of
    the edges it took. *)
Inductive token (m : mem) : Z -> CORE_STATE -> Z -> Z -> CORE_STATE -> Z -> Prop :=
| token_nul str s mask : m str = 0 -> token m str s mask str s mask
| token_invalid str mask : token m str CORE_INVALID mask str CORE_INVALID mask
| token_comma str s mask :
    s <> CORE_INVALID -> m str = COMMA -> token m str s mask (str + 1) s mask
| token_step str s mask str' s' mask' :
    s <> CORE_INVALID -> m str <> 0 -> m str <> COMMA ->
    token m (str + 1) (dfa_next s (m str)) (mask ||| dfa_emit s (m str)) str' s' mask' ->
    token m str s mask str' s' mask'.

Lemma token_det m str s mask str1 s1 mask1 str2 s2 mask2 :
  token m str s mask str1 s1 mask1 -> token m str s mask str2 s2 mask2 ->
  str1 = str2 /\ s1 = s2 /\ mask1 = mask2.
Proof.
  intros H. revert str2 s2 mask2.
  induction H; intros str2 s2 mask2 Htok; inversion Htok; subst; unfold COMMA in *;
    try congruence; auto.
Qed.

Lemma token_bounds m str s mask str' s' mask' n :
  token m str s mask str' s' mask' -> 0 <= n -> m (str + n) = 0 ->
  str <= str' <= str + n.
Proof.
  intros H. revert n.
  induction H as [| | str s mask _ Hc | str s mask str' s' mask' _ Hz _ _ IH];
    intros n Hn Hm; try lia;
    (destruct (decide (n = 0)) as [->|]; [rewrite Z.add_0_r in Hm; unfold COMMA in *; lia |]).
  - lia.
  - specialize (IH (n - 1)). replace (str + 1 + (n - 1)) with (str + n) in IH by lia. lia.
Qed.

Lemma token_progress m str s mask str' s' mask' n :
  token m str s mask str' s' mask' -> 0 <= n -> m (str + n) = 0 ->
  s <> CORE_INVALID -> m str <> 0 -> str < str'.
Proof.
  intros H Hn Hm Hs Hz. inversion H as [| | | ? ? ? ? ? ? _ _ _ Ht]; subst; try done; [lia |].
  destruct (decide (n = 0)) as [->|]; [by rewrite Z.add_0_r in Hm |].
  apply (token_bounds _ _ _ _ _ _ _ (n - 1)) in Ht; [lia | lia |].
  replace (str + 1 + (n - 1)) with (str + n) by lia. done.
Qed.

(** ** Counter masks *)

Lemma land_bit_zero mask k :
  0 <= k < 32 -> (mask &&& u32 (1 <<< k) =? 0) = negb (Z.testbit mask k).
Proof.
  intros Hk. assert (u32 (1 <<< k) = 2 ^ k) as ->.
  { rewrite Z.shiftl_1_l. apply wrap_small. split; [lia |].
    apply Z.pow_lt_mono_r; lia. }
  destruct (Z.testbit mask k) eqn:Hb; cbn.
  - apply Z.eqb_neq. intros E. apply (f_equal (fun x => Z.testbit x k)) in E.
    rewrite Z.land_spec, Hb, Z.pow2_bits_true, Z.bits_0 in E by lia. done.
  - apply Z.eqb_eq, Z.bits_inj'. intros i Hi. rewrite Z.land_spec, Z.bits_0.
    destruct (decide (i = k)) as [->|]; [by rewrite Hb |].
    rewrite Z.pow2_bits_false by lia. apply andb_false_r.
Qed.

Definition bump (b : bool) (x : Z) : Z := if b then u32 (x + 1) else x.

(** A counter array of eight words, by its elements. *)
Ltac split8 l H := do 8 (destruct l as [| ? l]; [discriminate H |]); destruct l; [| discriminate H].

Lemma count_mask_step_bump mask k cnt :
  0 <= k < 8 -> length cnt = 8%nat ->
  count_mask_step mask (k, cnt) =
    (k + 1, aset cnt k (bump (Z.testbit mask k) (aget 0 cnt k))).
Proof.
  intros Hk Hl. unfold count_mask_step, count, bump.
  rewrite land_bit_zero, negb_involutive by lia. f_equal.
  destruct (Z.testbit mask k); [done |]. unfold aset, aget.
  rewrite list_insert_id; [done |].
  destruct (lookup_lt_is_Some_2 cnt (Z.to_nat k)) as [x Hx]; [lia |].
  by rewrite nth_lookup, Hx.
Qed.

Lemma count_mask_bump mask cnt :
  length cnt = 8%nat ->
  count_mask mask cnt = imap (fun i x => bump (Z.testbit mask (Z.of_nat i)) x) cnt.
Proof.
  intros Hl. split8 cnt Hl. unfold count_mask. cbn [loop].
  do 8 (rewrite count_mask_step_bump by (rewrite ?length_aset; done || lia)). reflexivity.
Qed.

Lemma length_count_mask mask cnt :
  length cnt = 8%nat -> length (count_mask mask cnt) = 8%nat.
Proof. intros Hl. by rewrite count_mask_bump, length_imap. Qed.

Lemma count_mask_0 cnt : length cnt = 8%nat -> count_mask 0 cnt = cnt.
Proof.
  intros Hl. rewrite count_mask_bump by done. apply list_eq. intros i.
  rewrite list_lookup_imap, Z.bits_0. by destruct (cnt !! i).
Qed.

Lemma count_mask_lor a b cnt :
  length cnt = 8%nat -> a &&& b = 0 ->
  count_mask (a ||| b) cnt = count_mask b (count_mask a cnt).
Proof.
  intros Hl Hd. rewrite (count_mask_bump b) by (by apply length_count_mask).
  rewrite !count_mask_bump by done.
  apply list_eq. intros i. rewrite !list_lookup_imap.
  destruct (cnt !! i) as [x |]; [| done]. cbn. f_equal. rewrite Z.lor_spec.
  assert (Z.testbit a (Z.of_nat i) && Z.testbit b (Z.of_nat i) = false) as E.
  { rewrite <- Z.land_spec, Hd. apply Z.bits_0. }
  destruct (Z.testbit a _), (Z.testbit b _); done.
Qed.

Lemma count_mask_bit k cnt :
  0 <= k < 8 -> length cnt = 8%nat -> count k cnt = count_mask (2 ^ k) cnt.
Proof.
  intros Hk Hl. split8 cnt Hl.
  assert (k = 0 \/ k = 1 \/ k = 2 \/ k = 3 \/ k = 4 \/ k = 5 \/ k = 6 \/ k = 7) as Hc by lia.
  destruct_or! Hc; subst; reflexivity.
Qed.

(** ** Each [switch] takes the automaton's edges *)

Lemma is_digit8_isdigit c : in_range 8 c -> is_digit8 c = ee_isdigit c.
Proof.
  intros Hc. unfold is_digit8, ee_isdigit, wrap, in_range in *.
  destruct (decide (48 <= c)).
  - rewrite Z.mod_small by lia. lia.
  - replace (c - 48) with (c + 208 + (-1) * 2 ^ 8) by lia.
    rewrite Z.mod_add, Z.mod_small by lia. lia.
Qed.

Lemma count_two cnt : length cnt = 8%nat -> count 0 (count 1 cnt) = count_mask 3 cnt.
Proof. intros Hl. by split8 cnt Hl. Qed.

Ltac dfa_edges :=
  repeat match goal with
  | |- context [if ee_isdigit ?c then _ else _] => destruct (ee_isdigit c)
  | |- context [if negb (ee_isdigit ?c) then _ else _] => destruct (ee_isdigit c)
  | |- context [if (?c =? ?k) then _ else _] => destruct (c =? k)
  | |- context [if (?c =? ?k) || ?b then _ else _] => destruct ((c =? k) || b)
  end; cbn.

Lemma core_state_switch_edges s c cnt :
  length cnt = 8%nat ->
  core_state_switch s c cnt = (dfa_next s c, count_mask (dfa_emit s c) cnt).
Proof.
  intros Hl. unfold dfa_emit, core_state_switch, dfa_next.
  destruct s; dfa_edges; rewrite ?count_two, ?count_mask_bit by (done || lia);
    rewrite ?count_mask_0 by done; done.
Qed.

Definition with_counts (cnt : list Z) (d : numeric_dfa) : numeric_dfa :=
  NumericDfa cnt (final_counts d) (pending_mask d).

Lemma xdfacnt_switch_edges s c d :
  in_range 8 c ->
  xdfacnt_switch s c d =
    let '(s', cnt) := core_state_switch s c (transition_counts d) in (s', with_counts cnt d).
Proof.
  intros Hc. unfold xdfacnt_switch, core_state_switch, xaccel_isdigit.
  fold (is_digit8 c). rewrite is_digit8_isdigit by done.
  destruct d, s; dfa_edges; done.
Qed.

Lemma dfa_switch_edges s c mask stop :
  in_range 8 c -> s <> CORE_INVALID ->
  dfa_switch (code s) c mask stop = (code (dfa_next s c), mask ||| dfa_emit s c, stop).
Proof.
  intros Hc Hs. unfold dfa_switch. rewrite is_digit8_isdigit by done.
  unfold dfa_emit, dfa_next.
  destruct s; try done; cbn -[ee_isdigit Z.lor PLUS MINUS DOT UPPER_E LOWER_E]; dfa_edges;
    rewrite ?Z.lor_0_r, <- ?Z.lor_assoc; done.
Qed.

Lemma dfa_future_step s c :
  s <> CORE_INVALID ->
  dfa_emit s c &&& dfa_future (dfa_next s c) = 0 /\
  dfa_emit s c &&& dfa_future s = dfa_emit s c /\
  dfa_future (dfa_next s c) &&& dfa_future s = dfa_future (dfa_next s c) /\
  in_range 8 (dfa_emit s c).
Proof.
  intros Hs. unfold dfa_emit, dfa_next.
  destruct s; try done; dfa_edges; repeat split; done.
Qed.

Lemma dfa_fresh_step s c mask :
  s <> CORE_INVALID -> mask &&& dfa_future s = 0 ->
  mask &&& dfa_emit s c = 0 /\ (mask ||| dfa_emit s c) &&& dfa_future (dfa_next s c) = 0.
Proof.
  intros Hs Hm. destruct (dfa_future_step s c Hs) as (He & Hsub & Hf & _).
  rewrite <- Hsub, (Z.land_comm (dfa_emit s c)), Z.land_assoc, Hm. split; [done |].
  rewrite (Z.land_comm (dfa_future s)), Hsub, Z.land_lor_distr_l, He, Z.lor_0_r.
  rewrite <- Hf, (Z.land_comm (dfa_future _)), Z.land_assoc, Hm. done.
Qed.

(** ** Character-at-a-time scanners *)

Lemma core_state_loop_token fuel m str s mask cnt n :
  length cnt = 8%nat -> mask &&& dfa_future s = 0 ->
  0 <= n < Z.of_nat fuel -> m (str + n) = 0 ->
  exists str' s' mask',
    core_state_loop fuel m str s (count_mask mask cnt) = Ok (str', (s', count_mask mask' cnt)) /\
    token m str s mask str' s' mask'.
Proof.
  intros Hl. revert str s mask n.
  induction fuel as [|fuel IH]; intros str s mask n Hf Hn Hm; [lia | cbn [core_state_loop]].
  destruct (Z.eqb_spec (m str) 0); [eexists _, _, _; split; [done |]; by constructor |].
  case_bool_decide; subst; [eexists _, _, _; split; [done |]; by constructor |].
  destruct (Z.eqb_spec (m str) COMMA); [eexists _, _, _; split; [done |]; by constructor |].
  cbn [negb andb]. rewrite core_state_switch_edges by (by apply length_count_mask).
  destruct (dfa_fresh_step s (m str) mask) as [Hd Hd']; [done.. |].
  rewrite <- count_mask_lor by done.
  destruct (decide (n = 0)) as [->|]; [by rewrite Z.add_0_r in Hm |].
  destruct (IH (str + 1) (dfa_next s (m str)) (mask ||| dfa_emit s (m str)) (n - 1))
    as (str' & s' & mask' & -> & Ht); [done | lia | by replace (str + 1 + (n - 1)) with (str + n) by lia |].
  eexists _, _, _. split; [done |]. by constructor.
Qed.

Lemma xdfacnt_loop_core fuel m str s d :
  bytes_ok m ->
  xdfacnt_loop fuel m str s d =
    (fun '(str', (s', cnt)) => (str', (code s', with_counts cnt d)))
      <$> core_state_loop fuel m str s (transition_counts d).
Proof.
  intros Hb. revert str s d. induction fuel as [|fuel IH]; intros str s d; [done | cbn].
  destruct (_ && _); [| by destruct d].
  destruct (_ =? COMMA); [by destruct d |].
  rewrite xdfacnt_switch_edges by apply Hb.
  destruct (core_state_switch _ _ _) as [s' cnt]. rewrite IH. by destruct d.
Qed.

(** ** The word step *)

(** A result word [state | consumed << 3 | stop << p | mask << (p + 1)]. *)
Definition dfa_pack (p state consumed : Z) (stop : bool) (mask : Z) : Z :=
  state ||| ((consumed ||| ((b2z stop ||| (mask <<< 1)) <<< (p - 3))) <<< 3).

Lemma dfa_pack_fields p state consumed stop mask :
  3 <= p -> in_range 3 state -> in_range (p - 3) consumed -> 0 <= mask ->
  let r := dfa_pack p state consumed stop mask in
  r &&& 7 = state /\ (r >>> 3) &&& Z.ones (p - 3) = consumed /\
  (r >>> (p + 1)) = mask /\ negb (r &&& (1 <<< p) =? 0) = stop.
Proof.
  intros Hp Hs Hc Hm r. unfold r, dfa_pack. repeat split.
  - by apply (lor_shiftl_low 3).
  - rewrite lor_shiftl_high by (done || lia). apply lor_shiftl_low; [lia | done].
  - replace (p + 1) with (3 + (p - 3) + 1) by lia.
    rewrite <- !Z.shiftr_shiftr by lia. rewrite !lor_shiftl_high; try (done || lia).
    destruct stop; cbn; unfold in_range; lia.
  - assert (Z.testbit (state ||| ((consumed ||| ((b2z stop ||| (mask <<< 1)) <<< (p - 3))) <<< 3)) p = stop) as E.
    { rewrite Z.lor_spec, (testbit_high 3 state), Z.shiftl_spec by (done || lia).
      rewrite Z.lor_spec, (testbit_high (p - 3) consumed), Z.shiftl_spec by (done || lia).
      rewrite Z.sub_diag, Z.lor_spec, Z.shiftl_spec by lia.
      rewrite (Z.testbit_neg_r mask) by lia. destruct stop; done. }
    rewrite Z.shiftl_1_l. destruct (Z.eqb_spec (Z.land (state ||| ((consumed ||| ((b2z stop ||| (mask <<< 1)) <<< (p - 3))) <<< 3)) (2 ^ p)) 0) as [E0 | E0]; cbn.
    + apply (f_equal (fun x => Z.testbit x p)) in E0.
      rewrite Z.land_spec, E, Z.pow2_bits_true, Z.bits_0, andb_true_r in E0 by lia. done.
    + destruct stop; [done |]. exfalso. apply E0, Z.bits_inj'. intros i Hi.
      rewrite Z.land_spec, Z.bits_0. destruct (decide (i = p)) as [->|]; [by rewrite E |].
      rewrite Z.pow2_bits_false by lia. apply andb_false_r.
Qed.

Lemma dfa_pack_word p state consumed stop mask :
  3 <= p <= 6 -> in_range 3 state -> in_range (p - 3) consumed -> in_range 8 mask ->
  state ||| u32 (consumed <<< 3) ||| u32 (b2z stop <<< p) ||| u32 (mask <<< (p + 1)) =
  dfa_pack p state consumed stop mask.
Proof.
  intros Hp Hs Hc Hm. unfold dfa_pack.
  assert (forall w x k, 0 <= k -> 0 <= w -> w + k <= 32 -> in_range w x -> u32 (x <<< k) = x <<< k) as Hu.
  { intros w x k Hk Hw Hwk Hx. apply wrap_small. rewrite Z.shiftl_mul_pow2 by lia.
    unfold in_range in *. split; [apply Z.mul_nonneg_nonneg; lia |].
    apply Z.lt_le_trans with (2 ^ w * 2 ^ k); [apply Z.mul_lt_mono_pos_r; lia |].
    rewrite <- Z.pow_add_r by lia. apply Z.pow_le_mono_r; lia. }
  rewrite (Hu (p - 3) consumed), (Hu 1 (b2z stop)), (Hu 8 mask);
    try (done || lia || (destruct stop; cbn; unfold in_range; lia)).
  rewrite !Z.shiftl_lor, !Z.shiftl_shiftl by lia.
  rewrite <- !Z.lor_assoc. do 3 f_equal; f_equal; lia.
Qed.

(** What [n] symbols of a word do: either the token ends after [k] of them, or
    all of them are read and the scan goes on behind them; [em] is the mask of the
    counters they bump. *)
Definition word_token (m : mem) (n str : Z) (s : CORE_STATE) (k : Z)
    (s' : CORE_STATE) (em : Z) (stop : bool) : Prop :=
  0 <= k <= n /\ in_range 8 em /\
  if stop then forall acc, token m str s acc (str + k) s' (acc ||| em)
  else
    k = n /\ s' <> CORE_INVALID /\ (forall j, 0 <= j < n -> m (str + j) <> 0) /\
    forall acc str2 s2 mask2,
      token m (str + n) s' (acc ||| em) str2 s2 mask2 -> token m str s acc str2 s2 mask2.

Lemma dfa_word_loop_stopped n i state symbols consumed mask :
  dfa_word_loop n i state symbols consumed mask 1 = (state, consumed, mask, 1).
Proof. by destruct n. Qed.

Lemma word_token_here m n str s k stop :
  0 <= k <= n -> (stop = false -> n = 0 /\ s <> CORE_INVALID) ->
  (stop = true -> forall acc, token m str s acc (str + k) s acc) ->
  word_token m n str s k s 0 stop.
Proof.
  intros Hk Hf Ht. split; [done | split; [done |]]. destruct stop.
  - intros acc. rewrite Z.lor_0_r. by apply Ht.
  - destruct (Hf eq_refl) as [-> Hs]. repeat split; [lia | done | lia |].
    intros. rewrite Z.add_0_r, Z.lor_0_r in *. done.
Qed.

Lemma word_token_step m n str s k s' em stop :
  s <> CORE_INVALID -> m str <> 0 -> m str <> COMMA ->
  word_token m n (str + 1) (dfa_next s (m str)) k s' em stop ->
  word_token m (1 + n) str s (1 + k) s' (dfa_emit s (m str) ||| em) stop.
Proof.
  intros Hs Hz Hc (Hk & Hm & H). split; [lia | split].
  { apply lor_range; [lia | by apply dfa_future_step | done]. }
  destruct stop.
  - intros acc. apply token_step; [done.. |]. rewrite !Z.add_assoc, Z.lor_assoc. apply H.
  - destruct H as (-> & Hs' & Hnz & Ht). repeat split; [done | ..].
    + intros j Hj. destruct (decide (j = 0)) as [->|]; [by rewrite Z.add_0_r |].
      replace (str + j) with (str + 1 + (j - 1)) by lia. apply Hnz. lia.
    + intros acc str2 s2 mask2. rewrite Z.add_assoc, Z.lor_assoc. intros.
      apply token_step; [done.. |]. by apply Ht.
Qed.

Lemma word_token_invalid m n str :
  0 <= n -> word_token m n str CORE_INVALID 0 CORE_INVALID 0 true.
Proof.
  intros Hn. apply word_token_here; [lia | done |]. intros _ acc.
  rewrite Z.add_0_r. apply token_invalid.
Qed.

Lemma dfa_word_loop_token m n i str symbols s consumed mask :
  bytes_ok m -> s <> CORE_INVALID ->
  0 <= consumed -> consumed + Z.of_nat n < 2 ^ 32 ->
  (forall j, 0 <= j < Z.of_nat n -> u8 (symbols >>> (8 * (i + j))) = m (str + j)) ->
  exists k s' em stop,
    dfa_word_loop n i (code s) symbols consumed mask 0 =
      (code s', consumed + k, mask ||| em, b2z stop) /\
    word_token m (Z.of_nat n) str s k s' em stop.
Proof.
  intros Hb. revert i str s consumed mask.
  induction n as [|n IH]; intros i str s consumed mask Hs Hc Hc' Hsym.
  { exists 0, s, 0, false. rewrite Z.add_0_r, Z.lor_0_r. split; [done |].
    by apply word_token_here. }
  cbn [dfa_word_loop]. change (negb (0 =? 0)) with false. cbv iota.
  pose proof (Hsym 0 ltac:(lia)) as H0. rewrite !Z.add_0_r in H0. rewrite H0.
  destruct (Z.eqb_spec (m str) 0).
  { exists 0, s, 0, true. rewrite Z.add_0_r, Z.lor_0_r. split; [done |].
    apply word_token_here; [lia | done |]. rewrite Z.add_0_r. by constructor. }
  rewrite (wrap_small 32 (consumed + 1)) by (unfold in_range; lia).
  destruct (Z.eqb_spec (m str) COMMA).
  { exists 1, s, 0, true. rewrite Z.lor_0_r. split; [done |].
    apply word_token_here; [lia | done |]. by constructor. }
  cbv zeta. rewrite dfa_switch_edges by (done || apply Hb).
  rewrite Nat2Z.inj_succ, <- Z.add_1_l.
  destruct (decide (dfa_next s (m str) = CORE_INVALID)) as [E | E].
  { rewrite E. cbn [code]. change (1 =? 1) with true. cbv iota. rewrite dfa_word_loop_stopped.
    exists (1 + 0), CORE_INVALID, (dfa_emit s (m str) ||| 0), true. rewrite Z.lor_0_r at 1.
    split; [done |]. apply word_token_step; [done.. |]. rewrite E. apply word_token_invalid. lia. }
  replace (code (dfa_next s (m str)) =? 1) with false by (by destruct (dfa_next s (m str))).
  destruct (IH (i + 1) (str + 1) (dfa_next s (m str)) (consumed + 1) (mask ||| dfa_emit s (m str)))
    as (k & s' & em & stop & -> & Hw); [done | lia | lia | |].
  { intros j Hj. rewrite <- Z.add_assoc, Hsym by lia. f_equal. lia. }
  exists (1 + k), s', (dfa_emit s (m str) ||| em), stop.
  rewrite Z.add_assoc, Z.lor_assoc. split; [done |]. by apply word_token_step.
Qed.

(** ** Symbols of an aligned word *)

Lemma word_at_bytes m a i :
  bytes_ok m -> 0 <= i < 4 -> u8 (word_at m a >>> (8 * i)) = m (a + i).
Proof.
  intros Hb Hi.
  assert (word_at m a =
    m a ||| ((m (a + 1) ||| ((m (a + 2) ||| (m (a + 3) <<< 8)) <<< 8)) <<< 8)) as ->.
  { unfold word_at. rewrite !Z.shiftl_lor, !Z.shiftl_shiftl, !Z.lor_assoc by lia. done. }
  rewrite <- land_ff. change 255 with (Z.ones 8).
  assert (i = 0 \/ i = 1 \/ i = 2 \/ i = 3) as Hc by lia.
  destruct_or! Hc; subst i.
  - rewrite Z.shiftr_0_r, Z.add_0_r. apply lor_shiftl_low; [lia | apply Hb].
  - rewrite lor_shiftl_high by (apply Hb || lia). apply lor_shiftl_low; [lia | apply Hb].
  - change (8 * 2) with (8 + 8). rewrite <- Z.shiftr_shiftr by lia.
    rewrite !lor_shiftl_high by (apply Hb || lia). apply lor_shiftl_low; [lia | apply Hb].
  - change (8 * 3) with (8 + 8 + 8). rewrite <- !Z.shiftr_shiftr by lia.
    rewrite !lor_shiftl_high by (apply Hb || lia). rewrite Z.land_ones by lia.
    apply wrap_small, Hb.
Qed.

Lemma xdfa_symbols_bytes m a i :
  bytes_ok m -> in_range 32 a -> 0 <= i -> (a &&& 3) + i < 4 ->
  u8 (xdfa_symbols (word_at m) a >>> (8 * i)) = m (a + i).
Proof.
  intros Hb Ha Hi Ho. unfold xdfa_symbols. rewrite align4 by done.
  assert (0 <= a &&& 3) by (apply Z.land_nonneg; unfold in_range in *; lia).
  rewrite Z.shiftr_shiftr by lia. replace (8 * (a &&& 3) + 8 * i) with (8 * ((a &&& 3) + i)) by lia.
  rewrite word_at_bytes by (done || lia). f_equal. lia.
Qed.

Lemma code_range s : in_range 3 (code s).
Proof. by destruct s. Qed.

Lemma word_step_token m a s w (format2 : bool) :
  bytes_ok m -> in_range 32 a -> s <> CORE_INVALID ->
  1 <= w <= (if format2 then 2 else 4) -> (a &&& 3) + w <= 4 ->
  exists k s' em stop,
    numeric_dfa_word_step (code s) (xdfa_symbols (word_at m) a) w format2 =
      dfa_pack (if format2 then 5 else 6) (code s') k stop em /\
    word_token m w a s k s' em stop.
Proof.
  intros Hb Ha Hs Hw Ho. unfold numeric_dfa_word_step.
  destruct (dfa_word_loop_token m (Z.to_nat w) 0 a (xdfa_symbols (word_at m) a) s 0 0)
    as (k & s' & em & stop & -> & Ht); [done | done | lia | destruct format2; lia | |].
  { intros j Hj. rewrite Z.add_0_l. apply xdfa_symbols_bytes; [done | done | lia | lia]. }
  rewrite Z2Nat.id in Ht by lia. exists k, s', em, stop. split; [| done].
  rewrite Z.add_0_l, Z.lor_0_l. destruct Ht as (Hk & Hm & _).
  destruct format2; (rewrite <- dfa_pack_word; [done | lia | apply code_range | | done]);
    unfold in_range; cbn; lia.
Qed.

(** ** Word-at-a-time scanners *)

Lemma offset_range a : in_range 32 a -> 0 <= a &&& 3 < 4.
Proof. intros Ha. apply (land_range 2); [lia | unfold in_range in Ha; lia | done]. Qed.

(** One step instruction, decoded: the fields of its result say what the symbols
    did. *)
Lemma word_step_fields m str s w (format2 : bool) :
  bytes_ok m -> in_range 32 str -> s <> CORE_INVALID ->
  1 <= w <= (if format2 then 2 else 4) -> (str &&& 3) + w <= 4 ->
  let r := numeric_dfa_word_step (code s) (xdfa_symbols (word_at m) str) w format2 in
  exists k s' em stop,
    r &&& 7 = code s' /\ (r >>> 3) &&& (if format2 then 3 else 7) = k /\
    r >>> (if format2 then 6 else 7) = em /\ em &&& 0xff = em /\
    negb (r &&& (1 <<< (if format2 then 5 else 6)) =? 0) = stop /\
    word_token m w str s k s' em stop.
Proof.
  intros Hb Ha Hs Hw Ho r. unfold r.
  destruct (word_step_token m str s w format2 Hb Ha Hs Hw Ho) as (k & s' & em & stop & -> & Ht).
  pose proof Ht as (Hk & He & _).
  destruct (dfa_pack_fields (if format2 then 5 else 6) (code s') k stop em) as (E0 & E1 & E2 & E3);
    [destruct format2; lia | apply code_range | | apply He |].
  { destruct format2; unfold in_range; lia. }
  exists k, s', em, stop. rewrite land_ff, (wrap_small 8 em) by done.
  destruct format2; done.
Qed.

(** Going on behind a word that did not end the token. *)
Lemma word_token_short m w str s k s' em n :
  word_token m w str s k s' em false -> 0 <= n -> m (str + n) = 0 ->
  k = w /\ w <= n /\ s' <> CORE_INVALID /\ m (str + w + (n - w)) = 0.
Proof.
  intros (_ & _ & -> & Hs & Hnz & _) Hn Hm.
  replace (str + w + (n - w)) with (str + n) by lia. repeat split; try done.
  destruct (decide (w <= n)); [done |]. destruct (Hnz n ltac:(lia)). done.
Qed.

Section loops.
Context (m : mem) (Hb : bytes_ok m).

Lemma xdfa2_loop_token fuel str s acc n :
  s <> CORE_INVALID -> 0 <= n < Z.of_nat fuel -> m (str + n) = 0 ->
  0 <= str -> str + n < 2 ^ 32 ->
  exists str' s' mask',
    xdfa2_loop fuel m str (code s) acc = Ok (str', code s', mask') /\
    token m str s acc str' s' mask'.
Proof.
  revert str s acc n. induction fuel as [|fuel IH]; intros str s acc n Hs Hn Hm H0 H1; [lia |].
  cbn [xdfa2_loop]. unfold xdfa2_step.
  pose proof (offset_range str ltac:(unfold in_range; lia)) as Ho.
  set (w := if (str &&& 3) =? 3 then 1 else 2).
  assert (1 <= w <= 2 /\ (str &&& 3) + w <= 4) as [Hw Hw'].
  { unfold w. destruct (Z.eqb_spec (str &&& 3) 3); lia. }
  destruct (word_step_fields m str s w true) as (k & s' & em & stop & -> & -> & -> & -> & -> & Ht);
    [done | unfold in_range; lia | done.. |].
  destruct stop; [eexists _, _, _; split; [done | apply Ht] |].
  destruct (word_token_short m w str s k s' em n) as (-> & Hwn & Hs' & Hm'); [done | lia | done |].
  destruct (IH (str + w) s' (acc ||| em) (n - w)) as (str' & s2 & mask' & -> & Ht');
    [done || lia.. |].
  eexists _, _, _. split; [done |]. by apply Ht.
Qed.

Lemma xdfa4_loop_token fuel str s acc n :
  s <> CORE_INVALID -> 0 <= n < Z.of_nat fuel -> m (str + n) = 0 ->
  0 <= str -> str + n < 2 ^ 32 ->
  exists str' s' mask',
    xdfa4_loop fuel m str (code s) acc = Ok (str', code s', mask') /\
    token m str s acc str' s' mask'.
Proof.
  revert str s acc n. induction fuel as [|fuel IH]; intros str s acc n Hs Hn Hm H0 H1; [lia |].
  cbn [xdfa4_loop]. unfold xdfa4_step.
  pose proof (offset_range str ltac:(unfold in_range; lia)) as Ho.
  set (w := 4 - (str &&& 3)).
  destruct (word_step_fields m str s w false) as (k & s' & em & stop & -> & -> & -> & -> & -> & Ht);
    [done | unfold in_range; lia | done | lia | lia |].
  destruct stop; [eexists _, _, _; split; [done | apply Ht] |].
  destruct (word_token_short m w str s k s' em n) as (-> & Hwn & Hs' & Hm'); [done | lia | done |].
  destruct (IH (str + w) s' (acc ||| em) (n - w)) as (str' & s2 & mask' & -> & Ht');
    [done || lia.. |].
  eexists _, _, _. split; [done |]. by apply Ht.
Qed.

Lemma xdfa4h_loop_token fuel str s d n :
  s <> CORE_INVALID -> 0 <= n < Z.of_nat fuel -> m (str + n) = 0 ->
  0 <= str -> str + n < 2 ^ 32 ->
  exists str' s' mask',
    xdfa4h_loop fuel m str (code s) d =
      Ok (str', NumericDfa (count_mask mask' (transition_counts d))
                  (count (code s') (final_counts d)) 0) /\
    token m str s (pending_mask d) str' s' mask'.
Proof.
  revert str s d n. induction fuel as [|fuel IH]; intros str s d n Hs Hn Hm H0 H1; [lia |].
  cbn [xdfa4h_loop]. unfold xdfa4h_step.
  pose proof (offset_range str ltac:(unfold in_range; lia)) as Ho.
  set (w := 4 - (str &&& 3)).
  destruct (word_step_fields m str s w false) as (k & s' & em & stop & -> & -> & -> & _ & -> & Ht);
    [done | unfold in_range; lia | done | lia | lia |].
  destruct stop; [eexists _, _, _; split; [done | apply Ht] |].
  destruct (word_token_short m w str s k s' em n) as (-> & Hwn & Hs' & Hm'); [done | lia | done |].
  destruct (IH (str + w) s'
    (NumericDfa (transition_counts d) (final_counts d) (pending_mask d ||| em)) (n - w))
    as (str' & s2 & mask' & -> & Ht'); [done || lia.. |].
  eexists _, _, _. split; [done |]. by apply Ht.
Qed.
End loops.

(** ** The four scanners *)

Definition dfa_ok (d : numeric_dfa) : Prop :=
  length (transition_counts d) = 8%nat /\ length (final_counts d) = 8%nat /\
  pending_mask d = 0.

(** What a token costs and does, whichever scanner reads it. *)
Lemma transitions_agree m p n fuel d :
  bytes_ok m -> dfa_ok d -> 0 <= p -> p + n < 2 ^ 32 ->
  0 <= n < Z.of_nat fuel -> m (p + n) = 0 ->
  exists p' s cnt,
    core_state_transition fuel m p (transition_counts d) = Ok (p', (s, cnt)) /\
    length cnt = 8%nat /\ p <= p' <= p + n /\ (m p <> 0 -> p < p') /\
    xdfacnt_transition fuel m p d = Ok (p', (code s, with_counts cnt d)) /\
    xdfa2_transition fuel m p d = Ok (p', (code s, with_counts cnt d)) /\
    xdfa4_transition fuel m p d = Ok (p', (code s, with_counts cnt d)) /\
    xdfa4h_transition fuel m p d =
      Ok (p', NumericDfa cnt (count (code s) (final_counts d)) 0).
Proof.
  intros Hb (Hl & _ & Hp) H0 H1 Hn Hm.
  destruct (core_state_loop_token fuel m p CORE_START 0 (transition_counts d) n)
    as (p' & s & mask & E & Ht); [done.. |].
  rewrite count_mask_0 in E by done.
  exists p', s, (count_mask mask (transition_counts d)).
  unfold xdfacnt_transition, core_state_transition, xdfa2_transition, xdfa4_transition,
    xdfa4h_transition.
  rewrite xdfacnt_loop_core, E by done.
  destruct (xdfa2_loop_token m Hb fuel p CORE_START 0 n) as (p2 & s2 & mask2 & -> & Ht2); [done || lia.. |].
  destruct (xdfa4_loop_token m Hb fuel p CORE_START 0 n) as (p4 & s4 & mask4 & -> & Ht4); [done || lia.. |].
  destruct (xdfa4h_loop_token m Hb fuel p CORE_START d n) as (ph & sh & maskh & -> & Hth); [done || lia.. |].
  rewrite Hp in Hth.
  destruct (token_det _ _ _ _ _ _ _ _ _ _ Ht Ht2) as (<- & <- & <-).
  destruct (token_det _ _ _ _ _ _ _ _ _ _ Ht Ht4) as (<- & <- & <-).
  destruct (token_det _ _ _ _ _ _ _ _ _ _ Ht Hth) as (<- & <- & <-).
  pose proof (token_bounds _ _ _ _ _ _ _ n Ht ltac:(lia) Hm).
  repeat split; try done; [by apply length_count_mask | lia | lia |].
  intros. apply (token_progress _ _ _ _ _ _ _ n Ht); [lia | done..].
Qed.

(** C3. Reading one token: from any address [p] at which a NUL byte follows
    within [n] bytes, the software automaton of CoreMark and the three sequences of
    accelerator instructions (one counter increment per edge, two symbols per
    step, four symbols per step, and four symbols per step with the counters kept in
    hardware) all terminate within [n + 1] iterations, leave the string pointer at
    the same byte (at or before the NUL, and past [p] unless [p] is at the NUL),
    end in the same state and bump the same counters. *)
Theorem numeric_dfa_transitions_agree m p n fuel d :
  bytes_ok m -> dfa_ok d -> 0 <= p -> p + n < 2 ^ 32 ->
  0 <= n < Z.of_nat fuel -> m (p + n) = 0 ->
  exists p' s cnt,
    core_state_transition fuel m p (transition_counts d) = Ok (p', (s, cnt)) /\
    length cnt = 8%nat /\ p <= p' <= p + n /\ (m p <> 0 -> p < p') /\
    xdfacnt_transition fuel m p d = Ok (p', (code s, with_counts cnt d)) /\
    xdfa2_transition fuel m p d = Ok (p', (code s, with_counts cnt d)) /\
    xdfa4_transition fuel m p d = Ok (p', (code s, with_counts cnt d)) /\
    xdfa4h_transition fuel m p d =
      Ok (p', NumericDfa cnt (count (code s) (final_counts d)) 0).
Proof. apply transitions_agree. Qed.

(** The token ["-3.5e+2,"], read from an address that is not word aligned. *)
Definition sample_token : list Z := [45; 51; 46; 53; 101; 43; 50; 44; 55].

Lemma numeric_dfa_transitions_agree_witness :
  exists p' s cnt,
    core_state_transition 10 (mem_of 4097 sample_token) 4097 (replicate 8 0) = Ok (p', (s, cnt)) /\
    length cnt = 8%nat /\ 4097 <= p' <= 4097 + 9 /\ (mem_of 4097 sample_token 4097 <> 0 -> 4097 < p') /\
    let d := NumericDfa (replicate 8 0) (replicate 8 0) 0 in
    xdfacnt_transition 10 (mem_of 4097 sample_token) 4097 d = Ok (p', (code s, with_counts cnt d)) /\
    xdfa2_transition 10 (mem_of 4097 sample_token) 4097 d = Ok (p', (code s, with_counts cnt d)) /\
    xdfa4_transition 10 (mem_of 4097 sample_token) 4097 d = Ok (p', (code s, with_counts cnt d)) /\
    xdfa4h_transition 10 (mem_of 4097 sample_token) 4097 d =
      Ok (p', NumericDfa cnt (count (code s) (replicate 8 0)) 0).
Proof.
  apply (numeric_dfa_transitions_agree _ 4097 9 10 (NumericDfa (replicate 8 0) (replicate 8 0) 0)).
  - apply mem_of_bytes. unfold sample_token, in_range. repeat constructor; lia.
  - done.
  - lia.
  - lia.
  - lia.
  - reflexivity.
Defined.

Example sample_token_result :
  xdfa4_transition 10 (mem_of 4097 sample_token) 4097 (NumericDfa (replicate 8 0) (replicate 8 0) 0)
  = Ok (4105, (7, NumericDfa [1; 0; 1; 1; 1; 1; 1; 0] (replicate 8 0) 0)).
Proof. vm_compute. reflexivity. Qed.
