(* ===== verification/StateBench.v ===== *)
(** The state-machine benchmark: [core_bench_state] and [core_init_state] of
    core_state.c, and the four benchmark bodies of xaccel_wrappers.c that replace
    the former. *)

From S2P Require Import Prelude Crc NumericDfa.

(** ** The loops all benchmark bodies share *)

(** [while ( *p != 0) st = body(&p, st)] *)
Fixpoint while_tokens {St} (fuel : nat) (m : mem) (body : Z -> St -> res (Z * St))
    (p : Z) (st : St) : res St :=
  match fuel with
  | O => Fault FFuel
  | S fuel =>
      if m p =? 0 then Ok st
      else '(p, st) ← body p st; while_tokens fuel m body p st
  end.

(** [while (p < limit) { if ( *p != ',') *p ^= (ee_u8)seed; p += step; }] *)
Fixpoint corrupt (fuel : nat) (m : mem) (p limit seed step : Z) : res mem :=
  match fuel with
  | O => Fault FFuel
  | S fuel =>
      if p <? limit then
        let m := if negb (m p =? COMMA) then mwrite m p (m p ^^^ u8 seed) else m in
        corrupt fuel m (p + step) limit seed step
      else Ok m
  end.

(** [for (i = 0; i < 8; i++) { crc = f(final(i), crc); crc = f(track(i), crc); }] *)
Definition crc_counts_step (f : Z -> Z -> Z) (final track : Z -> Z) (st : Z * Z) : Z * Z :=
  let '(i, crc) := st in
  let crc := f (final i) crc in
  (i + 1, f (track i) crc).

Definition crc_counts (f : Z -> Z -> Z) (final track : Z -> Z) (crc : Z) : Z :=
  (loop 8 (crc_counts_step f final track) (0, crc)).2.

(** ** core_state.c *)

Definition core_bench_body (fuel : nat) (m : mem) (p : Z) (st : list Z * list Z)
    : res (Z * (list Z * list Z)) :=
  let '(final, track) := st in
  '(p, (fstate, track)) ← core_state_transition fuel m p track;
  Ok (p, (count (code fstate) final, track)).

Definition core_bench_state (fuel : nat) (m : mem) (blksize memblock seed1 seed2 step crc : Z)
    : res (Z * mem) :=
  let st := (replicate 8 0, replicate 8 0) in
  st ← while_tokens fuel m (core_bench_body fuel m) memblock st;
  m ← corrupt fuel m memblock (memblock + blksize) seed1 step;
  '(final, track) ← while_tokens fuel m (core_bench_body fuel m) memblock st;
  m ← corrupt fuel m memblock (memblock + blksize) seed2 step;
  Ok (crc_counts crcu32 (aget 0 final) (aget 0 track) crc, m).

(** ** xaccel_wrappers.c *)

Definition final_counts_body (transition : Z -> numeric_dfa -> res (Z * (Z * numeric_dfa)))
    (p : Z) (st : list Z * numeric_dfa) : res (Z * (list Z * numeric_dfa)) :=
  let '(final, d) := st in
  '(p, (state, d)) ← transition p d;
  Ok (p, (count state final, d)).

Definition xaccel_xdfacnt_bench (fuel : nat) (m : mem) (d : numeric_dfa)
    (blksize memblock seed1 seed2 step crc : Z) : res (Z * mem * numeric_dfa) :=
  let st := (replicate 8 0, xdfacnt_init d) in
  st ← while_tokens fuel m (final_counts_body (xdfacnt_transition fuel m)) memblock st;
  m ← corrupt fuel m memblock (memblock + blksize) seed1 step;
  '(final, d) ← while_tokens fuel m (final_counts_body (xdfacnt_transition fuel m)) memblock st;
  m ← corrupt fuel m memblock (memblock + blksize) seed2 step;
  Ok (crc_counts xaccel_crc32_u8 (aget 0 final) (fun i => xdfacnt_read i d) crc, m, d).

Definition numeric_token_scan_xdfa2 (fuel : nat) (m : mem) (d : numeric_dfa)
    (blksize memblock seed1 seed2 step crc : Z) : res (Z * mem * numeric_dfa) :=
  let st := (replicate 8 0, xdfacnt_init d) in
  st ← while_tokens fuel m (final_counts_body (xdfa2_transition fuel m)) memblock st;
  m ← corrupt fuel m memblock (memblock + blksize) seed1 step;
  '(final, d) ← while_tokens fuel m (final_counts_body (xdfa2_transition fuel m)) memblock st;
  m ← corrupt fuel m memblock (memblock + blksize) seed2 step;
  Ok (crc_counts xaccel_crc32_u8 (aget 0 final) (fun i => xdfacnt_read i d) crc, m, d).

Definition numeric_token_scan_xdfa4 (fuel : nat) (m : mem) (d : numeric_dfa)
    (blksize memblock seed1 seed2 step crc : Z) : res (Z * mem * numeric_dfa) :=
  let st := (replicate 8 0, xdfacnt_init d) in
  st ← while_tokens fuel m (final_counts_body (xdfa4_transition fuel m)) memblock st;
  m ← corrupt fuel m memblock (memblock + blksize) seed1 step;
  '(final, d) ← while_tokens fuel m (final_counts_body (xdfa4_transition fuel m)) memblock st;
  m ← corrupt fuel m memblock (memblock + blksize) seed2 step;
  Ok (crc_counts xaccel_crc32_u8 (aget 0 final) (fun i => xdfacnt_read i d) crc, m, d).

Definition numeric_token_scan_xdfa4h (fuel : nat) (m : mem) (d : numeric_dfa)
    (blksize memblock seed1 seed2 step crc : Z) : res (Z * mem * numeric_dfa) :=
  let d := xdfacnt_init d in
  d ← while_tokens fuel m (xdfa4h_transition fuel m) memblock d;
  m ← corrupt fuel m memblock (memblock + blksize) seed1 step;
  d ← while_tokens fuel m (xdfa4h_transition fuel m) memblock d;
  m ← corrupt fuel m memblock (memblock + blksize) seed2 step;
  Ok (crc_counts xaccel_crc32_u8 (fun i => xdfa4h_final_read i d)
        (fun i => xdfacnt_read i d) crc, m, d).

(** ** core_state.c: the input *)

Definition intpat : list (list Z) :=
  bytes <$> ["5012"; "1234"; "-874"; "+122"]%string.
Definition floatpat : list (list Z) :=
  bytes <$> ["35.54400"; ".1234500"; "-110.700"; "+0.64400"]%string.
Definition scipat : list (list Z) :=
  bytes <$> ["5.500e+3"; "-.123e-2"; "-87e+832"; "+0.6e-12"]%string.
Definition errpat : list (list Z) :=
  bytes <$> ["T0.3e-1F"; "-T.T++Tq"; "1T3.4e4z"; "34.0e-T^"]%string.

(** The [switch (seed & 0x7)]: the buffer and its length. *)
Definition choose_pattern (seed : Z) : list Z * Z :=
  let k := seed &&& 7 in
  if k <=? 2 then (aget [] intpat ((seed >>> 3) &&& 3), 4)
  else if k <=? 4 then (aget [] floatpat ((seed >>> 3) &&& 3), 8)
  else if k <=? 6 then (aget [] scipat ((seed >>> 3) &&& 3), 8)
  else (aget [] errpat ((seed >>> 3) &&& 3), 8).

(** [for (i = 0; i < next; i++) *(p + total + i) = buf[i];] *)
Definition copy_pattern_step (buf : list Z) (dst : Z) (st : Z * mem) : Z * mem :=
  let '(i, m) := st in (i + 1, mwrite m (dst + i) (aget 0 buf i)).

Fixpoint init_fill (fuel : nat) (m : mem) (p size total next : Z) (buf : list Z) (seed : Z)
    : res (Z * mem) :=
  match fuel with
  | O => Fault FFuel
  | S fuel =>
      if u32 (total + next + 1) <? size then
        let '(total, m) :=
          if 0 <? next then
            let '(i, m) := loop (Z.to_nat next) (copy_pattern_step buf (p + total)) (0, m) in
            (u32 (total + next + 1), mwrite m (p + total + i) COMMA)
          else (total, m) in
        let seed := s16 (seed + 1) in
        let '(buf, next) := choose_pattern seed in
        init_fill fuel m p size total next buf seed
      else Ok (total, m)
  end.

(** [while (total < size) { *(p + total) = 0; total++; }] *)
Fixpoint init_zeros (fuel : nat) (m : mem) (p size total : Z) : res mem :=
  match fuel with
  | O => Fault FFuel
  | S fuel =>
      if total <? size then init_zeros fuel (mwrite m (p + total) 0) p size (u32 (total + 1))
      else Ok m
  end.

Definition core_init_state (fuel : nat) (m : mem) (size seed p : Z) : res mem :=
  let size := u32 (size - 1) in
  '(total, m) ← init_fill fuel m p size 0 0 [] seed;
  let size := u32 (size + 1) in
  init_zeros fuel m p size total.

(** ** Corruption *)

Definition corrupt_byte (seed b : Z) : Z := if b =? COMMA then b else b ^^^ u8 seed.

Lemma corrupt_spec fuel m p limit seed step :
  0 < step -> 0 <= limit - p < Z.of_nat fuel ->
  exists m', corrupt fuel m p limit seed step = Ok m' /\
    forall a, m' a =
      if (p <=? a) && (a <? limit) && ((a - p) mod step =? 0)
      then corrupt_byte seed (m a) else m a.
Proof.
  intros Hs. revert m p. induction fuel as [|fuel IH]; intros m p Hf; [lia |].
  cbn [corrupt]. destruct (Z.ltb_spec p limit); [| eexists; split; [done |]; intros a;
    by replace ((p <=? a) && (a <? limit)) with false by lia].
  set (m1 := if negb (m p =? COMMA) then _ else m).
  assert (forall a, m1 a = if a =? p then corrupt_byte seed (m p) else m a) as Hm1.
  { intros a. unfold m1, corrupt_byte, mwrite. destruct (Z.eqb_spec (m p) COMMA); cbn;
      destruct (Z.eqb_spec a p); congruence. }
  destruct (decide (p + step <= limit)) as [Hle | Hgt].
  - destruct (IH m1 (p + step)) as (m' & -> & Hm'); [lia |]. eexists; split; [done |]. intros a.
    rewrite Hm', Hm1. destruct (Z.eqb_spec a p) as [-> |].
    { rewrite Z.sub_diag, Z.mod_0_l by lia. by replace (p + step <=? p) with false by lia;
        replace (p <=? p) with true by lia; replace (p <? limit) with true by lia. }
    replace (a - (p + step)) with (a - p + (-1) * step) by lia. rewrite Z.mod_add by lia.
    destruct (Z.leb_spec p a), (Z.leb_spec (p + step) a); try lia; try done.
    destruct (a <? limit); [cbn | done].
    rewrite Z.mod_small by lia. by replace (a - p =? 0) with false by lia.
  - exists m1. split.
    { destruct fuel; [lia |]. cbn [corrupt]. by replace (p + step <? limit) with false by lia. }
    intros a. rewrite Hm1. destruct (Z.eqb_spec a p) as [-> |].
    { rewrite Z.sub_diag, Z.mod_0_l by lia. by replace (p <=? p) with true by lia;
        replace (p <? limit) with true by lia. }
    destruct (Z.leb_spec p a), (Z.ltb_spec a limit); try done. cbn.
    rewrite Z.mod_small by lia. by replace (a - p =? 0) with false by lia.
Qed.

Lemma corrupt_bytes_ok m m' p limit seed step :
  bytes_ok m ->
  (forall a, m' a =
      if (p <=? a) && (a <? limit) && ((a - p) mod step =? 0)
      then corrupt_byte seed (m a) else m a) -> bytes_ok m'.
Proof.
  intros Hb E a. rewrite E. destruct (_ && _); [| apply Hb]. unfold corrupt_byte.
  destruct (_ =? _); [apply Hb |]. apply lxor_range; [lia | apply Hb | auto with cint].
Qed.

(** ** Token loops simulate each other *)

(** A NUL byte [n] bytes behind [p], inside the address space. *)
Definition nul_at (m : mem) (p n : Z) : Prop :=
  0 <= n /\ 0 <= p /\ p + n < 2 ^ 32 /\ m (p + n) = 0.

Lemma while_tokens_sim {A B} (R : A -> B -> Prop) m f g fuel p n a b :
  (forall p n a b, nul_at m p n -> n < Z.of_nat fuel -> R a b ->
     exists p' a' b', f p a = Ok (p', a') /\ g p b = Ok (p', b') /\ R a' b' /\
       p <= p' <= p + n /\ (m p <> 0 -> p < p')) ->
  nul_at m p n -> n < Z.of_nat fuel -> R a b ->
  exists a' b', while_tokens fuel m f p a = Ok a' /\ while_tokens fuel m g p b = Ok b' /\ R a' b'.
Proof.
  intros Hfg. assert (forall k p n a b, nul_at m p n -> n < Z.of_nat k -> (k <= fuel)%nat -> R a b ->
    exists a' b', while_tokens k m f p a = Ok a' /\ while_tokens k m g p b = Ok b' /\ R a' b') as H.
  { clear p n a b. intros k. induction k as [|k IH]; intros p n a b Hn Hk Hle HR;
      [destruct Hn; lia |]. cbn [while_tokens].
    destruct (Z.eqb_spec (m p) 0) as [| Hnz]; [by eexists _, _ |].
    destruct (Hfg p n a b) as (p' & a' & b' & -> & -> & HR' & Hp & Hlt); [done | lia | done |].
    specialize (Hlt Hnz). destruct Hn as (? & ? & ? & Hm). cbn.
    apply (IH p' (n - (p' - p))); [| lia | lia | done].
    repeat split; try lia. by replace (p' + (n - (p' - p))) with (p + n) by lia. }
  intros. by eapply H.
Qed.

(** The software state [(final_counts, track_counts)] against the accelerator's. *)
Definition counts_in_c (st : list Z * list Z) (st' : list Z * numeric_dfa) : Prop :=
  dfa_ok st'.2 /\ length st.1 = 8%nat /\ st'.1 = st.1 /\ transition_counts st'.2 = st.2.

Definition counts_in_hw (st : list Z * list Z) (d : numeric_dfa) : Prop :=
  dfa_ok d /\ final_counts d = st.1 /\ transition_counts d = st.2.

Lemma length_count k cnt : length (count k cnt) = length cnt.
Proof. apply length_aset. Qed.

Section scan.
Context (m : mem) (fuel : nat) (Hb : bytes_ok m).

(** The three bodies that count final states in C. *)
Definition same_token (transition : Z -> numeric_dfa -> res (Z * (Z * numeric_dfa))) : Prop :=
  forall p n d, nul_at m p n -> n < Z.of_nat fuel -> dfa_ok d ->
    exists p' s cnt,
      core_state_transition fuel m p (transition_counts d) = Ok (p', (s, cnt)) /\
      length cnt = 8%nat /\ p <= p' <= p + n /\ (m p <> 0 -> p < p') /\
      transition p d = Ok (p', (code s, with_counts cnt d)).

Lemma final_counts_body_sim transition p n st st' :
  same_token transition -> nul_at m p n -> n < Z.of_nat fuel -> counts_in_c st st' ->
  exists p' st1 st1',
    core_bench_body fuel m p st = Ok (p', st1) /\
    final_counts_body transition p st' = Ok (p', st1') /\ counts_in_c st1 st1' /\
    p <= p' <= p + n /\ (m p <> 0 -> p < p').
Proof.
  destruct st as [final track], st' as [final' d].
  intros HT Hn Hf (Hd & Hl & Hfin & Htr). cbn in *. subst.
  destruct (HT p n d) as (p' & s & cnt & E & Hc & Hp & Hlt & E'); [done.. |].
  rewrite E, E'. cbn. eexists _, _, _. repeat split; try done; cbn; rewrite ?length_count; try lia;
    try done; apply Hd.
Qed.

Lemma xdfa4h_body_sim p n st d :
  nul_at m p n -> n < Z.of_nat fuel -> counts_in_hw st d ->
  exists p' st1 d1,
    core_bench_body fuel m p st = Ok (p', st1) /\
    xdfa4h_transition fuel m p d = Ok (p', d1) /\ counts_in_hw st1 d1 /\
    p <= p' <= p + n /\ (m p <> 0 -> p < p').
Proof.
  destruct st as [final track]. intros (? & ? & ? & ?) Hf (Hd & Hfin & Htr). cbn in *. subst.
  destruct (transitions_agree m p n fuel d)
    as (p' & s & cnt & E & Hc & Hp & Hlt & _ & _ & _ & E'); [done || lia.. |].
  rewrite E, E'. cbn. eexists _, _, _. destruct Hd as (? & ? & ?).
  repeat split; try done; cbn; rewrite ?length_count; try lia; done.
Qed.

Lemma same_token_all :
  same_token (xdfacnt_transition fuel m) /\ same_token (xdfa2_transition fuel m) /\
  same_token (xdfa4_transition fuel m).
Proof.
  split_and!; intros p n d (? & ? & ? & ?) Hf Hd;
    destruct (transitions_agree m p n fuel d)
      as (p' & s & cnt & E & Hc & Hp & Hlt & E1 & E2 & E3 & _); try (done || lia);
    exists p', s, cnt; done.
Qed.
End scan.

Lemma crc_counts_accel final track final' track' crc :
  in_range 16 crc -> (forall i, final' i = final i) -> (forall i, track' i = track i) ->
  crc_counts xaccel_crc32_u8 final' track' crc = crc_counts crcu32 final track crc.
Proof.
  intros Hc Hf Ht. unfold crc_counts. f_equal.
  apply (loop_sim (fun st => in_range 16 st.2)); [| done].
  intros [i c] H. cbn [snd] in H. unfold crc_counts_step. cbn [snd]. rewrite Hf, Ht.
  rewrite !xaccel_crc32_u8_crcu32 by (rewrite ?xaccel_crc32_u8_crcu32 by done; auto using crcu32_range).
  auto using crcu32_range.
Qed.

Lemma aget_past {A} (d : A) l i : Z.of_nat (length l) <= i -> aget d l i = d.
Proof. intros H. apply nth_overflow. lia. Qed.

Lemma counter_reads d :
  dfa_ok d ->
  (forall i, xdfacnt_read i d = aget 0 (transition_counts d) i) /\
  (forall i, xdfa4h_final_read i d = aget 0 (final_counts d) i).
Proof.
  intros (Ht & Hf & _). unfold xdfacnt_read, xdfa4h_final_read.
  split; intros i; destruct (Z.ltb_spec i 8); try done; by rewrite aget_past by lia.
Qed.

(** A NUL byte of the block that the corruption does not touch. *)
Definition safe_nul (m : mem) (memblock blksize step : Z) : Prop :=
  exists k, 0 <= k < blksize /\ k mod step <> 0 /\ m (memblock + k) = 0.

Section bench.
Context (m : mem) (blksize memblock seed1 seed2 step crc : Z) (fuel : nat).
Context (Hb : bytes_ok m) (H0 : 0 <= memblock) (H1 : memblock + blksize < 2 ^ 32).
Context (Hs : 0 < step) (Hc : in_range 16 crc) (Hf : blksize < Z.of_nat fuel).
Context (Hnul : safe_nul m memblock blksize step).

(** The memory between and after the two scans, and the NUL byte both see. *)
Lemma bench_memory :
  exists m1 m2 n,
    corrupt fuel m memblock (memblock + blksize) seed1 step = Ok m1 /\ bytes_ok m1 /\
    corrupt fuel m1 memblock (memblock + blksize) seed2 step = Ok m2 /\
    n < Z.of_nat fuel /\ nul_at m memblock n /\ nul_at m1 memblock n /\
    forall a, m2 a =
      if (memblock <=? a) && (a <? memblock + blksize) && ((a - memblock) mod step =? 0)
      then corrupt_byte seed2 (corrupt_byte seed1 (m a)) else m a.
Proof.
  destruct Hnul as (n & Hn & Hmod & Hz).
  destruct (corrupt_spec fuel m memblock (memblock + blksize) seed1 step) as (m1 & E1 & S1); [lia.. |].
  destruct (corrupt_spec fuel m1 memblock (memblock + blksize) seed2 step) as (m2 & E2 & S2); [lia.. |].
  exists m1, m2, n. repeat split; try done; try lia.
  - by eapply corrupt_bytes_ok; eauto.
  - by eapply corrupt_bytes_ok; eauto.
  - rewrite S1, Z.add_simpl_l. replace (n mod step =? 0) with false by lia.
    by rewrite andb_false_r.
  - intros a. rewrite S2, S1. by destruct (_ && _).
Qed.

(** One benchmark body that counts final states in C. *)
Lemma final_counts_bench_agrees d transition m1 m2 n :
  corrupt fuel m memblock (memblock + blksize) seed1 step = Ok m1 -> bytes_ok m1 ->
  corrupt fuel m1 memblock (memblock + blksize) seed2 step = Ok m2 ->
  n < Z.of_nat fuel -> nul_at m memblock n -> nul_at m1 memblock n ->
  (forall m, bytes_ok m -> same_token m fuel (transition m)) ->
  exists r d',
    core_bench_state fuel m blksize memblock seed1 seed2 step crc = Ok (r, m2) /\
    (st ← while_tokens fuel m (final_counts_body (transition m)) memblock
            (replicate 8 0, xdfacnt_init d);
     m ← corrupt fuel m memblock (memblock + blksize) seed1 step;
     '(final, d) ← while_tokens fuel m (final_counts_body (transition m)) memblock st;
     m ← corrupt fuel m memblock (memblock + blksize) seed2 step;
     Ok (crc_counts xaccel_crc32_u8 (aget 0 final) (fun i => xdfacnt_read i d) crc, m, d))
    = Ok (r, m2, d').
Proof.
  intros E1 Hb1 E2 Hn Hnul0 Hnul1 HT.
  destruct (while_tokens_sim counts_in_c m (core_bench_body fuel m)
    (final_counts_body (transition m)) fuel memblock n (replicate 8 0, replicate 8 0)
    (replicate 8 0, xdfacnt_init d)) as (st & st' & Ew & Ew' & HR); try done.
  { intros. apply final_counts_body_sim; auto. }
  destruct (while_tokens_sim counts_in_c m1 (core_bench_body fuel m1)
    (final_counts_body (transition m1)) fuel memblock n st st')
    as (st2 & st2' & Ew2 & Ew2' & HR2); try done.
  { intros. apply final_counts_body_sim; auto. }
  unfold core_bench_state. rewrite Ew, Ew'. cbn [mbind res_bind]. rewrite E1.
  cbn [mbind res_bind]. rewrite Ew2, Ew2'. cbn [mbind res_bind].
  destruct st2 as [final track], st2' as [final' d']. rewrite E2. cbn [mbind res_bind].
  destruct HR2 as (Hd & _ & Hfin & Htr). cbn in Hfin, Htr. subst.
  eexists _, d'. split; [done |]. f_equal. f_equal. f_equal.
  apply crc_counts_accel; [done | done |]. by apply counter_reads.
Qed.

Lemma xdfa4h_bench_agrees d m1 m2 n :
  corrupt fuel m memblock (memblock + blksize) seed1 step = Ok m1 -> bytes_ok m1 ->
  corrupt fuel m1 memblock (memblock + blksize) seed2 step = Ok m2 ->
  n < Z.of_nat fuel -> nul_at m memblock n -> nul_at m1 memblock n ->
  exists r d',
    core_bench_state fuel m blksize memblock seed1 seed2 step crc = Ok (r, m2) /\
    numeric_token_scan_xdfa4h fuel m d blksize memblock seed1 seed2 step crc = Ok (r, m2, d').
Proof.
  intros E1 Hb1 E2 Hn Hnul0 Hnul1.
  destruct (while_tokens_sim counts_in_hw m (core_bench_body fuel m)
    (xdfa4h_transition fuel m) fuel memblock n (replicate 8 0, replicate 8 0)
    (xdfacnt_init d)) as (st & st' & Ew & Ew' & HR); try done.
  { intros. apply xdfa4h_body_sim; auto. }
  destruct (while_tokens_sim counts_in_hw m1 (core_bench_body fuel m1)
    (xdfa4h_transition fuel m1) fuel memblock n st st')
    as (st2 & d' & Ew2 & Ew2' & HR2); try done.
  { intros. apply xdfa4h_body_sim; auto. }
  unfold core_bench_state, numeric_token_scan_xdfa4h. rewrite Ew, Ew'. cbn [mbind res_bind].
  rewrite E1. cbn [mbind res_bind]. rewrite Ew2, Ew2'. cbn [mbind res_bind].
  destruct st2 as [final track]. rewrite E2. cbn [mbind res_bind].
  destruct HR2 as (Hd & Hfin & Htr). cbn in Hfin, Htr. subst.
  eexists _, d'. split; [done |]. f_equal. f_equal. f_equal.
  apply crc_counts_accel; [done | by apply counter_reads | by apply counter_reads].
Qed.

(** C9. The whole benchmark: on a block that holds a NUL byte at an offset the
    corruption does not visit, and with fuel beyond the block size, [core_bench_state]
    and all four accelerated bodies terminate, return the same CRC and leave the same
    memory, whatever the accelerator's counters held before. *)
Theorem bench_state_accel_equivalent d :
  exists r m' d1 d2 d3 d4,
    core_bench_state fuel m blksize memblock seed1 seed2 step crc = Ok (r, m') /\
    xaccel_xdfacnt_bench fuel m d blksize memblock seed1 seed2 step crc = Ok (r, m', d1) /\
    numeric_token_scan_xdfa2 fuel m d blksize memblock seed1 seed2 step crc = Ok (r, m', d2) /\
    numeric_token_scan_xdfa4 fuel m d blksize memblock seed1 seed2 step crc = Ok (r, m', d3) /\
    numeric_token_scan_xdfa4h fuel m d blksize memblock seed1 seed2 step crc = Ok (r, m', d4).
Proof.
  destruct bench_memory as (m1 & m2 & n & E1 & Hb1 & E2 & Hn & Hn0 & Hn1 & _).
  destruct (final_counts_bench_agrees d (xdfacnt_transition fuel) m1 m2 n)
    as (r & d1 & E & Ea); [done.. | intros; by apply same_token_all |].
  destruct (final_counts_bench_agrees d (xdfa2_transition fuel) m1 m2 n)
    as (r2 & d2 & Er2 & Eb); [done.. | intros; by apply same_token_all |].
  destruct (final_counts_bench_agrees d (xdfa4_transition fuel) m1 m2 n)
    as (r3 & d3 & Er3 & Ec); [done.. | intros; by apply same_token_all |].
  destruct (xdfa4h_bench_agrees d m1 m2 n) as (r4 & d4 & Er4 & Ed); [done.. |].
  rewrite E in Er2, Er3, Er4. injection Er2 as <-. injection Er3 as <-. injection Er4 as <-.
  exists r, m2, d1, d2, d3, d4. split_and!; assumption.
Qed.

(** With equal seeds the benchmark restores its input: if no visited byte
    becomes a comma under the corruption (a corrupted comma would be skipped by
    the second pass), the block after [core_bench_state] is the block before it. *)
Theorem bench_state_restores_block :
  u8 seed1 = u8 seed2 ->
  (forall a, memblock <= a < memblock + blksize -> m a <> COMMA ^^^ u8 seed1) ->
  exists r m', core_bench_state fuel m blksize memblock seed1 seed2 step crc = Ok (r, m') /\
    forall a, m' a = m a.
Proof.
  intros Hseed Hcomma.
  destruct bench_memory as (m1 & m2 & n & E1 & Hb1 & E2 & Hn & Hn0 & Hn1 & Hm2).
  destruct (final_counts_bench_agrees (NumericDfa [] [] 0) (xdfacnt_transition fuel) m1 m2 n)
    as (r & _ & E & _); [done.. | intros; by apply same_token_all |].
  exists r, m2. split; [done |]. intros a. rewrite Hm2.
  destruct (Z.leb_spec memblock a), (Z.ltb_spec a (memblock + blksize)); try done. cbn.
  destruct (_ =? 0); [| done]. unfold corrupt_byte. rewrite <- Hseed.
  destruct (Z.eqb_spec (m a) COMMA) as [E0 |]; [by rewrite E0, Z.eqb_refl |].
  destruct (Z.eqb_spec (m a ^^^ u8 seed1) COMMA) as [E0 |].
  - destruct (Hcomma a); [lia |]. by rewrite <- E0, Z.lxor_assoc, Z.lxor_nilpotent, Z.lxor_0_r.
  - by rewrite Z.lxor_assoc, Z.lxor_nilpotent, Z.lxor_0_r.
Qed.
End bench.

(** A block whose bytes are reached by a corruption with step 3. *)
Definition sample_block : list Z := bytes "5012,-T.T++Tq,35.54400,-87e+832,".

Lemma sample_block_ok : bytes_ok (mem_of 0x80001001 sample_block).
Proof. apply mem_of_bytes. vm_compute. repeat constructor; discriminate. Qed.

Lemma bench_state_accel_equivalent_witness :
  exists r m' d1 d2 d3 d4,
    let m := mem_of 0x80001001 sample_block in
    let d := NumericDfa [9; 9; 9; 9; 9; 9; 9; 9] [9; 9; 9; 9; 9; 9; 9; 9] 5 in
    core_bench_state 40 m 36 0x80001001 0x3415 0x3415 3 0 = Ok (r, m') /\
    xaccel_xdfacnt_bench 40 m d 36 0x80001001 0x3415 0x3415 3 0 = Ok (r, m', d1) /\
    numeric_token_scan_xdfa2 40 m d 36 0x80001001 0x3415 0x3415 3 0 = Ok (r, m', d2) /\
    numeric_token_scan_xdfa4 40 m d 36 0x80001001 0x3415 0x3415 3 0 = Ok (r, m', d3) /\
    numeric_token_scan_xdfa4h 40 m d 36 0x80001001 0x3415 0x3415 3 0 = Ok (r, m', d4).
Proof.
  apply bench_state_accel_equivalent; [apply sample_block_ok | unfold in_range; lia.. |].
  exists 34. repeat split; discriminate.
Defined.

Example bench_state_sample_crc :
  fst <$> core_bench_state 40 (mem_of 0x80001001 sample_block) 36 0x80001001 0x3415 0x3415 3 0
  = Ok 55803.
Proof. vm_compute. reflexivity. Qed.

Lemma bench_state_restores_block_witness :
  exists r m',
    core_bench_state 40 (mem_of 0x80001001 sample_block) 36 0x80001001 0x3415 0x3415 3 0 = Ok (r, m') /\
    forall a, m' a = mem_of 0x80001001 sample_block a.
Proof.
  apply bench_state_restores_block; [apply sample_block_ok | unfold in_range; lia.. | | done |].
  - exists 34. repeat split; discriminate.
  - intros a Ha. change (COMMA ^^^ u8 0x3415) with 57.
    assert (Forall (fun b => b <> 57) sample_block) as H by (vm_compute; repeat constructor; discriminate).
    unfold mem_of. destruct (_ <=? a); [| done]. rewrite nth_lookup.
    destruct (sample_block !! _) eqn:E; [| done]. by apply (Forall_lookup_1 _ _ _ _ H E).
Defined.

(** A byte that the corruption turns into a comma is not restored: with both seeds
    1 the minus sign of the first token is lost. *)
Example bench_state_equal_seeds_not_undone :
  (fun '(_, m') => m' 0x80001000) <$>
    core_bench_state 40 (mem_of 0x80001000 (bytes "-874,")) 8 0x80001000 1 1 3 0 = Ok COMMA /\
  mem_of 0x80001000 (bytes "-874,") 0x80001000 = MINUS.
Proof. vm_compute. done. Qed.

(** ** The input block *)

(** The tokens [core_init_state] writes: the patterns its seed selects, each followed
    by a comma. *)
Definition init_tokens (seed : Z) (n : nat) : list Z :=
  flat_map (fun j => (choose_pattern (s16 (seed + Z.of_nat j))).1 ++ [COMMA]) (seq 1 n).

Lemma choose_pattern_length seed :
  length (choose_pattern seed).1 = Z.to_nat (choose_pattern seed).2 /\
  4 <= (choose_pattern seed).2 <= 8.
Proof.
  assert (forall x, 0 <= x &&& 3 < 4) as H4.
  { intros x. change 3 with (Z.ones 2). rewrite Z.land_ones by lia. by apply Z.mod_pos_bound. }
  unfold choose_pattern. specialize (H4 (seed >>> 3)). set (k := (seed >>> 3) &&& 3) in *.
  assert (k = 0 \/ k = 1 \/ k = 2 \/ k = 3) as Hk by lia.
  destruct_or! Hk; rewrite Hk; repeat (destruct (_ <=? _)); split; done.
Qed.

Lemma copy_pattern_loop buf dst n m :
  exists m', loop n (copy_pattern_step buf dst) (0, m) = (Z.of_nat n, m') /\
    forall a, m' a = if (dst <=? a) && (a <? dst + Z.of_nat n) then aget 0 buf (a - dst) else m a.
Proof.
  induction n as [|n (m' & IH & Hm)].
  - exists m. split; [done |]. intros a. by zcmp.
  - rewrite loop_S, IH. eexists. split; [unfold copy_pattern_step; f_equal; lia |].
    intros a. unfold mwrite. rewrite Hm. destruct (Z.eqb_spec a (dst + Z.of_nat n)) as [-> |].
    + zcmp. f_equal. lia.
    + by zcmp.
Qed.

(** [m] holds [l] from [p] on and agrees with [m0] elsewhere. *)
Definition holds (m0 m : mem) (p : Z) (l : list Z) : Prop :=
  forall a, m a = if (p <=? a) && (a <? p + Z.of_nat (length l)) then aget 0 l (a - p) else m0 a.

Lemma holds_app_token m0 m m' p l buf :
  holds m0 m p l ->
  (forall a, m' a = if (p + Z.of_nat (length l) <=? a) && (a <? p + Z.of_nat (length l) + Z.of_nat (length buf))
                    then aget 0 buf (a - (p + Z.of_nat (length l))) else m a) ->
  holds m0 m' p (l ++ buf).
Proof.
  intros Hl Hm a. rewrite Hm, Hl, length_app. unfold aget.
  destruct (Z.leb_spec p a), (Z.ltb_spec a (p + Z.of_nat (length l + length buf)));
    destruct (Z.leb_spec (p + Z.of_nat (length l)) a), (Z.ltb_spec a (p + Z.of_nat (length l) + Z.of_nat (length buf)));
    destruct (Z.ltb_spec a (p + Z.of_nat (length l))); try lia; cbn; try done.
  - rewrite app_nth2 by lia. f_equal. lia.
  - by rewrite app_nth1 by lia.
Qed.

Lemma init_zeros_holds fuel m0 m p size l :
  holds m0 m p l -> Z.of_nat (length l) <= size < 2 ^ 32 - 1 ->
  size - Z.of_nat (length l) < Z.of_nat fuel ->
  exists m', init_zeros fuel m p size (Z.of_nat (length l)) = Ok m' /\
    holds m0 m' p (l ++ replicate (Z.to_nat size - length l) 0).
Proof.
  revert m l. induction fuel as [|fuel IH]; intros m l Hl Hs Hf; [lia |]. cbn [init_zeros].
  destruct (Z.ltb_spec (Z.of_nat (length l)) size) as [Hlt |].
  - rewrite wrap_small by (unfold in_range; lia).
    replace (Z.of_nat (length l) + 1) with (Z.of_nat (length (l ++ [0]))) by (rewrite length_app; cbn; lia).
    destruct (IH (mwrite m (p + Z.of_nat (length l)) 0) (l ++ [0])) as (m' & -> & Hm');
      [| rewrite length_app; cbn; lia.. |].
    { apply (holds_app_token m0 m _ p l [0] Hl). intros a. unfold mwrite. cbn [length].
      destruct (Z.eqb_spec a (p + Z.of_nat (length l))) as [-> |].
      - rewrite Z.sub_diag. by zcmp.
      - by zcmp. }
    exists m'. split; [done |]. rewrite <- app_assoc in Hm'. rewrite length_app in Hm'. cbn in Hm'.
    replace (Z.to_nat size - length l)%nat with (S (Z.to_nat size - (length l + 1))) by lia. done.
  - exists m. split; [done |]. replace (Z.to_nat size - length l)%nat with 0%nat by lia.
    by rewrite app_nil_r.
Qed.

Lemma init_tokens_S seed n :
  init_tokens seed (S n) =
  init_tokens seed n ++ (choose_pattern (s16 (seed + Z.of_nat (S n)))).1 ++ [COMMA].
Proof.
  unfold init_tokens. rewrite seq_S, flat_map_app. cbn [flat_map]. by rewrite app_nil_r.
Qed.

Lemma init_fill_holds fuel m0 m p size seed n :
  let pat := choose_pattern (s16 (seed + Z.of_nat (S n))) in
  holds m0 m p (init_tokens seed n) ->
  0 <= size < 2 ^ 31 -> Z.of_nat (length (init_tokens seed n)) <= size ->
  size - Z.of_nat (length (init_tokens seed n)) < Z.of_nat fuel ->
  exists k m',
    init_fill fuel m p size (Z.of_nat (length (init_tokens seed n))) pat.2 pat.1
      (s16 (seed + Z.of_nat (S n))) = Ok (Z.of_nat (length (init_tokens seed k)), m') /\
    holds m0 m' p (init_tokens seed k) /\ Z.of_nat (length (init_tokens seed k)) <= size /\
    size <= Z.of_nat (length (init_tokens seed (S k))).
Proof.
  revert m n. induction fuel as [|fuel IH]; intros m n pat Hm Hs Hle Hf; [lia |].
  cbn [init_fill]. destruct (choose_pattern_length (s16 (seed + Z.of_nat (S n)))) as [Hl Hl'].
  fold pat in Hl, Hl'. set (len := length (init_tokens seed n)) in *.
  assert (length (init_tokens seed (S n)) = (len + Z.to_nat pat.2 + 1)%nat) as HS.
  { rewrite init_tokens_S, !length_app. cbn [length]. unfold len. fold pat. lia. }
  rewrite wrap_small by (unfold in_range; lia).
  destruct (Z.ltb_spec (Z.of_nat len + pat.2 + 1) size).
  - replace (0 <? pat.2) with true by lia.
    destruct (copy_pattern_loop pat.1 (p + Z.of_nat len) (Z.to_nat pat.2) m) as (m1 & -> & Hm1).
    rewrite sext_add_l by lia. replace (seed + Z.of_nat (S n) + 1) with (seed + Z.of_nat (S (S n))) by lia.
    replace (Z.of_nat len + pat.2 + 1) with (Z.of_nat (length (init_tokens seed (S n)))) by lia.
    rewrite (surjective_pairing (choose_pattern (s16 (seed + Z.of_nat (S (S n)))))).
    apply IH; [| done | lia | lia].
    rewrite init_tokens_S. fold pat. apply (holds_app_token m0 m _ p _ _ Hm). fold len. intros a.
    unfold mwrite. rewrite Hm1, length_app, Hl. cbn [length]. unfold aget.
    destruct (Z.eqb_spec a (p + Z.of_nat len + Z.of_nat (Z.to_nat pat.2))) as [-> |].
    + zcmp. rewrite app_nth2 by lia. by replace (_ - _)%nat with 0%nat by lia.
    + destruct (Z.leb_spec (p + Z.of_nat len) a), (Z.ltb_spec a (p + Z.of_nat len + Z.of_nat (Z.to_nat pat.2)));
        destruct (Z.ltb_spec a (p + Z.of_nat len + Z.of_nat (Z.to_nat pat.2 + 1))); try lia; cbn; try done.
      by rewrite app_nth1 by lia.
  - exists n, m. split; [done |]. split; [done |]. split; [lia | lia].
Qed.

(** [core_init_state] on a block of [size] bytes (below 2 GiB, so that its index
    arithmetic does not wrap) terminates with fuel [size + 1] and writes exactly the block: first the
    comma-terminated patterns selected by the successive seeds, as many as leave room
    for a terminator, then zeros up to the end; every other byte is unchanged. *)
Theorem core_init_state_block fuel m size seed p :
  1 <= size < 2 ^ 31 -> size < Z.of_nat fuel ->
  exists n m',
    let toks := init_tokens seed n in
    core_init_state fuel m size seed p = Ok m' /\
    holds m m' p (toks ++ replicate (Z.to_nat size - length toks) 0) /\
    Z.of_nat (length toks) < size <= Z.of_nat (length (init_tokens seed (S n))) + 1.
Proof.
  intros Hs Hf. unfold core_init_state. rewrite (wrap_small 32 (size - 1)) by (unfold in_range; lia).
  destruct fuel as [|fuel]; [lia |]. cbn [init_fill].
  change (u32 (0 + 0 + 1)) with 1. change (0 <? 0) with false. cbv iota.
  destruct (Z.ltb_spec 1 (size - 1)).
  - rewrite (surjective_pairing (choose_pattern (s16 (seed + 1)))).
    destruct (init_fill_holds fuel m m p (size - 1) seed 0) as (n & m1 & E & Hm1 & Hle & Hge);
      [| lia | cbn; lia | cbn; lia |].
    { intros a. cbn [init_tokens flat_map seq length Z.of_nat]. by zcmp. }
    change (Z.of_nat (length (init_tokens seed 0))) with 0 in E.
    change (Z.of_nat 1) with 1 in E. rewrite E. cbn [mbind res_bind].
    rewrite wrap_small by (unfold in_range; lia). rewrite Z.sub_add.
    destruct (init_zeros_holds (S fuel) m m1 p size (init_tokens seed n) Hm1) as (m' & -> & Hm');
      [lia | lia |].
    exists n, m'. repeat split; [done | lia | lia].
  - cbn [mbind res_bind]. rewrite wrap_small by (unfold in_range; lia). rewrite Z.sub_add.
    destruct (init_zeros_holds (S fuel) m m p size []) as (m' & E & Hm');
      [| cbn; lia | cbn; lia |].
    { intros a. cbn [init_tokens flat_map seq length Z.of_nat]. by zcmp. }
    exists 0%nat, m'. split; [done |]. split; [done |]. rewrite init_tokens_S, !length_app. cbn.
    pose proof (choose_pattern_length (s16 (seed + 1))). cbn in *. lia.
Qed.

Lemma core_init_state_block_witness :
  exists n m',
    let toks := init_tokens 0x3415 n in
    core_init_state 667 (fun _ => 7) 666 0x3415 0x80002000 = Ok m' /\
    holds (fun _ => 7) m' 0x80002000 (toks ++ replicate (Z.to_nat 666 - length toks) 0) /\
    Z.of_nat (length toks) < 666 <= Z.of_nat (length (init_tokens 0x3415 (S n))) + 1.
Proof. apply core_init_state_block; lia. Defined.
