(* ===== verification/Matrix.v ===== *)
(** The matrix benchmark of CoreMark (src/core_matrix.c), the emulator's multiply
    and matrix-sum instructions (nemu/src/isa/riscv32/inst.c) and the kernels of
    accel/xaccel_wrappers.c that use them.

    [MATDAT] is a 16-bit and [MATRES] a 32-bit two's complement integer; sums that
    leave the 32-bit range wrap, as they do on the target. *)

From S2P Require Import Prelude Crc.

(** ** core_matrix.c *)

Record mat_params := MatParams { mp_N : Z; mp_A : list Z; mp_B : list Z; mp_C : list Z }.

Definition matrix_clip (x : Z) (y : bool) : Z := if y then x &&& 0xff else x &&& 0xffff.
Definition matrix_big (x : Z) : Z := 0xf000 ||| x.
Definition bit_extract (x from to : Z) : Z :=
  u32 (x >>> from) &&& not32 (u32 (0xffffffff <<< to)).

Definition matrix_mul_const (N : Z) (C A : list Z) (val : Z) : list Z :=
  for_ N (fun i => for_ N (fun j C =>
    aset C (i * N + j) (s32 (aget 0 A (i * N + j) * val)))) C.

Definition matrix_add_const (N : Z) (A : list Z) (val : Z) : list Z :=
  for_ N (fun i => for_ N (fun j A =>
    aset A (i * N + j) (s16 (aget 0 A (i * N + j) + val)))) A.

Definition matrix_mul_vect (N : Z) (C A B : list Z) : list Z :=
  for_ N (fun i C =>
    let C := aset C i 0 in
    for_ N (fun j C =>
      aset C i (s32 (aget 0 C i + aget 0 A (i * N + j) * aget 0 B j))) C) C.

Definition matrix_mul_matrix (N : Z) (C A B : list Z) : list Z :=
  for_ N (fun i => for_ N (fun j C =>
    let C := aset C (i * N + j) 0 in
    for_ N (fun k C =>
      aset C (i * N + j)
        (s32 (aget 0 C (i * N + j) + aget 0 A (i * N + k) * aget 0 B (k * N + j)))) C)) C.

Definition matrix_mul_matrix_bitextract (N : Z) (C A B : list Z) : list Z :=
  for_ N (fun i => for_ N (fun j C =>
    let C := aset C (i * N + j) 0 in
    for_ N (fun k C =>
      let tmp := s32 (aget 0 A (i * N + k) * aget 0 B (k * N + j)) in
      aset C (i * N + j)
        (s32 (aget 0 C (i * N + j) + u32 (bit_extract tmp 2 4 * bit_extract tmp 5 7)))) C)) C.

(** [matrix_sum]: the loop state is [(tmp, prev, ret)]. *)
Definition matrix_sum_step (clipval cur : Z) (st : Z * Z * Z) : Z * Z * Z :=
  let '(tmp, prev, ret) := st in
  let tmp := s32 (tmp + cur) in
  if clipval <? tmp then (0, cur, s16 (ret + 10))
  else (tmp, cur, s16 (ret + (if prev <? cur then 1 else 0))).

Definition matrix_sum (N : Z) (C : list Z) (clipval : Z) : Z :=
  (for_ N (fun i => for_ N (fun j st =>
     matrix_sum_step clipval (aget 0 C (i * N + j)) st)) (0, 0, 0)).2.

(** Returns the CRC and the final contents of [C] and [A]. *)
Definition matrix_test (N : Z) (C A B : list Z) (val : Z) : Z * list Z * list Z :=
  let crc := 0 in
  let clipval := s16 (matrix_big val) in
  let A := matrix_add_const N A val in
  let C := matrix_mul_const N C A val in
  let crc := crc16 (matrix_sum N C clipval) crc in
  let C := matrix_mul_vect N C A B in
  let crc := crc16 (matrix_sum N C clipval) crc in
  let C := matrix_mul_matrix N C A B in
  let crc := crc16 (matrix_sum N C clipval) crc in
  let C := matrix_mul_matrix_bitextract N C A B in
  let crc := crc16 (matrix_sum N C clipval) crc in
  let A := matrix_add_const N A (s16 (- val)) in
  (s16 crc, C, A).

Definition core_bench_matrix (p : mat_params) (seed crc : Z) : Z * mat_params :=
  let N := mp_N p in
  let val := s16 seed in
  let '(r, C, A) := matrix_test N (mp_C p) (mp_A p) (mp_B p) val in
  (crc16 r crc, MatParams N A (mp_B p) C).

(** [core_init_matrix]: the search for the dimension. *)
Fixpoint init_matrix_size (fuel : nat) (blksize i j : Z) : res Z :=
  match fuel with
  | O => Fault FFuel
  | S fuel =>
      if j <? blksize then
        let i := u32 (i + 1) in init_matrix_size fuel blksize i (u32 (i * i * 2 * 4))
      else Ok i
  end.

(** One element: [(seed, order, A, B)]. *)
Definition init_matrix_elem (idx : Z) (st : Z * Z * list Z * list Z) : Z * Z * list Z * list Z :=
  let '(seed, order, A, B) := st in
  let seed := Z.rem (s32 (order * seed)) 65536 in
  let val := s16 (seed + order) in
  let val := s16 (matrix_clip val false) in
  let B := aset B idx val in
  let val := s16 (val + order) in
  let val := s16 (matrix_clip val true) in
  let A := aset A idx val in
  (seed, s32 (order + 1), A, B).

Definition align_mem (x : Z) : Z := u32 (4 + (u32 (x - 1) &&& not32 3)).

(** Addresses of [A], [B] and [C] in a block at [memblk]. *)
Definition init_matrix_layout (memblk N : Z) : Z * Z * Z :=
  let a := align_mem memblk in
  let b := u32 (a + 2 * (N * N)) in
  (a, b, align_mem (u32 (b + 2 * (N * N)))).

Definition core_init_matrix (fuel : nat) (blksize seed : Z) (C : list Z) : res mat_params :=
  let seed := if seed =? 0 then 1 else seed in
  i ← init_matrix_size fuel blksize 0 0;
  let N := u32 (i - 1) in
  let z := replicate (Z.to_nat (N * N)) 0 in
  let '(_, _, A, B) :=
    for_ N (fun i => for_ N (fun j st => init_matrix_elem (i * N + j) st)) (seed, 1, z, z) in
  Ok (MatParams N A B C).

(** ** inst.c *)

Definition sx16 (value : Z) : Z := s16 (u16 value).

Definition xaccel_xmac16 (rd src1 src2 : Z) : Z := u32 (rd + u32 (sx16 src1 * sx16 src2)).

Definition xaccel_xdot16 (src1 src2 : Z) : Z :=
  let lo := sx16 src1 * sx16 src2 in
  let hi := s16 (src1 >>> 16) * s16 (src2 >>> 16) in
  u32 (s32 (lo + hi)).

Definition xaccel_xbmul (src1 : Z) : Z :=
  let value := src1 in
  u32 (((value >>> 2) &&& 0xf) * ((value >>> 5) &&& 0x7f)).

(** [word a] is the 32-bit word the guest reads at [a].  The loop state is
    [(tmp, prev, ret)]; the result comes with the number of elements read. *)
Definition clipped_sum_step (clip cur : Z) (st : Z * Z * Z) : Z * Z * Z :=
  let '(tmp, prev, ret) := st in
  let tmp := s32 (tmp + cur) in
  if clip <? tmp then (0, cur, s16 (ret + 10))
  else (tmp, cur, s16 (ret + b2z (prev <? cur))).

Definition matrix_clipped_sum (word : Z -> Z) (data config : Z) : Z * Z :=
  let n := config >>> 16 in
  let clip := s16 (config &&& 0xffff) in
  let elements := u64 (n * n) in
  let '(_, _, ret) :=
    for_ elements (fun i st => clipped_sum_step clip (s32 (word (u32 (data + i * 4)))) st) (0, 0, 0) in
  (u32 ret, elements).

(** ** xaccel_wrappers.c *)

Definition xmac16 (acc a b : Z) : Z := s32 (xaccel_xmac16 (u32 acc) (u32 a) (u32 b)).
Definition xdot16 (a b : Z) : Z := s32 (xaccel_xdot16 a b).
Definition xbmul (value : Z) : Z := s32 (xaccel_xbmul (u32 value)).

Definition xaccel_xmsum (word : Z -> Z) (n c clipval : Z) : Z :=
  let config := u32 (n <<< 16) ||| u16 clipval in
  s16 (s32 (matrix_clipped_sum word c config).1).

Definition xaccel_xbmul_matrix (n : Z) (c a b : list Z) : list Z :=
  for_ n (fun i => for_ n (fun j c =>
    let acc :=
      for_ n (fun k acc =>
        let product := s32 (aget 0 a (i * n + k) * aget 0 b (k * n + j)) in
        s32 (acc + xbmul product)) 0 in
    aset c (i * n + j) acc)) c.

Definition xaccel_xmac_vect (n : Z) (c a b : list Z) : list Z :=
  for_ n (fun i c =>
    let acc := for_ n (fun j acc => xmac16 acc (aget 0 a (i * n + j)) (aget 0 b j)) 0 in
    aset c i acc) c.

Definition xaccel_xmac_matrix (n : Z) (c a b : list Z) : list Z :=
  for_ n (fun i => for_ n (fun j c =>
    let acc :=
      for_ n (fun k acc => xmac16 acc (aget 0 a (i * n + k)) (aget 0 b (k * n + j))) 0 in
    aset c (i * n + j) acc)) c.

(** [(ee_u16)lo | ((ee_u32)(ee_u16)hi << 16)] *)
Definition pack16 (lo hi : Z) : Z := u16 lo ||| u32 (u16 hi <<< 16).

(** [for (; k + 1 < n; k += 2) acc += xdot16(av, bv); if (k < n) acc += a * b;]
    over the operands [x k] and [y k]. *)
Fixpoint dot_loop (fuel : nat) (n k acc : Z) (x y : Z -> Z) : Z :=
  match fuel with
  | O => acc
  | S fuel =>
      if k + 1 <? n then
        let av := pack16 (x k) (x (k + 1)) in
        let bv := pack16 (y k) (y (k + 1)) in
        dot_loop fuel n (k + 2) (s32 (acc + xdot16 av bv)) x y
      else if k <? n then s32 (acc + s32 (x k * y k))
      else acc
  end.

Definition xaccel_xdot_vect (n : Z) (c a b : list Z) : list Z :=
  for_ n (fun i c =>
    let acc := dot_loop (Z.to_nat n) n 0 0 (fun j => aget 0 a (i * n + j)) (fun j => aget 0 b j) in
    aset c i acc) c.

Definition xaccel_xdot_matrix (n : Z) (c a b : list Z) : list Z :=
  for_ n (fun i => for_ n (fun j c =>
    let acc :=
      dot_loop (Z.to_nat n) n 0 0 (fun k => aget 0 a (i * n + k)) (fun k => aget 0 b (k * n + j)) in
    aset c (i * n + j) acc)) c.

(** ** The instructions on 16-bit operands *)

Lemma sx16_u32 a : in_srange 16 a -> sx16 (u32 a) = a.
Proof.
  intros Ha. unfold sx16. rewrite wrap_wrap_le, sext_wrap by lia. by apply sext_small.
Qed.

Lemma xmac16_spec acc a b :
  in_srange 16 a -> in_srange 16 b -> xmac16 acc a b = s32 (acc + a * b).
Proof.
  intros Ha Hb. unfold xmac16, xaccel_xmac16. rewrite !sx16_u32 by done.
  by rewrite sext_wrap, sext_wrap_add_l, sext_wrap_add_r.
Qed.

Lemma pack16_fields lo hi :
  in_srange 16 lo -> in_srange 16 hi ->
  sx16 (pack16 lo hi) = lo /\ s16 (pack16 lo hi >>> 16) = hi.
Proof.
  intros Hl Hh. unfold pack16.
  assert (u32 (u16 hi <<< 16) = u16 hi <<< 16) as ->.
  { apply wrap_small. rewrite Z.shiftl_mul_pow2 by lia.
    pose proof (wrap_range 16 hi ltac:(lia)). unfold in_range in *. lia. }
  split.
  - unfold sx16. rewrite <- land_ffff. change 65535 with (Z.ones 16).
    rewrite lor_shiftl_low by auto with cint. rewrite sext_wrap. by apply sext_small.
  - rewrite lor_shiftl_high by auto with cint. rewrite sext_wrap. by apply sext_small.
Qed.

Lemma xdot16_spec x0 x1 y0 y1 :
  in_srange 16 x0 -> in_srange 16 x1 -> in_srange 16 y0 -> in_srange 16 y1 ->
  xdot16 (pack16 x0 x1) (pack16 y0 y1) = s32 (x0 * y0 + x1 * y1).
Proof.
  intros H1 H2 H3 H4. unfold xdot16, xaccel_xdot16.
  destruct (pack16_fields x0 x1 H1 H2) as [-> ->], (pack16_fields y0 y1 H3 H4) as [-> ->].
  rewrite sext_wrap. apply sext_small; [lia |]. by apply sext_range.
Qed.

Lemma low_field x k w :
  0 <= k -> 0 <= w -> k + w <= 32 ->
  (u32 x >>> k) &&& Z.ones w = u32 (x >>> k) &&& Z.ones w.
Proof.
  intros Hk Hw Hkw. zbits. rewrite Z.testbit_ones_nonneg by lia.
  destruct (Z.ltb_spec i w); [| by rewrite !andb_false_r].
  by replace (i + k <? 32) with true by lia; replace (i <? 32) with true by lia.
Qed.

Lemma xbmul_spec p : xbmul p = s32 (u32 (bit_extract p 2 4 * bit_extract p 5 7)).
Proof.
  unfold xbmul, xaccel_xbmul, bit_extract.
  change (not32 (u32 (0xffffffff <<< 4))) with (Z.ones 4).
  change (not32 (u32 (0xffffffff <<< 7))) with (Z.ones 7).
  rewrite <- (low_field p 2 4), <- (low_field p 5 7) by lia. done.
Qed.

(** ** Loops of the kernels *)

Lemma for2_ext {A} (P : A -> Prop) n (f g : Z -> Z -> A -> A) st :
  (forall i j x, 0 <= i < n -> 0 <= j < n -> P x -> f i j x = g i j x /\ P (g i j x)) -> P st ->
  for_ n (fun i => for_ n (f i)) st = for_ n (fun i => for_ n (g i)) st /\
  P (for_ n (fun i => for_ n (g i)) st).
Proof.
  intros H Hst. apply (for_ext P); [| done]. intros i x Hi HP.
  apply (for_ext P); [| done]. intros j y Hj HP'. by apply H.
Qed.

(** Accumulating in a memory cell is accumulating in a variable. *)
Lemma for_accumulate n idx (h : Z -> Z -> Z) C v :
  0 <= idx < Z.of_nat (length C) ->
  for_ n (fun k C => aset C idx (h k (aget 0 C idx))) (aset C idx v) = aset C idx (for_ n h v).
Proof.
  intros Hi. unfold for_.
  apply (for_from_sim (fun _ C' acc => C' = aset C idx acc) 0 (Z.to_nat n)); [| done].
  intros i C' acc _ ->. by rewrite aget_aset_eq, aset_aset.
Qed.

Lemma dot_loop_sum fuel n k acc x y :
  (forall i, in_srange 16 (x i) /\ in_srange 16 (y i)) ->
  0 <= k <= n -> n - k <= 2 * Z.of_nat fuel ->
  dot_loop fuel n k acc x y =
    for_from k (Z.to_nat (n - k)) (fun k acc => s32 (acc + x k * y k)) acc.
Proof.
  intros Hxy. revert k acc. induction fuel as [|fuel IH]; intros k acc Hk Hf.
  { by replace (Z.to_nat (n - k)) with 0%nat by lia. }
  cbn [dot_loop]. destruct (Z.ltb_spec (k + 1) n).
  - rewrite xdot16_spec by apply Hxy. rewrite sext_add_r by lia.
    destruct (decide (k + 2 <= n)); [| lia]. rewrite IH by lia.
    replace (Z.to_nat (n - k)) with (S (S (Z.to_nat (n - (k + 2))))) by lia. cbn [for_from].
    replace (k + 1 + 1) with (k + 2) by lia. f_equal.
    rewrite sext_add_l by lia. f_equal. lia.
  - destruct (Z.ltb_spec k n).
    + replace (Z.to_nat (n - k)) with 1%nat by lia. cbn [for_from].
      by rewrite sext_add_r by lia.
    + by replace (Z.to_nat (n - k)) with 0%nat by lia.
Qed.

(** ** What a kernel computes *)

(** The exact sum [f 0 + ... + f (n - 1)]. *)
Definition sum (n : Z) (f : Z -> Z) : Z := for_ n (fun k acc => acc + f k) 0.

Lemma for_wrapped_sum n f : for_ n (fun k acc => s32 (acc + f k)) 0 = s32 (sum n f).
Proof.
  unfold for_, sum, for_.
  apply (for_from_sim (fun _ (a b : Z) => a = s32 b) 0 (Z.to_nat n)); [| done].
  intros i a b _ ->. by rewrite sext_add_l by lia.
Qed.

(** [C'] is [C] with the first [m] entries replaced by [v]. *)
Definition filled (C C' : list Z) (m : Z) (v : Z -> Z) : Prop :=
  length C' = length C /\
  forall t, 0 <= t -> aget 0 C' t = if t <? m then v t else aget 0 C t.

Lemma for_fill m v C :
  0 <= m <= Z.of_nat (length C) -> filled C (for_ m (fun t C => aset C t (v t)) C) m v.
Proof.
  intros Hm. apply (for_ind (fun m C' => filled C C' m v)); [lia | | split; [done |]].
  - intros i C' Hi [Hl H]. split; [by rewrite length_aset |]. intros t Ht.
    destruct (Z.eqb_spec t i) as [-> |].
    + rewrite aget_aset_eq by lia. by replace (i <? i + 1) with true by lia.
    + rewrite aget_aset_ne, H by lia. by zcmp.
  - intros t Ht. by zcmp.
Qed.

Lemma for2_fill n v C :
  0 <= n -> n * n <= Z.of_nat (length C) ->
  filled C (for_ n (fun i => for_ n (fun j C => aset C (i * n + j) (v i j))) C)
    (n * n) (fun t => v (t / n) (t mod n)).
Proof.
  intros Hn Hl.
  destruct (for2_ext (fun _ => True) n (fun i j C => aset C (i * n + j) (v i j))
    (fun i j C => (fun t C => aset C t (v (t / n) (t mod n))) (i * n + j) C) C) as [-> _]; [| done |].
  - intros i j x Hi Hj _. split; [| done]. cbn. f_equal. rewrite Z.add_comm, Z.div_add, Z.mod_add by lia.
    by rewrite Z.div_small, Z.mod_small.
  - rewrite (for_nested n n (fun t C => aset C t (v (t / n) (t mod n)))) by lia.
    apply for_fill. nia.
Qed.

Section kernels.
Context (n : Z) (c a b : list Z).
Context (Hn : 0 <= n) (Hc : n * n <= Z.of_nat (length c)).
Context (Ha : Forall (in_srange 16) a) (Hb : Forall (in_srange 16) b).

Definition dot_row_col (i j : Z) : Z := sum n (fun k => aget 0 a (i * n + k) * aget 0 b (k * n + j)).
Definition dot_row (i : Z) : Z := sum n (fun j => aget 0 a (i * n + j) * aget 0 b j).
Definition dot_bits (i j : Z) : Z :=
  sum n (fun k =>
    let p := s32 (aget 0 a (i * n + k) * aget 0 b (k * n + j)) in
    bit_extract p 2 4 * bit_extract p 5 7).

Lemma entries_s16 i : in_srange 16 (aget 0 a i) /\ in_srange 16 (aget 0 b i).
Proof. split; apply aget_Forall; try done; unfold in_srange; lia. Qed.

Lemma idx_bound i j : 0 <= i < n -> 0 <= j < n -> 0 <= i * n + j < n * n.
Proof. nia. Qed.

Lemma mul_matrix_fill :
  matrix_mul_matrix n c a b = for_ n (fun i => for_ n (fun j c => aset c (i * n + j) (s32 (dot_row_col i j)))) c.
Proof.
  apply (for2_ext (fun c' => length c' = length c)); [| done].
  intros i j c' Hi Hj Hl. rewrite length_aset. split; [| done]. pose proof (idx_bound i j Hi Hj).
  rewrite (for_accumulate n (i * n + j)
    (fun k acc => s32 (acc + aget 0 a (i * n + k) * aget 0 b (k * n + j)))) by lia.
  by rewrite for_wrapped_sum.
Qed.

Lemma mul_vect_fill :
  matrix_mul_vect n c a b = for_ n (fun i c => aset c i (s32 (dot_row i))) c.
Proof.
  apply (for_ext (fun c' => length c' = length c)); [| done].
  intros i c' Hi Hl. rewrite length_aset. split; [| done].
  rewrite (for_accumulate n i (fun j acc => s32 (acc + aget 0 a (i * n + j) * aget 0 b j))) by nia.
  by rewrite for_wrapped_sum.
Qed.

Lemma bitextract_fill :
  matrix_mul_matrix_bitextract n c a b =
  for_ n (fun i => for_ n (fun j c => aset c (i * n + j) (s32 (dot_bits i j)))) c.
Proof.
  apply (for2_ext (fun c' => length c' = length c)); [| done].
  intros i j c' Hi Hj Hl. rewrite length_aset. split; [| done]. pose proof (idx_bound i j Hi Hj).
  rewrite (for_accumulate n (i * n + j) (fun k acc => s32 (acc +
      let tmp := s32 (aget 0 a (i * n + k) * aget 0 b (k * n + j)) in
      u32 (bit_extract tmp 2 4 * bit_extract tmp 5 7)))) by lia.
  unfold dot_bits. rewrite <- for_wrapped_sum. f_equal. unfold for_.
  apply (for_from_sim (fun _ => eq) 0 (Z.to_nat n)); [| done].
  intros k x y _ ->. cbv zeta. by rewrite sext_wrap_add_r.
Qed.
End kernels.

Section accelerated.
Context (n : Z) (c a b : list Z).
Context (Hn : 0 <= n) (Hc : n * n <= Z.of_nat (length c)).
Context (Ha : Forall (in_srange 16) a) (Hb : Forall (in_srange 16) b).

Lemma xmac_loop x y :
  (forall i, in_srange 16 (x i) /\ in_srange 16 (y i)) ->
  for_ n (fun k acc => xmac16 acc (x k) (y k)) 0 = s32 (sum n (fun k => x k * y k)).
Proof.
  intros H. rewrite <- for_wrapped_sum. apply (for_ext (fun _ => True)); [| done].
  intros i acc _ _. split; [| done]. by apply xmac16_spec; apply H.
Qed.

Lemma xdot_loop x y :
  (forall i, in_srange 16 (x i) /\ in_srange 16 (y i)) ->
  dot_loop (Z.to_nat n) n 0 0 x y = s32 (sum n (fun k => x k * y k)).
Proof.
  intros H. rewrite <- for_wrapped_sum, dot_loop_sum by (done || lia). by rewrite Z.sub_0_r.
Qed.

Lemma xbmul_loop i j :
  for_ n (fun k acc => s32 (acc + xbmul (s32 (aget 0 a (i * n + k) * aget 0 b (k * n + j))))) 0 =
  s32 (dot_bits n a b i j).
Proof.
  unfold dot_bits. rewrite <- for_wrapped_sum. apply (for_ext (fun _ => True)); [| done].
  intros k acc _ _. split; [| done]. rewrite xbmul_spec, sext_add_r by lia. cbv zeta.
  by rewrite sext_wrap_add_r.
Qed.

Lemma entries_ab i k : in_srange 16 (aget 0 a i) /\ in_srange 16 (aget 0 b k).
Proof. split; [by apply (entries_s16 a a Ha Ha i) | by apply (entries_s16 b b Hb Hb k)]. Qed.

(** C4. The matrix kernels: on [n]-by-[n] matrices of 16-bit entries,
    [matrix_mul_vect], [matrix_mul_matrix] and [matrix_mul_matrix_bitextract] fill [C]
    with the exact dot products (of the bit fields of the products, for the last)
    reduced to 32-bit two's complement and leave the rest of [C] alone, and every accelerated
    kernel produces the same array. *)
Theorem matrix_kernels_correct :
  filled c (matrix_mul_vect n c a b) n (fun t => s32 (dot_row n a b t)) /\
  filled c (matrix_mul_matrix n c a b) (n * n)
    (fun t => s32 (dot_row_col n a b (t / n) (t mod n))) /\
  filled c (matrix_mul_matrix_bitextract n c a b) (n * n)
    (fun t => s32 (dot_bits n a b (t / n) (t mod n))) /\
  xaccel_xmac_vect n c a b = matrix_mul_vect n c a b /\
  xaccel_xdot_vect n c a b = matrix_mul_vect n c a b /\
  xaccel_xmac_matrix n c a b = matrix_mul_matrix n c a b /\
  xaccel_xdot_matrix n c a b = matrix_mul_matrix n c a b /\
  xaccel_xbmul_matrix n c a b = matrix_mul_matrix_bitextract n c a b.
Proof.
  pose proof entries_ab as Hab.
  rewrite mul_vect_fill, mul_matrix_fill, bitextract_fill by done.
  split_and!.
  - apply for_fill. nia.
  - by apply (for2_fill n (fun i j => s32 (dot_row_col n a b i j))).
  - by apply (for2_fill n (fun i j => s32 (dot_bits n a b i j))).
  - apply (for_ext (fun _ => True)); [| done]. intros i x _ _. split; [| done].
    f_equal. apply (xmac_loop (fun j => aget 0 a (i * n + j))). auto.
  - apply (for_ext (fun _ => True)); [| done]. intros i x _ _. split; [| done].
    f_equal. apply (xdot_loop (fun j => aget 0 a (i * n + j))). auto.
  - apply (for2_ext (fun _ => True)); [| done]. intros i j x _ _ _. split; [| done].
    f_equal. apply (xmac_loop (fun k => aget 0 a (i * n + k)) (fun k => aget 0 b (k * n + j))). auto.
  - apply (for2_ext (fun _ => True)); [| done]. intros i j x _ _ _. split; [| done].
    f_equal. apply (xdot_loop (fun k => aget 0 a (i * n + k)) (fun k => aget 0 b (k * n + j))). auto.
  - apply (for2_ext (fun _ => True)); [| done]. intros i j x _ _ _. split; [| done].
    f_equal. apply xbmul_loop.
Qed.
End accelerated.

(** A 3-by-3 instance (odd, so the dot kernels use their tail) with negative entries. *)
Definition mat_a : list Z := [1; -2; 3; 32767; -32768; 5; 7; 8; -9].
Definition mat_b : list Z := [2; 0; -1; -32768; 4; 6; 1; 1; 1].

Lemma matrix_kernels_correct_witness :
  let c := replicate 9 0 in
  filled c (matrix_mul_vect 3 c mat_a mat_b) 3 (fun t => s32 (dot_row 3 mat_a mat_b t)) /\
  filled c (matrix_mul_matrix 3 c mat_a mat_b) (3 * 3)
    (fun t => s32 (dot_row_col 3 mat_a mat_b (t / 3) (t mod 3))) /\
  filled c (matrix_mul_matrix_bitextract 3 c mat_a mat_b) (3 * 3)
    (fun t => s32 (dot_bits 3 mat_a mat_b (t / 3) (t mod 3))) /\
  xaccel_xmac_vect 3 c mat_a mat_b = matrix_mul_vect 3 c mat_a mat_b /\
  xaccel_xdot_vect 3 c mat_a mat_b = matrix_mul_vect 3 c mat_a mat_b /\
  xaccel_xmac_matrix 3 c mat_a mat_b = matrix_mul_matrix 3 c mat_a mat_b /\
  xaccel_xdot_matrix 3 c mat_a mat_b = matrix_mul_matrix 3 c mat_a mat_b /\
  xaccel_xbmul_matrix 3 c mat_a mat_b = matrix_mul_matrix_bitextract 3 c mat_a mat_b.
Proof.
  apply matrix_kernels_correct; [lia | cbn; lia | |];
    unfold mat_a, mat_b, in_srange; repeat constructor; lia.
Defined.

Example mul_matrix_sample :
  xaccel_xdot_matrix 3 (replicate 9 0) mat_a mat_b =
  [65541; -5; -10; 1073807363; -131067; -229370; -262139; 23; 32].
Proof. vm_compute. reflexivity. Qed.

(** ** The clipped sum *)

Lemma clipped_sum_steps clip cur st : clipped_sum_step clip cur st = matrix_sum_step clip cur st.
Proof.
  destruct st as [[tmp prev] ret]. unfold clipped_sum_step, matrix_sum_step, b2z.
  by destruct (prev <? cur).
Qed.

Lemma sum_result_range (clip m : Z) (f : Z -> Z) :
  0 <= m -> in_srange 16 (for_ m (fun i st => matrix_sum_step clip (f i) st) (0, 0, 0)).2.
Proof.
  intros Hm. apply (for_ind (fun _ (st : Z * Z * Z) => in_srange 16 st.2)); [done | |].
  - intros i [[tmp prev] ret] _ _. unfold matrix_sum_step.
    destruct (_ <? _); cbn [snd]; apply sext_range; lia.
  - unfold in_srange. cbn. lia.
Qed.

(** The matrix-sum instruction: when guest memory holds the words of [C] from
    address [data] on, [__xaccel_xmsum] returns [matrix_sum N C clipval] for every dimension
    that fits its 16-bit field, after reading exactly [N * N] words. *)
Theorem xmsum_is_matrix_sum word N C data clipval :
  0 <= N < 2 ^ 16 -> in_srange 16 clipval -> Forall (in_srange 32) C ->
  (forall i, 0 <= i < N * N -> word (u32 (data + i * 4)) = u32 (aget 0 C i)) ->
  xaccel_xmsum word N data clipval = matrix_sum N C clipval /\
  (matrix_clipped_sum word data (u32 (N <<< 16) ||| u16 clipval)).2 = N * N.
Proof.
  intros HN Hclip HC Hword. unfold xaccel_xmsum, matrix_clipped_sum, matrix_sum.
  rewrite (wrap_small 32 (N <<< 16)) by (rewrite Z.shiftl_mul_pow2 by lia; unfold in_range; lia).
  rewrite Z.lor_comm, lor_shiftl_high by auto with cint.
  change 65535 with (Z.ones 16). rewrite lor_shiftl_low by auto with cint.
  rewrite sext_wrap, (sext_small 16 clipval) by (done || lia).
  rewrite (wrap_small 64) by (unfold in_range; nia).
  rewrite (for_nested N N (fun t => matrix_sum_step clipval (aget 0 C t))) by lia.
  destruct (for_ext (fun _ => True) (N * N)
    (fun i st => clipped_sum_step clipval (s32 (word (u32 (data + i * 4)))) st)
    (fun i st => matrix_sum_step clipval (aget 0 C i) st) (0, 0, 0)) as [-> _]; [| done |].
  { intros i st Hi _. split; [| done]. rewrite Hword, sext_wrap, clipped_sum_steps by done.
    rewrite sext_small; [done | lia |]. apply aget_Forall; [unfold in_srange; lia | done]. }
  pose proof (sum_result_range clipval (N * N) (fun i => aget 0 C i) ltac:(nia)) as Hr.
  destruct (for_ (N * N) _ (0, 0, 0)) as [[tmp prev] ret]. cbn [fst snd] in *.
  split; [| done]. rewrite sext_wrap, (sext_small 32 ret); [by apply sext_small | lia |].
  unfold in_srange in *. lia.
Qed.

Definition word_list (base : Z) (C : list Z) (a : Z) : Z := u32 (aget 0 C ((a - base) / 4)).

Lemma xmsum_is_matrix_sum_witness :
  xaccel_xmsum (word_list 0x80003000 mat_a) 3 0x80003000 (-4088) = matrix_sum 3 mat_a (-4088) /\
  (matrix_clipped_sum (word_list 0x80003000 mat_a) 0x80003000 (u32 (3 <<< 16) ||| u16 (-4088))).2 = 3 * 3.
Proof.
  apply xmsum_is_matrix_sum; [lia | unfold in_srange; lia | |].
  - unfold mat_a, in_srange. repeat constructor; lia.
  - intros i Hi. assert (i = 0 \/ i = 1 \/ i = 2 \/ i = 3 \/ i = 4 \/ i = 5 \/ i = 6 \/ i = 7 \/ i = 8) as H by lia.
    destruct_or! H; subst; reflexivity.
Defined.

(** ** The benchmark leaves its operands as it found them *)

Lemma add_const_filled N A val :
  0 <= N -> N * N <= Z.of_nat (length A) ->
  filled A (matrix_add_const N A val) (N * N) (fun t => s16 (aget 0 A t + val)).
Proof.
  intros HN HA. unfold matrix_add_const.
  rewrite (for_nested N N (fun t A => aset A t (s16 (aget 0 A t + val)))) by lia.
  assert (forall m, 0 <= m <= N * N ->
    filled A (for_ m (fun t A => aset A t (s16 (aget 0 A t + val))) A) m (fun t => s16 (aget 0 A t + val))) as H.
  2: { apply H. nia. }
  intros m Hm. apply (for_ind (fun m A' => filled A A' m _)); [lia | | split; [done |]].
  - intros i A' Hi [Hl H]. split; [by rewrite length_aset |]. intros t Ht.
    destruct (Z.eqb_spec t i) as [-> |].
    + rewrite aget_aset_eq, H by lia. by zcmp.
    + rewrite aget_aset_ne, H by lia. by zcmp.
  - intros t Ht. by zcmp.
Qed.

Lemma filled_ext (A A' : list Z) :
  length A' = length A -> (forall t, 0 <= t -> aget 0 A' t = aget 0 A t) -> A' = A.
Proof.
  intros Hl H. apply (nth_ext _ _ 0 0 Hl). intros t _.
  specialize (H (Z.of_nat t) ltac:(lia)). unfold aget in H. by rewrite Nat2Z.id in H.
Qed.

(** C15. [core_bench_matrix] changes only the result matrix: for every seed the
    second [matrix_add_const] of [matrix_test], although it adds a constant whose negation may
    wrap, returns [A] to its contents, and [B] and [N] are never written. *)
Theorem bench_matrix_restores_operands p seed crc :
  0 <= mp_N p -> mp_N p * mp_N p <= Z.of_nat (length (mp_A p)) ->
  Forall (in_srange 16) (mp_A p) ->
  let p' := (core_bench_matrix p seed crc).2 in
  mp_A p' = mp_A p /\ mp_B p' = mp_B p /\ mp_N p' = mp_N p.
Proof.
  intros HN HA Hr. unfold core_bench_matrix, matrix_test. cbn [snd mp_A mp_B mp_N].
  split; [| done]. set (A1 := matrix_add_const _ _ (s16 seed)).
  destruct (add_const_filled (mp_N p) (mp_A p) (s16 seed) HN HA) as [Hl1 H1]. fold A1 in Hl1, H1.
  destruct (add_const_filled (mp_N p) A1 (s16 (- s16 seed)) HN) as [Hl2 H2]; [by rewrite Hl1 |].
  apply filled_ext; [congruence |]. intros t Ht. rewrite H2, H1 by done.
  destruct (_ <? _); [| done]. rewrite sext_add_r, sext_add_l by lia.
  replace (aget 0 (mp_A p) t + s16 seed + - s16 seed) with (aget 0 (mp_A p) t) by lia.
  apply sext_small; [lia |]. apply aget_Forall; [unfold in_srange; lia | done].
Qed.

Lemma bench_matrix_restores_operands_witness :
  let p := MatParams 3 mat_a mat_b (replicate 9 0) in
  let p' := (core_bench_matrix p (-32768) 0).2 in
  mp_A p' = mat_a /\ mp_B p' = mat_b /\ mp_N p' = 3.
Proof.
  apply (bench_matrix_restores_operands (MatParams 3 mat_a mat_b (replicate 9 0)));
    [cbn; lia | cbn; lia |]. unfold mat_a, in_srange. repeat constructor; lia.
Defined.

(** ** Initialisation *)

Lemma init_matrix_size_spec fuel blksize i :
  0 <= i -> 8 * i * i <= 2 ^ 31 -> 0 < blksize <= 2 ^ 31 -> (i = 0 \/ 8 * (i - 1) * (i - 1) < blksize) ->
  2 ^ 14 + 1 < i + Z.of_nat fuel ->
  exists r, init_matrix_size fuel blksize i (8 * i * i) = Ok r /\ 0 < r /\
    8 * (r - 1) * (r - 1) < blksize <= 8 * r * r.
Proof.
  intros Hi Hi2 Hb. revert i Hi Hi2. induction fuel as [|fuel IH]; intros i Hi Hi2 Hprev Hf.
  { nia. }
  cbn [init_matrix_size]. destruct (Z.ltb_spec (8 * i * i) blksize).
  - assert (i < 2 ^ 14) by nia.
    rewrite (wrap_small 32 (i + 1)) by (unfold in_range; lia).
    rewrite (wrap_small 32) by (unfold in_range; nia).
    replace ((i + 1) * (i + 1) * 2 * 4) with (8 * (i + 1) * (i + 1)) by lia.
    apply IH; [lia | nia | right | lia]. by replace (i + 1 - 1) with i by lia.
  - exists i. split; [done |]. split; [nia |]. split; [| lia]. destruct Hprev as [-> |]; lia.
Qed.

Lemma init_matrix_entries N seed :
  0 <= N ->
  let z := replicate (Z.to_nat (N * N)) 0 in
  let '(_, _, A, B) :=
    for_ N (fun i => for_ N (fun j st => init_matrix_elem (i * N + j) st)) (seed, 1, z, z) in
  length A = Z.to_nat (N * N) /\ length B = Z.to_nat (N * N) /\
  Forall (in_range 8) A /\ Forall (in_srange 16) B.
Proof.
  intros HN z. rewrite (for_nested N N init_matrix_elem) by lia.
  apply (for_ind (fun _ (st : Z * Z * list Z * list Z) => let '(_, _, A, B) := st in
    length A = Z.to_nat (N * N) /\ length B = Z.to_nat (N * N) /\
    Forall (in_range 8) A /\ Forall (in_srange 16) B)); [nia | |].
  - intros i [[[s o] A] B] _ (HA & HB & FA & FB). unfold init_matrix_elem. rewrite !length_aset.
    repeat split; [done | done | apply aset_Forall; [| done] | apply aset_Forall; [by apply sext_range | done]].
    unfold matrix_clip. rewrite land_ff. rewrite sext_small; [auto with cint | lia |].
    pose proof (wrap_range 8 (s16 (s16 (s16 (Z.rem (s32 (o * s)) 65536 + o) &&& 65535) + o)) ltac:(lia)).
    unfold in_range, in_srange in *. lia.
  - unfold z. rewrite !length_replicate. repeat split; try done; apply Forall_replicate;
      unfold in_range, in_srange; lia.
Qed.

Lemma align_mem_mult x : in_range 32 x -> 0 < x -> x mod 4 = 0 -> align_mem x = x.
Proof.
  intros Hx Hp Hm. unfold align_mem, in_range in *.
  rewrite (wrap_small 32 (x - 1)), align4 by (unfold in_range; lia).
  change 3 with (Z.ones 2). rewrite Z.land_ones by lia.
  assert ((x - 1) mod 2 ^ 2 = 3) as ->.
  { change (2 ^ 2) with 4. rewrite Zminus_mod, Hm. reflexivity. }
  rewrite wrap_small by (unfold in_range; lia). lia.
Qed.

(** C16. [core_init_matrix] on a block of [blksize] bytes (positive, at most 2 GiB)
    terminates with the largest dimension whose matrices fit: [8 * N * N] bytes are less
    than the block and [8 * (N + 1) * (N + 1)] are not; [A] gets byte-sized and [B]
    16-bit entries, and in a word-aligned block the three matrices lie behind
    one another inside it. *)
Theorem core_init_matrix_fits fuel blksize seed C memblk :
  0 < blksize <= 2 ^ 31 -> 2 ^ 14 + 1 < Z.of_nat fuel ->
  0 < memblk -> memblk mod 4 = 0 -> memblk + blksize < 2 ^ 32 ->
  exists p, core_init_matrix fuel blksize seed C = Ok p /\
    8 * mp_N p * mp_N p < blksize <= 8 * (mp_N p + 1) * (mp_N p + 1) /\
    length (mp_A p) = Z.to_nat (mp_N p * mp_N p) /\ length (mp_B p) = Z.to_nat (mp_N p * mp_N p) /\
    Forall (in_range 8) (mp_A p) /\ Forall (in_srange 16) (mp_B p) /\
    let '(a, b, c) := init_matrix_layout memblk (mp_N p) in
    a = memblk /\ b = a + 2 * (mp_N p * mp_N p) /\ c = b + 2 * (mp_N p * mp_N p) /\
    c + 4 * (mp_N p * mp_N p) < memblk + blksize.
Proof.
  intros Hb Hf Hm0 Hm4 Hm1. unfold core_init_matrix.
  destruct (init_matrix_size_spec fuel blksize 0) as (r & E & Hr0 & Hr); [lia.. |].
  change (8 * 0 * 0) with 0 in E. rewrite E. cbn [mbind res_bind].
  rewrite (wrap_small 32 (r - 1)) by (unfold in_range; nia).
  set (N := r - 1) in *. set (sd := if seed =? 0 then 1 else seed).
  pose proof (init_matrix_entries N sd ltac:(lia)) as H. cbv zeta in H.
  destruct (for_ N _ _) as [[[s o] A] B]. destruct H as (HA & HB & FA & FB).
  eexists. split; [done |]. cbn [mp_N mp_A mp_B]. replace (N + 1) with r by (unfold N; lia).
  do 5 (split; [done || lia |]). unfold init_matrix_layout.
  assert (0 <= N * N) by nia.
  rewrite (align_mem_mult memblk) by (unfold in_range; lia).
  rewrite (wrap_small 32 (memblk + 2 * (N * N))) by (unfold in_range; lia).
  rewrite (wrap_small 32 (memblk + 2 * (N * N) + 2 * (N * N))) by (unfold in_range; lia).
  rewrite align_mem_mult; [lia | unfold in_range; lia | lia |].
  replace (memblk + 2 * (N * N) + 2 * (N * N)) with (memblk + N * N * 4) by lia.
  by rewrite Z.mod_add by lia.
Qed.

Lemma core_init_matrix_fits_witness :
  exists p, core_init_matrix (Z.to_nat 20000) 666 0x3415 [] = Ok p /\
    8 * mp_N p * mp_N p < 666 <= 8 * (mp_N p + 1) * (mp_N p + 1) /\
    length (mp_A p) = Z.to_nat (mp_N p * mp_N p) /\ length (mp_B p) = Z.to_nat (mp_N p * mp_N p) /\
    Forall (in_range 8) (mp_A p) /\ Forall (in_srange 16) (mp_B p) /\
    let '(a, b, c) := init_matrix_layout 0x80002000 (mp_N p) in
    a = 0x80002000 /\ b = a + 2 * (mp_N p * mp_N p) /\ c = b + 2 * (mp_N p * mp_N p) /\
    c + 4 * (mp_N p * mp_N p) < 0x80002000 + 666.
Proof. apply core_init_matrix_fits; [lia | lia | lia | reflexivity | lia]. Defined.
