(* ===== verification/ListKernel.v ===== *)
(** The linked-list benchmark of CoreMark (src/core_list_join.c) and the emulator's
    list-reversal instruction (nemu/src/isa/riscv32/inst.c,
    accel/xaccel_wrappers.c).

    A list lives in a heap of [list_head] cells addressed by their pointers, the data of its items in
    a second heap of [list_data] cells; dereferencing a pointer that is not in the heap
    (the null pointer in particular) is a fault. *)

From S2P Require Import Prelude Crc NumericDfa StateBench Matrix.

Record list_data := ListData { data16 : Z; idx : Z }.
Record list_head := ListHead { next : Z; info : Z }.
Abbreviation heads := (gmap Z list_head).
Abbreviation datas := (gmap Z list_data).
Definition NULL : Z := 0.

Definition load {A} (h : gmap Z A) (p : Z) : res A :=
  match h !! p with Some c => Ok c | None => Fault FUndef end.

Definition set_next (h : heads) (p v : Z) : res heads :=
  c ← load h p; Ok (<[p := ListHead v (info c)]> h).
Definition set_info (h : heads) (p v : Z) : res heads :=
  c ← load h p; Ok (<[p := ListHead (next c) v]> h).

(** ** Reversal *)

Fixpoint reverse_loop (fuel : nat) (h : heads) (list nxt : Z) : res (Z * heads) :=
  match fuel with
  | O => Fault FFuel
  | S fuel =>
      if list =? NULL then Ok (nxt, h)
      else
        c ← load h list;
        let tmp := next c in
        h ← set_next h list nxt;
        reverse_loop fuel h tmp list
  end.

Definition core_list_reverse (fuel : nat) (h : heads) (list : Z) : res (Z * heads) :=
  reverse_loop fuel h list NULL.

(** What the reversal instruction needs of memory: 32-bit reads and writes. *)
Class WordStore (M : Type) := {
  ws_read : M -> Z -> res Z;
  ws_write : M -> Z -> Z -> res M }.

(** The [next] pointer is the first word of a [list_head]. *)
#[export] Instance heads_words : WordStore heads := {|
  ws_read h p := next <$> load h p;
  ws_write h p v := set_next h p v |}.

Section xlistrev.
Context {M : Type} `{!WordStore M}.

(** [rd], memory and [list_reverse_previous] after the instruction; the second
    instruction also says whether it is executed again. *)
Definition xlistrev_init (m : M) (current : Z) : res (Z * M * Z) :=
  rd ← ws_read m current;
  m ← ws_write m current 0;
  Ok (rd, m, current).

Definition xlistrev_loop (m : M) (current previous : Z) : res (Z * M * Z * bool) :=
  if current =? 0 then Ok (previous, m, previous, false)
  else
    nxt ← ws_read m current;
    m ← ws_write m current previous;
    if negb (nxt =? 0) then Ok (nxt, m, current, true)
    else Ok (current, m, current, false).

Fixpoint xlistrev_repeat (fuel : nat) (m : M) (reg previous : Z) : res (Z * M) :=
  match fuel with
  | O => Fault FFuel
  | S fuel =>
      '(rd, m, previous, again) ← xlistrev_loop m reg previous;
      if (again : bool) then xlistrev_repeat fuel m rd previous else Ok (rd, m)
  end.

Definition xaccel_xlistrev (fuel : nat) (m : M) (list : Z) : res (Z * M) :=
  if list =? 0 then Ok (0, m)
  else
    '(reg, m, previous) ← xlistrev_init m list;
    xlistrev_repeat fuel m reg previous.
End xlistrev.

(** ** Removing and restoring an item *)

Definition core_list_remove (h : heads) (item : Z) : res (Z * heads) :=
  c ← load h item;
  let ret := next c in
  let tmp := info c in
  r ← load h ret;
  h ← set_info h item (info r);
  h ← set_info h ret tmp;
  c ← load h item;
  n ← load h (next c);
  h ← set_next h item (next n);
  h ← set_next h ret NULL;
  Ok (ret, h).

Definition core_list_undo_remove (h : heads) (item_removed item_modified : Z) : res (Z * heads) :=
  r ← load h item_removed;
  let tmp := info r in
  c ← load h item_modified;
  h ← set_info h item_removed (info c);
  h ← set_info h item_modified tmp;
  c ← load h item_modified;
  h ← set_next h item_removed (next c);
  h ← set_next h item_modified item_removed;
  Ok (item_removed, h).

(** ** Search *)

(** [while (list && stop(list->info) fails) list = list->next;] *)
Fixpoint find_loop (fuel : nat) (h : heads) (d : datas) (found : list_data -> bool) (list : Z)
    : res Z :=
  match fuel with
  | O => Fault FFuel
  | S fuel =>
      if list =? NULL then Ok list
      else
        c ← load h list;
        i ← load d (info c);
        if found i then Ok list else find_loop fuel h d found (next c)
  end.

Definition core_list_find (fuel : nat) (h : heads) (d : datas) (list : Z) (inf : list_data) : res Z :=
  if 0 <=? idx inf then
    find_loop fuel h d (fun i => idx i =? idx inf) list
  else find_loop fuel h d (fun i => (data16 i &&& 0xff) =? data16 inf) list.

(** ** Merge sort *)

Section mergesort.
Context {D : Type} (cmp : Z -> Z -> D -> res (Z * D)).

(** [for (i = 0; i < insize; i++) { psize++; q = q->next; if (!q) break; }] *)
Fixpoint step_along (n : nat) (h : heads) (q psize : Z) : res (Z * Z) :=
  match n with
  | O => Ok (q, psize)
  | S n =>
      let psize := psize + 1 in
      c ← load h q;
      let q := next c in
      if q =? NULL then Ok (q, psize) else step_along n h q psize
  end.

Record merge_state := MergeState {
  ms_h : heads; ms_d : D;
  ms_p : Z; ms_q : Z; ms_psize : Z; ms_qsize : Z;
  ms_list : Z; ms_tail : Z }.

(** Take the next element from [p] or from [q]. *)
Definition take_p (st : merge_state) : res (Z * merge_state) :=
  let '(MergeState h d p q psize qsize list tail) := st in
  c ← load h p;
  Ok (p, MergeState h d (next c) q (psize - 1) qsize list tail).

Definition take_q (st : merge_state) : res (Z * merge_state) :=
  let '(MergeState h d p q psize qsize list tail) := st in
  c ← load h q;
  Ok (q, MergeState h d p (next c) psize (qsize - 1) list tail).

(** [if (tail) tail->next = e; else list = e; tail = e;] *)
Definition add_element (e : Z) (st : merge_state) : res merge_state :=
  let '(MergeState h d p q psize qsize list tail) := st in
  if negb (tail =? NULL) then
    h ← set_next h tail e;
    Ok (MergeState h d p q psize qsize list e)
  else Ok (MergeState h d p q psize qsize e e).

Definition merge_step (st : merge_state) : res merge_state :=
  '(e, st) ←
    (if ms_psize st =? 0 then take_q st
     else if (ms_qsize st =? 0) || (ms_q st =? NULL) then take_p st
     else
       cp ← load (ms_h st) (ms_p st);
       cq ← load (ms_h st) (ms_q st);
       '(r, d) ← cmp (info cp) (info cq) (ms_d st);
       let st := MergeState (ms_h st) d (ms_p st) (ms_q st) (ms_psize st) (ms_qsize st)
                   (ms_list st) (ms_tail st) in
       if r <=? 0 then take_p st else take_q st);
  add_element e st.

Fixpoint merge_loop (fuel : nat) (st : merge_state) : res merge_state :=
  match fuel with
  | O => Fault FFuel
  | S fuel =>
      if (0 <? ms_psize st) || ((0 <? ms_qsize st) && negb (ms_q st =? NULL)) then
        st ← merge_step st;
        merge_loop fuel st
      else Ok st
  end.

(** One pass over the list: [while (p) { ... }]. *)
Fixpoint pass_loop (fuel : nat) (insize : Z) (h : heads) (d : D) (p list tail nmerges : Z)
    : res (heads * D * Z * Z * Z) :=
  match fuel with
  | O => Fault FFuel
  | S fuel' =>
      if p =? NULL then Ok (h, d, list, tail, nmerges)
      else
        let nmerges := nmerges + 1 in
        '(q, psize) ← step_along (Z.to_nat insize) h p 0;
        let qsize := insize in
        st ← merge_loop fuel (MergeState h d p q psize qsize list tail);
        pass_loop fuel' insize (ms_h st) (ms_d st) (ms_q st) (ms_list st) (ms_tail st) nmerges
  end.

Fixpoint sort_loop (fuel wfuel : nat) (insize : Z) (h : heads) (d : D) (list : Z)
    : res (heads * D * Z) :=
  match fuel with
  | O => Fault FFuel
  | S fuel =>
      '(h, d, list, tail, nmerges) ← pass_loop wfuel insize h d list NULL NULL 0;
      h ← set_next h tail NULL;
      if nmerges <=? 1 then Ok (h, d, list)
      else sort_loop fuel wfuel (s32 (insize * 2)) h d list
  end.

Definition core_list_mergesort (fuel : nat) (h : heads) (d : D) (list : Z) : res (heads * D * Z) :=
  sort_loop fuel fuel 1 h d list.
End mergesort.

(** ** Comparison functions *)

Record core_results := CoreResults {
  seed1 : Z; seed2 : Z; seed3 : Z;
  memblock3 : Z; size : Z; r_list : Z; mat : mat_params;
  crc : Z; crcmatrix : Z; crcstate : Z }.

(** The data heap, the results structure and the memory that holds the state
    benchmark's block. *)
Record list_env := ListEnv { le_data : datas; le_res : core_results; le_mem : mem }.

Definition set_crcs (r : core_results) (c cm cs : Z) : core_results :=
  CoreResults (seed1 r) (seed2 r) (seed3 r) (memblock3 r) (size r) (r_list r) (mat r) c cm cs.
Definition set_mat (r : core_results) (m : mat_params) : core_results :=
  CoreResults (seed1 r) (seed2 r) (seed3 r) (memblock3 r) (size r) (r_list r) m
    (crc r) (crcmatrix r) (crcstate r).

Definition calc_func (fuel : nat) (pdata : Z) (env : list_env) : res (Z * list_env) :=
  let '(ListEnv dm r m) := env in
  cell ← load dm pdata;
  let data := data16 cell in
  let optype := (data >>> 7) &&& 1 in
  if negb (optype =? 0) then Ok (data &&& 0x7f, env)
  else
    let flag := data &&& 7 in
    let dtype := (data >>> 3) &&& 0xf in
    let dtype := dtype ||| (dtype <<< 4) in
    '(retval, r, m) ←
      (if flag =? 0 then
         let dtype := if dtype <? 0x22 then 0x22 else dtype in
         '(v, m) ← core_bench_state fuel m (size r) (memblock3 r) (seed1 r) (seed2 r) dtype (crc r);
         let retval := s16 v in
         Ok (retval, (if crcstate r =? 0 then set_crcs r (crc r) (crcmatrix r) (u16 retval) else r), m)
       else if flag =? 1 then
         let '(v, mt) := core_bench_matrix (mat r) dtype (crc r) in
         let r := set_mat r mt in
         let retval := s16 v in
         Ok (retval, (if crcmatrix r =? 0 then set_crcs r (crc r) (u16 retval) (crcstate r) else r), m)
       else Ok (data, r, m));
    let r := set_crcs r (crcu16 (u16 retval) (crc r)) (crcmatrix r) (crcstate r) in
    let retval := retval &&& 0x7f in
    let data := s16 ((data &&& 0xff00) ||| 0x80 ||| retval) in
    Ok (retval, ListEnv (<[pdata := ListData data (idx cell)]> dm) r m).

Definition cmp_complex (fuel : nat) (a b : Z) (env : list_env) : res (Z * list_env) :=
  '(val1, env) ← calc_func fuel a env;
  '(val2, env) ← calc_func fuel b env;
  Ok (val1 - val2, env).

Definition regen (c : list_data) : list_data :=
  ListData (s16 ((data16 c &&& 0xff00) ||| (0xff &&& (data16 c >>> 8)))) (idx c).

(** [res_null] says whether the [res] argument is [NULL]. *)
Definition cmp_idx (res_null : bool) (a b : Z) (env : list_env) : res (Z * list_env) :=
  let dm := le_data env in
  dm ←
    (if res_null then
       ca ← load dm a;
       let dm := <[a := regen ca]> dm in
       cb ← load dm b;
       Ok (<[b := regen cb]> dm)
     else Ok dm);
  ca ← load dm a;
  cb ← load dm b;
  Ok (idx ca - idx cb, ListEnv dm (le_res env) (le_mem env)).

(** ** Construction of the list *)

Definition SIZEOF_LIST_HEAD : Z := 8.
Definition SIZEOF_LIST_DATA : Z := 4.

Definition copy_info (d : datas) (to : Z) (from : list_data) : datas :=
  <[to := ListData (data16 from) (idx from)]> d.

(** The heaps and the two allocation pointers. *)
Record list_arena := ListArena { la_h : heads; la_d : datas; la_mem : Z; la_data : Z }.

Definition core_list_insert_new (insert_point : Z) (inf : list_data)
    (memblock_end datablock_end : Z) (ar : list_arena) : res (Z * list_arena) :=
  let '(ListArena h d memblock datablock) := ar in
  if memblock_end <=? memblock + SIZEOF_LIST_HEAD then Ok (NULL, ar)
  else if datablock_end <=? datablock + SIZEOF_LIST_DATA then Ok (NULL, ar)
  else
    let newitem := memblock in
    ip ← load h insert_point;
    let h := <[newitem := ListHead (next ip) datablock]> h in
    h ← set_next h insert_point newitem;
    let d := copy_info d datablock inf in
    Ok (newitem, ListArena h d (memblock + SIZEOF_LIST_HEAD) (datablock + SIZEOF_LIST_DATA)).

(** [for (i = 0; i < size; i++) core_list_insert_new(list, &info, ...)] from [i] on. *)
Fixpoint init_insert (n : nat) (i seed list : Z) (memblock_end datablock_end : Z) (ar : list_arena)
    : res list_arena :=
  match n with
  | O => Ok ar
  | S n =>
      let datpat := u16 (seed ^^^ i) &&& 0xf in
      let dat := u16 ((datpat <<< 3) ||| (i &&& 7)) in
      let d16 := s16 ((dat <<< 8) ||| dat) in
      '(_, ar) ← core_list_insert_new list (ListData d16 0x7fff) memblock_end datablock_end ar;
      init_insert n (i + 1) seed list memblock_end datablock_end ar
  end.

(** The indexing loop [while (finder->next != NULL)]. *)
Fixpoint init_index (fuel : nat) (h : heads) (d : datas) (size seed i finder : Z) : res datas :=
  match fuel with
  | O => Fault FFuel
  | S fuel =>
      c ← load h finder;
      if next c =? NULL then Ok d
      else
        cell ← load d (info c);
        let '(v, i) :=
          if i <? size / 5 then (s16 i, u32 (i + 1))
          else
            let pat := u16 (i ^^^ u32 seed) in
            let i := u32 (i + 1) in
            (0x3fff &&& (((i &&& 7) <<< 8) ||| pat), i) in
        init_index fuel h (<[info c := ListData (data16 cell) v]> d) size seed i (next c)
  end.

Definition core_list_init (fuel : nat) (env : list_env) (blksize memblock seed : Z)
    : res (heads * list_env * Z) :=
  let per_item := 16 + SIZEOF_LIST_DATA in
  let sz := u32 (blksize / per_item - 2) in
  let memblock_end := memblock + sz * SIZEOF_LIST_HEAD in
  let datablock := memblock_end in
  let datablock_end := datablock + sz * SIZEOF_LIST_DATA in
  let list := memblock in
  let h := {[ list := ListHead NULL datablock ]} in
  let d := <[datablock := ListData (s16 0x8080) 0]> (le_data env) in
  let ar := ListArena h d (memblock + SIZEOF_LIST_HEAD) (datablock + SIZEOF_LIST_DATA) in
  '(_, ar) ← core_list_insert_new list (ListData (s16 0xffff) 0x7fff) memblock_end datablock_end ar;
  ar ← init_insert (Z.to_nat sz) 0 seed list memblock_end datablock_end ar;
  c ← load (la_h ar) list;
  d ← init_index fuel (la_h ar) (la_d ar) sz seed 1 (next c);
  core_list_mergesort (cmp_idx true) fuel (la_h ar)
    (ListEnv d (le_res env) (le_mem env)) list.

(** ** The benchmark *)

(** [while (finder) { retval = crc16(list->info->data16, retval); finder = finder->next; }] *)
Fixpoint crc_list (fuel : nat) (h : heads) (d : datas) (list finder retval : Z) : res Z :=
  match fuel with
  | O => Fault FFuel
  | S fuel =>
      if finder =? NULL then Ok retval
      else
        l ← load h list;
        i ← load d (info l);
        f ← load h finder;
        crc_list fuel h d list (next f) (crc16 (data16 i) retval)
  end.

(** One round of the search loop: heap, list head, searched index, [retval],
    [found], [missed]. *)
Record find_state := FindState {
  fs_h : heads; fs_list : Z; fs_idx : Z; fs_retval : Z; fs_found : Z; fs_missed : Z }.

Definition find_round (fuel : nat) (d : datas) (i : Z) (st : find_state) : res find_state :=
  let '(FindState h list ix retval found missed) := st in
  let inf := ListData (i &&& 0xff) ix in
  this_find ← core_list_find fuel h d list inf;
  '(list, h) ← core_list_reverse fuel h list;
  '(h, retval, found, missed) ←
    (if this_find =? NULL then
       l ← load h list;
       n ← load h (next l);
       ni ← load d (info n);
       Ok (h, u16 (retval + ((data16 ni >>> 8) &&& 1)), found, u16 (missed + 1))
     else
       t ← load h this_find;
       ti ← load d (info t);
       let found := u16 (found + 1) in
       let retval :=
         if negb (data16 ti &&& 1 =? 0) then u16 (retval + ((data16 ti >>> 9) &&& 1)) else retval in
       if negb (next t =? NULL) then
         let finder := next t in
         f ← load h finder;
         h ← set_next h this_find (next f);
         l ← load h list;
         h ← set_next h finder (next l);
         h ← set_next h list finder;
         Ok (h, retval, found, missed)
       else Ok (h, retval, found, missed));
  let ix := if 0 <=? ix then s16 (ix + 1) else ix in
  Ok (FindState h list ix retval found missed).

Fixpoint find_rounds (n fuel : nat) (d : datas) (i : Z) (st : find_state) : res find_state :=
  match n with
  | O => Ok st
  | S n => st ← find_round fuel d i st; find_rounds n fuel d (i + 1) st
  end.

Definition core_bench_list (fuel : nat) (h : heads) (env : list_env) (finder_idx : Z)
    : res (Z * heads * list_env) :=
  let list := r_list (le_res env) in
  let find_num := seed3 (le_res env) in
  st ← find_rounds (Z.to_nat find_num) fuel (le_data env) 0
         (FindState h list finder_idx 0 0 0);
  let '(FindState h list ix retval found missed) := st in
  let retval := u16 (retval + (found * 4 - missed)) in
  '(h, env, list) ←
    (if 0 <? finder_idx then core_list_mergesort (cmp_complex fuel) fuel h env list
     else Ok (h, env, list));
  l ← load h list;
  '(remover, h) ← core_list_remove h (next l);
  let inf := ListData (if 0 <? find_num then (find_num - 1) &&& 0xff else 0) ix in
  finder ← core_list_find fuel h (le_data env) list inf;
  l ← load h list;
  let finder := if finder =? NULL then next l else finder in
  retval ← crc_list fuel h (le_data env) list finder retval;
  l ← load h list;
  '(_, h) ← core_list_undo_remove h remover (next l);
  '(h, env, list) ← core_list_mergesort (cmp_idx true) fuel h env list;
  l ← load h list;
  retval ← crc_list fuel h (le_data env) list (next l) retval;
  Ok (retval, h, env).

(** ** Chains

    [chain h p l e]: following [next] from [p] visits the cells [l] and ends at [e]. *)

Fixpoint chain (h : heads) (p : Z) (l : list Z) (e : Z) : Prop :=
  match l with
  | [] => p = e
  | x :: l => p = x /\ x <> NULL /\ exists c, h !! x = Some c /\ chain h (next c) l e
  end.

(** A null-terminated list without repetition. *)
Definition is_list (h : heads) (p : Z) (l : list Z) : Prop := chain h p l NULL /\ NoDup l.

Lemma load_Some {A} (h : gmap Z A) p c : h !! p = Some c -> load h p = Ok c.
Proof. unfold load. by intros ->. Qed.

Lemma set_next_Some (h : heads) p c v :
  h !! p = Some c -> set_next h p v = Ok (<[p := ListHead v (info c)]> h).
Proof. intros E. unfold set_next. by rewrite (load_Some _ _ _ E). Qed.

Lemma set_info_Some (h : heads) p c v :
  h !! p = Some c -> set_info h p v = Ok (<[p := ListHead (next c) v]> h).
Proof. intros E. unfold set_info. by rewrite (load_Some _ _ _ E). Qed.

Lemma chain_insert h p l e x c : x ∉ l -> chain h p l e -> chain (<[x := c]> h) p l e.
Proof.
  revert p. induction l as [|y l IH]; intros p Hx H; [done |].
  apply not_elem_of_cons in Hx as [Hxy Hx]. destruct H as (-> & Hn & cy & Ey & H).
  repeat split; [done |]. exists cy. rewrite lookup_insert_ne by done. auto.
Qed.

Lemma chain_app h p l1 l2 e :
  chain h p (l1 ++ l2) e <-> exists m, chain h p l1 m /\ chain h m l2 e.
Proof.
  revert p. induction l1 as [|x l1 IH]; intros p; cbn.
  - split; [intros; by exists p | by intros (m & -> & H)].
  - split.
    + intros (-> & Hn & c & Ec & H). apply IH in H as (m & H1 & H2). eauto 10.
    + intros (m & (-> & Hn & c & Ec & H1) & H2). repeat split; [done |]. exists c.
      split; [done |]. apply IH. eauto.
Qed.

Lemma chain_null h p e : chain h p [] e -> p = e.
Proof. done. Qed.

Lemma chain_nonnull h p x l e : chain h p (x :: l) e -> p = x /\ (p =? NULL) = false.
Proof. intros (-> & Hn & _). split; [done |]. by apply Z.eqb_neq. Qed.

Lemma chain_elem h p l e x : chain h p l e -> x ∈ l -> x <> NULL /\ is_Some (h !! x).
Proof.
  revert p. induction l as [|y l IH]; intros p H Hx; [by apply elem_of_nil in Hx |].
  destruct H as (-> & Hn & c & Ec & H). apply elem_of_cons in Hx as [-> | Hx]; eauto.
Qed.

(** Two heaps with the same cells and the same [info] pointers. *)
Definition same_info (h h' : heads) : Prop := forall x, info <$> h' !! x = info <$> h !! x.

Lemma same_info_set_next (h h' : heads) p c v :
  same_info h h' -> h' !! p = Some c -> same_info h (<[p := ListHead v (info c)]> h').
Proof.
  intros H E x. destruct (decide (x = p)) as [-> |].
  - rewrite lookup_insert_eq, <- H, E. done.
  - rewrite lookup_insert_ne by done. apply H.
Qed.

Lemma same_info_refl h : same_info h h.
Proof. done. Qed.

Lemma same_info_trans h1 h2 h3 : same_info h1 h2 -> same_info h2 h3 -> same_info h1 h3.
Proof. intros H1 H2 x. by rewrite H2, H1. Qed.

#[export] Hint Resolve same_info_refl same_info_set_next : core.

(** *** Reversal *)

Lemma reverse_loop_chain fuel h p l nxt acc :
  chain h p l NULL -> chain h nxt acc NULL -> NoDup (l ++ acc) -> (length l < fuel)%nat ->
  exists r h', reverse_loop fuel h p nxt = Ok (r, h') /\
    chain h' r (rev l ++ acc) NULL /\ same_info h h'.
Proof.
  revert fuel h p nxt acc. induction l as [|x l IH]; intros fuel h p nxt acc Hl Ha Hd Hf;
    (destruct fuel as [|fuel]; [cbn in Hf; lia |]); cbn [reverse_loop].
  - apply chain_null in Hl as ->. by eexists _, _.
  - destruct (chain_nonnull _ _ _ _ _ Hl) as [-> ->]. destruct Hl as (_ & Hn & c & Ec & Hl).
    rewrite (load_Some _ _ _ Ec), (set_next_Some _ _ _ _ Ec). cbn [mbind res_bind].
    cbn in Hd. apply NoDup_cons in Hd as [Hx Hd].
    assert ((x ∉ l) /\ (x ∉ acc)) as [Hxl Hxa] by set_solver.
    destruct (IH fuel (<[x := ListHead nxt (info c)]> h) (next c) x (x :: acc))
      as (r & h' & E & Hc & Hs).
    + by apply chain_insert.
    + repeat split; [done |]. exists (ListHead nxt (info c)).
      rewrite lookup_insert_eq. split; [done |]. by apply chain_insert.
    + rewrite <- Permutation_middle. by apply NoDup_cons.
    + cbn in Hf. lia.
    + exists r, h'. split; [done |]. split; [cbn [rev]; by rewrite <- app_assoc |].
      eapply same_info_trans; [| done]. by apply same_info_set_next.
Qed.

Lemma reverse_loop_mono fuel h p nxt r :
  reverse_loop fuel h p nxt = Ok r -> reverse_loop (S fuel) h p nxt = Ok r.
Proof.
  revert h p nxt. induction fuel as [|fuel IH]; intros h p nxt; [done |].
  cbn [reverse_loop] in *. destruct (p =? NULL); [done |].
  destruct (load h p) as [c | f]; [| done]. cbn [mbind res_bind].
  destruct (set_next h p nxt) as [h' | f]; [| done]. apply IH.
Qed.

Lemma xlistrev_repeat_reverse fuel h p prev r :
  reverse_loop fuel h p prev = Ok r -> xlistrev_repeat fuel h p prev = Ok r.
Proof.
  revert h p prev. induction fuel as [|fuel IH]; intros h p prev; [done |].
  cbn [reverse_loop xlistrev_repeat]. unfold xlistrev_loop, NULL.
  destruct (p =? 0); [done |]. cbn [ws_read ws_write heads_words].
  destruct (load h p) as [c | f]; cbn; [| done]. destruct (set_next h p prev) as [h' | f]; cbn; [| done].
  destruct (Z.eqb_spec (next c) 0) as [E |]; cbn; [| apply IH].
  rewrite E. destruct fuel as [|fuel]; done.
Qed.

(** C17. Reversal: on a null-terminated list of distinct cells, and with more fuel than cells,
    [core_list_reverse] terminates with the same cells in reverse order, no [info]
    pointer changed; the instruction sequence of [__xaccel_xlistrev] returns the same
    head and the same heap. *)
Theorem list_reverse_correct fuel h p l :
  is_list h p l -> (length l < fuel)%nat ->
  exists r h',
    core_list_reverse fuel h p = Ok (r, h') /\ xaccel_xlistrev fuel h p = Ok (r, h') /\
    is_list h' r (rev l) /\ same_info h h'.
Proof.
  intros [Hl Hd] Hf.
  destruct (reverse_loop_chain fuel h p l NULL []) as (r & h' & E & Hc & Hs);
    [done | done | by rewrite app_nil_r | done |].
  exists r, h'. split; [done |]. split.
  - unfold xaccel_xlistrev, xlistrev_init. unfold core_list_reverse in *.
    destruct fuel as [|fuel]; [lia |]. cbn [reverse_loop] in E. unfold NULL in E.
    destruct (Z.eqb_spec p 0); [by injection E as <- <- |]. cbn [ws_read ws_write heads_words].
    destruct (load h p) as [c | f]; [| done]. cbn in *.
    destruct (set_next h p 0) as [h1 | f]; [| done]. cbn in *.
    by apply (xlistrev_repeat_reverse (S fuel)), reverse_loop_mono.
  - split; [| done]. rewrite app_nil_r in Hc. split; [done |]. by rewrite <- Permutation_rev.
Qed.

(** *** Removal *)

(** Evaluates loads and updates at cells whose contents are known. *)
Ltac heap_lookup :=
  repeat first [rewrite lookup_insert_eq | rewrite lookup_insert_ne by done]; eassumption || done.
Ltac heap_run :=
  repeat (cbn [mbind res_bind next info];
    first [ erewrite load_Some by heap_lookup
          | erewrite set_next_Some by heap_lookup
          | erewrite set_info_Some by heap_lookup ]);
  cbn [mbind res_bind next info].

(** [core_list_undo_remove] is the inverse of [core_list_remove]: removing the
    item at a cell with a successor takes the item's data out of the list (the cell
    takes over its successor's data and link) and the following undo restores every
    cell of the heap. *)
Theorem list_remove_undo h item c r :
  h !! item = Some c -> h !! next c = Some r -> next c <> item ->
  exists h',
    core_list_remove h item = Ok (next c, h') /\
    h' !! item = Some (ListHead (next r) (info r)) /\
    h' !! next c = Some (ListHead NULL (info c)) /\
    core_list_undo_remove h' (next c) item = Ok (next c, h).
Proof.
  intros Ec Er Hne.
  assert (core_list_remove h item =
    Ok (next c, <[next c := ListHead NULL (info c)]> (<[item := ListHead (next r) (info r)]> h))) as E.
  { unfold core_list_remove. heap_run. do 2 f_equal. apply map_eq. intros x.
    rewrite !lookup_insert. by repeat case_decide. }
  eexists. split; [exact E |]. split; [heap_lookup |]. split; [heap_lookup |].
  unfold core_list_undo_remove. heap_run. do 2 f_equal. apply map_eq. intros x.
  rewrite !lookup_insert. repeat case_decide; subst; try done.
  - rewrite Ec. by destruct c.
  - rewrite Er. by destruct r.
Qed.
