(* ===== verification/ListSort.v ===== *)
(** Correctness of [core_list_mergesort] (core_list_join.c): the in-place, bottom-up
    merge sort sorts, keeps exactly the cells of the list, and terminates.

    The sort is proved against the interface [CmpSpec] of its comparison function;
    [cmp_idx] implements it. *)

From stdpp Require Import sorting.
From S2P Require Import Prelude Crc NumericDfa StateBench Matrix ListKernel.

(** What a comparison function promises: on valid data pointers, in a state that satisfies
    its invariant, it returns a value whose sign orders the pointers by [key], and it
    keeps its invariant. *)
Class CmpSpec {D} (cmp : Z -> Z -> D -> res (Z * D)) (valid : Z -> Prop) (Inv : D -> Prop)
    (key : Z -> Z) : Prop :=
  cmp_spec a b d : valid a -> valid b -> Inv d ->
    exists r d', cmp a b d = Ok (r, d') /\ Inv d' /\ (r <= 0 <-> key a <= key b).

Section sort.
Context {D : Type} (cmp : Z -> Z -> D -> res (Z * D)) (valid : Z -> Prop) (Inv : D -> Prop)
  (key : Z -> Z) `{!CmpSpec cmp valid Inv key}.
(** The cells of the list, and the data pointer of each. *)
Context (cells : list Z) (inf : Z -> Z).
Context (Hnull : NULL ∉ cells) (Hvalid : forall x, x ∈ cells -> valid (inf x)).

Definition before (x y : Z) : Prop := key (inf x) <= key (inf y).

#[local] Instance before_dec x y : Decision (before x y).
Proof. unfold before. apply _. Defined.

#[local] Instance before_trans : Transitive before.
Proof. unfold before. intros x y z. lia. Qed.

#[local] Instance before_total : Total before.
Proof. unfold before. intros x y. lia. Qed.

Definition wf (h : heads) : Prop :=
  forall x, x ∈ cells -> exists c, h !! x = Some c /\ info c = inf x.

Lemma wf_set_next h x c v :
  wf h -> h !! x = Some c -> wf (<[x := ListHead v (info c)]> h).
Proof.
  intros Hw E y Hy. rewrite lookup_insert. case_decide; subst.
  - destruct (Hw y Hy) as (c' & E' & <-). exists (ListHead v (info c)). by simplify_eq.
  - by apply Hw.
Qed.

(** The merged part: nothing yet, or a chain from [lst] to [tail]. *)
Definition merged (h : heads) (lst tail : Z) (out : list Z) : Prop :=
  (out = [] /\ lst = NULL /\ tail = NULL) \/
  (exists o, out = o ++ [tail] /\ chain h lst o tail).

(** The state of a merge: [out] is merged, [ps] and [qs] are still to come. *)
Record merging (h : heads) (p q lst tail : Z) (out ps qs : list Z) : Prop := Merging {
  mg_wf : wf h;
  mg_p : exists e, chain h p ps e;
  mg_q : chain h q qs NULL;
  mg_out : merged h lst tail out;
  mg_nodup : NoDup (out ++ ps ++ qs);
  mg_cells : forall x, x ∈ out ++ ps ++ qs -> x ∈ cells }.

Lemma add_element_merging h d p q psize qsize lst tail out x ps qs :
  wf h -> (exists e, chain h p ps e) -> chain h q qs NULL -> merged h lst tail out ->
  NoDup ((out ++ [x]) ++ ps ++ qs) -> (forall y, y ∈ (out ++ [x]) ++ ps ++ qs -> y ∈ cells) ->
  exists h' lst',
    add_element x (MergeState (D := D) h d p q psize qsize lst tail) =
      Ok (MergeState h' d p q psize qsize lst' x) /\
    merging h' p q lst' x (out ++ [x]) ps qs.
Proof.
  intros Hw [e Hp] Hq Hm Hd Hc. cbn [add_element].
  destruct Hm as [(-> & -> & ->) | (o & -> & Ho)].
  { exists h, x. split; [done |]. split; eauto. right. by exists []. }
  assert (tail ∈ cells) as Ht by (apply Hc; set_solver).
  assert (tail <> NULL) as Ht0 by congruence.
  destruct (Hw tail Ht) as (c & Ec & _).
  replace (tail =? NULL) with false by (symmetry; by apply Z.eqb_neq). cbn [negb].
  rewrite (set_next_Some _ _ _ _ Ec). cbn [mbind res_bind].
  assert ((tail ∉ o) /\ (tail ∉ ps) /\ (tail ∉ qs)) as (Hto & Htp & Htq).
  { rewrite <- !app_assoc in Hd. apply NoDup_app in Hd as (_ & Ho1 & Hd).
    apply NoDup_cons in Hd as [Hd _]. split; [| set_solver].
    intros Hin. apply (Ho1 tail Hin). set_solver. }
  eexists _, lst. split; [done |]. split; [by apply wf_set_next | | | | done | done].
  - exists e. by apply chain_insert.
  - by apply chain_insert.
  - right. exists (o ++ [tail]). split; [done |]. apply chain_app. exists tail.
    split; [by apply chain_insert |]. repeat split; [done |].
    eexists. split; [apply lookup_insert_eq | done].
Qed.

Lemma emit_p h d p q psize qsize lst tail out x ps qs :
  merging h p q lst tail out (x :: ps) qs ->
  exists h' p' lst',
    (take_p (MergeState (D := D) h d p q psize qsize lst tail) ≫= fun '(e, st) => add_element e st) =
      Ok (MergeState h' d p' q (psize - 1) qsize lst' x) /\
    merging h' p' q lst' x (out ++ [x]) ps qs.
Proof.
  intros [Hw [e Hp] Hq Hm Hd Hc]. destruct Hp as (-> & Hx & c & Ec & Hp). cbn [take_p].
  rewrite (load_Some _ _ _ Ec). cbn [mbind res_bind].
  destruct (add_element_merging h d (next c) q (psize - 1) qsize lst tail out x ps qs)
    as (h' & lst' & E & Hm'); eauto; rewrite <- app_assoc; done.
Qed.

Lemma emit_q h d p q psize qsize lst tail out x ps qs :
  merging h p q lst tail out ps (x :: qs) ->
  exists h' q' lst',
    (take_q (MergeState (D := D) h d p q psize qsize lst tail) ≫= fun '(e, st) => add_element e st) =
      Ok (MergeState h' d p q' psize (qsize - 1) lst' x) /\
    merging h' p q' lst' x (out ++ [x]) ps qs.
Proof.
  intros [Hw Hp Hq Hm Hd Hc]. destruct Hq as (-> & Hx & c & Ec & Hq). cbn [take_q].
  rewrite (load_Some _ _ _ Ec). cbn [mbind res_bind].
  assert (out ++ ps ++ x :: qs ≡ₚ (out ++ [x]) ++ ps ++ qs) as HP.
  { rewrite <- app_assoc. apply Permutation_app_head. cbn. by rewrite Permutation_middle. }
  destruct (add_element_merging h d p (next c) psize (qsize - 1) lst tail out x ps qs)
    as (h' & lst' & E & Hm'); eauto.
  - by rewrite <- HP.
  - intros y. rewrite <- HP. apply Hc.
Qed.

Lemma length_cons_eqb (x : Z) l : (Z.of_nat (length (x :: l)) =? 0) = false.
Proof. apply Z.eqb_neq. cbn [length]. lia. Qed.

Lemma length_cons_pred (x : Z) l : Z.of_nat (length (x :: l)) - 1 = Z.of_nat (length l).
Proof. cbn [length]. lia. Qed.

(** The head of a null-terminated chain is null exactly when it is empty. *)
Lemma chain_head_null h q qs :
  chain h q qs NULL -> (q =? NULL) = match qs with [] => true | _ => false end.
Proof.
  destruct qs; intros H; [by rewrite H |]. by destruct (chain_nonnull _ _ _ _ _ H).
Qed.

Lemma merging_load h p q lst tail out x ps qs :
  merging h p q lst tail out (x :: ps) qs ->
  p = x /\ exists c, load h p = Ok c /\ info c = inf x /\ valid (info c).
Proof.
  intros [Hw [e Hp] _ _ _ Hc]. destruct Hp as (-> & _). split; [done |].
  assert (x ∈ cells) as Hx by (apply Hc; set_solver).
  destruct (Hw x Hx) as (c & Ec & Ei). exists c. rewrite Ei. split; [by apply load_Some |]. auto.
Qed.

Lemma merging_load_q h p q lst tail out ps y qs :
  merging h p q lst tail out ps (y :: qs) ->
  q = y /\ exists c, load h q = Ok c /\ info c = inf y /\ valid (info c).
Proof.
  intros [Hw _ Hq _ _ Hc]. destruct Hq as (-> & _). split; [done |].
  assert (y ∈ cells) as Hy by (apply Hc; set_solver).
  destruct (Hw y Hy) as (c & Ec & Ei). exists c. rewrite Ei. split; [by apply load_Some |]. auto.
Qed.

(** One round of the inner loop moves the head of the merge of the two runs. *)
Lemma merge_step_correct h d p q lst tail out ps qs n z l :
  merging h p q lst tail out ps qs -> Inv d ->
  list_merge before ps (take n qs) = z :: l ->
  exists h' d' p' q' lst' ps' qs' n',
    merge_step cmp (MergeState h d p q (Z.of_nat (length ps)) (Z.of_nat n) lst tail) =
      Ok (MergeState h' d' p' q' (Z.of_nat (length ps')) (Z.of_nat n') lst' z) /\ Inv d' /\
    merging h' p' q' lst' z (out ++ [z]) ps' qs' /\
    list_merge before ps' (take n' qs') = l /\ drop n' qs' = drop n qs /\
    S (length ps' + length (take n' qs')) = (length ps + length (take n qs))%nat.
Proof.
  intros Hm Hi El. unfold merge_step. cbn [ms_psize ms_qsize ms_q ms_p ms_h ms_d ms_list ms_tail].
  rewrite (chain_head_null _ _ _ (mg_q _ _ _ _ _ _ _ _ Hm)).
  destruct ps as [|x ps]; [| destruct n as [|n]; [| destruct qs as [|y qs]]].
  - destruct n as [|n]; [done |]. destruct qs as [|y qs]; [done |].
    cbn in El. injection El as -> <-. change (Z.of_nat (length []) =? 0) with true. cbv iota.
    destruct (emit_q h d p q (Z.of_nat (length (@nil Z))) (Z.of_nat (S n)) lst tail out z [] qs Hm) as (h' & q' & lst' & -> & Hm').
    exists h', d, p, q', lst', [], qs, n. replace (Z.of_nat (S n) - 1) with (Z.of_nat n) by lia.
    split_and!; try done. cbn. by destruct (take n qs).
  - cbn in El. injection El as -> <-.
    rewrite (length_cons_eqb z ps).
    change (Z.of_nat 0 =? 0) with true. cbn [orb].
    destruct (emit_p h d p q (Z.of_nat (length (z :: ps))) (Z.of_nat 0) lst tail out z ps qs Hm)
      as (h' & p' & lst' & -> & Hm').
    exists h', d, p', q, lst', ps, qs, 0%nat.
    rewrite (length_cons_pred z ps).
    split_and!; try done. by destruct ps.
  - cbn in El. injection El as -> <-.
    rewrite (length_cons_eqb z ps).
    rewrite orb_true_r.
    destruct (emit_p h d p q (Z.of_nat (length (z :: ps))) (Z.of_nat (S n)) lst tail out z ps [] Hm)
      as (h' & p' & lst' & -> & Hm').
    exists h', d, p', q, lst', ps, [], (S n).
    rewrite (length_cons_pred z ps).
    split_and!; try done. by destruct ps.
  - rewrite (length_cons_eqb x ps).
    rewrite (proj2 (Z.eqb_neq (Z.of_nat (S n)) 0)) by lia. cbn [orb].
    destruct (merging_load _ _ _ _ _ _ _ _ _ Hm) as (_ & cp & -> & Ep & Vp).
    destruct (merging_load_q _ _ _ _ _ _ _ _ _ Hm) as (_ & cq & -> & Eq & Vq).
    cbn [mbind res_bind].
    destruct (cmp_spec (info cp) (info cq) d Vp Vq Hi) as (r & d' & -> & Hi' & Hr).
    cbn [mbind res_bind]. rewrite Ep, Eq in Hr. fold (before x y) in Hr.
    cbn [take list_merge] in El. destruct (decide (before x y)) as [Hb | Hb].
    + injection El as -> <-. replace (r <=? 0) with true by (symmetry; apply Z.leb_le, Hr, Hb).
      destruct (emit_p h d' p q (Z.of_nat (length (z :: ps))) (Z.of_nat (S n)) lst tail out z ps (y :: qs) Hm)
        as (h' & p' & lst' & -> & Hm').
      exists h', d', p', q, lst', ps, (y :: qs), (S n).
      by rewrite (length_cons_pred z ps).
    + destruct (Z.leb_spec r 0); [tauto |].
      injection El as -> <-.
      destruct (emit_q h d' p q (Z.of_nat (length (x :: ps))) (Z.of_nat (S n)) lst tail out z (x :: ps) qs Hm)
        as (h' & q' & lst' & -> & Hm').
      exists h', d', p, q', lst', (x :: ps), qs, n. replace (Z.of_nat (S n) - 1) with (Z.of_nat n) by lia.
      split_and!; done || (cbn [take length]; lia).
Qed.

Lemma list_merge_nil ps l : list_merge before ps l = [] -> ps = [] /\ l = [].
Proof. destruct ps, l; cbn; try done. by case_decide. Qed.

(** The inner loop computes the stable merge of the two runs. *)
Lemma merge_loop_correct fuel h d p q lst tail out ps qs n :
  merging h p q lst tail out ps qs -> Inv d ->
  (length ps + length (take n qs) < fuel)%nat ->
  exists h' d' p' q' qsize' lst' tail',
    merge_loop cmp fuel
      (MergeState h d p q (Z.of_nat (length ps)) (Z.of_nat n) lst tail) =
      Ok (MergeState h' d' p' q' 0 qsize' lst' tail') /\ Inv d' /\
    merging h' p' q' lst' tail' (out ++ list_merge before ps (take n qs)) [] (drop n qs).
Proof.
  revert h d p q lst tail out ps qs n.
  induction fuel as [|fuel IH]; intros h d p q lst tail out ps qs n Hm Hi Hf; [lia |].
  cbn [merge_loop ms_psize ms_qsize ms_q].
  rewrite (chain_head_null _ _ _ (mg_q _ _ _ _ _ _ _ _ Hm)).
  destruct (list_merge before ps (take n qs)) as [|z l] eqn:El.
  - apply list_merge_nil in El as [-> Et].
    assert (qs = drop n qs) as Ed by (by rewrite <- (take_drop n qs) at 1; rewrite Et).
    replace (_ || _) with false.
    + eexists _, _, _, _, _, _, _. split; [done |]. split; [done |]. by rewrite app_nil_r, <- Ed.
    + destruct n as [|n]; [done |]. destruct qs; [| done]. cbn. by rewrite andb_false_r.
  - destruct (merge_step_correct h d p q lst tail out ps qs n z l Hm Hi El)
      as (h' & d' & p' & q' & lst' & ps' & qs' & n' & -> & Hi' & Hm' & El' & Ed & Hlen).
    replace (_ || _) with true.
    + cbn [mbind res_bind].
      destruct (IH h' d' p' q' lst' z (out ++ [z]) ps' qs' n' Hm' Hi')
        as (h2 & d2 & p2 & q2 & s2 & l2 & t2 & E & Hi2 & Hm2); [lia |].
      exists h2, d2, p2, q2, s2, l2, t2. split; [done |]. split; [done |].
      by rewrite El', Ed, <- app_assoc in Hm2.
    + destruct ps as [|x ps]; [| cbn [length]; symmetry; apply orb_true_iff; left; apply Z.ltb_lt; lia].
      destruct n as [|n]; [done |]. destruct qs as [|y qs]; [done |].
      cbn [length]. symmetry. apply orb_true_iff. right. rewrite andb_true_r. apply Z.ltb_lt. lia.
Qed.

(** ** One pass *)

Lemma step_along_chain n h p l k :
  chain h p l NULL -> l <> [] -> (0 < n)%nat ->
  exists q, step_along n h p k = Ok (q, k + Z.of_nat (length (take n l))) /\
    chain h p (take n l) q /\ chain h q (drop n l) NULL.
Proof.
  revert p l k. induction n as [|n IH]; intros p l k Hc Hl Hn; [lia |].
  destruct l as [|x l]; [done |]. destruct Hc as (-> & Hx & c & Ec & Hc).
  cbn [step_along]. rewrite (load_Some _ _ _ Ec). cbn [mbind res_bind].
  rewrite (chain_head_null _ _ _ Hc). cbn [take drop length].
  destruct l as [|y l].
  - exists (next c). rewrite take_nil, drop_nil. split; [done |]. split; [| done].
    split; [done |]. split; [done |]. by exists c.
  - destruct n as [|n].
    + exists (next c). split; [done |]. split; [| done]. split; [done |]. split; [done |]. by exists c.
    + destruct (IH (next c) (y :: l) (k + 1) Hc) as (q & -> & H1 & H2); [done | lia |].
      exists q. split; [f_equal; f_equal; cbn [take length]; lia |]. split; [| done].
      split; [done |]. split; [done |]. by exists c.
Qed.

(** [pass n l l' k]: merging the runs of [n] elements of [l] pairwise gives [l'], in [k]
    merges. *)
Inductive pass (n : nat) : list Z -> list Z -> nat -> Prop :=
| pass_nil : pass n [] [] 0
| pass_cons l l' k :
    l <> [] -> pass n (drop n (drop n l)) l' k ->
    pass n l (list_merge before (take n l) (take n (drop n l)) ++ l') (S k).

Lemma pass_loop_correct fuel n h d p x lst tail nm out l :
  merging h x p lst tail out [] l -> Inv d -> (0 < n)%nat -> (length l < fuel)%nat ->
  exists h' d' lst' tail' x' l' k,
    pass_loop cmp fuel (Z.of_nat n) h d p lst tail nm = Ok (h', d', lst', tail', nm + Z.of_nat k) /\
    Inv d' /\ pass n l l' k /\ merging h' x' NULL lst' tail' (out ++ l') [] [].
Proof.
  revert h d p x lst tail nm out l.
  induction fuel as [|fuel IH]; intros h d p x lst tail nm out l Hm Hi Hn Hf; [lia |].
  cbn [pass_loop]. rewrite (chain_head_null _ _ _ (mg_q _ _ _ _ _ _ _ _ Hm)).
  destruct l as [|y l].
  - exists h, d, lst, tail, x, [], 0%nat. rewrite Z.add_0_r, app_nil_r.
    split_and!; try done; [constructor |]. by rewrite <- (mg_q _ _ _ _ _ _ _ _ Hm).
  - set (l0 := y :: l) in *. pose proof Hm as [Hw _ Hq Ho Hd Hc].
    rewrite Nat2Z.id. destruct (step_along_chain n h p l0 0 Hq) as (q & -> & H1 & H2); [done | lia |].
    cbn [mbind res_bind]. rewrite Z.add_0_l.
    assert (merging h p q lst tail out (take n l0) (drop n l0)) as Hm1.
    { split; try done; [by eauto | |]; by rewrite take_drop. }
    assert (length (take n l0) + length (take n (drop n l0)) <= length l0)%nat as Hlen
      by (rewrite !length_take, length_drop; lia).
    destruct (merge_loop_correct (S fuel) h d p q lst tail out (take n l0) (drop n l0) n Hm1 Hi)
      as (h2 & d2 & p2 & q2 & s2 & lst2 & tail2 & -> & Hi2 & Hm2); [lia |].
    cbn [mbind res_bind ms_h ms_d ms_q ms_list ms_tail].
    destruct (IH h2 d2 q2 p2 lst2 tail2 (nm + 1) _ _ Hm2 Hi2 Hn)
      as (h3 & d3 & lst3 & tail3 & x3 & l3 & k & -> & Hi3 & Hp & Hm3).
    { rewrite !length_drop. unfold l0 in *. cbn [length] in *. lia. }
    exists h3, d3, lst3, tail3, x3, (list_merge before (take n l0) (take n (drop n l0)) ++ l3), (S k).
    split; [do 2 f_equal; lia |]. split; [done |]. split; [by constructor |].
    by rewrite app_assoc.
Qed.

(** ** Runs *)

(** [l] consists of sorted runs of [n] elements (the last may be shorter). *)
Inductive runs (n : nat) : list Z -> Prop :=
| runs_nil : runs n []
| runs_cons l : l <> [] -> Sorted before (take n l) -> runs n (drop n l) -> runs n l.

Lemma runs_take n l : runs n l -> Sorted before (take n l) /\ runs n (drop n l).
Proof. intros [| ]; [rewrite take_nil, drop_nil; repeat constructor | done]. Qed.

Lemma runs_1 l : runs 1 l.
Proof. induction l as [|x l IH]; constructor; try done. cbn. repeat constructor. Qed.

Lemma pass_perm n l l' k : pass n l l' k -> l' ≡ₚ l.
Proof.
  induction 1 as [|l l' k Hl _ IH]; [done |].
  rewrite merge_Permutation, IH, <- app_assoc, take_drop, take_drop. done.
Qed.

Lemma pass_runs n l l' k : (0 < n)%nat -> pass n l l' k -> runs n l -> runs (n + n) l'.
Proof.
  intros Hn. induction 1 as [|l l' k Hl Hp IH]; intros Hr; [constructor |].
  destruct (runs_take n l Hr) as [S1 Hr1], (runs_take n _ Hr1) as [S2 Hr2].
  specialize (IH Hr2). pose proof (pass_perm _ _ _ _ Hp) as HP.
  set (M := list_merge before (take n l) (take n (drop n l))).
  assert (Sorted before M) as HM by (apply Sorted_list_merge; [apply _ | done | done]).
  assert (length M = length (take n l) + length (take n (drop n l)))%nat as HL.
  { unfold M. by rewrite merge_Permutation, length_app. }
  rewrite !length_take, length_drop in HL.
  assert (M <> []) as HM0.
  { destruct M; [| done]. destruct l; [done |]. cbn in HL. lia. }
  destruct (decide (n + n <= length l)%nat) as [Hge | Hlt].
  - assert (length M = n + n)%nat as HL2 by lia. constructor.
    + by destruct M.
    + by rewrite take_app_length' by lia.
    + by rewrite drop_app_length' by lia.
  - rewrite (nil_length_inv (drop n (drop n l))) in HP by (rewrite !length_drop; lia).
    apply Permutation_nil_r in HP as ->. rewrite app_nil_r. constructor; [done | ..].
    + by rewrite take_ge by lia.
    + rewrite drop_ge by lia. constructor.
Qed.

Lemma pass_count n l l' k : pass n l l' k -> (k <= 1 <-> length l <= n + n)%nat.
Proof.
  intros H. destruct H as [|l l' k Hl H]; [cbn; lia |].
  assert (length (drop n (drop n l)) = length l - n - n)%nat as E by (rewrite !length_drop; lia).
  inversion H as [E0 | ? ? ? Hne]; subst.
  - rewrite <- E0 in E. cbn in E. lia.
  - destruct (drop n (drop n l)); [done |]. cbn in E. lia.
Qed.

(** ** All passes *)

Lemma sort_loop_correct fuel wfuel n h d lst l :
  wf h -> chain h lst l NULL -> l ≡ₚ cells -> NoDup cells -> l <> [] -> Inv d ->
  runs n l -> (0 < n)%nat -> (n = 1 \/ n < length l)%nat -> (length l < wfuel)%nat ->
  (length l < fuel + n)%nat -> Z.of_nat (length l) < 2 ^ 31 ->
  exists h' d' lst' l',
    sort_loop cmp fuel wfuel (Z.of_nat n) h d lst = Ok (h', d', lst') /\
    wf h' /\ chain h' lst' l' NULL /\ l' ≡ₚ cells /\ Sorted before l' /\ Inv d'.
Proof.
  intros Hw Hc HP Hd Hne Hi Hr Hn Hn1 Hwf Hf Hmax. revert n h d lst l Hw Hc HP Hne Hi Hr Hn Hn1 Hwf Hf Hmax.
  induction fuel as [|fuel IH]; intros n h d lst l Hw Hc HP Hne Hi Hr Hn Hn1 Hwf Hf Hmax.
  { destruct l; [done |]. cbn [length] in *. lia. }
  cbn [sort_loop].
  destruct (pass_loop_correct wfuel n h d lst 0 NULL NULL 0 [] l) as
    (h1 & d1 & lst1 & tail1 & x1 & l1 & k & -> & Hi1 & Hp & Hm1); try done.
  { split; try done; [by exists 0 | by left | by rewrite HP | intros x; by rewrite HP]. }
  cbn [mbind res_bind]. rewrite Z.add_0_l. pose proof (pass_perm _ _ _ _ Hp) as HP1.
  destruct Hm1 as [Hw1 _ _ Ho1 Hd1 Hc1]. cbn [app] in *. rewrite app_nil_r in Hd1, Hc1.
  destruct Ho1 as [(-> & _) | (o & -> & Ho)].
  { apply Permutation_nil_l in HP1. congruence. }
  destruct (Hw1 tail1) as (c & Ec & _); [apply Hc1; set_solver |].
  rewrite (set_next_Some _ _ _ _ Ec). cbn [mbind res_bind].
  set (h2 := <[tail1 := ListHead NULL (info c)]> h1).
  assert (wf h2) as Hw2 by (by apply wf_set_next).
  assert (chain h2 lst1 (o ++ [tail1]) NULL) as Hch.
  { apply chain_app. exists tail1. apply NoDup_app in Hd1 as (_ & Hdo & _). split.
    - apply chain_insert; [| done]. intros Hin. apply (Hdo _ Hin). set_solver.
    - repeat split; [intros ->; apply Hnull, Hc1; set_solver |].
      eexists. split; [apply lookup_insert_eq | done]. }
  pose proof (pass_count _ _ _ _ Hp) as Hk. pose proof (pass_runs _ _ _ _ Hn Hp Hr) as Hr'.
  destruct (Z.leb_spec (Z.of_nat k) 1).
  - exists h2, d1, lst1, (o ++ [tail1]). split_and!; try done; [by rewrite HP1 |].
    destruct (runs_take _ _ Hr') as [HS _]. rewrite take_ge in HS; [done |]. rewrite HP1. lia.
  - replace (s32 (Z.of_nat n * 2)) with (Z.of_nat (n + n)).
    + apply (IH (n + n)%nat h2 d1 lst1 (o ++ [tail1])); try done; rewrite ?HP1; try lia; try done.
      by destruct o.
    + rewrite sext_small; [lia | lia |]. unfold in_srange. lia.
Qed.
End sort.

Definition info_of (h : heads) (x : Z) : Z := from_option info 0 (h !! x).

(** The sort against the interface of its comparison function. *)
Lemma mergesort_correct {D} (cmp : Z -> Z -> D -> res (Z * D)) valid Inv key
    `{!CmpSpec cmp valid Inv key} fuel h d lst l :
  is_list h lst l -> l <> [] -> (forall x, x ∈ l -> valid (info_of h x)) -> Inv d ->
  (length l < fuel)%nat -> Z.of_nat (length l) < 2 ^ 31 ->
  exists h' d' lst' l',
    core_list_mergesort cmp fuel h d lst = Ok (h', d', lst') /\
    is_list h' lst' l' /\ l' ≡ₚ l /\
    Sorted (fun x y => key (info_of h x) <= key (info_of h y)) l' /\
    (forall x, x ∈ l -> info_of h' x = info_of h x) /\ Inv d'.
Proof.
  intros [Hc Hd] Hne Hv Hi Hf Hmax.
  assert (wf l (info_of h) h) as Hw.
  { intros x Hx. destruct (chain_elem _ _ _ _ _ Hc Hx) as [_ [c Ec]]. exists c.
    unfold info_of. by rewrite Ec. }
  destruct (sort_loop_correct cmp valid Inv key l (info_of h)
    (fun H => proj1 (chain_elem _ _ _ _ _ Hc H) eq_refl) Hv
    fuel fuel 1 h d lst l) as (h' & d' & lst' & l' & E & Hw' & Hc' & HP & HS & Hi');
    try done; try lia; [apply runs_1 |].
  exists h', d', lst', l'. split_and!; try done.
  - split; [done | by rewrite HP].
  - intros x Hx. destruct (Hw' x Hx) as (c & Ec & <-). unfold info_of. by rewrite Ec.
Qed.

(** [cmp_idx] orders by the [idx] fields, which it never changes. *)
Definition idx_of (d : datas) (a : Z) : Z := from_option idx 0 (d !! a).

Lemma cmp_idx_spec (res_null : bool) (d0 : datas) :
  CmpSpec (cmp_idx res_null) (fun a => is_Some (d0 !! a))
    (fun env => forall a, idx <$> le_data env !! a = idx <$> d0 !! a) (idx_of d0).
Proof.
  intros a b env [ca Ea] [cb Eb] Hi.
  assert (forall x c0, d0 !! x = Some c0 -> exists c, le_data env !! x = Some c /\ idx c = idx c0) as Hl.
  { intros x c0 E. specialize (Hi x). rewrite E in Hi. apply fmap_Some in Hi as (c & ? & ?). eauto. }
  destruct (Hl a ca Ea) as (xa & Exa & Ixa), (Hl b cb Eb) as (xb & Exb & Ixb).
  unfold cmp_idx, idx_of. rewrite Ea, Eb. cbn [from_option]. destruct res_null; cbv zeta.
  - rewrite (load_Some _ _ _ Exa). cbn [mbind res_bind].
    assert (exists yb, <[a := regen xa]> (le_data env) !! b = Some yb /\ idx yb = idx cb) as (yb & Eyb & Iyb).
    { rewrite lookup_insert. case_decide; [subst | by eauto]. eexists. split; [done |]. cbn. congruence. }
    rewrite (load_Some _ _ _ Eyb). cbn [mbind res_bind].
    assert (exists ya, <[b := regen yb]> (<[a := regen xa]> (le_data env)) !! a = Some ya /\ idx ya = idx ca)
      as (ya & Eya & Iya).
    { rewrite !lookup_insert. repeat case_decide; subst; eexists; (split; [done |]); cbn; congruence. }
    rewrite (load_Some _ _ _ Eya). cbn [mbind res_bind].
    rewrite (load_Some _ b (regen yb)) by apply lookup_insert_eq. cbn [mbind res_bind].
    eexists _, _. split; [done |]. split; [| cbn; lia].
    intros x. cbn [le_data]. rewrite <- Hi, !lookup_insert. repeat case_decide; subst; cbn; try done.
    + rewrite Exb. cbn. congruence.
    + by rewrite Exa.
  - cbn [mbind res_bind]. rewrite (load_Some _ _ _ Exa). cbn [mbind res_bind].
    rewrite (load_Some _ _ _ Exb). cbn [mbind res_bind].
    eexists _, _. split; [done |]. split; [done | lia].
Qed.

(** C5. [core_list_mergesort] with [cmp_idx] (the call that returns the benchmark's
    list to its original order): on a non-empty null-terminated list of distinct cells
    with data, and with more fuel than cells, the in-place sort terminates; the result is a null-terminated
    list of exactly the same cells, each with its own data, in non-decreasing order of
    [idx], and no [idx] has changed. *)
Theorem mergesort_by_idx_correct res_null fuel h env lst l :
  is_list h lst l -> l <> [] ->
  (forall x, x ∈ l -> is_Some (le_data env !! info_of h x)) ->
  (length l < fuel)%nat -> Z.of_nat (length l) < 2 ^ 31 ->
  exists h' env' lst' l',
    core_list_mergesort (cmp_idx res_null) fuel h env lst = Ok (h', env', lst') /\
    is_list h' lst' l' /\ l' ≡ₚ l /\
    Sorted (fun x y => idx_of (le_data env) (info_of h x) <= idx_of (le_data env) (info_of h y)) l' /\
    (forall x, x ∈ l -> info_of h' x = info_of h x) /\
    (forall a, idx <$> le_data env' !! a = idx <$> le_data env !! a).
Proof.
  intros Hl Hne Hv Hf Hmax. pose proof (cmp_idx_spec res_null (le_data env)).
  by apply (mergesort_correct (cmp_idx res_null) (fun a => is_Some (le_data env !! a))
    (fun env' => forall a, idx <$> le_data env' !! a = idx <$> le_data env !! a) (idx_of (le_data env))).
Qed.

(** Five cells out of order. *)
Definition sample_heads : heads :=
  list_to_map [(8, ListHead 16 100); (16, ListHead 24 104); (24, ListHead 32 108);
               (32, ListHead 40 112); (40, ListHead 0 116)].
Definition sample_datas : datas :=
  list_to_map [(100, ListData 1 0); (104, ListData 2 9); (108, ListData 3 4);
               (112, ListData 4 7); (116, ListData 5 2)].
Definition sample_env : list_env :=
  ListEnv sample_datas (CoreResults 0 0 0 0 0 0 (MatParams 0 [] [] []) 0 0 0) (fun _ => 0).

Lemma sample_is_list : is_list sample_heads 8 [8; 16; 24; 32; 40].
Proof.
  split; [| by apply (bool_decide_unpack _); vm_compute].
  repeat (split; [done |]; split; [done |]; eexists; split; [vm_compute; done |]). done.
Qed.

Lemma list_reverse_correct_witness :
  exists r h',
    core_list_reverse 6 sample_heads 8 = Ok (r, h') /\ xaccel_xlistrev 6 sample_heads 8 = Ok (r, h') /\
    is_list h' r (rev [8; 16; 24; 32; 40]) /\ same_info sample_heads h'.
Proof. apply list_reverse_correct; [apply sample_is_list | cbn; lia]. Defined.

Lemma list_remove_undo_witness :
  exists h',
    core_list_remove sample_heads 16 = Ok (24, h') /\
    h' !! 16 = Some (ListHead 32 108) /\ h' !! 24 = Some (ListHead 0 104) /\
    core_list_undo_remove h' 24 16 = Ok (24, sample_heads).
Proof.
  apply (list_remove_undo sample_heads 16 (ListHead 24 104) (ListHead 32 108)); done.
Defined.

Lemma mergesort_by_idx_correct_witness :
  exists h' env' lst' l',
    core_list_mergesort (cmp_idx true) 6 sample_heads sample_env 8 = Ok (h', env', lst') /\
    is_list h' lst' l' /\ l' ≡ₚ [8; 16; 24; 32; 40] /\
    Sorted (fun x y => idx_of sample_datas (info_of sample_heads x)
                       <= idx_of sample_datas (info_of sample_heads y)) l' /\
    (forall x, x ∈ [8; 16; 24; 32; 40] -> info_of h' x = info_of sample_heads x) /\
    (forall a, idx <$> le_data env' !! a = idx <$> sample_datas !! a).
Proof.
  apply (mergesort_by_idx_correct true 6 sample_heads sample_env 8 [8; 16; 24; 32; 40]);
    [apply sample_is_list | done | | cbn; lia | cbn; lia].
  intros x Hx. repeat (apply elem_of_cons in Hx as [-> | Hx]; [vm_compute; eauto |]).
  by apply elem_of_nil in Hx.
Defined.

Example mergesort_sample :
  (fun '(h', env', lst') => (lst', next <$> h' !! 8, next <$> h' !! 40, next <$> h' !! 24,
     next <$> h' !! 32, next <$> h' !! 16)) <$>
    core_list_mergesort (cmp_idx true) 6 sample_heads sample_env 8
  = Ok (8, Some 40, Some 24, Some 32, Some 16, Some 0).
Proof. vm_compute. reflexivity. Qed.

(** The empty list is not sorted: the pass leaves [tail] null and then writes through it. *)
Example mergesort_empty_faults :
  is_ok (core_list_mergesort (cmp_idx true) 6 sample_heads sample_env NULL) = false.
Proof. vm_compute. reflexivity. Qed.
