(* ===== verification/CoreMain.v ===== *)
(** The CoreMark driver (src/core_main.c, core_util.c, core_portme.c): seeds, the
    division of the data block, initialisation, iterations and the check of the
    results against the published values. *)

From S2P Require Import Prelude Crc NumericDfa StateBench Matrix ListKernel.

Definition list_known_crc : list Z := [0xd4b0; 0x3340; 0x6a79; 0xe714; 0xe3c1].
Definition matrix_known_crc : list Z := [0xbe52; 0x1199; 0x5608; 0x1fd7; 0x0747].
Definition state_known_crc : list Z := [0x5e47; 0x39bf; 0xe5a4; 0x8e3a; 0x8d84].

Definition ID_LIST : Z := 1.
Definition ID_MATRIX : Z := 2.
Definition ID_STATE : Z := 4.
Definition ALL_ALGORITHMS_MASK : Z := 7.
Definition NUM_ALGORITHMS : Z := 3.

(** The five volatile seeds. *)
Record seeds := Seeds {
  seed1_volatile : Z; seed2_volatile : Z; seed3_volatile : Z;
  seed4_volatile : Z; seed5_volatile : Z }.

Definition get_seed_32 (s : seeds) (i : Z) : Z :=
  if i =? 1 then seed1_volatile s
  else if i =? 2 then seed2_volatile s
  else if i =? 3 then seed3_volatile s
  else if i =? 4 then seed4_volatile s
  else if i =? 5 then seed5_volatile s
  else 0.

Definition get_seed (s : seeds) (i : Z) : Z := s16 (get_seed_32 s i).

(** The running benchmark: the list cells, everything the comparison functions can
    reach, and [crclist]. *)
Record bench := Bench { bn_heads : heads; bn_env : list_env; bn_crclist : Z }.

Definition set_crc (env : list_env) (c : Z) : list_env :=
  ListEnv (le_data env)
    (set_crcs (le_res env) c (crcmatrix (le_res env)) (crcstate (le_res env))) (le_mem env).

(** The loop of [iterate] from iteration [i] on. *)
Fixpoint iterate_loop (n fuel : nat) (i : Z) (b : bench) : res bench :=
  match n with
  | O => Ok b
  | S n =>
      '(c, h, env) ← core_bench_list fuel (bn_heads b) (bn_env b) 1;
      let env := set_crc env (crcu16 c (crc (le_res env))) in
      '(c, h, env) ← core_bench_list fuel h env (-1);
      let env := set_crc env (crcu16 c (crc (le_res env))) in
      let crclist := if i =? 0 then crc (le_res env) else bn_crclist b in
      iterate_loop n fuel (i + 1) (Bench h env crclist)
  end.

Definition iterate (fuel : nat) (iterations : Z) (b : bench) : res bench :=
  let env := bn_env b in
  let env := ListEnv (le_data env) (set_crcs (le_res env) 0 0 0) (le_mem env) in
  iterate_loop (Z.to_nat iterations) fuel 0 (Bench (bn_heads b) env 0).

(** The seeds after the defaults of [main]. *)
Definition default_seeds (s : Z * Z * Z) : Z * Z * Z :=
  let '(s1, s2, s3) := s in
  let '(s1, s2, s3) :=
    if (s1 =? 0) && (s2 =? 0) && (s3 =? 0) then (0, 0, 0x66) else (s1, s2, s3) in
  if (s1 =? 1) && (s2 =? 0) && (s3 =? 0) then (0x3415, 0x3415, 0x66) else (s1, s2, s3).

(** [for (i = 0; i < NUM_ALGORITHMS; i++) if ((1 << i) & execs) num_algorithms++;] *)
Definition num_algorithms (execs : Z) : Z :=
  for_ NUM_ALGORITHMS (fun i n => if negb ((1 <<< i) &&& execs =? 0) then n + 1 else n) 0.

(** The pointer assigned to algorithm [i]: its rank among the selected ones times [size]. *)
Definition memblock_of (memblock0 size execs i : Z) : Z :=
  memblock0 + size * for_ i (fun k j => if negb ((1 <<< k) &&& execs =? 0) then j + 1 else j) 0.

(** [main] up to the call of [iterate]: every selected algorithm is initialised in its
    part of the static block at [memblk]. *)
Definition main_init (fuel : nat) (s : seeds) (memblk TOTAL_DATA_SIZE : Z) (m : mem) : res (bench * Z * Z) :=
  let '(s1, s2, s3) := default_seeds (get_seed s 1, get_seed s 2, get_seed s 3) in
  let execs := u32 (get_seed_32 s 5) in
  let execs := if execs =? 0 then ALL_ALGORITHMS_MASK else execs in
  let size := TOTAL_DATA_SIZE / num_algorithms execs in
  let block i := memblock_of memblk size execs i in
  let r := CoreResults s1 s2 s3 (block 2) size 0 (MatParams 0 [] [] []) 0 0 0 in
  let env := ListEnv ∅ r m in
  '(h, env, lst) ←
    (if negb (execs &&& ID_LIST =? 0) then core_list_init fuel env size (block 0) s1
     else Ok (∅, env, 0));
  mt ←
    (if negb (execs &&& ID_MATRIX =? 0) then
       core_init_matrix fuel size (s32 (s1 ||| s32 (s2 <<< 16))) (replicate (Z.to_nat size) 0)
     else Ok (mat r));
  m ←
    (if negb (execs &&& ID_STATE =? 0) then core_init_state fuel m size s1 (block 2) else Ok m);
  let r := CoreResults s1 s2 s3 (block 2) size lst mt 0 0 0 in
  Ok (Bench h (ListEnv (le_data env) r m) 0, size, execs).

Definition seed_crc (r : core_results) : Z :=
  let c := crc16 (seed1 r) 0 in
  let c := crc16 (seed2 r) c in
  let c := crc16 (seed3 r) c in
  crc16 (s16 (size r)) c.

(** The [switch (seedcrc)]. *)
Definition known_id (seedcrc : Z) : Z :=
  if seedcrc =? 0x8a02 then 0
  else if seedcrc =? 0x7b05 then 1
  else if seedcrc =? 0x4eaf then 2
  else if seedcrc =? 0xe9f5 then 3
  else if seedcrc =? 0x18f2 then 4
  else -1.

(** The errors of one context ([results[i].err]). *)
Definition check_results (id execs : Z) (b : bench) : Z :=
  let r := le_res (bn_env b) in
  let err := 0 in
  let err :=
    if negb (execs &&& ID_LIST =? 0) && negb (bn_crclist b =? aget 0 list_known_crc id)
    then s16 (err + 1) else err in
  let err :=
    if negb (execs &&& ID_MATRIX =? 0) && negb (crcmatrix r =? aget 0 matrix_known_crc id)
    then s16 (err + 1) else err in
  if negb (execs &&& ID_STATE =? 0) && negb (crcstate r =? aget 0 state_known_crc id)
  then s16 (err + 1) else err.

(** The sizes of the benchmark's types on a platform, and its check of them. *)
Record type_sizes := TypeSizes {
  sizeof_ee_u8 : Z; sizeof_ee_u16 : Z; sizeof_ee_s16 : Z; sizeof_ee_s32 : Z; sizeof_ee_u32 : Z;
  sizeof_ee_ptr_int : Z; sizeof_int_ptr : Z }.

Definition check_data_types (t : type_sizes) : Z :=
  let check (bad : bool) retval := if bad then u8 (retval + 1) else retval in
  let retval := 0 in
  let retval := check (negb (sizeof_ee_u8 t =? 1)) retval in
  let retval := check (negb (sizeof_ee_u16 t =? 2)) retval in
  let retval := check (negb (sizeof_ee_s16 t =? 2)) retval in
  let retval := check (negb (sizeof_ee_s32 t =? 4)) retval in
  let retval := check (negb (sizeof_ee_u32 t =? 4)) retval in
  check (negb (sizeof_ee_ptr_int t =? sizeof_int_ptr t)) retval.

(** The types of core_portme.h on a 32-bit platform. *)
Definition ilp32 : type_sizes := TypeSizes 1 2 2 4 4 4 4.

(** [time_in_secs(get_time())] without floating point: the counter at the start and the end. *)
Definition time_in_secs (ticks_per_sec ticks : Z) : Z := ticks / ticks_per_sec.
Definition get_time (start_time_val stop_time_val : Z) : Z := u32 (stop_time_val - start_time_val).

(** [total_errors] for one context at the end of [main]; [secs] is the measured time. *)
Definition total_errors (t : type_sizes) (secs execs : Z) (b : bench) : Z :=
  let id := known_id (seed_crc (le_res (bn_env b))) in
  let errors := if 0 <=? id then 0 else -1 in
  let errors := if 0 <=? id then s16 (errors + check_results id execs b) else errors in
  let errors := s16 (errors + check_data_types t) in
  if secs <? 10 then s16 (errors + 1) else errors.

(** The message [main] ends with. *)
Inductive verdict := Validated | ErrorsDetected | CannotValidate.
#[export] Instance verdict_eq_dec : EqDecision verdict.
Proof. solve_decision. Defined.

Definition report (errors : Z) : verdict :=
  if errors =? 0 then Validated else if 0 <? errors then ErrorsDetected else CannotValidate.

(** The benchmark from its seeds to its message, on a platform with the type sizes [t] on which
    the timed part runs from tick [start] to tick [stop].  The number of iterations is seed 4;
    when that is zero the code measures one, which is not modelled. *)
Definition run_coremark (t : type_sizes) (ticks_per_sec start stop : Z)
    (fuel : nat) (s : seeds) (memblk TOTAL_DATA_SIZE : Z) (m : mem) : res verdict :=
  '(b, size, execs) ← main_init fuel s memblk TOTAL_DATA_SIZE m;
  b ← iterate fuel (u32 (get_seed_32 s 4)) b;
  Ok (report (total_errors t (time_in_secs ticks_per_sec (get_time start stop)) execs b)).

(** The memory of a static block before the benchmark starts. *)
Definition zero_mem : mem := fun _ => 0.

(** ** The verdict *)





(** The driver end to end, by evaluation: with the performance, validation and profile seeds
    (core_portme.c) on the corresponding data sizes, one iteration that takes ten seconds ends
    with the published checksums, so that the run is validated. *)
Example coremark_runs_validate :
  let run := run_coremark ilp32 1000000 0 10000000 (Z.to_nat 20000) in
  run (Seeds 0 0 0x66 1 0) 0x80001000 2000 zero_mem = Ok Validated /\
  run (Seeds 0x3415 0x3415 0x66 1 0) 0x80001000 2000 zero_mem = Ok Validated /\
  run (Seeds 0x8 0x8 0x8 1 0) 0x80001000 1200 zero_mem = Ok Validated.
Proof. vm_compute. split_and!; reflexivity. Qed.


(** Unknown seeds: the short run is reported as validated, the long one as not checked. *)
Example unknown_seeds_short_run :
  let s := Seeds 5 7 9 1 0 in
  run_coremark ilp32 1000000 0 9000000 (Z.to_nat 20000) s 0x80001000 1200 zero_mem = Ok Validated /\
  run_coremark ilp32 1000000 0 10000000 (Z.to_nat 20000) s 0x80001000 1200 zero_mem = Ok CannotValidate.
Proof. vm_compute. split; reflexivity. Qed.
