(* ===== verification/Memory.v ===== *)
(** Guest physical memory of the emulator (nemu/src/memory/paddr.c, vaddr.c,
    include/memory/paddr.h, host.h).

    The host arrays behind guest memory are five byte memories; a host pointer is a
    region and an offset.  An access that leaves its array is a fault.  The device bus
    behind the memory is an interface, [MmioBus], that IoMap implements. *)

From S2P Require Import Prelude.

(** The build configuration that the memory map depends on. *)
Record config := Config {
  CONFIG_MBASE : Z;
  CONFIG_MSIZE : Z;
  CONFIG_PC_RESET_OFFSET : Z;
  CONFIG_SERIAL_MMIO : Z;
  CONFIG_RTC_MMIO : Z;
  CONFIG_DEVICE : bool;
  CONFIG_RT_CHECK : bool;
  isSoC : bool }.

Definition SOC_SERIAL_BASE : Z := 0x10000000.
Definition SOC_SERIAL_END : Z := 0x10001000.
Definition SOC_TIMER_BASE : Z := 0x02000048.
Definition SOC_TIMER_END : Z := 0x02000100.
Definition SRAM_BASE : Z := 0x0f000000.
Definition MROM_BASE : Z := 0x20000000.
Definition FLASH_BASE : Z := 0x30000000.
Definition FLASH_END : Z := 0x40000000.
Definition NEMU_DEVICE_BASE : Z := 0xa0000000.
Definition NEMU_DEVICE_END : Z := 0xb0000000.

Inductive region := Pmem | Mrom | Sram | Flash | Sdram.
#[export] Instance region_eq_dec : EqDecision region.
Proof. solve_decision. Defined.

(** The host arrays, and the optional trace of read addresses. *)
Record memory := Memory { host : region -> mem; mtrace_pack : option (list Z) }.

Definition set_host (m : memory) (r : region) (b : mem) : memory :=
  Memory (fun r' => if decide (r' = r) then b else host m r') (mtrace_pack m).

(** Reads and writes that reach no memory are forwarded to the device bus. *)
Class MmioBus (D : Type) := {
  bus_read : Z -> Z -> D -> res (Z * D);
  bus_write : Z -> Z -> Z -> D -> res D }.

Section paddr.
Context (cfg : config).

Definition SDRAM_BASE : Z :=
  if CONFIG_DEVICE cfg then (if isSoC cfg then 0xa0000000 else 0xffffffff) else 0xa0000000.
Definition SDRAM_END : Z :=
  if CONFIG_DEVICE cfg then (if isSoC cfg then 0xb0000000 else 0xffffffff) else 0xb0000000.

Definition PMEM_LEFT : Z := CONFIG_MBASE cfg.
Definition PMEM_RIGHT : Z := u32 (CONFIG_MBASE cfg + CONFIG_MSIZE cfg - 1).
Definition reset_vector : Z :=
  if isSoC cfg then 0x30000000 else u32 (PMEM_LEFT + CONFIG_PC_RESET_OFFSET cfg).

(** [sizeof] of the host array of a region. *)
Definition region_size (r : region) : Z :=
  match r with
  | Pmem => CONFIG_MSIZE cfg
  | Mrom => 0x1000
  | Sram => 0x2000
  | Flash => 0x1000000
  | Sdram => 0x2000000
  end.

Definition in_pmem (addr : Z) : bool := u32 (addr - CONFIG_MBASE cfg) <? CONFIG_MSIZE cfg.
Definition in_mrom (addr : Z) : bool := u32 (addr - MROM_BASE) <? region_size Mrom.
Definition in_sram (addr : Z) : bool := u32 (addr - SRAM_BASE) <? region_size Sram.
Definition in_flash (addr : Z) : bool := (FLASH_BASE <=? addr) && (addr <? FLASH_END).
Definition in_sdram (addr : Z) : bool := (SDRAM_BASE <=? addr) && (addr <? SDRAM_END).

Definition guest_to_host (paddr : Z) : option (region * Z) :=
  if in_pmem paddr then Some (Pmem, paddr - CONFIG_MBASE cfg)
  else if in_mrom paddr then Some (Mrom, paddr - MROM_BASE)
  else if in_sram paddr then Some (Sram, paddr - SRAM_BASE)
  else if in_flash paddr then
    if region_size Flash <=? u32 (paddr - FLASH_BASE) then None
    else Some (Flash, paddr - FLASH_BASE)
  else if in_sdram paddr then
    if region_size Sdram <=? u32 (paddr - SDRAM_BASE) then None
    else Some (Sdram, paddr - SDRAM_BASE)
  else if (NEMU_DEVICE_BASE <=? paddr) && (paddr <? NEMU_DEVICE_END) then None
  else if (SOC_SERIAL_BASE <=? paddr) && (paddr <? SOC_SERIAL_END) then None
  else if (SOC_TIMER_BASE <=? paddr) && (paddr <? SOC_TIMER_END) then None
  else None.

(** A host pointer inside one of the arrays; any other pointer maps to 0. *)
Definition host_to_guest (haddr : region * Z) : Z :=
  let '(r, off) := haddr in
  if (0 <=? off) && (off <? region_size r) then
    match r with
    | Pmem => u32 (off + CONFIG_MBASE cfg)
    | Mrom => u32 (off + MROM_BASE)
    | Sram => u32 (off + SRAM_BASE)
    | Flash => u32 (off + FLASH_BASE)
    | Sdram => u32 (off + SDRAM_BASE)
    end
  else 0.

(** The array that a host pointer of [len] bytes points into; leaving it is undefined. *)
Definition host_access (haddr : region * Z) (len : Z) : res () :=
  let '(r, off) := haddr in
  if (0 <=? off) && (off + len <=? region_size r) then Ok () else Fault FUndef.

Definition host_read (m : memory) (haddr : region * Z) (len : Z) : res Z :=
  let '(r, off) := haddr in
  if len =? 1 then host_access haddr 1;; Ok (le_read 1 (host m r) off)
  else if len =? 2 then host_access haddr 2;; Ok (le_read 2 (host m r) off)
  else if len =? 4 then host_access haddr 4;; Ok (le_read 4 (host m r) off)
  else if CONFIG_RT_CHECK cfg then Fault FAssert else Ok 0.

Definition host_write (m : memory) (haddr : region * Z) (len data : Z) : res memory :=
  let '(r, off) := haddr in
  if len =? 1 then host_access haddr 1;; Ok (set_host m r (le_write 1 (host m r) off data))
  else if len =? 2 then host_access haddr 2;; Ok (set_host m r (le_write 2 (host m r) off data))
  else if len =? 4 then host_access haddr 4;; Ok (set_host m r (le_write 4 (host m r) off data))
  else if CONFIG_RT_CHECK cfg then Fault FAssert else Ok m.

Definition builtin_read (m : memory) (addr len : Z) : res (option Z) :=
  match guest_to_host addr with
  | None => Ok None
  | Some haddr => data ← host_read m haddr len; Ok (Some data)
  end.

Definition builtin_write (m : memory) (addr len data : Z) : res (option memory) :=
  if in_mrom addr then Fault FPanic
  else
    match guest_to_host addr with
    | None => Ok None
    | Some haddr => m ← host_write m haddr len data; Ok (Some m)
    end.

Definition out_of_bound {A} (addr : Z) : res A := Fault FPanic.

Definition ASAN_SHADOW_MEMORY_START : Z := 0x7000000.
Definition ASAN_SHADOW_MEMORY_SIZE : Z := 0x1000000.

(** [random] is the fill byte when the configuration asks for random contents. *)
Definition init_mem (random : option Z) (m : memory) : res memory :=
  let p := match random with Some b => fun _ => u8 b | None => host m Pmem end in
  if ASAN_SHADOW_MEMORY_START + ASAN_SHADOW_MEMORY_SIZE <=? CONFIG_MSIZE cfg then
    Ok (set_host m Pmem (fun x =>
      if (ASAN_SHADOW_MEMORY_START <=? x) && (x <? ASAN_SHADOW_MEMORY_START + ASAN_SHADOW_MEMORY_SIZE)
      then 0 else p x))
  else Fault FUndef.

(** [if (g_mtrace_pack) itrace_pack_add(g_mtrace_pack, addr);] *)
Definition trace_read (m : memory) (addr : Z) : memory :=
  Memory (host m) ((fun l => l ++ [addr]) <$> mtrace_pack m).

(** The windows of the SoC's devices that are moved to the emulator's own. *)
Definition soc_serial_window (addr : Z) : bool := (SOC_SERIAL_BASE <=? addr) && (addr <? SOC_SERIAL_END).
Definition soc_timer_window (addr : Z) : bool := (SOC_TIMER_BASE <=? addr) && (addr <? SOC_TIMER_END).

Context {D : Type} `{!MmioBus D}.

Definition paddr_read (addr len : Z) (st : memory * D) : res (Z * (memory * D)) :=
  let '(m, d) := st in
  let m := trace_read m addr in
  r ← builtin_read m addr len;
  match r with
  | Some data => Ok (data, (m, d))
  | None =>
      if CONFIG_DEVICE cfg then
        let addr :=
          if soc_serial_window addr then u32 (addr - SOC_SERIAL_BASE + CONFIG_SERIAL_MMIO cfg)
          else if soc_timer_window addr then u32 (addr - SOC_TIMER_BASE + CONFIG_RTC_MMIO cfg)
          else addr in
        '(data, d) ← bus_read addr len d;
        Ok (data, (m, d))
      else out_of_bound addr
  end.

Definition paddr_write (addr len data : Z) (st : memory * D) : res (memory * D) :=
  let '(m, d) := st in
  r ← builtin_write m addr len data;
  match r with
  | Some m => Ok (m, d)
  | None =>
      if CONFIG_DEVICE cfg then
        let addr :=
          if soc_serial_window addr then u32 (addr - SOC_SERIAL_BASE + CONFIG_SERIAL_MMIO cfg)
          else addr in
        d ← bus_write addr len data d;
        Ok (m, d)
      else out_of_bound addr
  end.

Definition vaddr_ifetch (addr len : Z) (st : memory * D) := paddr_read addr len st.
Definition vaddr_read (addr len : Z) (st : memory * D) := paddr_read addr len st.
Definition vaddr_write (addr len data : Z) (st : memory * D) := paddr_write addr len data st.
End paddr.

(** ** Address translation *)

Definition region_base (cfg : config) (r : region) : Z :=
  match r with
  | Pmem => CONFIG_MBASE cfg
  | Mrom => MROM_BASE
  | Sram => SRAM_BASE
  | Flash => FLASH_BASE
  | Sdram => SDRAM_BASE cfg
  end.

(** Main memory lies inside the address space and apart from the SoC's memories. *)
Record config_ok (cfg : config) : Prop := {
  ok_base : 0 <= CONFIG_MBASE cfg;
  ok_size : 0 < CONFIG_MSIZE cfg;
  ok_top : CONFIG_MBASE cfg + CONFIG_MSIZE cfg <= 2 ^ 32;
  ok_apart : forall r, r <> Pmem ->
    region_base cfg r + region_size cfg r <= CONFIG_MBASE cfg \/
    CONFIG_MBASE cfg + CONFIG_MSIZE cfg <= region_base cfg r }.

(** The synchronous-DRAM window exists only for the SoC (or without devices). *)
Definition has_region (cfg : config) (r : region) : Prop :=
  r = Sdram -> SDRAM_BASE cfg = 0xa0000000 /\ SDRAM_END cfg = 0xb0000000.

Lemma sub_wrap a b n :
  in_range 32 a -> in_range 32 b -> b + n <= 2 ^ 32 -> 0 <= n ->
  (u32 (a - b) <? n) = (b <=? a) && (a <? b + n).
Proof.
  intros Ha Hb Hn Hn0. unfold in_range in *. destruct (decide (b <= a)).
  - rewrite wrap_small by (unfold in_range; lia). by zcmp.
  - unfold wrap. replace (a - b) with (a - b + 2 ^ 32 + (-1) * 2 ^ 32) by lia.
    rewrite Z.mod_add, Z.mod_small by lia. by zcmp.
Qed.

Section translation.
Context (cfg : config) (Hcfg : config_ok cfg).

Lemma in_pmem_spec a :
  in_range 32 a -> in_pmem cfg a = true <-> CONFIG_MBASE cfg <= a < CONFIG_MBASE cfg + CONFIG_MSIZE cfg.
Proof.
  intros Ha. destruct Hcfg. unfold in_pmem.
  rewrite sub_wrap by (done || (unfold in_range; lia)). lia.
Qed.

Lemma in_mrom_spec a : in_range 32 a -> in_mrom cfg a = true <-> MROM_BASE <= a < MROM_BASE + 0x1000.
Proof.
  intros Ha. unfold in_mrom, region_size, MROM_BASE.
  rewrite sub_wrap by (done || (unfold in_range; lia)). lia.
Qed.

Lemma in_sram_spec a : in_range 32 a -> in_sram cfg a = true <-> SRAM_BASE <= a < SRAM_BASE + 0x2000.
Proof.
  intros Ha. unfold in_sram, region_size, SRAM_BASE.
  rewrite sub_wrap by (done || (unfold in_range; lia)). lia.
Qed.

Lemma sdram_window a :
  in_sdram cfg a = true <->
  SDRAM_BASE cfg = 0xa0000000 /\ SDRAM_END cfg = 0xb0000000 /\ 0xa0000000 <= a < 0xb0000000.
Proof.
  unfold in_sdram, SDRAM_BASE, SDRAM_END. rewrite andb_true_iff, Z.leb_le, Z.ltb_lt.
  destruct (CONFIG_DEVICE cfg), (isSoC cfg); lia.
Qed.

Lemma guest_to_host_Some a r off :
  in_range 32 a -> guest_to_host cfg a = Some (r, off) ->
  a = region_base cfg r + off /\ 0 <= off < region_size cfg r /\ has_region cfg r.
Proof.
  intros Ha. unfold guest_to_host, has_region.
  destruct (in_pmem cfg a) eqn:E.
  { apply in_pmem_spec in E; [| done]. intros [= <- <-]. cbn. split_and!; [lia | lia | lia | done]. }
  clear E. destruct (in_mrom cfg a) eqn:E.
  { apply in_mrom_spec in E; [| done]. intros [= <- <-]. cbn. split_and!; [lia | lia | lia | done]. }
  clear E. destruct (in_sram cfg a) eqn:E.
  { apply in_sram_spec in E; [| done]. intros [= <- <-]. cbn. split_and!; [lia | lia | lia | done]. }
  clear E. destruct (in_flash a) eqn:E.
  { unfold in_flash, FLASH_BASE, FLASH_END in *. apply andb_true_iff in E.
    rewrite Z.leb_le, Z.ltb_lt in E. rewrite wrap_small by (unfold in_range in *; lia).
    cbn [region_size]. destruct (Z.leb_spec 0x1000000 (a - 0x30000000)); [done |].
    intros [= <- <-]. cbn. unfold FLASH_BASE. split_and!; [lia | lia | lia | done]. }
  clear E. destruct (in_sdram cfg a) eqn:E.
  { apply sdram_window in E as (E1 & E2 & E). rewrite E1. rewrite wrap_small by (unfold in_range in *; lia).
    cbn [region_size]. destruct (Z.leb_spec 0x2000000 (a - 0xa0000000)); [done |].
    intros [= <- <-]. cbn [region_base region_size]. rewrite E1. split_and!; [lia | lia | lia | done]. }
  by repeat destruct (_ && _).
Qed.

Lemma in_false (b : bool) (P : Prop) : (b = true <-> P) -> ~ P -> b = false.
Proof. destruct b; tauto. Qed.

Lemma guest_to_host_region r off :
  0 <= off < region_size cfg r -> has_region cfg r ->
  in_range 32 (region_base cfg r + off) /\ guest_to_host cfg (region_base cfg r + off) = Some (r, off).
Proof.
  intros Hoff Hr. pose proof (ok_base _ Hcfg). pose proof (ok_top _ Hcfg).
  assert (in_range 32 (region_base cfg r + off)) as Ha.
  { unfold in_range. destruct r; cbn in *; unfold MROM_BASE, SRAM_BASE, FLASH_BASE; try lia.
    destruct Hr as [-> _]; [done |]. lia. }
  split; [done |]. unfold guest_to_host.
  destruct (decide (r = Pmem)) as [-> | Hp].
  { rewrite (proj2 (in_pmem_spec _ Ha)) by (cbn in *; lia). do 2 f_equal. cbn. lia. }
  rewrite (in_false _ _ (in_pmem_spec _ Ha)) by (pose proof (ok_apart _ Hcfg r Hp); lia).
  destruct r; [done | | | |]; cbn [region_base region_size] in *.
  - rewrite (proj2 (in_mrom_spec _ Ha)) by lia. do 2 f_equal. lia.
  - rewrite (in_false _ _ (in_mrom_spec _ Ha)) by (unfold MROM_BASE, SRAM_BASE; lia).
    rewrite (proj2 (in_sram_spec _ Ha)) by lia. do 2 f_equal. lia.
  - unfold FLASH_BASE in *.
    rewrite (in_false _ _ (in_mrom_spec _ Ha)) by (unfold MROM_BASE; lia).
    rewrite (in_false _ _ (in_sram_spec _ Ha)) by (unfold SRAM_BASE; lia).
    unfold in_flash, FLASH_BASE, FLASH_END. rewrite (proj2 (Z.leb_le _ _)), (proj2 (Z.ltb_lt _ _)) by lia. cbn [andb].
    rewrite wrap_small by (unfold in_range; lia). rewrite (proj2 (Z.leb_gt _ _)) by lia. do 2 f_equal. lia.
  - destruct (Hr eq_refl) as [E1 E2]. rewrite E1 in *.
    rewrite (in_false _ _ (in_mrom_spec _ Ha)) by (unfold MROM_BASE; lia).
    rewrite (in_false _ _ (in_sram_spec _ Ha)) by (unfold SRAM_BASE; lia).
    unfold in_flash, FLASH_BASE, FLASH_END. rewrite (proj2 (Z.ltb_ge _ 0x40000000)) by lia. rewrite andb_false_r.
    rewrite (proj2 (sdram_window _)) by lia.
    rewrite wrap_small by (unfold in_range; lia). rewrite (proj2 (Z.leb_gt _ _)) by lia. do 2 f_equal. lia.
Qed.

Lemma host_to_guest_region r off :
  0 <= off < region_size cfg r -> in_range 32 (region_base cfg r + off) ->
  host_to_guest cfg (r, off) = region_base cfg r + off.
Proof.
  intros Hoff Ha. unfold host_to_guest.
  rewrite (proj2 (Z.leb_le _ _)), (proj2 (Z.ltb_lt _ _)) by lia. cbn [andb].
  destruct r; cbn [region_base] in *; rewrite wrap_small by (unfold in_range in *; lia); lia.
Qed.

(** Address translation is a bijection between the mapped guest addresses and the bytes of
    the host arrays: every translated address points inside its array and translates
    back to itself, and every byte of an array the configuration has is reached. *)
Theorem guest_host_translation :
  (forall a r off, in_range 32 a -> guest_to_host cfg a = Some (r, off) ->
     0 <= off < region_size cfg r /\ host_to_guest cfg (r, off) = a) /\
  (forall r off, 0 <= off < region_size cfg r -> has_region cfg r ->
     guest_to_host cfg (host_to_guest cfg (r, off)) = Some (r, off)).
Proof.
  split.
  - intros a r off Ha E. destruct (guest_to_host_Some a r off Ha E) as (-> & Hoff & _).
    split; [done |]. by apply host_to_guest_region.
  - intros r off Hoff Hr. destruct (guest_to_host_region r off Hoff Hr) as [Ha E].
    by rewrite host_to_guest_region.
Qed.
End translation.

(** The default configuration, with and without the SoC memory map. *)
Definition default_config (soc : bool) : config :=
  Config 0x80000000 0x8000000 0 0xa00003f8 0xa0000048 true true soc.

Lemma default_config_ok soc : config_ok (default_config soc).
Proof.
  split; cbn; try lia. intros [] H; cbn; unfold MROM_BASE, SRAM_BASE, FLASH_BASE, SDRAM_BASE; cbn;
    try done; try lia. destruct soc; lia.
Qed.

Lemma guest_host_translation_witness :
  (forall a r off, in_range 32 a -> guest_to_host (default_config true) a = Some (r, off) ->
     0 <= off < region_size (default_config true) r /\ host_to_guest (default_config true) (r, off) = a) /\
  (forall r off, 0 <= off < region_size (default_config true) r -> has_region (default_config true) r ->
     guest_to_host (default_config true) (host_to_guest (default_config true) (r, off)) = Some (r, off)).
Proof. apply guest_host_translation, default_config_ok. Defined.

(** ** Loads and stores *)

Definition access_size (len : Z) : Prop := len = 1 \/ len = 2 \/ len = 4.

(** An access of [len] bytes that stays inside the array it starts in. *)
Definition mapped (cfg : config) (a len : Z) (r : region) (off : Z) : Prop :=
  guest_to_host cfg a = Some (r, off) /\ access_size len /\ 0 <= off /\ off + len <= region_size cfg r.

Section access.
Context (cfg : config) (Hcfg : config_ok cfg) {D : Type} `{!MmioBus D}.

Lemma host_read_mapped m a len r off :
  mapped cfg a len r off -> host_read cfg m (r, off) len = Ok (le_read (Z.to_nat len) (host m r) off).
Proof.
  intros (_ & Hlen & H0 & H1). unfold host_read, host_access.
  destruct Hlen as [-> | [-> | ->]]; cbn [Z.eqb Pos.eqb]; cbv iota;
    rewrite (proj2 (Z.leb_le _ _)), (proj2 (Z.leb_le _ _)) by lia; done.
Qed.

Lemma host_write_mapped m a len r off v :
  mapped cfg a len r off ->
  host_write cfg m (r, off) len v = Ok (set_host m r (le_write (Z.to_nat len) (host m r) off v)).
Proof.
  intros (_ & Hlen & H0 & H1). unfold host_write, host_access.
  destruct Hlen as [-> | [-> | ->]]; cbn [Z.eqb Pos.eqb]; cbv iota;
    rewrite (proj2 (Z.leb_le _ _)), (proj2 (Z.leb_le _ _)) by lia; done.
Qed.

Lemma paddr_read_mapped m d a len r off :
  mapped cfg a len r off ->
  paddr_read cfg a len (m, d) = Ok (le_read (Z.to_nat len) (host m r) off, (trace_read m a, d)).
Proof.
  intros H. unfold paddr_read, builtin_read. rewrite (proj1 H).
  by rewrite (host_read_mapped _ a).
Qed.

Lemma paddr_write_mapped m d a len r off v :
  in_range 32 a -> mapped cfg a len r off -> r <> Mrom ->
  paddr_write cfg a len v (m, d) =
    Ok (set_host m r (le_write (Z.to_nat len) (host m r) off v), d).
Proof.
  intros Ha H Hr. unfold paddr_write, builtin_write.
  destruct (guest_to_host_Some cfg Hcfg a r off Ha (proj1 H)) as (Ea & Hoff & _).
  assert (in_mrom cfg a = false) as ->.
  { apply (in_false _ _ (in_mrom_spec cfg a Ha)). intros Hm.
    destruct H as [E _]. unfold guest_to_host in E.
    rewrite (proj2 (in_mrom_spec cfg a Ha)) in E by done.
    destruct (in_pmem cfg a) eqn:Ep; [| congruence].
    apply (in_pmem_spec cfg Hcfg a Ha) in Ep.
    pose proof (ok_apart _ Hcfg Mrom ltac:(done)). cbn in *. lia. }
  rewrite (proj1 H), (host_write_mapped _ a) by done. done.
Qed.

(** C18. Memory holds what is stored in it: a store of 1, 2 or 4 bytes to any mapped
    address outside the ROM succeeds without touching the devices, the same load
    returns the stored value cut to its width, and every load of a disjoint address range,
    in whichever array, returns what it returned before. *)
Theorem paddr_store_load m d a len r off v :
  in_range 32 a -> mapped cfg a len r off -> r <> Mrom ->
  exists m', paddr_write cfg a len v (m, d) = Ok (m', d) /\
    paddr_read cfg a len (m', d) = Ok (wrap (8 * len) v, (trace_read m' a, d)) /\
    forall b len' r' off', in_range 32 b -> mapped cfg b len' r' off' ->
      a + len <= b \/ b + len' <= a ->
      fst <$> paddr_read cfg b len' (m', d) = fst <$> paddr_read cfg b len' (m, d).
Proof.
  intros Ha H Hr. eexists. split; [by apply paddr_write_mapped |].
  assert (0 <= len) as Hlen by (destruct H as (_ & Hl & _); unfold access_size in Hl; lia).
  split.
  - rewrite (paddr_read_mapped _ _ a len r off) by done. cbn [set_host host].
    rewrite decide_True by done. rewrite le_read_write, Z2Nat.id by done. done.
  - intros b len' r' off' Hb H' Hd. rewrite !(paddr_read_mapped _ _ b len' r' off') by done.
    cbn [fmap res_fmap fst set_host host]. case_decide as E; [subst r' | done]. f_equal.
    destruct (guest_to_host_Some cfg Hcfg a r off Ha (proj1 H)) as (Ea & _).
    destruct (guest_to_host_Some cfg Hcfg b r off' Hb (proj1 H')) as (Eb & _).
    assert (0 <= len') by (destruct H' as (_ & Hl & _); unfold access_size in Hl; lia).
    apply le_read_write_disjoint. lia.
Qed.

(** What is not memory: a store to the ROM panics, and an access to an address that
    no array backs goes to the device bus (reads of the SoC's serial and timer
    windows and writes of its serial window at the emulator's own addresses), or
    panics when the emulator is built without devices. *)
Theorem paddr_not_memory m d a len v :
  in_range 32 a ->
  (in_mrom cfg a = true -> paddr_write cfg a len v (m, d) = Fault FPanic) /\
  (guest_to_host cfg a = None ->
     if CONFIG_DEVICE cfg then
       let moved :=
         if soc_serial_window a then u32 (a - SOC_SERIAL_BASE + CONFIG_SERIAL_MMIO cfg)
         else if soc_timer_window a then u32 (a - SOC_TIMER_BASE + CONFIG_RTC_MMIO cfg) else a in
       paddr_read cfg a len (m, d) =
         ('(x, d') ← bus_read moved len d; Ok (x, (trace_read m a, d'))) /\
       paddr_write cfg a len v (m, d) =
         (d' ← bus_write (if soc_serial_window a then moved else a) len v d; Ok (m, d'))
     else
       paddr_read cfg a len (m, d) = Fault FPanic /\ paddr_write cfg a len v (m, d) = Fault FPanic).
Proof.
  intros Ha. split.
  - intros E. unfold paddr_write, builtin_write. by rewrite E.
  - intros E.
    assert (in_mrom cfg a = false) as Em.
    { destruct (in_mrom cfg a) eqn:Em; [| done]. unfold guest_to_host in E. rewrite Em in E.
      by destruct (in_pmem cfg a). }
    unfold paddr_read, paddr_write, builtin_read, builtin_write. rewrite E, Em. cbn [mbind res_bind].
    destruct (CONFIG_DEVICE cfg); [| done]. by destruct (soc_serial_window a).
Qed.
End access.
