(* ===== verification/IoMap.v ===== *)
(** The device bus of the emulator: allocation of device registers, memory-mapped and
    port-mapped windows (nemu/src/device/io/map.c, mmio.c, port-io.c,
    include/device/map.h).

    All device registers live in one array, [io_space], addressed by offsets; a callback may
    change the registers and its device's own state [S]. *)

From S2P Require Import Prelude Memory.

Definition IO_SPACE_MAX : Z := 32 * 1024 * 1024.
Definition PAGE_SIZE : Z := 4096.
Definition PAGE_MASK : Z := PAGE_SIZE - 1.
Definition NR_MAP : Z := 16.
Definition PORT_IO_SPACE_MAX : Z := 65535.

(** [void ( *callback)(uint32_t offset, int len, bool is_write)] *)
Definition io_callback_t (S : Type) := Z -> Z -> bool -> mem * S -> res (mem * S).

Record IOMap (S : Type) := MkIOMap {
  io_name : String.string;
  low : Z;
  high : Z;
  space : Z;
  callback : option (io_callback_t S) }.
Arguments MkIOMap {S}. Arguments io_name {S}. Arguments low {S}. Arguments high {S}.
Arguments space {S}. Arguments callback {S}.

(** The register array, the allocation pointer, the two map tables, the flag that tells
    the differential tester to skip an instruction, and the devices. *)
Record io_state (S : Type) := IoState {
  io_space : mem;
  p_space : Z;
  mmio_maps : list (IOMap S);
  pio_maps : list (IOMap S);
  skip_ref : bool;
  devices : S }.
Arguments IoState {S}. Arguments io_space {S}. Arguments p_space {S}. Arguments mmio_maps {S}.
Arguments pio_maps {S}. Arguments skip_ref {S}. Arguments devices {S}.

Section io.
Context (cfg : config) {S : Type}.
Implicit Types (st : io_state S) (map : IOMap S).

(** ** map.h *)

Definition map_inside map (addr : Z) : bool := (low map <=? addr) && (addr <=? high map).

(** The loop of [find_mapid_by_addr] from index [i] on; -1 when no map matches. *)
Fixpoint find_mapid_from (maps : list (IOMap S)) (i addr : Z) : Z :=
  match maps with
  | [] => -1
  | m :: maps => if map_inside m addr then i else find_mapid_from maps (i + 1) addr
  end.

Definition set_skip_ref st : io_state S :=
  IoState (io_space st) (p_space st) (mmio_maps st) (pio_maps st) true (devices st).

Definition find_mapid_by_addr (maps : list (IOMap S)) (addr : Z) st : Z * io_state S :=
  let id := find_mapid_from maps 0 addr in
  (id, if id =? -1 then st else set_skip_ref st).

(** ** map.c *)

Definition init_map (st : io_state S) : io_state S :=
  IoState (io_space st) 0 (mmio_maps st) (pio_maps st) (skip_ref st) (devices st).

Definition new_space (size : Z) st : res (Z * io_state S) :=
  let p := p_space st in
  let size := s32 ((size + (PAGE_SIZE - 1)) &&& Z.lnot PAGE_MASK) in
  let next := p + size in
  c_assert (next <? IO_SPACE_MAX);;
  Ok (p, IoState (io_space st) next (mmio_maps st) (pio_maps st) (skip_ref st) (devices st)).

Definition check_bound (map : option (IOMap S)) (addr : Z) : res (IOMap S) :=
  match map with
  | None => Fault FAssert
  | Some m => c_assert ((addr <=? high m) && (low m <=? addr));; Ok m
  end.

Definition invoke_callback (c : option (io_callback_t S)) (offset len : Z) (is_write : bool)
    (s : mem * S) : res (mem * S) :=
  match c with None => Ok s | Some c => c offset len is_write s end.

(** [host_read] and [host_write] on the register array. *)
Definition space_access (p len : Z) : res () :=
  if (0 <=? p) && (p + len <=? IO_SPACE_MAX) then Ok () else Fault FUndef.

Definition space_read (b : mem) (p len : Z) : res Z :=
  if len =? 1 then space_access p 1;; Ok (le_read 1 b p)
  else if len =? 2 then space_access p 2;; Ok (le_read 2 b p)
  else if len =? 4 then space_access p 4;; Ok (le_read 4 b p)
  else if CONFIG_RT_CHECK cfg then Fault FAssert else Ok 0.

Definition space_write (b : mem) (p len data : Z) : res mem :=
  if len =? 1 then space_access p 1;; Ok (le_write 1 b p data)
  else if len =? 2 then space_access p 2;; Ok (le_write 2 b p data)
  else if len =? 4 then space_access p 4;; Ok (le_write 4 b p data)
  else if CONFIG_RT_CHECK cfg then Fault FAssert else Ok b.

Definition with_space st (s : mem * S) : io_state S :=
  IoState s.1 (p_space st) (mmio_maps st) (pio_maps st) (skip_ref st) s.2.

Definition map_read (addr len : Z) (map : option (IOMap S)) st : res (Z * io_state S) :=
  c_assert ((1 <=? len) && (len <=? 8));;
  m ← check_bound map addr;
  let offset := u32 (addr - low m) in
  s ← invoke_callback (callback m) offset len false (io_space st, devices st);
  ret ← space_read s.1 (space m + offset) len;
  Ok (ret, with_space st s).

Definition map_write (addr len data : Z) (map : option (IOMap S)) st : res (io_state S) :=
  c_assert ((1 <=? len) && (len <=? 8));;
  m ← check_bound map addr;
  let offset := u32 (addr - low m) in
  b ← space_write (io_space st) (space m + offset) len data;
  s ← invoke_callback (callback m) offset len true (b, devices st);
  Ok (with_space st s).

(** ** mmio.c *)

Definition fetch_mmio_map (addr : Z) st : option (IOMap S) * io_state S :=
  let '(mapid, st) := find_mapid_by_addr (mmio_maps st) addr st in
  ((if mapid =? -1 then None else mmio_maps st !! Z.to_nat mapid), st).

(** The new region overlaps an existing one. *)
Definition overlaps (left right : Z) (m : IOMap S) : bool := (left <=? high m) && (low m <=? right).

Definition add_mmio_map (name : String.string) (addr spc len : Z) (cb : option (io_callback_t S)) st
    : res (io_state S) :=
  c_assert (Z.of_nat (length (mmio_maps st)) <? NR_MAP);;
  let left := addr in
  let right := u32 (addr + len - 1) in
  if in_pmem cfg left || in_pmem cfg right then Fault FPanic
  else if existsb (overlaps left right) (mmio_maps st) then Fault FPanic
  else
    Ok (IoState (io_space st) (p_space st)
          (mmio_maps st ++ [MkIOMap name addr (u32 (addr + len - 1)) spc cb])
          (pio_maps st) (skip_ref st) (devices st)).

Definition mmio_read (addr len : Z) st : res (Z * io_state S) :=
  let '(m, st) := fetch_mmio_map addr st in
  map_read addr len m st.

Definition mmio_write (addr len data : Z) st : res (io_state S) :=
  let '(m, st) := fetch_mmio_map addr st in
  map_write addr len data m st.

(** ** port-io.c: [ioaddr_t] is 16 bits wide *)

Definition add_pio_map (name : String.string) (addr spc len : Z) (cb : option (io_callback_t S)) st
    : res (io_state S) :=
  c_assert (Z.of_nat (length (pio_maps st)) <? NR_MAP);;
  c_assert (u32 (addr + len) <=? PORT_IO_SPACE_MAX);;
  Ok (IoState (io_space st) (p_space st) (mmio_maps st)
        (pio_maps st ++ [MkIOMap name addr (u32 (addr + len - 1)) spc cb])
        (skip_ref st) (devices st)).

Definition pio_read (addr len : Z) st : res (Z * io_state S) :=
  c_assert (addr + len - 1 <? PORT_IO_SPACE_MAX);;
  let '(mapid, st) := find_mapid_by_addr (pio_maps st) addr st in
  c_assert (negb (mapid =? -1));;
  map_read addr len (pio_maps st !! Z.to_nat mapid) st.

Definition pio_write (addr len data : Z) st : res (io_state S) :=
  c_assert (addr + len - 1 <? PORT_IO_SPACE_MAX);;
  let '(mapid, st) := find_mapid_by_addr (pio_maps st) addr st in
  c_assert (negb (mapid =? -1));;
  map_write addr len data (pio_maps st !! Z.to_nat mapid) st.

(** The bus behind physical memory. *)
Definition io_bus : MmioBus (io_state S) := {|
  bus_read := mmio_read;
  bus_write := mmio_write |}.

(** ** The map table *)

(** Every window is a proper interval, and no two share an address. *)
Definition maps_disjoint (maps : list (IOMap S)) : Prop :=
  forall i j m1 m2 a, maps !! i = Some m1 -> maps !! j = Some m2 ->
    map_inside m1 a = true -> map_inside m2 a = true -> i = j.

Definition maps_ok (maps : list (IOMap S)) : Prop :=
  Z.of_nat (length maps) <= NR_MAP /\ Forall (fun m => in_range 32 (low m) /\ in_range 32 (high m) /\ low m <= high m) maps /\
  maps_disjoint maps.

Lemma map_inside_spec m a : map_inside m a = true <-> low m <= a <= high m.
Proof. unfold map_inside. lia. Qed.

Lemma find_mapid_from_spec maps i a :
  (find_mapid_from maps i a = -1 /\ Forall (fun m => map_inside m a = false) maps) \/
  (exists k m, find_mapid_from maps i a = i + Z.of_nat k /\ maps !! k = Some m /\ map_inside m a = true).
Proof.
  revert i. induction maps as [|m maps IH]; intros i; [by left |]. cbn.
  destruct (map_inside m a) eqn:E.
  - right. exists 0%nat, m. by rewrite Z.add_0_r.
  - destruct (IH (i + 1)) as [[-> H] | (k & m' & -> & Hk & Hm)].
    + left. split; [done |]. by constructor.
    + right. exists (1 + k)%nat, m'. split; [lia | done].
Qed.

Lemma existsb_overlaps left right maps :
  existsb (overlaps left right) maps = false ->
  forall i m, maps !! i = Some m -> ~ (left <= high m /\ low m <= right).
Proof.
  intros E i m Hi H. assert (existsb (overlaps left right) maps = true); [| congruence].
  apply existsb_exists. exists m. split.
  - apply list_elem_of_In. by eapply list_elem_of_lookup_2.
  - unfold overlaps. lia.
Qed.

Lemma fetch_mmio_map_found a i m st :
  maps_ok (mmio_maps st) -> mmio_maps st !! i = Some m -> map_inside m a = true ->
  fetch_mmio_map a st = (Some m, set_skip_ref st).
Proof.
  intros (_ & _ & Hd) Hi Hm. unfold fetch_mmio_map, find_mapid_by_addr.
  destruct (find_mapid_from_spec (mmio_maps st) 0 a) as [[_ H] | (k & m' & -> & Hk & Hm')].
  - apply (Forall_lookup_1 _ _ _ _ H) in Hi. congruence.
  - rewrite (proj2 (Z.eqb_neq _ (-1))) by lia.
    rewrite Z.add_0_l, Nat2Z.id. rewrite (Hd i k m m' a Hi Hk Hm Hm') in Hi.
    unfold set_skip_ref. cbn [mmio_maps]. by rewrite Hi.
Qed.

Lemma add_mmio_map_ok st st' name addr spc len cb :
  maps_ok (mmio_maps st) -> 1 <= len -> in_range 32 addr -> addr + len <= 2 ^ 32 ->
  add_mmio_map name addr spc len cb st = Ok st' ->
  maps_ok (mmio_maps st') /\
  mmio_maps st' = mmio_maps st ++ [MkIOMap name addr (addr + len - 1) spc cb] /\
  p_space st' = p_space st /\ in_pmem cfg addr = false /\ in_pmem cfg (addr + len - 1) = false.
Proof.
  intros (Hn & Hf & Hd) Hlen Ha Hal. unfold add_mmio_map, c_assert.
  destruct (Z.ltb_spec (Z.of_nat (length (mmio_maps st))) NR_MAP); cbn [mbind res_bind]; [| done].
  rewrite (wrap_small 32 (addr + len - 1)) by (unfold in_range in *; lia).
  destruct (_ || _) eqn:Ep; [done |]. apply orb_false_iff in Ep as [Ep1 Ep2].
  destruct (existsb _ _) eqn:Eo; [done |]. intros [= <-]. cbn [mmio_maps].
  split; [| done]. pose proof (existsb_overlaps _ _ _ Eo) as Ho. split_and!.
  - rewrite length_app. cbn [length]. lia.
  - apply Forall_app. split; [done |]. constructor; [| done]. cbn. unfold in_range in *. lia.
  - intros i j m1 m2 a Hi Hj H1 H2. apply map_inside_spec in H1, H2.
    apply lookup_app_Some in Hi as [Hi | [Hi0 Hi]], Hj as [Hj | [Hj0 Hj]].
    + apply (Hd i j m1 m2 a Hi Hj); by apply map_inside_spec.
    + apply list_lookup_singleton_Some in Hj as [_ <-]. cbn in H2. specialize (Ho i m1 Hi). lia.
    + apply list_lookup_singleton_Some in Hi as [_ <-]. cbn in H1. specialize (Ho j m2 Hj). lia.
    + apply list_lookup_singleton_Some in Hi as [Hi _], Hj as [Hj _]. lia.
Qed.

(** The table of memory-mapped windows stays well formed: adding a window to a
    well-formed table either stops the emulator (the table is full, an end of the window lies in main
    memory, or the window overlaps another) or yields a well-formed table of at most 16
    windows with the new one last; in a well-formed table at most one window contains an
    address, and the lookup finds it. *)
Theorem mmio_table_invariant st name addr spc len cb :
  maps_ok (mmio_maps st) -> 1 <= len -> in_range 32 addr -> addr + len <= 2 ^ 32 ->
  (forall st', add_mmio_map name addr spc len cb st = Ok st' ->
     maps_ok (mmio_maps st') /\
     mmio_maps st' = mmio_maps st ++ [MkIOMap name addr (addr + len - 1) spc cb] /\
     in_pmem cfg addr = false /\ in_pmem cfg (addr + len - 1) = false) /\
  (forall a i m, mmio_maps st !! i = Some m -> map_inside m a = true ->
     fetch_mmio_map a st = (Some m, set_skip_ref st)).
Proof.
  intros Hok Hlen Ha Hal. split.
  - intros st' E. by destruct (add_mmio_map_ok _ _ _ _ _ _ _ Hok Hlen Ha Hal E) as (? & ? & _ & ? & ?).
  - intros a i m. by apply fetch_mmio_map_found.
Qed.

(** ** Register allocation *)

Lemma page_round size :
  0 <= size -> (size + (PAGE_SIZE - 1)) &&& Z.lnot PAGE_MASK = PAGE_SIZE * ((size + 4095) / PAGE_SIZE).
Proof.
  intros Hs. unfold PAGE_MASK, PAGE_SIZE. rewrite <- Z.ldiff_land.
  change (4096 - 1) with (Z.ones 12). rewrite Z.ldiff_ones_r by lia.
  rewrite Z.shiftl_mul_pow2, Z.shiftr_div_pow2 by lia. change (Z.ones 12) with 4095.
  change (2 ^ 12) with 4096. lia.
Qed.

Lemma new_space_spec st size :
  0 <= p_space st -> p_space st mod PAGE_SIZE = 0 -> 0 <= size <= IO_SPACE_MAX ->
  (new_space size st = Fault FAssert /\ IO_SPACE_MAX <= p_space st + size + PAGE_MASK) \/
  (exists st', new_space size st = Ok (p_space st, st') /\
     p_space st' mod PAGE_SIZE = 0 /\ p_space st + size <= p_space st' < IO_SPACE_MAX /\
     io_space st' = io_space st /\ mmio_maps st' = mmio_maps st /\ pio_maps st' = pio_maps st).
Proof.
  intros Hp Hal Hs. unfold new_space. rewrite page_round by lia.
  set (q := (size + 4095) / PAGE_SIZE).
  assert (size <= PAGE_SIZE * q <= size + 4095) as Hq.
  { unfold q. pose proof (Z.div_mod (size + 4095) PAGE_SIZE). pose proof (Z.mod_pos_bound (size + 4095) PAGE_SIZE).
    unfold PAGE_SIZE in *. lia. }
  unfold IO_SPACE_MAX in *.
  rewrite sext_small by (unfold in_srange; lia). unfold c_assert.
  destruct (Z.ltb_spec (p_space st + PAGE_SIZE * q) (32 * 1024 * 1024)); cbn [mbind res_bind].
  - right. eexists. split; [done |]. cbn. split_and!; try done; try lia.
    rewrite Z.mul_comm, Z.mod_add by (unfold PAGE_SIZE; lia). done.
  - left. split; [done |]. unfold PAGE_MASK, PAGE_SIZE in *. lia.
Qed.

(** [new_space] hands out disjoint register blocks: from a page-aligned allocation
    pointer it returns that pointer and moves it to the next page boundary behind the
    block, so that a later allocation starts behind every earlier block; it never
    passes the end of the register array (the assertion stops the emulator first) and touches
    neither the registers nor the tables. *)
Theorem new_space_disjoint st size :
  0 <= p_space st -> p_space st mod PAGE_SIZE = 0 -> 0 <= size <= IO_SPACE_MAX ->
  (new_space size st = Fault FAssert /\ IO_SPACE_MAX <= p_space st + size + PAGE_MASK) \/
  (exists st', new_space size st = Ok (p_space st, st') /\
     p_space st' mod PAGE_SIZE = 0 /\ p_space st + size <= p_space st' < IO_SPACE_MAX /\
     io_space st' = io_space st /\ mmio_maps st' = mmio_maps st /\ pio_maps st' = pio_maps st).
Proof. apply new_space_spec. Qed.

(** The registers of every window lie below the allocation pointer, and no two windows
    share a register. *)
Definition blocks_ok (p : Z) (maps : list (IOMap S)) : Prop :=
  Forall (fun m => 0 <= space m /\ space m + (high m - low m) < p) maps /\
  forall i j m1 m2, maps !! i = Some m1 -> maps !! j = Some m2 -> i <> j ->
    space m1 + (high m1 - low m1) < space m2 \/ space m2 + (high m2 - low m2) < space m1.

Record tables_ok st : Prop := {
  tk_maps : maps_ok (mmio_maps st);
  tk_space : 0 <= p_space st < IO_SPACE_MAX /\ p_space st mod PAGE_SIZE = 0;
  tk_blocks : blocks_ok (p_space st) (mmio_maps st) }.

(** Allocating a register block and adding its window keeps the tables well formed; in
    between, a device may set its registers and its own state. *)
Lemma alloc_window_ok st st1 st2 st3 name addr size base cb :
  tables_ok st -> 1 <= size <= IO_SPACE_MAX -> in_range 32 addr -> addr + size <= 2 ^ 32 ->
  new_space size st = Ok (base, st1) ->
  mmio_maps st2 = mmio_maps st1 -> p_space st2 = p_space st1 ->
  add_mmio_map name addr base size cb st2 = Ok st3 -> tables_ok st3.
Proof.
  intros [Hm [Hp Hal] [Hb Hd]] Hsz Ha Hae En Em Ep E.
  destruct (new_space_spec st size) as [[En' _] | (st1' & En' & Hal1 & Hp1 & _ & Em1 & _)];
    [lia | done | lia | congruence |].
  rewrite En' in En. injection En as <- <-.
  rewrite <- Em1 in Hm. rewrite <- Em in Hm.
  destruct (add_mmio_map_ok _ _ _ _ _ _ _ Hm (proj1 Hsz) Ha Hae E) as (Hm3 & Em3 & Ep3 & _ & _).
  rewrite Em3, Em, Em1 in *. rewrite Ep in Ep3. split; rewrite ?Ep3, ?Em3; [done | lia |]. split.
  - apply Forall_app. split; [eapply Forall_impl; [exact Hb |] | constructor; [| done]]; cbn; lia.
  - intros i j m1 m2 Hi Hj Hne. rewrite Forall_lookup in Hb.
    apply lookup_app_Some in Hi as [Hi | [Hi0 Hi]], Hj as [Hj | [Hj0 Hj]].
    + by apply (Hd i j).
    + apply list_lookup_singleton_Some in Hj as [_ <-]. cbn. specialize (Hb i m1 Hi). lia.
    + apply list_lookup_singleton_Some in Hi as [_ <-]. cbn. specialize (Hb j m2 Hj). lia.
    + apply list_lookup_singleton_Some in Hi as [Hi _], Hj as [Hj _]. lia.
Qed.

(** ** Plain registers *)

Lemma map_read_plain m addr len st :
  callback m = None -> low m <= addr <= high m -> in_range 32 addr -> 0 <= low m -> access_size len ->
  0 <= space m + (addr - low m) -> space m + (addr - low m) + len <= IO_SPACE_MAX ->
  map_read addr len (Some m) st =
    Ok (le_read (Z.to_nat len) (io_space st) (space m + (addr - low m)), st).
Proof.
  intros Hc Hin Ha Hl Hlen H0 H1. unfold map_read, check_bound, invoke_callback, c_assert.
  assert ((1 <=? len) && (len <=? 8) = true) as -> by (unfold access_size in Hlen; lia).
  assert ((addr <=? high m) && (low m <=? addr) = true) as -> by lia.
  cbn [mbind res_bind]. rewrite Hc, (wrap_small 32 (addr - low m)) by (unfold in_range in *; lia).
  cbn [mbind res_bind fst]. unfold space_read, space_access.
  destruct Hlen as [-> | [-> | ->]]; cbn [Z.eqb Pos.eqb]; cbv iota;
    rewrite (proj2 (Z.leb_le _ _)), (proj2 (Z.leb_le _ _)) by lia; cbn; by destruct st.
Qed.

Lemma map_write_plain m addr len v st :
  callback m = None -> low m <= addr <= high m -> in_range 32 addr -> 0 <= low m -> access_size len ->
  0 <= space m + (addr - low m) -> space m + (addr - low m) + len <= IO_SPACE_MAX ->
  map_write addr len v (Some m) st =
    Ok (with_space st (le_write (Z.to_nat len) (io_space st) (space m + (addr - low m)) v, devices st)).
Proof.
  intros Hc Hin Ha Hl Hlen H0 H1. unfold map_write, check_bound, invoke_callback, c_assert.
  assert ((1 <=? len) && (len <=? 8) = true) as -> by (unfold access_size in Hlen; lia).
  assert ((addr <=? high m) && (low m <=? addr) = true) as -> by lia.
  cbn [mbind res_bind]. rewrite Hc, (wrap_small 32 (addr - low m)) by (unfold in_range in *; lia).
  cbn [mbind res_bind fst]. unfold space_write, space_access.
  destruct Hlen as [-> | [-> | ->]]; cbn [Z.eqb Pos.eqb]; cbv iota;
    rewrite (proj2 (Z.leb_le _ _)), (proj2 (Z.leb_le _ _)) by lia; done.
Qed.


(** Plain device registers behave as memory: a store through the bus to a window
    without a callback (the frame buffer, the screen control registers) followed by a load of the same
    address returns the stored value cut to its width; the store changes only those
    bytes of the register array and no device state, and both accesses are marked for the
    differential tester. *)
Theorem mmio_plain_store_load st i m addr len v :
  maps_ok (mmio_maps st) -> mmio_maps st !! i = Some m -> callback m = None ->
  low m <= addr <= high m -> access_size len ->
  0 <= space m -> space m + (addr - low m) + len <= IO_SPACE_MAX ->
  exists st',
    mmio_write addr len v st = Ok st' /\
    mmio_read addr len st' = Ok (wrap (8 * len) v, st') /\
    devices st' = devices st /\ skip_ref st' = true /\
    forall p, ~ (space m + (addr - low m) <= p < space m + (addr - low m) + len) ->
      io_space st' p = io_space st p.
Proof.
  intros Hok Hi Hc Hin Hlen H0 H1.
  destruct (Forall_lookup_1 _ _ _ _ (proj1 (proj2 Hok)) Hi) as (Hl & Hh & _).
  assert (in_range 32 addr) as Ha by (unfold in_range in *; lia).
  assert (map_inside m addr = true) as Hm by (by apply map_inside_spec).
  assert (0 <= len) by (unfold access_size in Hlen; lia).
  unfold mmio_write, mmio_read. rewrite (fetch_mmio_map_found addr i m) by done.
  rewrite map_write_plain by (done || unfold in_range in *; lia).
  eexists. split; [done |].
  rewrite (fetch_mmio_map_found addr i m) by done.
  rewrite map_read_plain by (done || unfold in_range in *; lia).
  cbn. rewrite le_read_write, Z2Nat.id by done. split_and!; try done.
  intros p Hp. rewrite le_write_lookup, Z2Nat.id by done.
  destruct (Z.leb_spec (space m + (addr - low m)) p), (Z.ltb_spec p (space m + (addr - low m) + len)); lia || done.
Qed.
End io.

(** ** Instances *)

(** A bus with the frame buffer and one free page behind it. *)
Definition sample_io : io_state () :=
  IoState (fun _ => 0) 0x77000
    [MkIOMap "vmem" 0xa1000000 0xa10752ff 0x1000 None] [] false tt.

#[local] Instance sample_bus : MmioBus (io_state ()) := io_bus (default_config true).

Lemma sample_io_ok : maps_ok (mmio_maps sample_io).
Proof.
  split_and!; [cbn; unfold NR_MAP; lia | repeat constructor; unfold in_range; cbn; lia |].
  intros i j m1 m2 a Hi Hj _ _. cbn in Hi, Hj.
  apply list_lookup_singleton_Some in Hi as [-> _], Hj as [-> _]. done.
Qed.

Lemma paddr_store_load_witness :
  let m := Memory (fun _ _ => 0) None in
  exists m', paddr_write (default_config false) 0x80000102 4 0xdeadbeef (m, sample_io) = Ok (m', sample_io) /\
    paddr_read (default_config false) 0x80000102 4 (m', sample_io) =
      Ok (wrap (8 * 4) 0xdeadbeef, (trace_read m' 0x80000102, sample_io)) /\
    forall b len' r' off', in_range 32 b -> mapped (default_config false) b len' r' off' ->
      0x80000102 + 4 <= b \/ b + len' <= 0x80000102 ->
      fst <$> paddr_read (default_config false) b len' (m', sample_io) =
      fst <$> paddr_read (default_config false) b len' (m, sample_io).
Proof.
  apply (paddr_store_load (default_config false) (default_config_ok false) _ _ _ _ Pmem 0x102);
    [unfold in_range; lia | | done].
  split_and!; [vm_compute; reflexivity | unfold access_size; lia | lia | cbn; lia].
Defined.

Lemma paddr_not_memory_witness :
  let cfg := default_config true in
  let m := Memory (fun _ _ => 0) None in
  (in_mrom cfg 0x10000005 = true -> paddr_write cfg 0x10000005 1 7 (m, sample_io) = Fault FPanic) /\
  (guest_to_host cfg 0x10000005 = None ->
     paddr_read cfg 0x10000005 1 (m, sample_io) =
       ('(x, d') ← bus_read (u32 (0x10000005 - SOC_SERIAL_BASE + 0xa00003f8)) 1 sample_io;
        Ok (x, (trace_read m 0x10000005, d'))) /\
     paddr_write cfg 0x10000005 1 7 (m, sample_io) =
       (d' ← bus_write (u32 (0x10000005 - SOC_SERIAL_BASE + 0xa00003f8)) 1 7 sample_io; Ok (m, d'))).
Proof.
  apply (paddr_not_memory (default_config true)). unfold in_range. lia.
Defined.

Lemma mmio_table_invariant_witness :
  (forall st', add_mmio_map (default_config false) "serial" 0xa00003f8 0x76000 8 None sample_io = Ok st' ->
     maps_ok (mmio_maps st') /\
     mmio_maps st' = mmio_maps sample_io ++ [MkIOMap "serial" 0xa00003f8 (0xa00003f8 + 8 - 1) 0x76000 None] /\
     in_pmem (default_config false) 0xa00003f8 = false /\
     in_pmem (default_config false) (0xa00003f8 + 8 - 1) = false) /\
  (forall a i m, mmio_maps sample_io !! i = Some m -> map_inside m a = true ->
     fetch_mmio_map a sample_io = (Some m, set_skip_ref sample_io)).
Proof.
  apply mmio_table_invariant; [apply sample_io_ok | lia | unfold in_range; lia | lia].
Defined.

Lemma new_space_disjoint_witness :
  (new_space 8 sample_io = Fault FAssert /\ IO_SPACE_MAX <= 0x77000 + 8 + PAGE_MASK) \/
  (exists st', new_space 8 sample_io = Ok (0x77000, st') /\
     p_space st' mod PAGE_SIZE = 0 /\ 0x77000 + 8 <= p_space st' < IO_SPACE_MAX /\
     io_space st' = io_space sample_io /\ mmio_maps st' = mmio_maps sample_io /\
     pio_maps st' = pio_maps sample_io).
Proof. apply new_space_disjoint; [cbn; lia | reflexivity | unfold IO_SPACE_MAX; lia]. Defined.

Lemma mmio_plain_store_load_witness :
  exists st',
    mmio_write (default_config false) 0xa1000004 4 0x00ff00ff sample_io = Ok st' /\
    mmio_read (default_config false) 0xa1000004 4 st' = Ok (wrap (8 * 4) 0x00ff00ff, st') /\
    devices st' = tt /\ skip_ref st' = true /\
    forall p, ~ (0x1000 + (0xa1000004 - 0xa1000000) <= p < 0x1000 + (0xa1000004 - 0xa1000000) + 4) ->
      io_space st' p = 0.
Proof.
  apply (mmio_plain_store_load (default_config false) sample_io 0
    (MkIOMap "vmem" 0xa1000000 0xa10752ff 0x1000 None));
    [apply sample_io_ok | done | done | cbn; lia | unfold access_size; lia | cbn; lia |
     unfold IO_SPACE_MAX; cbn; lia].
Defined.

(** The overlap test looks only at the ends of the new window: one that contains all of
    main memory is accepted. *)
Example mmio_window_around_pmem :
  is_ok (add_mmio_map (default_config false) "all" 0x7ffff000 0x77000 0x9000000 None sample_io) = true /\
  in_pmem (default_config false) 0x80000000 = true.
Proof. vm_compute. done. Qed.
