(* ===== verification/Devices.v ===== *)
(** The devices of the emulator (nemu/src/device: serial.c, timer.c, keyboard.c, vga.c,
    audio.c, sdcard.c, alarm.c, device.c).

    What comes from the host (terminal input, the clock, window events, the card image)
    is part of the device state and is supplied by the environment. *)

From S2P Require Import Prelude Memory IoMap.

Inductive run_state := NEMU_RUNNING | NEMU_STOP | NEMU_END | NEMU_ABORT | NEMU_QUIT.
#[export] Instance run_state_eq_dec : EqDecision run_state.
Proof. solve_decision. Defined.

(** The parts of the configuration that only devices use. *)
Record dev_config := DevConfig {
  CONFIG_I8042_DATA_MMIO : Z;
  CONFIG_VGA_CTL_MMIO : Z;
  CONFIG_FB_ADDR : Z;
  CONFIG_AUDIO_CTL_MMIO : Z;
  CONFIG_SB_ADDR : Z;
  CONFIG_SB_SIZE : Z;
  CONFIG_SDCARD_CTL_MMIO : Z;
  CONFIG_VGA_SIZE_800x600 : bool;
  CONFIG_VGA_SHOW_SCREEN : bool }.

(** ** Device state *)

Definition SERIAL_RX_FIFO_SIZE : Z := 256.
Definition KEY_QUEUE_LEN : Z := 1024.

(** [stdin] is the sequence of results of polling and reading the terminal (an empty
    chunk is a poll without input); [output] is what was printed. *)
Record serial := Serial {
  serial_base : Z;
  serial_rx_fifo : list Z;
  serial_rx_head : Z;
  serial_rx_tail : Z;
  stdin : list (list Z);
  output : list Z }.

Record keyboard := Keyboard {
  i8042_data_port_base : Z;
  keymap : list Z;
  key_queue : list Z;
  key_f : Z;
  key_r : Z }.

Record vga := Vga { vgactl_port_base : Z; vmem : Z; frames : Z }.

(** [sbuf_data_head] and [sbuf_data_end] are offsets from [sbuf]; [opened] records the
    frequency (an int), channels (a byte) and samples (16 bits) of each opened stream; opening one succeeds. *)
Record audio := Audio {
  audio_base : Z;
  sbuf : Z;
  sbuf_data_head : Z;
  sbuf_data_end : Z;
  opened : list (Z * Z * Z) }.

(** The card image: its bytes (zero beyond its size, as a write behind the end of a file
    leaves them), its size and the file position. *)
Record image := Image { img_bytes : mem; img_size : Z; img_pos : Z }.

Record sdcard := Sdcard {
  sd_base : Z;
  sd_fp : option image;
  blkcnt : Z;
  blk_addr : Z;
  sd_addr : Z;
  write_cmd : bool;
  read_ext_csd : bool }.

Record devs := Devs {
  d_serial : serial;
  rtc_port_base : Z;
  clock : Z;
  d_keyboard : keyboard;
  d_vga : vga;
  d_audio : audio;
  d_sdcard : sdcard;
  alarm_handlers : Z;
  nemu_run : run_state;
  device_initialized : bool;
  last_update : Z }.

Definition set_serial (s : serial) (d : devs) : devs :=
  Devs s (rtc_port_base d) (clock d) (d_keyboard d) (d_vga d) (d_audio d) (d_sdcard d)
    (alarm_handlers d) (nemu_run d) (device_initialized d) (last_update d).
Definition set_keyboard (k : keyboard) (d : devs) : devs :=
  Devs (d_serial d) (rtc_port_base d) (clock d) k (d_vga d) (d_audio d) (d_sdcard d)
    (alarm_handlers d) (nemu_run d) (device_initialized d) (last_update d).
Definition set_vga (v : vga) (d : devs) : devs :=
  Devs (d_serial d) (rtc_port_base d) (clock d) (d_keyboard d) v (d_audio d) (d_sdcard d)
    (alarm_handlers d) (nemu_run d) (device_initialized d) (last_update d).
Definition set_audio (a : audio) (d : devs) : devs :=
  Devs (d_serial d) (rtc_port_base d) (clock d) (d_keyboard d) (d_vga d) a (d_sdcard d)
    (alarm_handlers d) (nemu_run d) (device_initialized d) (last_update d).
Definition set_sdcard (s : sdcard) (d : devs) : devs :=
  Devs (d_serial d) (rtc_port_base d) (clock d) (d_keyboard d) (d_vga d) (d_audio d) s
    (alarm_handlers d) (nemu_run d) (device_initialized d) (last_update d).
Definition set_timer (base alarms : Z) (d : devs) : devs :=
  Devs (d_serial d) base (clock d) (d_keyboard d) (d_vga d) (d_audio d) (d_sdcard d)
    alarms (nemu_run d) (device_initialized d) (last_update d).
Definition set_run (r : run_state) (d : devs) : devs :=
  Devs (d_serial d) (rtc_port_base d) (clock d) (d_keyboard d) (d_vga d) (d_audio d) (d_sdcard d)
    (alarm_handlers d) r (device_initialized d) (last_update d).
Definition set_updated (init : bool) (t : Z) (d : devs) : devs :=
  Devs (d_serial d) (rtc_port_base d) (clock d) (d_keyboard d) (d_vga d) (d_audio d) (d_sdcard d)
    (alarm_handlers d) (nemu_run d) init t.

(** A 32-bit register [base[i]] of the register array. *)
Definition reg (b : mem) (base i : Z) : Z := le_read 4 b (base + 4 * i).
Definition set_reg (b : mem) (base i v : Z) : mem := le_write 4 b (base + 4 * i) v.

(** ** serial.c *)

Definition serial_rx_available (s : serial) : bool := negb (serial_rx_head s =? serial_rx_tail s).

Definition serial_rx_push (ch : Z) (s : serial) : serial :=
  let next := (serial_rx_head s + 1) mod SERIAL_RX_FIFO_SIZE in
  if next =? serial_rx_tail s then s
  else Serial (serial_base s) (aset (serial_rx_fifo s) (serial_rx_head s) ch) next
         (serial_rx_tail s) (stdin s) (output s).

Definition serial_rx_pop (s : serial) : Z * serial :=
  if negb (serial_rx_available s) then (0xff, s)
  else
    let ch := aget 0 (serial_rx_fifo s) (serial_rx_tail s) in
    (ch, Serial (serial_base s) (serial_rx_fifo s) (serial_rx_head s)
           ((serial_rx_tail s + 1) mod SERIAL_RX_FIFO_SIZE) (stdin s) (output s)).

(** [serial_fill_input]: poll, read at most 64 bytes and queue them. *)
Definition serial_fill_input (s : serial) : serial :=
  match stdin s with
  | [] => s
  | chunk :: rest =>
      let s := Serial (serial_base s) (serial_rx_fifo s) (serial_rx_head s) (serial_rx_tail s) rest (output s) in
      fold_left (fun s ch => serial_rx_push ch s) (take 64 chunk) s
  end.

Definition serial_putc (ch : Z) (s : serial) : serial :=
  Serial (serial_base s) (serial_rx_fifo s) (serial_rx_head s) (serial_rx_tail s) (stdin s) (output s ++ [ch]).

Definition lsr_value (s : serial) : Z := if serial_rx_available s then 0x21 else 0x20.

Definition serial_io_handler (soc : bool) : io_callback_t devs := fun offset len is_write '(b, d) =>
  c_assert (len =? 1);;
  let s := d_serial d in
  if offset =? 0 then
    if (is_write : bool) then Ok (b, set_serial (serial_putc (b (serial_base s)) s) d)
    else
      let s := serial_fill_input s in
      let '(ch, s) := serial_rx_pop s in
      let b := mwrite b (serial_base s) ch in
      Ok (mwrite b (serial_base s + 5) (lsr_value s), set_serial s d)
  else if soc then
    if offset =? 5 then
      let s := serial_fill_input s in
      Ok (mwrite b (serial_base s + 5) (lsr_value s), set_serial s d)
    else Ok (b, d)
  else Fault FPanic.

(** ** timer.c *)

Definition rtc_io_handler : io_callback_t devs := fun offset len is_write '(b, d) =>
  c_assert ((offset =? 0) || (offset =? 4));;
  if negb is_write then
    let us := clock d in
    let b := set_reg b (rtc_port_base d) 0 (u32 us) in
    Ok (set_reg b (rtc_port_base d) 1 (u32 (us >>> 32)), d)
  else Ok (b, d).

(** ** keyboard.c *)

Definition KEYDOWN_MASK : Z := 0x8000.
Definition NEMU_KEY_NONE : Z := 0.

(** The keys in the order that gives them their codes 1, 2, ... *)
Definition NEMU_KEYS : list String.string :=
  ["ESCAPE"; "F1"; "F2"; "F3"; "F4"; "F5"; "F6"; "F7"; "F8"; "F9"; "F10"; "F11"; "F12";
   "GRAVE"; "1"; "2"; "3"; "4"; "5"; "6"; "7"; "8"; "9"; "0"; "MINUS"; "EQUALS"; "BACKSPACE";
   "TAB"; "Q"; "W"; "E"; "R"; "T"; "Y"; "U"; "I"; "O"; "P"; "LEFTBRACKET"; "RIGHTBRACKET"; "BACKSLASH";
   "CAPSLOCK"; "A"; "S"; "D"; "F"; "G"; "H"; "J"; "K"; "L"; "SEMICOLON"; "APOSTROPHE"; "RETURN";
   "LSHIFT"; "Z"; "X"; "C"; "V"; "B"; "N"; "M"; "COMMA"; "PERIOD"; "SLASH"; "RSHIFT";
   "LCTRL"; "APPLICATION"; "LALT"; "SPACE"; "RALT"; "RCTRL";
   "UP"; "DOWN"; "LEFT"; "RIGHT"; "INSERT"; "DELETE"; "HOME"; "END"; "PAGEUP"; "PAGEDOWN"]%string.

(** [scancode k] is the window library's code of key [k]. *)
Definition init_keymap (scancode : String.string -> Z) : list Z :=
  (fold_left (fun '(i, m) k => (i + 1, aset m (scancode k) i)) NEMU_KEYS (1, replicate 256 0)).2.

Definition key_enqueue (am_scancode : Z) (k : keyboard) : res keyboard :=
  let q := aset (key_queue k) (key_r k) am_scancode in
  let r := (key_r k + 1) mod KEY_QUEUE_LEN in
  c_assert (negb (r =? key_f k));;
  Ok (Keyboard (i8042_data_port_base k) (keymap k) q (key_f k) r).

Definition key_dequeue (k : keyboard) : Z * keyboard :=
  if negb (key_f k =? key_r k) then
    (aget 0 (key_queue k) (key_f k),
     Keyboard (i8042_data_port_base k) (keymap k) (key_queue k)
       ((key_f k + 1) mod KEY_QUEUE_LEN) (key_r k))
  else (NEMU_KEY_NONE, k).

Definition send_key (scancode : Z) (is_keydown : bool) (d : devs) : res devs :=
  let k := d_keyboard d in
  if bool_decide (nemu_run d = NEMU_RUNNING) && negb (aget 0 (keymap k) scancode =? NEMU_KEY_NONE) then
    let am_scancode := aget 0 (keymap k) scancode ||| (if is_keydown then KEYDOWN_MASK else 0) in
    k ← key_enqueue am_scancode k;
    Ok (set_keyboard k d)
  else Ok d.

Definition i8042_data_io_handler : io_callback_t devs := fun offset len is_write '(b, d) =>
  c_assert (negb is_write);;
  c_assert (offset =? 0);;
  let '(key, k) := key_dequeue (d_keyboard d) in
  Ok (set_reg b (i8042_data_port_base k) 0 key, set_keyboard k d).

(** ** vga.c *)

Section vga.
Context (dc : dev_config).

Definition screen_width : Z := if CONFIG_VGA_SIZE_800x600 dc then 800 else 400.
Definition screen_height : Z := if CONFIG_VGA_SIZE_800x600 dc then 600 else 300.
Definition screen_size : Z := u32 (screen_width * screen_height * 4).

(** [frames] counts the calls of [update_screen]. *)
Definition vga_update_screen (s : mem * devs) : mem * devs :=
  let '(b, d) := s in
  let v := d_vga d in
  if negb (reg b (vgactl_port_base v) 1 =? 0) then
    (set_reg b (vgactl_port_base v) 1 0,
     set_vga (Vga (vgactl_port_base v) (vmem v) (frames v + 1)) d)
  else (b, d).
End vga.

(** ** audio.c *)

Section audio.
Context (dc : dev_config).

Definition reg_freq : Z := 0.
Definition reg_channels : Z := 1.
Definition reg_samples : Z := 2.
Definition reg_sbuf_size : Z := 3.
Definition reg_init : Z := 4.
Definition reg_count : Z := 5.
Definition reg_bufwhead : Z := 6.
Definition nr_reg : Z := 7.

(** On offsets from [sbuf]. *)
Definition sbuf_ring_add (ptr add : Z) : Z :=
  let ptr := ptr + add in
  if CONFIG_SB_SIZE dc <=? ptr then ptr - CONFIG_SB_SIZE dc else ptr.

Definition sbuf_data_count (a : audio) : Z :=
  if sbuf_data_head a <=? sbuf_data_end a then sbuf_data_end a - sbuf_data_head a
  else (CONFIG_SB_SIZE dc - sbuf_data_head a) + sbuf_data_end a.

(** The bytes delivered for a request of [len], and the new state. *)
Definition audio_callback (b : mem) (len : Z) (a : audio) : list Z * audio :=
  let sbuf_cnt := sbuf_data_count a in
  let cpy_len := if sbuf_cnt <? len then sbuf_cnt else len in
  let stream := (fun i => b (sbuf a + sbuf_data_head a + i)) <$> seqZ 0 cpy_len in
  (stream ++ replicate (Z.to_nat (len - cpy_len)) 0,
   Audio (audio_base a) (sbuf a) (sbuf_ring_add (sbuf_data_head a) cpy_len) (sbuf_data_end a) (opened a)).

Definition audio_io_handler : io_callback_t devs := fun offset len is_write '(b, d) =>
  let a := d_audio d in
  if (is_write : bool) then
    if offset =? reg_init * 4 then
      Ok (b, set_audio (Audio (audio_base a) (sbuf a) (sbuf_data_head a) (sbuf_data_end a)
        (opened a ++ [(s32 (reg b (audio_base a) reg_freq), u8 (reg b (audio_base a) reg_channels),
                       u16 (reg b (audio_base a) reg_samples))])) d)
    else Ok (b, d)
  else if offset =? reg_bufwhead * 4 then
    Ok (set_reg b (audio_base a) reg_bufwhead (sbuf_data_end a), d)
  else if offset =? reg_count * 4 then
    Ok (set_reg b (audio_base a) reg_count (sbuf_data_count a), d)
  else Ok (b, d).

Definition audio_buf_io_handler : io_callback_t devs := fun offset len is_write '(b, d) =>
  let a := d_audio d in
  if (is_write : bool) then
    Ok (b, set_audio (Audio (audio_base a) (sbuf a) (sbuf_data_head a)
                        (sbuf_ring_add (sbuf_data_end a) len) (opened a)) d)
  else Ok (b, d).
End audio.

(** ** sdcard.c *)

Definition MEMORY_SIZE : Z := 16 * 1024 * 1024 * 1024.
Definition READ_BL_LEN : Z := 15.
Definition BLOCK_LEN : Z := 1 <<< READ_BL_LEN.
Definition NR_BLOCK : Z := MEMORY_SIZE / BLOCK_LEN.
Definition C_SIZE_MULT : Z := 7.
Definition MULT : Z := 1 <<< (C_SIZE_MULT + 2).
Definition C_SIZE : Z := NR_BLOCK / MULT - 1.

Definition SDCMD : Z := 0.
Definition SDARG : Z := 1.
Definition SDRSP0 : Z := 4.
Definition SDRSP1 : Z := 5.
Definition SDRSP2 : Z := 6.
Definition SDRSP3 : Z := 7.
Definition SDDATA : Z := 16.

Definition prepare_rw (is_write : bool) (b : mem) (s : sdcard) : sdcard :=
  let blk := reg b (sd_base s) SDARG in
  Sdcard (sd_base s)
    ((fun f => Image (img_bytes f) (img_size f) (blk <<< 9)) <$> sd_fp s)
    (blkcnt s) blk 0 is_write (read_ext_csd s).

Definition sdcard_handle_cmd (cmd : Z) (b : mem) (s : sdcard) : res (mem * sdcard) :=
  let base := sd_base s in
  if cmd =? 0 then Ok (b, s)
  else if cmd =? 1 then Ok (set_reg b base SDRSP0 0x80ff8000, s)
  else if cmd =? 2 then
    let b := set_reg b base SDRSP0 0x00000001 in
    let b := set_reg b base SDRSP1 0 in
    let b := set_reg b base SDRSP2 0 in
    Ok (set_reg b base SDRSP3 0x15000000, s)
  else if cmd =? 52 then Ok (b, s)
  else if cmd =? 9 then
    let b := set_reg b base SDRSP0 0x92404001 in
    let b := set_reg b base SDRSP1 (u32 (0x124b97e3 ||| ((C_SIZE &&& 3) <<< 30))) in
    let b := set_reg b base SDRSP2 (u32 (0x0f508000 ||| (C_SIZE >>> 2) ||| (READ_BL_LEN <<< 16))) in
    Ok (set_reg b base SDRSP3 0x9026012a, s)
  else if cmd =? 8 then
    Ok (b, Sdcard base (sd_fp s) (blkcnt s) (blk_addr s) 0 (write_cmd s) true)
  else if (cmd =? 5) || (cmd =? 55) || (cmd =? 3) || (cmd =? 7) then Ok (b, s)
  else if cmd =? 23 then
    Ok (b, Sdcard base (sd_fp s) (reg b base SDARG &&& 0xffff) (blk_addr s) (sd_addr s)
             (write_cmd s) (read_ext_csd s))
  else if cmd =? 18 then Ok (b, prepare_rw false b s)
  else if cmd =? 25 then Ok (b, prepare_rw true b s)
  else if cmd =? 13 then
    let b := set_reg b base SDRSP0 0x900 in
    let b := set_reg b base SDRSP3 0 in
    let b := set_reg b base SDRSP2 0 in
    Ok (set_reg b base SDRSP1 0, s)
  else if cmd =? 12 then Ok (b, s)
  else Fault FPanic.

(** [fread(&base[SDDATA], 4, 1, fp)]: the bytes that are left, and the new position. *)
Definition image_read (f : image) (b : mem) (p : Z) : mem * image :=
  let n := Z.max 0 (Z.min 4 (img_size f - img_pos f)) in
  (le_write (Z.to_nat n) b p (le_read (Z.to_nat n) (img_bytes f) (img_pos f)),
   Image (img_bytes f) (img_size f) (img_pos f + n)).

(** [fwrite(&base[SDDATA], 4, 1, fp)] *)
Definition image_write (f : image) (b : mem) (p : Z) : image :=
  Image (le_write 4 (img_bytes f) (img_pos f) (le_read 4 b p))
    (Z.max (img_size f) (img_pos f + 4)) (img_pos f + 4).

Definition sdcard_data (b : mem) (s : sdcard) : mem * sdcard :=
  let p := sd_base s + 4 * SDDATA in
  let '(b, fp, ext) :=
    if read_ext_csd s then
      let data :=
        if sd_addr s =? 192 then 2
        else if sd_addr s =? 212 then u32 (MEMORY_SIZE / 512)
        else 0 in
      (le_write 4 b p data, sd_fp s, if sd_addr s =? 512 - 4 then false else true)
    else
      match sd_fp s with
      | Some f =>
          if negb (write_cmd s) then let '(b, f) := image_read f b p in (b, Some f, false)
          else (b, Some (image_write f b p), false)
      | None => (b, None, false)
      end in
  (b, Sdcard (sd_base s) fp (blkcnt s) (blk_addr s) (u32 (sd_addr s + 4)) (write_cmd s) ext).

Definition sdcard_io_handler : io_callback_t devs := fun offset len is_write '(b, d) =>
  let s := d_sdcard d in
  let idx := offset / 4 in
  if idx =? SDCMD then
    '(b, s) ← sdcard_handle_cmd (reg b (sd_base s) SDCMD &&& 0x3f) b s;
    Ok (b, set_sdcard s d)
  else if (idx =? SDARG) || ((SDRSP0 <=? idx) && (idx <=? SDRSP3)) then Ok (b, d)
  else if idx =? SDDATA then
    let '(b, s) := sdcard_data b s in Ok (b, set_sdcard s d)
  else Fault FPanic.

(** ** alarm.c: the handlers are counted; each of them is [timer_intr], which does nothing *)

Definition MAX_HANDLER : Z := 8.

Definition add_alarm_handle (d : devs) : res devs :=
  c_assert (alarm_handlers d <? MAX_HANDLER);;
  Ok (set_timer (rtc_port_base d) (alarm_handlers d + 1) d).

(** ** device.c *)

Inductive SDL_Event :=
| SDL_QUIT
| SDL_KEY (scancode : Z) (is_keydown : bool)
| SDL_OTHER.

Definition TIMER_HZ : Z := 60.

(** [while (SDL_PollEvent(&event)) switch (event.type) ...] *)
Fixpoint poll_events (events : list SDL_Event) (d : devs) : res devs :=
  match events with
  | [] => Ok d
  | SDL_QUIT :: es => poll_events es (set_run NEMU_QUIT d)
  | SDL_KEY k down :: es => d ← send_key (u8 k) down d; poll_events es d
  | SDL_OTHER :: es => poll_events es d
  end.

Definition device_update (events : list SDL_Event) (s : mem * devs) : res (mem * devs) :=
  let '(b, d) := s in
  if negb (device_initialized d) then Ok (b, d)
  else
    let now := clock d in
    if u64 (now - last_update d) <? 1000000 / TIMER_HZ then Ok (b, d)
    else
      let '(b, d) := vga_update_screen (b, set_updated true now d) in
      d ← poll_events events d;
      Ok (b, d).

(** ** Initialisation *)

Section init.
Context (cfg : config) (dc : dev_config) (scancode : String.string -> Z).
Abbreviation io := (io_state devs).

Definition update_dev (f : devs -> devs) (st : io) : io :=
  IoState (io_space st) (p_space st) (mmio_maps st) (pio_maps st) (skip_ref st) (f (devices st)).
Definition update_space (f : mem -> mem) (st : io) : io :=
  IoState (f (io_space st)) (p_space st) (mmio_maps st) (pio_maps st) (skip_ref st) (devices st).

Definition init_serial (st : io) : res io :=
  '(base, st) ← new_space 8 st;
  let st := update_dev (fun d =>
    let s := d_serial d in
    set_serial (Serial base (serial_rx_fifo s) (serial_rx_head s) (serial_rx_tail s) (stdin s) (output s)) d) st in
  add_mmio_map cfg "serial" (CONFIG_SERIAL_MMIO cfg) base 8 (Some (serial_io_handler (isSoC cfg))) st.

Definition init_timer (st : io) : res io :=
  '(base, st) ← new_space 8 st;
  let st := update_dev (fun d => set_timer base (alarm_handlers d) d) st in
  st ← add_mmio_map cfg "rtc" (CONFIG_RTC_MMIO cfg) base 8 (Some rtc_io_handler) st;
  d ← add_alarm_handle (devices st);
  Ok (update_dev (fun _ => d) st).

Definition init_vga (st : io) : res io :=
  '(ctl, st) ← new_space 8 st;
  let st := update_space (fun b =>
    set_reg b ctl 0 (u32 (screen_width dc <<< 16) ||| screen_height dc)) st in
  st ← add_mmio_map cfg "vgactl" (CONFIG_VGA_CTL_MMIO dc) ctl 8 None st;
  '(vm, st) ← new_space (screen_size dc) st;
  let st := update_dev (fun d => set_vga (Vga ctl vm (frames (d_vga d))) d) st in
  st ← add_mmio_map cfg "vmem" (CONFIG_FB_ADDR dc) vm (screen_size dc) None st;
  Ok (if CONFIG_VGA_SHOW_SCREEN dc then
        update_space (fun b x => if (vm <=? x) && (x <? vm + screen_size dc) then 0 else b x) st
      else st).

Definition init_i8042 (st : io) : res io :=
  '(base, st) ← new_space 4 st;
  let st := update_space (fun b => set_reg b base 0 NEMU_KEY_NONE) st in
  st ← add_mmio_map cfg "keyboard" (CONFIG_I8042_DATA_MMIO dc) base 4 (Some i8042_data_io_handler) st;
  Ok (update_dev (fun d =>
        let k := d_keyboard d in
        set_keyboard (Keyboard base (init_keymap scancode) (key_queue k) (key_f k) (key_r k)) d) st).

Definition init_audio (st : io) : res io :=
  let space_size := 4 * nr_reg in
  '(base, st) ← new_space space_size st;
  let st := update_space (fun b => set_reg b base reg_sbuf_size (CONFIG_SB_SIZE dc)) st in
  st ← add_mmio_map cfg "audio" (CONFIG_AUDIO_CTL_MMIO dc) base space_size (Some (audio_io_handler dc)) st;
  '(sb, st) ← new_space (CONFIG_SB_SIZE dc) st;
  let st := update_dev (fun d => set_audio (Audio base sb 0 0 (opened (d_audio d))) d) st in
  add_mmio_map cfg "audio-sbuf" (CONFIG_SB_ADDR dc) sb (CONFIG_SB_SIZE dc)
    (Some (audio_buf_io_handler dc)) st.

(** [fp] is the result of opening the card image. *)
Definition init_sdcard (fp : option image) (st : io) : res io :=
  '(base, st) ← new_space 0x80 st;
  st ← add_mmio_map cfg "sdhci" (CONFIG_SDCARD_CTL_MMIO dc) base 0x80 (Some sdcard_io_handler) st;
  c_assert (C_SIZE <? 1 <<< 12);;
  Ok (update_dev (fun d =>
        let s := d_sdcard d in
        set_sdcard (Sdcard base fp (blkcnt s) (blk_addr s) (sd_addr s) (write_cmd s) (read_ext_csd s)) d) st).

(** [init_device] with every device configured in. *)
Definition init_device (fp : option image) (st : io) : res io :=
  let st := init_map st in
  st ← init_serial st;
  st ← init_timer st;
  st ← init_vga st;
  st ← init_i8042 st;
  st ← init_audio st;
  st ← init_sdcard fp st;
  Ok (update_dev (fun d => set_updated true (last_update d) d) st).
End init.

(** The state of the device tables and devices before [init_device]. *)
Definition reset_devs (input : list (list Z)) : devs :=
  Devs (Serial 0 (replicate (Z.to_nat SERIAL_RX_FIFO_SIZE) 0) 0 0 input []) 0 0
    (Keyboard 0 (replicate 256 0) (replicate (Z.to_nat KEY_QUEUE_LEN) 0) 0 0)
    (Vga 0 0 0) (Audio 0 0 0 0 []) (Sdcard 0 None 0 0 0 false false) 0 NEMU_STOP false 0.
Definition reset_io (input : list (list Z)) : io_state devs :=
  IoState (fun _ => 0) 0 [] [] false (reset_devs input).

(** ** Ring buffers

    The [n]-slot array [q] with read index [t] and write index [h] holds the elements
    between them; one slot always stays free. *)

Definition ring_len (n t h : Z) : Z := (h - t) mod n.
Definition ring (n : Z) (q : list Z) (t h : Z) : list Z :=
  (fun i => aget 0 q ((t + i) mod n)) <$> seqZ 0 (ring_len n t h).

Record ring_ok (n : Z) (q : list Z) (t h : Z) : Prop := {
  rk_len : Z.of_nat (length q) = n;
  rk_pos : 1 < n;
  rk_t : 0 <= t < n;
  rk_h : 0 <= h < n }.

Section ring.
Context (n : Z) (q : list Z) (t h : Z) (Hok : ring_ok n q t h).

Lemma ring_len_range : 0 <= ring_len n t h < n.
Proof. destruct Hok. apply Z.mod_pos_bound. lia. Qed.

Lemma ring_length : Z.of_nat (length (ring n q t h)) = ring_len n t h.
Proof.
  pose proof ring_len_range. unfold ring. rewrite length_fmap, length_seqZ. lia.
Qed.

Lemma ring_empty : ring n q t h = [] <-> t = h.
Proof.
  destruct Hok. rewrite <- length_zero_iff_nil, <- Nat2Z.inj_iff, ring_length.
  unfold ring_len. change (Z.of_nat 0) with 0. split.
  - intros E. destruct (decide (t <= h)).
    + rewrite Z.mod_small in E; lia.
    + replace (h - t) with (h - t + n + (-1) * n) in E by lia.
      rewrite Z.mod_add, Z.mod_small in E; lia.
  - intros ->. by rewrite Z.sub_diag.
Qed.

Lemma ring_full : (h + 1) mod n = t <-> ring_len n t h = n - 1.
Proof.
  destruct Hok. unfold ring_len.
  assert (forall x, 0 <= x < n -> (x - t) mod n = if t <=? x then x - t else x - t + n) as Hm.
  { intros x Hx. destruct (Z.leb_spec t x); [apply Z.mod_small; lia |].
    replace (x - t) with (x - t + n + (-1) * n) at 1 by lia. rewrite Z.mod_add by lia. apply Z.mod_small. lia. }
  rewrite (Hm h) by lia. destruct (decide (h + 1 = n)) as [E | E].
  - rewrite E, Z.mod_same by lia. destruct (Z.leb_spec t h); lia.
  - rewrite Z.mod_small by lia. destruct (Z.leb_spec t h); lia.
Qed.

Lemma ring_push v :
  (h + 1) mod n <> t ->
  ring n (aset q h v) t ((h + 1) mod n) = ring n q t h ++ [v] /\
  ring_ok n (aset q h v) t ((h + 1) mod n).
Proof.
  intros Hne. pose proof ring_len_range as Hr. pose proof ring_full as Hf. destruct Hok.
  assert (ring_len n t ((h + 1) mod n) = ring_len n t h + 1) as El.
  { assert (ring_len n t h <> n - 1) by tauto. unfold ring_len in *.
    rewrite Zminus_mod_idemp_l. replace (h + 1 - t) with (h - t + 1) by lia.
    rewrite <- Zplus_mod_idemp_l. apply Z.mod_small. lia. }
  split; [| split; try done; [by rewrite length_aset | by apply Z.mod_pos_bound; lia]].
  unfold ring. rewrite El, seqZ_app, fmap_app by lia. f_equal.
  - apply list_fmap_ext. intros k x Hk. apply lookup_seqZ in Hk as [-> Hk].
    rewrite aget_aset_ne; [done | lia | apply Z.mod_pos_bound; lia |].
    intros Eh. unfold ring_len in *.
    assert ((t + Z.of_nat k - t) mod n = (h - t) mod n) as Ex.
    { by rewrite Eh, Zminus_mod_idemp_l. }
    replace (t + Z.of_nat k - t) with (Z.of_nat k) in Ex by lia. rewrite Z.mod_small in Ex; lia.
  - rewrite seqZ_cons, seqZ_nil by lia. rewrite fmap_cons, fmap_nil. f_equal. unfold ring_len in *.
    rewrite Z.add_0_l, Zplus_mod_idemp_r.
    replace (t + (h - t)) with h by lia. rewrite Z.mod_small by lia. apply aget_aset_eq. lia.
Qed.

Lemma ring_pop :
  t <> h ->
  ring n q t h = aget 0 q t :: ring n q ((t + 1) mod n) h /\ ring_ok n q ((t + 1) mod n) h.
Proof.
  intros Hne. pose proof ring_len_range as Hr.
  assert (ring_len n t h <> 0) as Hnz.
  { intros E. apply Hne, ring_empty. unfold ring. by rewrite E. }
  destruct Hok. split; [| split; try done; by apply Z.mod_pos_bound; lia].
  assert (ring_len n ((t + 1) mod n) h = ring_len n t h - 1) as El.
  { unfold ring_len in *. rewrite Zminus_mod_idemp_r. replace (h - (t + 1)) with (h - t - 1) by lia.
    rewrite <- Zminus_mod_idemp_l. apply Z.mod_small. lia. }
  unfold ring. rewrite El, seqZ_cons, fmap_cons by lia. f_equal; [rewrite Z.add_0_r, Z.mod_small by lia; done |].
  replace (Z.pred (ring_len n t h)) with (ring_len n t h - 1) by lia.
  change (Z.succ 0) with (1 + 0). rewrite <- fmap_add_seqZ, <- list_fmap_compose.
  apply list_fmap_ext. intros k x _. cbn. f_equal. rewrite Zplus_mod_idemp_l. f_equal. lia.
Qed.
End ring.

(** ** The serial port's receive queue *)

Definition rx_queue (s : serial) : list Z :=
  ring SERIAL_RX_FIFO_SIZE (serial_rx_fifo s) (serial_rx_tail s) (serial_rx_head s).

Definition serial_ok (s : serial) : Prop :=
  ring_ok SERIAL_RX_FIFO_SIZE (serial_rx_fifo s) (serial_rx_tail s) (serial_rx_head s).

Lemma serial_push_queue ch s :
  serial_ok s ->
  serial_ok (serial_rx_push ch s) /\
  rx_queue (serial_rx_push ch s) =
    (if Z.of_nat (length (rx_queue s)) <? 255 then rx_queue s ++ [ch] else rx_queue s) /\
  stdin (serial_rx_push ch s) = stdin s /\ output (serial_rx_push ch s) = output s /\
  serial_base (serial_rx_push ch s) = serial_base s.
Proof.
  intros Hs. unfold serial_rx_push.
  pose proof (ring_len_range _ _ _ _ Hs) as Hr. pose proof (ring_full _ _ _ _ Hs) as Hf.
  pose proof (ring_length _ _ _ _ Hs : Z.of_nat (length (rx_queue s)) = _) as ->.
  unfold SERIAL_RX_FIFO_SIZE in *.
  destruct (Z.eqb_spec ((serial_rx_head s + 1) mod 256) (serial_rx_tail s)) as [E | E].
  - rewrite (proj1 Hf E). done.
  - assert (ring_len 256 (serial_rx_tail s) (serial_rx_head s) <> 255) by (intros E'; apply E, Hf; lia).
    rewrite (proj2 (Z.ltb_lt _ _)) by lia.
    destruct (ring_push _ _ _ _ Hs ch E) as [E1 E2]. split; [exact E2 |]. by split; [exact E1 |].
Qed.

Lemma serial_pushes_queue l s :
  serial_ok s ->
  let s' := fold_left (fun s ch => serial_rx_push ch s) l s in
  serial_ok s' /\ rx_queue s' = take 255 (rx_queue s ++ l) /\
  stdin s' = stdin s /\ output s' = output s /\ serial_base s' = serial_base s.
Proof.
  revert s. induction l as [|ch l IH]; intros s Hs; cbn.
  { rewrite app_nil_r, take_ge; [done |].
    pose proof (ring_len_range _ _ _ _ Hs). pose proof (ring_length _ _ _ _ Hs).
    unfold rx_queue, SERIAL_RX_FIFO_SIZE in *. lia. }
  destruct (serial_push_queue ch s Hs) as (Hs1 & Eq & Ei & Eo & Eb).
  destruct (IH _ Hs1) as (Hs2 & Eq2 & Ei2 & Eo2 & Eb2).
  split; [exact Hs2 |]. rewrite Eq2, Eq, Ei2, Eo2, Eb2. split_and!; try done.
  destruct (Z.ltb_spec (Z.of_nat (length (rx_queue s))) 255).
  - by rewrite <- app_assoc.
  - rewrite !take_app_le by lia. done.
Qed.

(** C19. The serial port's receive ring implements a bounded queue: filling it from the
    terminal appends the bytes read, in order, and drops those beyond 255 pending bytes; a read
    of the data register takes the oldest byte (0xff when none is pending); the status
    register reports pending input; a write of the data register prints the byte. *)
Theorem serial_port_is_queue soc d b :
  serial_ok (d_serial d) ->
  let s := d_serial d in
  let queue := take 255 (rx_queue s ++ take 64 (default [] (head (stdin s)))) in
  (exists b' d', serial_io_handler soc 0 1 false (b, d) = Ok (b', d') /\ serial_ok (d_serial d') /\
     rx_queue (d_serial d') = tail queue /\ b' (serial_base s) = default 0xff (head queue) /\
     b' (serial_base s + 5) = (if decide (tail queue = []) then 0x20 else 0x21) /\
     stdin (d_serial d') = tail (stdin s)) /\
  (exists d', serial_io_handler soc 0 1 true (b, d) = Ok (b, d') /\ serial_ok (d_serial d') /\
     output (d_serial d') = output s ++ [b (serial_base s)] /\ rx_queue (d_serial d') = rx_queue s) /\
  (exists b' d', serial_io_handler true 5 1 false (b, d) = Ok (b', d') /\
     rx_queue (d_serial d') = queue /\
     b' (serial_base s + 5) = if decide (queue = []) then 0x20 else 0x21).
Proof.
  intros Hs s queue.
  assert (let s1 := serial_fill_input s in serial_ok s1 /\ rx_queue s1 = queue /\
    stdin s1 = tail (stdin s) /\ serial_base s1 = serial_base s) as (Hs1 & Eq & Ei & Eb).
  { unfold serial_fill_input, queue. destruct (stdin s) as [|chunk rest] eqn:Es; cbn [head tail default].
    - rewrite take_nil, app_nil_r, take_ge; [done |].
      pose proof (ring_len_range _ _ _ _ Hs). pose proof (ring_length _ _ _ _ Hs).
      unfold rx_queue, SERIAL_RX_FIFO_SIZE, s in *. lia.
    - by destruct (serial_pushes_queue (take 64 chunk) (Serial (serial_base s) (serial_rx_fifo s)
        (serial_rx_head s) (serial_rx_tail s) rest (output s)) Hs) as (? & ? & ? & ? & ?). }
  assert (forall s2, serial_ok s2 -> lsr_value s2 = if decide (rx_queue s2 = []) then 0x20 else 0x21) as Hlsr.
  { intros s2 Hs2. unfold lsr_value, serial_rx_available. pose proof (ring_empty _ _ _ _ Hs2) as He.
    case_decide as E; destruct (Z.eqb_spec (serial_rx_head s2) (serial_rx_tail s2)) as [Eh | Eh]; try done.
    - apply He in E. congruence.
    - destruct E. by apply He. }
  split_and!.
  - unfold serial_io_handler, c_assert. cbn [mbind res_bind Z.eqb]. fold s.
    unfold serial_rx_pop, serial_rx_available. pose proof (ring_empty _ _ _ _ Hs1) as He.
    fold (rx_queue (serial_fill_input s)) in He.
    destruct (Z.eqb_spec (serial_rx_head (serial_fill_input s)) (serial_rx_tail (serial_fill_input s))) as [E | E]; cbn [negb].
    + assert (queue = []) as -> by (rewrite <- Eq; by apply He). eexists _, _. split; [done |].
      cbn [d_serial set_serial head tail default]. rewrite Hlsr, Eb by done.
      assert (rx_queue (serial_fill_input s) = []) as Eq0 by (by apply He). rewrite Eq0.
      unfold mwrite. rewrite Z.eqb_refl. rewrite (proj2 (Z.eqb_neq (serial_base s) (serial_base s + 5))) by lia.
      by rewrite Z.eqb_refl.
    + destruct (ring_pop _ _ _ _ Hs1) as [Er Hok]; [congruence |].
      fold (rx_queue (serial_fill_input s)) in Er. rewrite <- Eq, Er. eexists _, _. split; [done |].
      cbn [d_serial set_serial head tail default serial_base stdin]. rewrite Hlsr, Eb by exact Hok.
      unfold mwrite. rewrite Z.eqb_refl, (proj2 (Z.eqb_neq (serial_base s) (serial_base s + 5))), Z.eqb_refl by lia.
      done.
  - eexists. split; [done |]. done.
  - unfold serial_io_handler, c_assert. cbn [mbind res_bind Z.eqb Pos.eqb]. fold s.
    eexists _, _. split; [done |]. cbn [d_serial set_serial]. split; [done |].
    rewrite Eb. unfold mwrite. rewrite Z.eqb_refl, Hlsr, Eq by done. done.
Qed.

(** ** The keyboard's queue *)

Definition key_events (k : keyboard) : list Z := ring KEY_QUEUE_LEN (key_queue k) (key_f k) (key_r k).
Definition keyboard_ok (k : keyboard) : Prop := ring_ok KEY_QUEUE_LEN (key_queue k) (key_f k) (key_r k).

Lemma reg_set_reg b base i v : reg (set_reg b base i v) base i = u32 v.
Proof. unfold reg, set_reg. by rewrite le_read_write. Qed.

Lemma reg_set_reg_ne b base i j v : i <> j -> reg (set_reg b base i v) base j = reg b base j.
Proof. intros Hij. unfold reg, set_reg. apply le_read_write_disjoint. lia. Qed.

(** The keyboard's ring implements a queue of key events: a key event is queued
    behind the pending ones and stops the emulator only when 1023 events are already
    pending; reading the data register delivers the oldest pending event and removes
    it, or 0 when none is pending; the register cannot be written. *)
Theorem keyboard_is_queue d b c len :
  keyboard_ok (d_keyboard d) ->
  let k := d_keyboard d in
  (if Z.of_nat (length (key_events k)) <? KEY_QUEUE_LEN - 1 then
     exists k', key_enqueue c k = Ok k' /\ keyboard_ok k' /\ key_events k' = key_events k ++ [c]
   else key_enqueue c k = Fault FAssert) /\
  (exists b' d', i8042_data_io_handler 0 len false (b, d) = Ok (b', d') /\ keyboard_ok (d_keyboard d') /\
     key_events (d_keyboard d') = tail (key_events k) /\
     reg b' (i8042_data_port_base k) 0 = u32 (default NEMU_KEY_NONE (head (key_events k)))) /\
  i8042_data_io_handler 0 len true (b, d) = Fault FAssert.
Proof.
  intros Hk k. fold k in Hk.
  pose proof (ring_len_range _ _ _ _ Hk) as Hr. pose proof (ring_full _ _ _ _ Hk) as Hf.
  pose proof (ring_empty _ _ _ _ Hk) as He. fold (key_events k) in He. split_and!; [| | done].
  - pose proof (ring_length _ _ _ _ Hk : Z.of_nat (length (key_events k)) = _) as ->.
    unfold key_enqueue, c_assert, KEY_QUEUE_LEN in *.
    destruct (Z.eqb_spec ((key_r k + 1) mod 1024) (key_f k)) as [E | E].
    + by rewrite (proj1 Hf E).
    + assert (ring_len 1024 (key_f k) (key_r k) <> 1023) by (intros E'; apply E, Hf; lia).
      rewrite (proj2 (Z.ltb_lt _ _)) by lia.
      destruct (ring_push _ _ _ _ Hk c E) as [E1 E2]. eexists. split; [done |]. by split; [exact E2 |].
  - unfold i8042_data_io_handler, key_dequeue, c_assert. cbn [negb mbind res_bind Z.eqb]. fold k.
    destruct (Z.eqb_spec (key_f k) (key_r k)) as [E | E]; cbn [negb].
    + rewrite (proj2 He E). eexists _, _. split; [done |]. split; [exact Hk |].
      split; [by apply He | by rewrite reg_set_reg].
    + destruct (ring_pop _ _ _ _ Hk E) as [Er Hok]. fold (key_events k) in Er. rewrite Er.
      eexists _, _. split; [done |]. split; [exact Hok |]. split; [done |]. by rewrite reg_set_reg.
Qed.

(** ** The card *)

(** What a driver does: set the argument register, send the command, transfer words
    through the data register of the window [m]. *)
Section card.
Context (cfg : config) (m : IOMap devs).
Abbreviation io := (io_state devs).

Definition sd_command (cmd arg : Z) (st : io) : res io :=
  st ← map_write cfg (low m + 4 * SDARG) 4 arg (Some m) st;
  map_write cfg (low m + 4 * SDCMD) 4 cmd (Some m) st.

Fixpoint sd_put (l : list Z) (st : io) : res io :=
  match l with
  | [] => Ok st
  | v :: l => st ← map_write cfg (low m + 4 * SDDATA) 4 v (Some m) st; sd_put l st
  end.

Fixpoint sd_get (n : nat) (st : io) : res (list Z * io) :=
  match n with
  | O => Ok ([], st)
  | S n =>
      '(v, st) ← map_read cfg (low m + 4 * SDDATA) 4 (Some m) st;
      '(l, st) ← sd_get n st;
      Ok (v :: l, st)
  end.

(** The card's window and registers, and a card image at position [pos] in the given direction. *)
Record sd_window (st : io) : Prop := {
  sw_cb : callback m = Some sdcard_io_handler;
  sw_low : 0 <= low m /\ high m < 2 ^ 32 /\ high m = low m + 0x7f;
  sw_space : 0 <= space m /\ space m + 0x80 <= IO_SPACE_MAX;
  sw_base : sd_base (d_sdcard (devices st)) = space m;
  sw_ext : read_ext_csd (d_sdcard (devices st)) = false }.

Definition card (st : io) : option image := sd_fp (d_sdcard (devices st)).

Lemma map_write_reg st i v :
  sd_window st -> 0 <= i < 32 ->
  map_write cfg (low m + 4 * i) 4 v (Some m) st =
    (s ← sdcard_io_handler (4 * i) 4 true (set_reg (io_space st) (space m) i v, devices st);
     Ok (with_space st s)).
Proof.
  intros [Hc Hl Hs _ _] Hi. unfold map_write, check_bound, invoke_callback, c_assert, space_write, space_access.
  cbn [mbind res_bind Z.leb Z.compare Pos.compare Pos.compare_cont andb Z.eqb Pos.eqb].
  rewrite (proj2 (Z.leb_le _ _)), (proj2 (Z.leb_le _ _)) by lia. cbn [andb mbind res_bind].
  rewrite Hc. replace (low m + 4 * i - low m) with (4 * i) by lia.
  rewrite (wrap_small 32) by (unfold in_range; lia).
  rewrite (proj2 (Z.leb_le _ _)), (proj2 (Z.leb_le _ _)) by lia. done.
Qed.

Lemma map_read_reg st i :
  sd_window st -> 0 <= i < 32 ->
  map_read cfg (low m + 4 * i) 4 (Some m) st =
    (s ← sdcard_io_handler (4 * i) 4 false (io_space st, devices st);
     Ok (reg s.1 (space m) i, with_space st s)).
Proof.
  intros [Hc Hl Hs _ _] Hi. unfold map_read, check_bound, invoke_callback, c_assert, space_read, space_access.
  cbn [mbind res_bind Z.leb Z.compare Pos.compare Pos.compare_cont andb Z.eqb Pos.eqb].
  rewrite (proj2 (Z.leb_le _ _)), (proj2 (Z.leb_le _ _)) by lia. cbn [andb mbind res_bind].
  rewrite Hc. replace (low m + 4 * i - low m) with (4 * i) by lia.
  rewrite (wrap_small 32) by (unfold in_range; lia).
  rewrite (proj2 (Z.leb_le _ _)), (proj2 (Z.leb_le _ _)) by lia. done.
Qed.

(** The two transfer commands seek to the block and set the direction. *)
Lemma sd_command_transfer st w arg f :
  sd_window st -> card st = Some f -> in_range 32 arg ->
  exists st', sd_command (if w : bool then 25 else 18) arg st = Ok st' /\ sd_window st' /\
    write_cmd (d_sdcard (devices st')) = w /\
    card st' = Some (Image (img_bytes f) (img_size f) (512 * arg)).
Proof.
  intros Hw Hf Ha. pose proof Hw as [Hc Hl Hs Hb He]. unfold sd_command, SDARG, SDCMD.
  rewrite map_write_reg by (done || lia). unfold sdcard_io_handler at 1.
  change (4 * 1 / 4) with 1. cbn [Z.eqb Pos.eqb SDCMD SDARG orb mbind res_bind].
  match goal with |- context [with_space st ?x] => set (st1 := with_space st x) end.
  assert (sd_window st1) as Hw1 by (by split).
  rewrite map_write_reg by (done || lia). unfold sdcard_io_handler. change (4 * 0 / 4) with 0.
  cbn [Z.eqb SDCMD st1 with_space devices io_space fst snd].
  rewrite Hb, reg_set_reg.
  assert (forall b c, reg (set_reg (set_reg b (space m) 1 arg) (space m) 0 c) (space m) SDARG = arg) as Harg.
  { intros b c. rewrite reg_set_reg_ne by done. unfold SDARG. rewrite reg_set_reg. by apply wrap_small. }
  change (512 * arg) with (2 ^ 9 * arg). rewrite Z.mul_comm, <- Z.shiftl_mul_pow2 by lia.
  destruct w.
  - change (u32 25 &&& 63) with 25. unfold sdcard_handle_cmd. cbn [Z.eqb Pos.eqb orb mbind res_bind].
    eexists. split; [done |]. unfold card in *.
    cbn [with_space devices snd set_sdcard d_sdcard prepare_rw sd_fp write_cmd].
    by rewrite Hb, Harg, Hf.
  - change (u32 18 &&& 63) with 18. unfold sdcard_handle_cmd. cbn [Z.eqb Pos.eqb orb mbind res_bind].
    eexists. split; [done |]. unfold card in *.
    cbn [with_space devices snd set_sdcard d_sdcard prepare_rw sd_fp write_cmd].
    by rewrite Hb, Harg, Hf.
Qed.

Definition words_at (b : mem) (p : Z) (n : nat) : list Z := (fun i => le_read 4 b (p + 4 * i)) <$> seqZ 0 (Z.of_nat n).

Lemma words_at_S b p n : words_at b p (S n) = le_read 4 b p :: words_at b (p + 4) n.
Proof.
  unfold words_at. rewrite seqZ_cons by lia. rewrite fmap_cons. f_equal; [do 2 f_equal; lia |].
  replace (Z.pred (Z.of_nat (S n))) with (Z.of_nat n) by lia. change (Z.succ 0) with (1 + 0).
  rewrite <- fmap_add_seqZ, <- list_fmap_compose. apply list_fmap_ext.
  intros k x _. cbn [compose]. f_equal. lia.
Qed.

Lemma sd_put_words l st f :
  sd_window st -> card st = Some f -> write_cmd (d_sdcard (devices st)) = true ->
  Forall (in_range 32) l ->
  exists st' f', sd_put l st = Ok st' /\ sd_window st' /\ card st' = Some f' /\
    words_at (img_bytes f') (img_pos f) (length l) = l /\
    (l <> [] -> img_pos f + 4 * Z.of_nat (length l) <= img_size f') /\ img_size f <= img_size f' /\
    (bytes_ok (img_bytes f) -> bytes_ok (img_bytes f')) /\
    forall x, ~ (img_pos f <= x < img_pos f + 4 * Z.of_nat (length l)) -> img_bytes f' x = img_bytes f x.
Proof.
  revert st f. induction l as [|v l IH]; intros st f Hw Hf Hd Hl.
  { exists st, f. split_and!; try done. }
  apply Forall_cons in Hl as [Hv Hl]. pose proof Hw as [Hc Hlow Hs Hb He]. cbn [sd_put].
  rewrite map_write_reg by (done || unfold SDDATA; lia). unfold sdcard_io_handler. change (4 * SDDATA / 4) with 16.
  change (16 =? SDCMD) with false. change (_ || _) with false. change (16 =? SDDATA) with true. cbv iota.
  unfold sdcard_data. unfold card in Hf. rewrite He, Hf, Hd. cbn [negb mbind res_bind].
  match goal with |- context [with_space st ?x] => set (st1 := with_space st x) end.
  set (f1 := image_write f (set_reg (io_space st) (space m) SDDATA v) (sd_base (d_sdcard (devices st)) + 4 * SDDATA)).
  destruct (IH st1 f1) as (st' & f' & Eput & Hw' & Hf' & Hwords & Hsize & Hgrow & Hby & Hrest); try done.
  exists st', f'. split_and!; try done.
  - cbn [length]. rewrite words_at_S. f_equal; [| exact Hwords].
    rewrite (le_read_ext 4 _ (img_bytes f1)).
    + unfold f1, image_write. cbn [img_bytes]. rewrite Hb, le_read_write.
      change (le_read 4 ?b (space m + 4 * SDDATA)) with (reg b (space m) SDDATA).
      rewrite reg_set_reg. rewrite (wrap_small 32 v) by done. by apply wrap_small.
    + intros x Hx. apply Hrest. unfold f1. cbn. lia.
  - intros _. unfold f1 in *. cbn [img_pos img_size image_write length] in *.
    destruct l; [cbn [length] in *; lia | specialize (Hsize ltac:(done)); lia].
  - unfold f1 in Hgrow. cbn [img_size image_write] in Hgrow. lia.
  - intros Hok. apply Hby. by apply le_write_bytes.
  - intros x Hx. cbn [length] in Hx. rewrite Hrest by (unfold f1; cbn [img_pos image_write]; lia).
    unfold f1. cbn [img_bytes image_write]. rewrite le_write_lookup.
    destruct (Z.leb_spec (img_pos f) x), (Z.ltb_spec x (img_pos f + Z.of_nat 4)); lia || done.
Qed.

Lemma sd_get_words n st f :
  sd_window st -> card st = Some f -> write_cmd (d_sdcard (devices st)) = false ->
  bytes_ok (img_bytes f) -> (n <> 0%nat -> img_pos f + 4 * Z.of_nat n <= img_size f) ->
  exists st', sd_get n st = Ok (words_at (img_bytes f) (img_pos f) n, st') /\ sd_window st' /\
    card st' = Some (Image (img_bytes f) (img_size f) (img_pos f + 4 * Z.of_nat n)).
Proof.
  revert st f. induction n as [|n IH]; intros st f Hw Hf Hd Hbytes Hsz.
  { exists st. split_and!; try done. rewrite Hf. destruct f. cbn. do 2 f_equal. lia. }
  pose proof Hw as [Hc Hlow Hs Hb He]. cbn [sd_get].
  rewrite map_read_reg by (done || unfold SDDATA; lia). unfold sdcard_io_handler. change (4 * SDDATA / 4) with 16.
  change (16 =? SDCMD) with false. change (_ || _) with false. change (16 =? SDDATA) with true. cbv iota.
  unfold sdcard_data. unfold card in Hf. rewrite He, Hf, Hd. unfold image_read.
  specialize (Hsz ltac:(done)).
  replace (Z.max 0 (Z.min 4 (img_size f - img_pos f))) with 4 by lia. cbn [negb mbind res_bind].
  match goal with |- context [with_space st ?x] => set (st1 := with_space st x) end.
  destruct (IH st1 (Image (img_bytes f) (img_size f) (img_pos f + 4))) as (st' & Eget & Hw' & Hf');
    try done; [cbn [img_pos img_size]; lia |].
  rewrite Eget. cbn [mbind res_bind]. exists st'. split_and!; try done.
  - rewrite words_at_S. cbn [fst]. rewrite Hb.
    change (le_write (Z.to_nat 4) ?b (space m + 4 * SDDATA) ?v) with (set_reg b (space m) SDDATA v).
    rewrite reg_set_reg. rewrite (wrap_small 32); [done |]. apply (le_read_range 4). done.
  - rewrite Hf'. cbn [img_bytes img_size img_pos]. do 2 f_equal. lia.
Qed.

(** C20. The card stores what is written to it: with an open card image, setting the
    block number, sending the write command and writing the words [l] to the data register, and then
    sending the read command for the same block and reading as many words, delivers
    exactly [l]; the write changes no byte of the image outside the transferred range. *)
Theorem sdcard_write_read st f arg l :
  sd_window st -> card st = Some f -> bytes_ok (img_bytes f) -> in_range 32 arg ->
  Forall (in_range 32) l ->
  exists st1 st2 f',
    (st0 ← sd_command 25 arg st; sd_put l st0) = Ok st1 /\ card st1 = Some f' /\
    (forall x, ~ (512 * arg <= x < 512 * arg + 4 * Z.of_nat (length l)) -> img_bytes f' x = img_bytes f x) /\
    (st0 ← sd_command 18 arg st1; sd_get (length l) st0) = Ok (l, st2).
Proof.
  intros Hw Hf Hbytes Ha Hl.
  destruct (sd_command_transfer st true arg f Hw Hf Ha) as (st0 & E0 & Hw0 & Hd0 & Hf0).
  destruct (sd_put_words l st0 _ Hw0 Hf0 Hd0 Hl) as (st1 & f' & E1 & Hw1 & Hf1 & Hwords & Hsize & _ & Hby & Hrest).
  cbn [img_pos img_bytes] in *.
  destruct (sd_command_transfer st1 false arg f' Hw1 Hf1 Ha) as (st2 & E2 & Hw2 & Hd2 & Hf2).
  destruct (sd_get_words (length l) st2 _ Hw2 Hf2 Hd2) as (st3 & E3 & _ & _); cbn [img_pos img_bytes img_size].
  - by apply Hby.
  - destruct l; [done | intros _; by apply Hsize].
  - exists st1, st3, f'. cbn [img_pos img_bytes] in E3. rewrite E0, E2. cbn [mbind res_bind]. rewrite E3, Hwords. done.
Qed.
End card.

(** ** The audio buffer *)

(** The audio buffer's accounting: with both offsets inside the buffer and [cnt] bytes pending, writing
    [len] further bytes that still fit makes [cnt + len] bytes pending, a request for
    [len] bytes removes the smaller of [cnt] and [len], the offsets stay inside the
    buffer, the delivered stream has exactly [len] bytes padded with zeros, and its
    data are the pending bytes in order when they do not wrap around the end of the buffer. *)
Theorem audio_buffer_accounting dc b d a len :
  d_audio d = a -> 0 < CONFIG_SB_SIZE dc ->
  0 <= sbuf_data_head a < CONFIG_SB_SIZE dc -> 0 <= sbuf_data_end a < CONFIG_SB_SIZE dc -> 0 <= len ->
  let cnt := sbuf_data_count dc a in
  0 <= cnt < CONFIG_SB_SIZE dc /\
  (cnt + len < CONFIG_SB_SIZE dc ->
     exists d', audio_buf_io_handler dc 0 len true (b, d) = Ok (b, d') /\
       sbuf_data_count dc (d_audio d') = cnt + len /\
       0 <= sbuf_data_end (d_audio d') < CONFIG_SB_SIZE dc) /\
  let '(stream, a') := audio_callback dc b len a in
  sbuf_data_count dc a' = cnt - Z.min cnt len /\ 0 <= sbuf_data_head a' < CONFIG_SB_SIZE dc /\
  Z.of_nat (length stream) = len /\
  (sbuf_data_head a + Z.min cnt len <= CONFIG_SB_SIZE dc ->
   forall i, 0 <= i < Z.min cnt len ->
     aget 0 stream i = b (sbuf a + (sbuf_data_head a + i) mod CONFIG_SB_SIZE dc)).
Proof.
  intros Ea Hsz Hh He Hlen cnt. unfold cnt, sbuf_data_count. split; [by zcmp |]. split.
  - intros Hfit. eexists. split; [done |]. rewrite Ea.
    cbn [d_audio set_audio sbuf_data_head sbuf_data_end]. unfold sbuf_ring_add.
    revert Hfit. destruct (Z.leb_spec (sbuf_data_head a) (sbuf_data_end a));
      destruct (Z.leb_spec (CONFIG_SB_SIZE dc) (sbuf_data_end a + len)); intros; split; zcmp.
  - cbn [audio_callback]. unfold sbuf_data_count. set (c := if sbuf_data_head a <=? sbuf_data_end a then _ else _).
    assert ((if c <? len then c else len) = Z.min c len) as -> by (destruct (Z.ltb_spec c len); lia).
    assert (0 <= c < CONFIG_SB_SIZE dc) as Hc by (unfold c; zcmp).
    cbn [sbuf_data_head sbuf_data_end]. split_and!.
    + unfold sbuf_ring_add. unfold c in *. revert Hc.
      destruct (Z.leb_spec (sbuf_data_head a) (sbuf_data_end a)); intros; zcmp.
    + unfold sbuf_ring_add. zcmp.
    + unfold sbuf_ring_add. zcmp.
    + rewrite length_app, length_fmap, length_seqZ, length_replicate. lia.
    + intros Hw i Hi. unfold aget. rewrite nth_lookup, lookup_app_l, list_lookup_fmap, lookup_seqZ_lt
        by (rewrite ?length_fmap, ?length_seqZ; lia).
      cbn. rewrite Z2Nat.id by lia. f_equal. rewrite Z.mod_small by lia. lia.
Qed.

(** ** Initialisation *)

(** The windows of the configuration are 32-bit address ranges. *)
Definition window_fits (addr len : Z) : Prop := in_range 32 addr /\ addr + len <= 2 ^ 32.

Record windows_ok (cfg : config) (dc : dev_config) : Prop := {
  wo_serial : window_fits (CONFIG_SERIAL_MMIO cfg) 8;
  wo_rtc : window_fits (CONFIG_RTC_MMIO cfg) 8;
  wo_vgactl : window_fits (CONFIG_VGA_CTL_MMIO dc) 8;
  wo_fb : window_fits (CONFIG_FB_ADDR dc) (screen_size dc);
  wo_i8042 : window_fits (CONFIG_I8042_DATA_MMIO dc) 4;
  wo_audio : window_fits (CONFIG_AUDIO_CTL_MMIO dc) (4 * nr_reg);
  wo_sb : window_fits (CONFIG_SB_ADDR dc) (CONFIG_SB_SIZE dc);
  wo_sbsize : 1 <= CONFIG_SB_SIZE dc <= IO_SPACE_MAX;
  wo_sdcard : window_fits (CONFIG_SDCARD_CTL_MMIO dc) 0x80 }.

(** The addresses of the configuration menu. *)
Definition default_dev_config : dev_config :=
  DevConfig 0xa0000060 0xa0000100 0xa1000000 0xa0000200 0xa1200000 0x10000 0xa3000000 false true.

Lemma default_windows_ok soc : windows_ok (default_config soc) default_dev_config.
Proof. split; unfold window_fits, in_range, IO_SPACE_MAX; vm_compute; intuition discriminate. Qed.

Section init_ok.
Context (cfg : config) (dc : dev_config) (Hw : windows_ok cfg dc) (scancode : String.string -> Z).

Lemma tables_ok_ext {S} (st st' : io_state S) :
  mmio_maps st' = mmio_maps st -> p_space st' = p_space st -> tables_ok st -> tables_ok st'.
Proof. intros Em Ep [H1 H2 H3]. split; by rewrite ?Em, ?Ep. Qed.

Lemma screen_size_range : 1 <= screen_size dc <= IO_SPACE_MAX.
Proof. unfold screen_size, screen_width, screen_height. destruct (CONFIG_VGA_SIZE_800x600 dc); vm_compute; intuition discriminate. Qed.

Ltac init_window :=
  eapply alloc_window_ok; [| | | | eassumption | | | eassumption]; [eassumption | | | | done | done];
  destruct Hw as [[] [] [] [] [] [] [] ? []]; pose proof screen_size_range; unfold nr_reg, IO_SPACE_MAX in *; lia || done.

Lemma init_serial_ok st st' : tables_ok st -> init_serial cfg st = Ok st' -> tables_ok st'.
Proof. intros H E. unfold init_serial in E. apply bind_ok in E as ([base st1] & E1 & E). init_window. Qed.

Lemma init_timer_ok st st' : tables_ok st -> init_timer cfg st = Ok st' -> tables_ok st'.
Proof.
  intros H E. unfold init_timer in E. apply bind_ok in E as ([base st1] & E1 & E).
  apply bind_ok in E as (st2 & E2 & E). apply bind_ok in E as (d & _ & [= <-]).
  apply (tables_ok_ext st2); [done | done |]. init_window.
Qed.

Lemma init_vga_ok st st' : tables_ok st -> init_vga cfg dc st = Ok st' -> tables_ok st'.
Proof.
  intros H E. unfold init_vga in E. apply bind_ok in E as ([ctl st1] & E1 & E).
  apply bind_ok in E as (st2 & E2 & E).
  assert (tables_ok st2) by init_window. clear E1 E2.
  apply bind_ok in E as ([vm st3] & E3 & E). apply bind_ok in E as (st4 & E4 & [= <-]).
  assert (tables_ok st4) by init_window. by apply (tables_ok_ext st4); destruct (CONFIG_VGA_SHOW_SCREEN dc).
Qed.

Lemma init_i8042_ok st st' : tables_ok st -> init_i8042 cfg dc scancode st = Ok st' -> tables_ok st'.
Proof.
  intros H E. unfold init_i8042 in E. apply bind_ok in E as ([base st1] & E1 & E).
  apply bind_ok in E as (st2 & E2 & [= <-]). apply (tables_ok_ext st2); [done | done |]. init_window.
Qed.

Lemma init_audio_ok st st' : tables_ok st -> init_audio cfg dc st = Ok st' -> tables_ok st'.
Proof.
  intros H E. unfold init_audio in E. apply bind_ok in E as ([base st1] & E1 & E).
  apply bind_ok in E as (st2 & E2 & E).
  assert (tables_ok st2) by init_window. clear E1 E2.
  apply bind_ok in E as ([sb st3] & E3 & E). init_window.
Qed.

Lemma init_sdcard_ok fp st st' : tables_ok st -> init_sdcard cfg dc fp st = Ok st' -> tables_ok st'.
Proof.
  intros H E. unfold init_sdcard in E. apply bind_ok in E as ([base st1] & E1 & E).
  apply bind_ok in E as (st2 & E2 & E). apply bind_ok in E as ([] & _ & [= <-]).
  apply (tables_ok_ext st2); [done | done |]. init_window.
Qed.

Lemma reset_tables_ok input : tables_ok (reset_io input).
Proof. split; [split_and!; [done | done | by intros] | done | by split; [| intros]]. Qed.

(** Device initialisation: whatever the configured addresses, an initialisation that
    does not stop the emulator leaves well-formed tables - at most 16 pairwise disjoint
    windows, each backed by its own registers inside the register array - and with the
    addresses of the configuration menu it does succeed, with the eight expected windows. *)
Theorem init_device_tables fp input :
  (forall st, init_device cfg dc scancode fp (reset_io input) = Ok st ->
     tables_ok st /\ device_initialized (devices st) = true) /\
  (forall soc,
     (fun st => (fun m => (io_name m, low m, high m, space m)) <$> mmio_maps st) <$>
       init_device (default_config soc) default_dev_config scancode fp (reset_io input) = Ok
       [("serial"%string, 0xa00003f8, 0xa00003ff, 0); ("rtc"%string, 0xa0000048, 0xa000004f, 0x1000);
        ("vgactl"%string, 0xa0000100, 0xa0000107, 0x2000); ("vmem"%string, 0xa1000000, 0xa10752ff, 0x3000);
        ("keyboard"%string, 0xa0000060, 0xa0000063, 0x79000); ("audio"%string, 0xa0000200, 0xa000021b, 0x7a000);
        ("audio-sbuf"%string, 0xa1200000, 0xa120ffff, 0x7b000); ("sdhci"%string, 0xa3000000, 0xa300007f, 0x8b000)]).
Proof.
  split.
  - intros st E. unfold init_device in E.
    assert (tables_ok (init_map (reset_io input))) as H0 by apply reset_tables_ok.
    apply bind_ok in E as (st1 & E1 & E). apply init_serial_ok in E1; [| done].
    apply bind_ok in E as (st2 & E2 & E). apply init_timer_ok in E2; [| done].
    apply bind_ok in E as (st3 & E3 & E). apply init_vga_ok in E3; [| done].
    apply bind_ok in E as (st4 & E4 & E). apply init_i8042_ok in E4; [| done].
    apply bind_ok in E as (st5 & E5 & E). apply init_audio_ok in E5; [| done].
    apply bind_ok in E as (st6 & E6 & [= <-]). apply init_sdcard_ok in E6; [| done].
    split; [by apply (tables_ok_ext st6) | done].
  - intros []; vm_compute; reflexivity.
Qed.
End init_ok.

(** ** Instances *)

Lemma reset_serial_ok input : serial_ok (d_serial (reset_devs input)).
Proof. by split. Qed.

Lemma reset_keyboard_ok input : keyboard_ok (d_keyboard (reset_devs input)).
Proof. by split. Qed.

(** Two bytes arrive from the terminal; the first is delivered, the second stays. *)
Lemma serial_port_is_queue_witness :
  exists b' d', serial_io_handler true 0 1 false (fun _ => 0, reset_devs [[65; 66]; [67]]) = Ok (b', d') /\
    rx_queue (d_serial d') = [66] /\ b' 0 = 65 /\ b' (0 + 5) = 0x21 /\ stdin (d_serial d') = [[67]].
Proof.
  destruct (serial_port_is_queue true (reset_devs [[65; 66]; [67]]) (fun _ => 0) (reset_serial_ok _))
    as ((b' & d' & E & _ & Eq & Eb & El & Es) & _ & _).
  exists b', d'. split; [exact E |]. split; [exact Eq |]. split; [exact Eb |]. split; [exact El | exact Es].
Defined.

Lemma keyboard_is_queue_witness :
  exists k', key_enqueue 0x8001 (d_keyboard (reset_devs [])) = Ok k' /\ key_events k' = [0x8001].
Proof.
  destruct (keyboard_is_queue (reset_devs []) (fun _ => 0) 0x8001 4 (reset_keyboard_ok _)) as (H & _ & _).
  change (exists k', key_enqueue 0x8001 (d_keyboard (reset_devs [])) = Ok k' /\ keyboard_ok k' /\
    key_events k' = [0x8001]) in H.
  destruct H as (k' & E & _ & Eq). by exists k'.
Defined.

Definition sample_card : io_state devs :=
  IoState (fun _ => 0) 0x1000 [] [] false
    (set_sdcard (Sdcard 0 (Some (Image (fun _ => 0) 4096 0)) 0 0 0 false false) (reset_devs [])).
Definition sample_card_map : IOMap devs := MkIOMap "sdhci" 0xa3000000 0xa300007f 0 (Some sdcard_io_handler).

Lemma sdcard_write_read_witness :
  exists st1 st2 f',
    (st0 ← sd_command (default_config true) sample_card_map 25 3 sample_card;
     sd_put (default_config true) sample_card_map [0xdeadbeef; 7] st0) = Ok st1 /\ card st1 = Some f' /\
    (forall x, ~ (512 * 3 <= x < 512 * 3 + 4 * 2) -> img_bytes f' x = 0) /\
    (st0 ← sd_command (default_config true) sample_card_map 18 3 st1;
     sd_get (default_config true) sample_card_map 2 st0) = Ok ([0xdeadbeef; 7], st2).
Proof.
  apply (sdcard_write_read (default_config true) sample_card_map sample_card (Image (fun _ => 0) 4096 0) 3
    [0xdeadbeef; 7]).
  - by split.
  - done.
  - by intros x.
  - by split.
  - by repeat constructor.
Defined.

Lemma audio_buffer_accounting_witness :
  exists d', audio_buf_io_handler default_dev_config 0 4 true (fun _ => 0, reset_devs []) = Ok (fun _ => 0, d') /\
    sbuf_data_count default_dev_config (d_audio d') = 4.
Proof.
  destruct (audio_buffer_accounting default_dev_config (fun _ => 0) (reset_devs []) (Audio 0 0 0 0 []) 4)
    as (_ & H & _); cbn; try lia; try done.
  destruct H as (d' & E & Ec & _); [cbn; lia |]. exists d'. split; [exact E | exact Ec].
Defined.

Lemma init_device_tables_witness :
  (forall st, init_device (default_config true) default_dev_config (fun _ => 0) None (reset_io []) = Ok st ->
     tables_ok st) /\
  is_ok (init_device (default_config true) default_dev_config (fun _ => 0) None (reset_io [])) = true.
Proof.
  destruct (init_device_tables (default_config true) default_dev_config (default_windows_ok true)
    (fun _ => 0) None []) as [H1 H2].
  split; [intros st E; by destruct (H1 st E) |]. specialize (H2 true). by destruct (init_device _ _ _ _ _).
Defined.

(** What the terminal shows after the guest stored a byte at address [a]. *)
Definition printed (soc : bool) (a : Z) : option (list Z) :=
  match init_device (default_config soc) default_dev_config (fun _ => 0) None (reset_io []) with
  | Ok io =>
      match @paddr_write (default_config soc) _ (io_bus (default_config soc)) a 1 72
              (Memory (fun _ _ => 0) None, io) with
      | Ok (_, io) => Some (output (d_serial (devices io)))
      | Fault _ => None
      end
  | Fault _ => None
  end.

(** The serial port and, on the chip, its alias; elsewhere on the bus the store stops the emulator. *)
Example serial_store_prints :
  printed false 0xa00003f8 = Some [72] /\ printed true 0x10000000 = Some [72] /\ printed false 0xa0000400 = None.
Proof. vm_compute. done. Qed.
