(* ===== verification/Cpu.v ===== *)
(** The processor of the emulator: instruction dispatch, the control and status
    registers, traps, the custom instructions, and the execution loop
    (nemu/src/isa/riscv32/inst.c, reg.c, init.c, system/intr.c, include/isa-def.h,
    local-include/reg.h, src/engine/interpreter/hostcall.c, src/cpu/cpu-exec.c,
    src/monitor/sdb/sdb.c, include/cpu/ifetch.h, include/cpu/decode.h).

    Two things that the source uses are generated by its build and are parameters here:
    the numeric encoding of the standard instructions and registers ([encoding]) and the
    interpreter of the standard instructions ([execute_instruction]).  Profiling is off. *)

From S2P Require Import Prelude Crc NumericDfa Matrix ListKernel Memory IoMap Devices.

(** ** State *)

(** [gpr] has 32 elements, or 16 in the embedded base. *)
Record CPU_state := CpuState { gpr : list Z; pc : Z; fpr : list (Z * Z); fcsr : Z }.

Record csr_file := CsrFile {
  g_csr_MCAUSE : Z; g_csr_MEPC : Z; g_csr_MTVAL : Z; g_csr_MVENDORID : Z;
  g_csr_MARCHID : Z; g_csr_MSTATUS : Z; g_csr_MSCRATCH : Z; g_csr_MTVEC : Z }.

Definition initial_csrs : csr_file := CsrFile 0 0 0 0x79737978 25100261 0x1800 0x1800 0.

Record NEMUState := NemuState { state : run_state; halt_pc : Z; halt_ret : Z }.

(** Counters and the optional traces of branches and instruction addresses. *)
Record traces := Traces {
  g_nbranches : Z;
  g_btrace_pack : option (list (Z * Z * Z));
  g_itrace_pack : option (list Z);
  g_nr_guest_inst : Z }.

Record machine (D : Type) := Machine {
  cpu : CPU_state;
  csrs : csr_file;
  dfa : numeric_dfa;
  list_reverse_previous : Z;
  guest : memory * D;
  nemu_state : NEMUState;
  sdb_inited : bool;
  tr : traces }.
Arguments Machine {D}. Arguments cpu {D}. Arguments csrs {D}. Arguments dfa {D}.
Arguments list_reverse_previous {D}. Arguments guest {D}. Arguments nemu_state {D}.
Arguments sdb_inited {D}. Arguments tr {D}.

Section setters.
Context {D : Type}.
Implicit Types m : machine D.
Definition set_cpu (c : CPU_state) m : machine D :=
  Machine c (csrs m) (dfa m) (list_reverse_previous m) (guest m) (nemu_state m) (sdb_inited m) (tr m).
Definition set_csrs (c : csr_file) m : machine D :=
  Machine (cpu m) c (dfa m) (list_reverse_previous m) (guest m) (nemu_state m) (sdb_inited m) (tr m).
Definition set_dfa (d : numeric_dfa) m : machine D :=
  Machine (cpu m) (csrs m) d (list_reverse_previous m) (guest m) (nemu_state m) (sdb_inited m) (tr m).
Definition set_previous (p : Z) m : machine D :=
  Machine (cpu m) (csrs m) (dfa m) p (guest m) (nemu_state m) (sdb_inited m) (tr m).
Definition set_guest (g : memory * D) m : machine D :=
  Machine (cpu m) (csrs m) (dfa m) (list_reverse_previous m) g (nemu_state m) (sdb_inited m) (tr m).
Definition set_nemu (s : NEMUState) m : machine D :=
  Machine (cpu m) (csrs m) (dfa m) (list_reverse_previous m) (guest m) s (sdb_inited m) (tr m).
Definition set_traces (t : traces) m : machine D :=
  Machine (cpu m) (csrs m) (dfa m) (list_reverse_previous m) (guest m) (nemu_state m) (sdb_inited m) t.
Definition set_gpr (r : list Z) m : machine D := set_cpu (CpuState r (pc (cpu m)) (fpr (cpu m)) (fcsr (cpu m))) m.
Definition set_fcsr (f : Z) m : machine D := set_cpu (CpuState (gpr (cpu m)) (pc (cpu m)) (fpr (cpu m)) f) m.
Definition set_pc (p : Z) m : machine D := set_cpu (CpuState (gpr (cpu m)) p (fpr (cpu m)) (fcsr (cpu m))) m.
End setters.

(** ** Encoding *)

(** The instructions that [decode_exec] executes itself, in the order of its tests. *)
Inductive instr :=
| CSRRW | CSRRS | CSRRC | CSRRWI | CSRRSI | CSRRCI | EBREAK | ECALL | MRET
| XACCEL_CRCU8 | XACCEL_CRCU16 | XACCEL_CRCU32 | XACCEL_XMAC16 | XACCEL_XDOT16 | XACCEL_XBMUL
| XACCEL_XLISTREV_INIT | XACCEL_XLISTREV_LOOP | XACCEL_XMSUM
| XACCEL_XDFACNT_INIT | XACCEL_XDFACNT_INC | XACCEL_XDFACNT_READ | XACCEL_XDFACNT_COMMIT
| XACCEL_XDFA2_STEP | XACCEL_XDFA4_STEP | XACCEL_XDFA4H_FINAL_READ | XACCEL_XDFA4H_STEP.
#[export] Instance instr_eq_dec : EqDecision instr.
Proof. solve_decision. Defined.

Inductive csr_name :=
| FFLAGS | FRM | FCSR | MCAUSE | MEPC | MTVAL | MSTATUS | MTVEC | MVENDORID | MARCHID | MSCRATCH.
#[export] Instance csr_name_eq_dec : EqDecision csr_name.
Proof. solve_decision. Defined.

Inductive std_inst :=
| S_CSRRW | S_CSRRS | S_CSRRC | S_CSRRWI | S_CSRRSI | S_CSRRCI | S_EBREAK | S_ECALL | S_MRET | S_JAL | S_JALR.

(** The constants of the generated header. *)
Record encoding := Encoding {
  STD_MATCH : std_inst -> Z;
  STD_MASK : std_inst -> Z;
  CSR_ : csr_name -> Z;
  INSN_FIELD_RD : Z;
  INSN_FIELD_RS1 : Z;
  INSN_FIELD_RS2 : Z;
  CAUSE_ILLEGAL_INSTRUCTION : Z;
  CAUSE_MACHINE_ECALL : Z }.

Definition MASK_XACCEL : Z := 0xfe00707f.

Definition MATCH_XACCEL (i : instr) : Z :=
  match i with
  | XACCEL_CRCU8 => 0x0000000b
  | XACCEL_CRCU16 => 0x0000100b
  | XACCEL_CRCU32 => 0x0000200b
  | XACCEL_XMAC16 => 0x0000300b
  | XACCEL_XDOT16 => 0x0000400b
  | XACCEL_XBMUL => 0x0000500b
  | XACCEL_XLISTREV_INIT => 0x0000600b
  | XACCEL_XLISTREV_LOOP => 0x0400600b
  | XACCEL_XMSUM => 0x0400700b
  | XACCEL_XDFACNT_INIT => 0x0000005b
  | XACCEL_XDFACNT_INC => 0x0000105b
  | XACCEL_XDFACNT_READ => 0x0000205b
  | XACCEL_XDFACNT_COMMIT => 0x0000305b
  | XACCEL_XDFA2_STEP => 0x0000405b
  | XACCEL_XDFA4_STEP => 0x0000505b
  | XACCEL_XDFA4H_FINAL_READ => 0x0200205b
  | XACCEL_XDFA4H_STEP => 0x0200505b
  | _ => 0
  end.

Definition csr_instrs : list (instr * std_inst) :=
  [(CSRRW, S_CSRRW); (CSRRS, S_CSRRS); (CSRRC, S_CSRRC);
   (CSRRWI, S_CSRRWI); (CSRRSI, S_CSRRSI); (CSRRCI, S_CSRRCI)].
Definition system_instrs : list (instr * std_inst) :=
  [(EBREAK, S_EBREAK); (ECALL, S_ECALL); (MRET, S_MRET)].
Definition xaccel_instrs : list instr :=
  [XACCEL_CRCU8; XACCEL_CRCU16; XACCEL_CRCU32; XACCEL_XMAC16; XACCEL_XDOT16; XACCEL_XBMUL;
   XACCEL_XLISTREV_INIT; XACCEL_XLISTREV_LOOP; XACCEL_XMSUM;
   XACCEL_XDFACNT_INIT; XACCEL_XDFACNT_INC; XACCEL_XDFACNT_READ; XACCEL_XDFACNT_COMMIT;
   XACCEL_XDFA2_STEP; XACCEL_XDFA4_STEP; XACCEL_XDFA4H_FINAL_READ; XACCEL_XDFA4H_STEP].

(** [BITS(x, hi, lo)] *)
Definition BITS (x hi lo : Z) : Z := (x >>> lo) &&& Z.ones (hi - lo + 1).

(** The polling of the devices after each instruction may change the run state. *)
Class DevicePoll (D : Type) := device_poll : run_state -> D -> res (run_state * D).

Section cpu.
Context (cfg : config) (enc : encoding) {D : Type} `{!MmioBus D} `{!DevicePoll D}.
Context (execute_instruction : Z -> Z -> machine D -> res (Z * Z * machine D)).
Implicit Types m : machine D.

(** ** Registers and memory *)

(** [R(i)]: an index outside the register file fails the assertion of [check_reg_idx]. *)
Definition reg_fault : fault := if CONFIG_RT_CHECK cfg then FAssert else FUndef.
Definition get_R m (i : Z) : res Z :=
  if (0 <=? i) && (i <? Z.of_nat (length (gpr (cpu m)))) then Ok (aget 0 (gpr (cpu m)) i) else Fault reg_fault.
Definition set_R (i v : Z) m : res (machine D) :=
  if (0 <=? i) && (i <? Z.of_nat (length (gpr (cpu m)))) then Ok (set_gpr (aset (gpr (cpu m)) i (u32 v)) m)
  else Fault reg_fault.

Definition guest_read (addr len : Z) m : res (Z * machine D) :=
  '(v, g) ← vaddr_read cfg addr len (guest m); Ok (v, set_guest g m).
Definition guest_write (addr len v : Z) m : res (machine D) :=
  g ← vaddr_write cfg addr len v (guest m); Ok (set_guest g m).

Definition inst_fetch (p len : Z) m : res (Z * Z * machine D) :=
  '(inst, g) ← vaddr_ifetch cfg p len (guest m);
  Ok (u32 inst, u32 (p + len), set_guest g m).

(** ** Stopping *)

Definition set_nemu_state (s : run_state) (p ret : Z) m : machine D :=
  if sdb_inited m then set_nemu (NemuState s p (u32 ret)) m else m.

(** Two instruction words are fetched for the message. *)
Definition invalid_inst (thispc : Z) m : res (machine D) :=
  '(_, p, m) ← inst_fetch thispc 4 m;
  '(_, p, m) ← inst_fetch p 4 m;
  Ok (set_nemu_state NEMU_ABORT thispc (-1) m).

(** ** Control and status registers *)

Definition riscv_fp_enabled m : bool := negb (BITS (g_csr_MSTATUS (csrs m)) 14 13 =? 0).

Definition with_mstatus (v : Z) (c : csr_file) : csr_file :=
  CsrFile (g_csr_MCAUSE c) (g_csr_MEPC c) (g_csr_MTVAL c) (g_csr_MVENDORID c) (g_csr_MARCHID c) v
    (g_csr_MSCRATCH c) (g_csr_MTVEC c).

Definition riscv_fp_mark_dirty m : machine D :=
  set_csrs (with_mstatus ((g_csr_MSTATUS (csrs m) &&& not32 (3 <<< 13)) ||| (3 <<< 13)) (csrs m)) m.

(** The plain registers of the [switch]. *)
Definition read_plain (n : csr_name) (c : csr_file) : option Z :=
  match n with
  | MCAUSE => Some (g_csr_MCAUSE c) | MEPC => Some (g_csr_MEPC c) | MTVAL => Some (g_csr_MTVAL c)
  | MSTATUS => Some (g_csr_MSTATUS c) | MTVEC => Some (g_csr_MTVEC c)
  | MVENDORID => Some (g_csr_MVENDORID c) | MARCHID => Some (g_csr_MARCHID c)
  | MSCRATCH => Some (g_csr_MSCRATCH c) | _ => None
  end.
Definition write_plain (n : csr_name) (v : Z) (c : csr_file) : csr_file :=
  let '(CsrFile cause epc tval vendor arch status scratch tvec) := c in
  match n with
  | MCAUSE => CsrFile v epc tval vendor arch status scratch tvec
  | MEPC => CsrFile cause v tval vendor arch status scratch tvec
  | MTVAL => CsrFile cause epc v vendor arch status scratch tvec
  | MSTATUS => CsrFile cause epc tval vendor arch v scratch tvec
  | MTVEC => CsrFile cause epc tval vendor arch status scratch v
  | MVENDORID => CsrFile cause epc tval v arch status scratch tvec
  | MARCHID => CsrFile cause epc tval vendor v status scratch tvec
  | MSCRATCH => CsrFile cause epc tval vendor arch status v tvec
  | _ => c
  end.
Definition plain_csrs : list csr_name := [MCAUSE; MEPC; MTVAL; MSTATUS; MTVEC; MVENDORID; MARCHID; MSCRATCH].

Definition _handle_csr_rw (csr src1 : Z) (is_write : bool) m : res (Z * machine D) :=
  let f := fcsr (cpu m) in
  if csr =? CSR_ enc FFLAGS then
    Ok (f &&& 0x1f,
        if is_write then riscv_fp_mark_dirty (set_fcsr ((f &&& not32 0x1f) ||| (src1 &&& 0x1f)) m) else m)
  else if csr =? CSR_ enc FRM then
    Ok ((f >>> 5) &&& 0x7,
        if is_write then riscv_fp_mark_dirty (set_fcsr ((f &&& not32 0xe0) ||| ((src1 &&& 0x7) <<< 5)) m) else m)
  else if csr =? CSR_ enc FCSR then
    Ok (f, if is_write then riscv_fp_mark_dirty (set_fcsr (src1 &&& 0xff) m) else m)
  else
    match find (fun n => csr =? CSR_ enc n) plain_csrs with
    | Some n =>
        Ok (default 0 (read_plain n (csrs m)),
            if is_write then set_csrs (write_plain n src1 (csrs m)) m else m)
    | None => Fault FPanic
    end.

Definition _csr_read (csr : Z) m : res Z := fst <$> _handle_csr_rw csr 0 false m.
Definition _csr_write (csr src1 : Z) m : res (machine D) := snd <$> _handle_csr_rw csr src1 true m.

Definition isa_raise_intr m : Z := g_csr_MTVEC (csrs m).

Definition riscv_raise_illegal_instruction (instruction p : Z) m : Z * machine D :=
  let m := set_csrs (write_plain MTVAL instruction
             (write_plain MCAUSE (CAUSE_ILLEGAL_INSTRUCTION enc) (write_plain MEPC p (csrs m)))) m in
  (isa_raise_intr m, m).

(** ** The instructions executed here *)

(** The loop of [matrix_clipped_sum] over guest memory: [n] elements are left, [i] is the index. *)
Fixpoint clipped_sum_loop (n : nat) (i data clip : Z) (st : Z * Z * Z) m : res (Z * Z * Z * machine D) :=
  match n with
  | O => Ok (st, m)
  | S n =>
      '(cur, m) ← guest_read (u32 (data + i * 4)) 4 m;
      clipped_sum_loop n (i + 1) data clip (clipped_sum_step clip (s32 cur) st) m
  end.
Definition exec_clipped_sum (data config : Z) m : res (Z * machine D) :=
  '(_, _, ret, m) ← clipped_sum_loop (Z.to_nat (u64 ((config >>> 16) * (config >>> 16)))) 0 data
                      (s16 (config &&& 0xffff)) (0, 0, 0) m;
  Ok (u32 ret, m).

(** One [IS_INST] body: the next pc and the machine. *)
Definition exec_instr (i : instr) (inst p dnpc : Z) m : res (Z * machine D) :=
  let csr_addr := BITS inst 31 20 in
  let csr_uimm := BITS inst 19 15 in
  let rd := (inst &&& INSN_FIELD_RD enc) >>> 7 in
  let rs1 := (inst &&& INSN_FIELD_RS1 enc) >>> 15 in
  let rs2 := (inst &&& INSN_FIELD_RS2 enc) >>> 20 in
  let csr_swap src1 :=
    m ← (if negb (rd =? 0) then old ← _csr_read csr_addr m; set_R rd old m else Ok m);
    m ← _csr_write csr_addr src1 m; Ok (dnpc, m) in
  let csr_modify f src1 :=
    old ← _csr_read csr_addr m;
    src1 ← src1; m ← set_R rd old m;
    m ← _csr_write csr_addr (f old src1) m; Ok (dnpc, m) in
  let result2 f := a ← get_R m rs1; b ← get_R m rs2; m ← set_R rd (f a b) m; Ok (dnpc, m) in
  let dfa_word f :=
    address ← get_R m rs2;
    '(w, m) ← guest_read (address &&& not32 3) 4 m;
    st ← get_R m rs1;
    f m w st address in
  match i with
  | CSRRW => src1 ← get_R m rs1; csr_swap src1
  | CSRRS => csr_modify Z.lor (get_R m rs1)
  | CSRRC => csr_modify (fun old src1 => old &&& not32 src1) (get_R m rs1)
  | CSRRWI => csr_swap csr_uimm
  | CSRRSI => csr_modify Z.lor (Ok csr_uimm)
  | CSRRCI => csr_modify (fun old src1 => old &&& not32 src1) (Ok csr_uimm)
  | EBREAK => a0 ← get_R m 10; Ok (dnpc, set_nemu_state NEMU_END p a0 m)
  | ECALL =>
      m ← _csr_write (CSR_ enc MEPC) p m;
      m ← _csr_write (CSR_ enc MCAUSE) (CAUSE_MACHINE_ECALL enc) m;
      Ok (isa_raise_intr m, m)
  | MRET => epc ← _csr_read (CSR_ enc MEPC) m; Ok (epc, m)
  | XACCEL_CRCU8 => result2 (fun a b => crc_update a b 1)
  | XACCEL_CRCU16 => result2 (fun a b => crc_update a b 2)
  | XACCEL_CRCU32 => result2 (fun a b => crc_update a b 4)
  | XACCEL_XMAC16 => d ← get_R m rd; result2 (xaccel_xmac16 d)
  | XACCEL_XDOT16 => result2 xaccel_xdot16
  | XACCEL_XBMUL => value ← get_R m rs1; m ← set_R rd (xaccel_xbmul value) m; Ok (dnpc, m)
  | XACCEL_XLISTREV_INIT =>
      current ← get_R m rs1;
      '(v, m) ← guest_read current 4 m;
      m ← set_R rd v m;
      m ← guest_write current 4 0 m;
      Ok (dnpc, set_previous current m)
  | XACCEL_XLISTREV_LOOP =>
      current ← get_R m rs1;
      if current =? 0 then m ← set_R rd (list_reverse_previous m) m; Ok (dnpc, m)
      else
        '(nxt, m) ← guest_read current 4 m;
        m ← guest_write current 4 (list_reverse_previous m) m;
        let m := set_previous current m in
        if negb (nxt =? 0) then m ← set_R rd nxt m; Ok (p, m)
        else m ← set_R rd current m; Ok (dnpc, m)
  | XACCEL_XMSUM =>
      data ← get_R m rs1; config ← get_R m rs2;
      '(v, m) ← exec_clipped_sum data config m;
      m ← set_R rd v m; Ok (dnpc, m)
  | XACCEL_XDFACNT_INIT => Ok (dnpc, set_dfa (xdfacnt_init (dfa m)) m)
  | XACCEL_XDFACNT_INC => st ← get_R m rs1; Ok (dnpc, set_dfa (xdfacnt_inc st (dfa m)) m)
  | XACCEL_XDFACNT_READ => st ← get_R m rs1; m ← set_R rd (xdfacnt_read st (dfa m)) m; Ok (dnpc, m)
  | XACCEL_XDFACNT_COMMIT => mask ← get_R m rs1; Ok (dnpc, set_dfa (xdfacnt_commit mask (dfa m)) m)
  | XACCEL_XDFA2_STEP =>
      dfa_word (fun m w st address => m ← set_R rd (xdfa2_step (fun _ => w) st address) m; Ok (dnpc, m))
  | XACCEL_XDFA4_STEP =>
      dfa_word (fun m w st address => m ← set_R rd (xdfa4_step (fun _ => w) st address) m; Ok (dnpc, m))
  | XACCEL_XDFA4H_FINAL_READ =>
      st ← get_R m rs1; m ← set_R rd (xdfa4h_final_read st (dfa m)) m; Ok (dnpc, m)
  | XACCEL_XDFA4H_STEP =>
      dfa_word (fun m w st address =>
        let '(result, d) := xdfa4h_step (fun _ => w) st address (dfa m) in
        m ← set_R rd result (set_dfa d m); Ok (dnpc, m))
  end.

(** ** Decoding *)

(** [_NOCHK_IS_INST] *)
Definition is_std (inst : Z) (i : std_inst) : bool := (inst &&& STD_MASK enc i) =? STD_MATCH enc i.
Definition is_xaccel (inst : Z) (i : instr) : bool := (inst &&& MASK_XACCEL) =? MATCH_XACCEL i.
Definition is_branch (inst : Z) : bool := (inst &&& 0x7f) =? 0x63.

Definition FENCE_I : Z := 0x100f.

Definition local_csr_inst (inst : Z) : bool := existsb (fun x => is_std inst x.2) csr_instrs.
Definition local_system_inst (inst : Z) : bool :=
  local_csr_inst inst || existsb (fun x => is_std inst x.2) system_instrs || (inst =? FENCE_I).

(** The first test that succeeds. *)
Definition find_instr (inst : Z) : option instr :=
  match find (fun x => is_std inst x.2) (csr_instrs ++ system_instrs) with
  | Some x => Some x.1
  | None => find (is_xaccel inst) xaccel_instrs
  end.

Definition record_branch (p inst dnpc : Z) m : machine D :=
  if is_branch inst || is_std inst S_JALR || is_std inst S_JAL then
    let t := tr m in
    set_traces (Traces (u64 (g_nbranches t + 1))
      ((fun l => l ++ [(p, inst, dnpc)]) <$> g_btrace_pack t) (g_itrace_pack t) (g_nr_guest_inst t)) m
  else m.

(** The next pc and the machine after the instruction [inst] at [p]. *)
Definition decode_exec (inst p snpc : Z) m : res (Z * machine D) :=
  let dnpc := snpc in
  let csr_addr := BITS inst 31 20 in
  '(matched, dnpc, m) ←
    (if negb (local_system_inst inst) then
       '(ret, tmp, m) ← execute_instruction inst p m;
       Ok (ret =? 0, if ret =? 0 then tmp else dnpc, m)
     else Ok (false, dnpc, m));
  let matched := matched || (inst =? FENCE_I) in
  let m := record_branch p inst dnpc m in
  let fp_csr := (csr_addr =? CSR_ enc FFLAGS) || (csr_addr =? CSR_ enc FRM) || (csr_addr =? CSR_ enc FCSR) in
  '(dnpc, m) ←
    (if matched then Ok (dnpc, m)
     else if local_csr_inst inst && fp_csr && negb (riscv_fp_enabled m) then
       Ok (riscv_raise_illegal_instruction inst p m)
     else
       match find_instr inst with
       | Some i => exec_instr i inst p dnpc m
       | None => m ← invalid_inst p m; Ok (dnpc, m)
       end);
  m ← set_R 0 0 m;
  Ok (dnpc, m).

Definition isa_exec_once (p : Z) m : res (Z * machine D) :=
  '(inst, snpc, m) ← inst_fetch p 4 m;
  let t := tr m in
  let m :=
    if isSoC cfg then
      set_traces (Traces (g_nbranches t) (g_btrace_pack t)
        ((fun l => l ++ [p]) <$> g_itrace_pack t) (g_nr_guest_inst t)) m
    else m in
  decode_exec inst p snpc m.

(** ** cpu-exec.c *)

Definition exec_once (p : Z) m : res (machine D) :=
  '(dnpc, m) ← isa_exec_once p m;
  Ok (set_pc (u32 dnpc) m).

Definition count_inst m : machine D :=
  let t := tr m in
  set_traces (Traces (g_nbranches t) (g_btrace_pack t) (g_itrace_pack t) (u64 (g_nr_guest_inst t + 1))) m.

Definition with_state (s : run_state) m : machine D :=
  set_nemu (NemuState s (halt_pc (nemu_state m)) (halt_ret (nemu_state m))) m.

Definition poll_devices m : res (machine D) :=
  if CONFIG_DEVICE cfg then
    let '(mem, d) := guest m in
    '(s, d) ← device_poll (state (nemu_state m)) d;
    Ok (with_state s (set_guest (mem, d) m))
  else Ok m.

(** [for (; n > 0; n--)] *)
Fixpoint execute (n : nat) m : res (machine D) :=
  match n with
  | O => Ok m
  | S n =>
      m ← exec_once (pc (cpu m)) m;
      let m := count_inst m in
      if negb (bool_decide (state (nemu_state m) = NEMU_RUNNING)) then Ok m
      else m ← poll_devices m; execute n m
  end.

Definition cpu_exec (n : nat) m : res (machine D) :=
  match state (nemu_state m) with
  | NEMU_END | NEMU_ABORT | NEMU_QUIT => Ok m
  | _ =>
      m ← execute n (with_state NEMU_RUNNING m);
      Ok (match state (nemu_state m) with NEMU_RUNNING => with_state NEMU_STOP m | _ => m end)
  end.

(** [is_exit_status_bad] of utils/state.c *)
Definition is_exit_status_bad m : bool :=
  let s := nemu_state m in
  negb ((bool_decide (state s = NEMU_END) && (halt_ret s =? 0)) || bool_decide (state s = NEMU_QUIT)).

(** ** init.c *)

Definition img : list Z := [0x00000297; 0x00028823; 0x0102c503; 0x00100073; 0xdeadbeef].

Definition restart m : machine D :=
  set_cpu (CpuState (aset (gpr (cpu m)) 0 0) (reset_vector cfg) (replicate 32 (0, 0)) 0) m.

(** [memcpy(guest_to_host(RESET_VECTOR), img, sizeof(img))] *)
Fixpoint load_words (ws : list Z) (haddr : region * Z) (mem : memory) : res memory :=
  match ws with
  | [] => Ok mem
  | w :: ws => mem ← host_write cfg mem haddr 4 w; load_words ws (haddr.1, haddr.2 + 4) mem
  end.
Definition init_isa m : res (machine D) :=
  match guest_to_host cfg (reset_vector cfg) with
  | None => Fault FUndef
  | Some h => mem ← load_words img h (guest m).1; Ok (restart (set_guest (mem, (guest m).2) m))
  end.
End cpu.

(** ** The well-formed machine *)

Section invariant.
Context (cfg : config) (enc : encoding) {D : Type} `{!MmioBus D} `{!DevicePoll D}.
Context (execute_instruction : Z -> Z -> machine D -> res (Z * Z * machine D)).
Implicit Types m : machine D.

Definition word32 (z : Z) : Prop := in_range 32 z.

Definition csr_list (c : csr_file) : list Z :=
  [g_csr_MCAUSE c; g_csr_MEPC c; g_csr_MTVAL c; g_csr_MVENDORID c; g_csr_MARCHID c; g_csr_MSTATUS c;
   g_csr_MSCRATCH c; g_csr_MTVEC c].

(** Every register has its width and the register files their length; register 0 is
    left out. *)
Record core_ok m : Prop := {
  ck_len : length (gpr (cpu m)) = 32%nat;
  ck_gpr : Forall word32 (gpr (cpu m));
  ck_pc : word32 (pc (cpu m));
  ck_fcsr : word32 (fcsr (cpu m));
  ck_csrs : Forall word32 (csr_list (csrs m));
  ck_prev : word32 (list_reverse_previous m);
  ck_dfa : length (transition_counts (dfa m)) = 8%nat /\ length (final_counts (dfa m)) = 8%nat }.

Definition machine_ok m : Prop := core_ok m /\ aget 0 (gpr (cpu m)) 0 = 0.

Lemma get_R_word m i v : core_ok m -> get_R cfg m i = Ok v -> word32 v.
Proof.
  intros [Hl Hg _ _ _ _ _]. unfold get_R. destruct (_ && _); [| done]. intros [= <-].
  by apply aget_Forall.
Qed.

Lemma set_R_core m m' i v : core_ok m -> set_R cfg i v m = Ok m' -> core_ok m'.
Proof.
  intros [Hl Hg Hp Hf Hc Hv Hd]. unfold set_R. destruct (_ && _); [| done]. intros [= <-].
  split; try done; cbn.
  - by rewrite length_aset.
  - apply aset_Forall; [| done]. unfold word32. auto with cint.
Qed.

Lemma guest_read_core m m' a len v : core_ok m -> guest_read cfg a len m = Ok (v, m') -> core_ok m'.
Proof.
  intros [] E. unfold guest_read in E. apply bind_ok in E as ([w g] & _ & [= _ <-]). by split.
Qed.

Lemma guest_write_core m m' a len v : core_ok m -> guest_write cfg a len v m = Ok m' -> core_ok m'.
Proof. intros [] E. unfold guest_write in E. apply bind_ok in E as (g & _ & [= <-]). by split. Qed.

Lemma inst_fetch_core m m' a len i s :
  core_ok m -> inst_fetch cfg a len m = Ok (i, s, m') -> core_ok m' /\ word32 i /\ word32 s.
Proof.
  intros [] E. unfold inst_fetch in E. apply bind_ok in E as ([w g] & _ & [= <- <- <-]).
  split; [by split | unfold word32; auto with cint].
Qed.

Lemma set_nemu_state_core m s p r : core_ok m -> core_ok (set_nemu_state s p r m).
Proof. intros []. unfold set_nemu_state. destruct (sdb_inited m); by split. Qed.

Lemma write_plain_words n v c :
  word32 v -> Forall word32 (csr_list c) -> Forall word32 (csr_list (write_plain n v c)).
Proof.
  intros Hv Hc. destruct c. unfold csr_list in *. cbn in Hc. repeat (apply Forall_cons in Hc as [? Hc]).
  destruct n; cbn; by repeat first [apply Forall_nil_2 | apply Forall_cons_2].
Qed.

Lemma not32_word a : word32 (not32 a).
Proof. unfold word32, not32. auto with cint. Qed.

Lemma land_word a b : word32 a -> word32 b -> word32 (a &&& b).
Proof. unfold word32. intros. apply land_range; unfold in_range in *; lia. Qed.

Lemma lor_word a b : word32 a -> word32 b -> word32 (a ||| b).
Proof. unfold word32. intros. apply lor_range; unfold in_range in *; lia. Qed.

Lemma mark_dirty_core m : core_ok m -> core_ok (riscv_fp_mark_dirty m).
Proof.
  intros [Hl Hg Hp Hf Hc Hv Hd]. split; try done. cbn. unfold csr_list in *.
  repeat (apply Forall_cons in Hc as [? Hc]). repeat first [apply Forall_nil_2 | apply Forall_cons_2]; try done.
  apply lor_word; [apply land_word; [done | apply not32_word] | done].
Qed.

Lemma set_fcsr_core m f : core_ok m -> word32 f -> core_ok (set_fcsr f m).
Proof. intros [] ?. by split. Qed.

Lemma csr_rw_core m m' csr src w old :
  core_ok m -> word32 src -> _handle_csr_rw enc csr src w m = Ok (old, m') -> core_ok m' /\ word32 old.
Proof.
  intros Hm Hs. pose proof Hm as [Hl Hg Hp Hf Hc Hv Hd]. unfold _handle_csr_rw.
  assert (forall k, in_range 32 k -> word32 (fcsr (cpu m) &&& k)) as Hk by (intros; by apply land_word).
  assert (word32 ((src &&& 7) <<< 5)) as Hs5.
  { assert (in_range 3 (src &&& 7)) by (apply land_range; unfold word32, in_range in *; lia).
    unfold word32, in_range in *. rewrite Z.shiftl_mul_pow2 by lia. lia. }
  destruct (csr =? CSR_ enc FFLAGS); [| destruct (csr =? CSR_ enc FRM); [| destruct (csr =? CSR_ enc FCSR)]].
  - intros [= <- <-]. split; [| by apply Hk]. destruct w; [| done].
    apply mark_dirty_core, set_fcsr_core; [done |]. apply lor_word; [apply Hk, not32_word | by apply land_word].
  - intros [= <- <-]. split.
    + destruct w; [| done]. apply mark_dirty_core, set_fcsr_core; [done |].
      apply lor_word; [apply Hk, not32_word | done].
    + apply land_word; [| done]. unfold word32. apply shiftr_range; [lia | done].
  - intros [= <- <-]. split; [| done]. destruct w; [| done].
    apply mark_dirty_core, set_fcsr_core; [done |]. by apply land_word.
  - destruct (find _ plain_csrs) as [n |]; [| done]. intros [= <- <-]. split.
    + destruct w; [| done]. split; try done. by apply write_plain_words.
    + unfold csr_list in Hc. repeat (apply Forall_cons in Hc as [? Hc]). by destruct n.
Qed.

Lemma csr_read_word m csr v : core_ok m -> _csr_read enc csr m = Ok v -> word32 v.
Proof.
  intros Hm. unfold _csr_read. destruct (_handle_csr_rw enc csr 0 false m) as [[o m'] |] eqn:E; [| done].
  intros [= <-]. by eapply csr_rw_core in E as [_ ?].
Qed.

Lemma csr_write_core m m' csr v : core_ok m -> word32 v -> _csr_write enc csr v m = Ok m' -> core_ok m'.
Proof.
  intros Hm Hv. unfold _csr_write. destruct (_handle_csr_rw enc csr v true m) as [[o m1] |] eqn:E; [| done].
  intros [= <-]. by eapply csr_rw_core in E as [? _].
Qed.

Lemma count_length s cnt : length (count s cnt) = length cnt.
Proof. apply length_aset. Qed.

Lemma count_mask_length mask cnt : length (count_mask mask cnt) = length cnt.
Proof.
  unfold count_mask. apply (loop_inv (fun st => length st.2 = length cnt)); [| done].
  intros [k c] Hc. cbn in *. by destruct (negb _); rewrite ?count_length.
Qed.

Lemma set_dfa_core m d :
  core_ok m -> length (transition_counts d) = 8%nat -> length (final_counts d) = 8%nat -> core_ok (set_dfa d m).
Proof. intros [] ? ?. by split. Qed.

Lemma set_previous_core m p : core_ok m -> word32 p -> core_ok (set_previous p m).
Proof. intros [] ?. by split. Qed.

Lemma xdfa4h_lengths word st a d :
  length (transition_counts d) = 8%nat -> length (final_counts d) = 8%nat ->
  length (transition_counts (xdfa4h_step word st a d).2) = 8%nat /\
  length (final_counts (xdfa4h_step word st a d).2) = 8%nat.
Proof.
  intros H1 H2. unfold xdfa4h_step. cbn [snd]. destruct (negb _); cbn [transition_counts final_counts]; [| done].
  by rewrite count_mask_length, count_length.
Qed.

Lemma clipped_sum_core n i data clip st st' m m' :
  core_ok m -> clipped_sum_loop cfg n i data clip st m = Ok (st', m') -> core_ok m'.
Proof.
  revert i st m. induction n as [|n IH]; intros i st m Hm E; cbn in E; [by injection E as _ <- |].
  apply bind_ok in E as ([cur m1] & E1 & E). eapply IH; [| exact E]. by eapply guest_read_core.
Qed.

Lemma exec_clipped_sum_core data config m v m' :
  core_ok m -> exec_clipped_sum cfg data config m = Ok (v, m') -> core_ok m'.
Proof.
  intros Hm E. unfold exec_clipped_sum in E. apply bind_ok in E as ([[[t p] r] m1] & E & [= _ <-]).
  by eapply clipped_sum_core.
Qed.

(** Splits a computation that succeeded into its steps. *)
Ltac steps E :=
  repeat match type of E with
  | (_ ≫= _) = Ok _ =>
      let x := fresh "x" in let E1 := fresh "E" in
      apply bind_ok in E as (x & E1 & E); repeat match type of x with (_ * _)%type => destruct x as [x ?] end
  | Ok _ = Ok _ => injection E as <- <-
  | (if ?b then _ else _) = Ok _ => destruct b eqn:?
  | (let '(_, _) := ?x in _) = Ok _ => destruct x eqn:?
  end.

Lemma bits_word x hi lo : word32 x -> 0 <= lo -> lo <= hi -> word32 (BITS x hi lo).
Proof.
  intros Hx H0 H1. unfold BITS, word32. rewrite Z.land_comm. apply land_range; [lia | | by apply shiftr_range].
  rewrite Z.ones_equiv. pose proof (Z.pow_pos_nonneg 2 (hi - lo + 1)). lia.
Qed.

(** Carries [core_ok] forward through the steps of a computation. *)
Ltac word_side := solve [repeat first [assumption | apply lor_word | apply land_word | apply not32_word]].
Ltac core_fwd :=
  repeat match goal with
  | H : core_ok ?m, E : get_R _ ?m _ = Ok _ |- _ => apply (get_R_word _ _ _ H) in E
  | H : core_ok ?m, E : _csr_read _ _ ?m = Ok _ |- _ => apply (csr_read_word _ _ _ H) in E
  | H : core_ok ?m, E : set_R _ _ _ ?m = Ok _ |- _ => apply (set_R_core _ _ _ _ H) in E
  | H : core_ok ?m, E : guest_read _ _ _ ?m = Ok _ |- _ => apply (guest_read_core _ _ _ _ _ H) in E
  | H : core_ok ?m, E : guest_write _ _ _ _ ?m = Ok _ |- _ => apply (guest_write_core _ _ _ _ _ H) in E
  | H : core_ok ?m, E : exec_clipped_sum _ _ _ ?m = Ok _ |- _ => apply (exec_clipped_sum_core _ _ _ _ _ H) in E
  | H : core_ok ?m, E : _csr_write _ _ _ ?m = Ok _ |- _ => apply (csr_write_core _ _ _ _ H) in E; [| word_side]
  | H : core_ok ?m, E : context [set_previous ?p ?m] |- _ =>
      lazymatch goal with _ : core_ok (set_previous p m) |- _ => fail | _ => idtac end;
      assert (core_ok (set_previous p m)) by (by apply set_previous_core)
  end.

Lemma csr_swap_core (rd csr : Z) m m' :
  core_ok m ->
  (if negb (rd =? 0) then old ← _csr_read enc csr m; set_R cfg rd old m else Ok m) = Ok m' -> core_ok m'.
Proof. intros Hm E. destruct (negb _); [| congruence]. apply bind_ok in E as (o & _ & E). by core_fwd. Qed.

Lemma exec_instr_core i inst p dnpc m dnpc' m' :
  core_ok m -> word32 inst -> word32 p -> word32 (CAUSE_MACHINE_ECALL enc) ->
  exec_instr cfg enc i inst p dnpc m = Ok (dnpc', m') -> core_ok m'.
Proof.
  intros Hm Hi Hp Hcause E. pose proof Hm as [_ _ _ _ _ Hprev [Hd1 Hd2]].
  pose proof (bits_word inst 19 15 Hi ltac:(lia) ltac:(lia)) as Hu.
  destruct i; unfold exec_instr in E; steps E; try apply csr_swap_core in E1; try done;
    try (apply csr_swap_core in E0; [| done]);
    repeat match goal with H : Ok ?a = Ok ?x |- _ => injection H as <- end; core_fwd; try done.
  all: try (by apply set_nemu_state_core).
  all: try (by apply set_previous_core).
  all: try (by apply set_dfa_core; unfold xdfacnt_commit, xdfacnt_inc; try case_match;
              cbn [transition_counts final_counts]; rewrite ?count_mask_length, ?count_length).
  match goal with H : xdfa4h_step ?w ?a ?b (dfa ?m1) = (_, ?d), H1 : core_ok ?m1 |- _ =>
    pose proof (ck_dfa _ H1) as [Hl1 Hl2]; pose proof (xdfa4h_lengths w a b (dfa m1) Hl1 Hl2) as [Hk1 Hk2];
    rewrite H in Hk1, Hk2; pose proof (set_dfa_core m1 d H1 Hk1 Hk2) end.
  by core_fwd.
Qed.

(** What the processor relies on: the generated constants are words, and the generated
    interpreter keeps the machine well formed. *)
Context (Hcause : word32 (CAUSE_MACHINE_ECALL enc)) (Hillegal : word32 (CAUSE_ILLEGAL_INSTRUCTION enc)).
Context (Hexec : forall inst p m r tmp m',
  core_ok m -> execute_instruction inst p m = Ok (r, tmp, m') -> core_ok m').

Lemma record_branch_core p inst dnpc m : core_ok m -> core_ok (record_branch enc p inst dnpc m).
Proof. intros []. unfold record_branch. destruct (_ || _); by split. Qed.

Lemma illegal_core inst p m :
  core_ok m -> word32 inst -> word32 p -> core_ok (riscv_raise_illegal_instruction enc inst p m).2.
Proof. intros [] ? ?. split; try done. cbn [csrs set_csrs snd]. by repeat apply write_plain_words. Qed.

Lemma decode_exec_ok inst p snpc m dnpc m' :
  core_ok m -> word32 inst -> word32 p ->
  decode_exec cfg enc execute_instruction inst p snpc m = Ok (dnpc, m') -> machine_ok m'.
Proof.
  intros Hm Hi Hp E. unfold decode_exec in E.
  apply bind_ok in E as ([[matched d1] m1] & E1 & E). apply bind_ok in E as ([d2 m2] & E2 & E).
  apply bind_ok in E as (m3 & E3 & [= <- <-]).
  assert (core_ok m1) as Hm1.
  { destruct (negb (local_system_inst enc inst)); [| by injection E1 as _ _ <-].
    apply bind_ok in E1 as ([[r tmp] mx] & E1 & [= _ _ <-]). by eapply Hexec. }
  apply (record_branch_core p inst d1) in Hm1. revert E2 Hm1. generalize (record_branch enc p inst d1 m1) as mb.
  clear m1 E1. intros mb E2 Hmb.
  assert (core_ok m2) as Hm2.
  { destruct (_ || _); [by injection E2 as _ <- |]. destruct (_ && _).
    - pose proof (illegal_core inst p mb Hmb Hi Hp) as H. by injection E2 as _ <-.
    - destruct (find_instr enc inst) as [i |]; [by apply exec_instr_core in E2 |].
      apply bind_ok in E2 as (mi & E2 & [= _ <-]). unfold invalid_inst in E2.
      apply bind_ok in E2 as ([[? ?] ma] & Ea & E2). apply bind_ok in E2 as ([[? ?] mc] & Ec & [= <-]).
      apply inst_fetch_core in Ea as [Ha _]; [| done]. apply inst_fetch_core in Ec as [Hc _]; [| done].
      by apply set_nemu_state_core. }
  split; [by eapply set_R_core |]. unfold set_R in E3. destruct (_ && _); [| done]. injection E3 as <-.
  cbn. apply aget_aset_eq. rewrite (ck_len _ Hm2). lia.
Qed.

Lemma set_pc_core p m : core_ok m -> word32 p -> core_ok (set_pc p m).
Proof. intros [] ?. by split. Qed.

Lemma set_traces_core t m : core_ok m -> core_ok (set_traces t m).
Proof. intros []. by split. Qed.

Lemma exec_once_ok m m' :
  machine_ok m -> exec_once cfg enc execute_instruction (pc (cpu m)) m = Ok m' -> machine_ok m'.
Proof.
  intros [Hm _] E. unfold exec_once, isa_exec_once in E.
  apply bind_ok in E as ([dnpc m2] & E & [= <-]). apply bind_ok in E as ([[inst s] m1] & E1 & E).
  apply inst_fetch_core in E1 as (Hm1 & Hi & Hs); [| done].
  apply decode_exec_ok in E as [Hm2 H0]; [| by destruct (isSoC cfg); [apply set_traces_core |] | done | apply Hm].
  split; [| done]. apply set_pc_core; [done |]. unfold word32. auto with cint.
Qed.

Lemma with_state_ok s m : machine_ok m -> machine_ok (with_state s m).
Proof. intros [[] ?]. by split; [split |]. Qed.

Lemma execute_ok n m m' :
  machine_ok m -> execute cfg enc execute_instruction n m = Ok m' -> machine_ok m'.
Proof.
  revert m. induction n as [|n IH]; intros m Hm E; cbn [execute] in E; [congruence |].
  apply bind_ok in E as (m1 & E1 & E). apply exec_once_ok in E1; [| done].
  assert (machine_ok (count_inst m1)) as H1 by (by destruct E1; split; [apply set_traces_core |]).
  destruct (negb _); [congruence |]. apply bind_ok in E as (m2 & E2 & E).
  apply (IH m2); [| done]. unfold poll_devices in E2. destruct (CONFIG_DEVICE cfg); [| congruence].
  destruct (guest (count_inst m1)) as [mem d]. apply bind_ok in E2 as ([s d'] & _ & [= <-]).
  apply with_state_ok. by destruct H1 as [[] ?]; split; [split |].
Qed.

(** C8. The processor keeps the machine well formed: from a machine whose registers
    have their widths, whose register files have their lengths and whose register 0 is zero,
    running any number of instructions - standard ones, traps, register and
    status-register accesses, custom instructions, and invalid ones - leaves such a machine
    unless it stops the emulator with a fault; so register 0 always reads as zero. *)
Theorem cpu_exec_machine_ok n m m' :
  machine_ok m -> cpu_exec cfg enc execute_instruction n m = Ok m' -> machine_ok m'.
Proof.
  intros Hm E. unfold cpu_exec in E.
  assert (forall s, (m1 ← execute cfg enc execute_instruction n (with_state s m);
    Ok (match state (nemu_state m1) with NEMU_RUNNING => with_state NEMU_STOP m1 | _ => m1 end)) = Ok m' ->
    machine_ok m') as H.
  { intros s E1. apply bind_ok in E1 as (m1 & E1 & [= <-]). apply execute_ok in E1; [| by apply with_state_ok].
    destruct (state (nemu_state m1)); [by apply with_state_ok | done..]. }
  destruct (state (nemu_state m)); try (by eapply H); by injection E as <-.
Qed.
End invariant.

(** ** Decoding the custom instructions *)

(** What the code relies on in the generated header: the standard instructions have
    their standard opcodes (SYSTEM, JAL, JALR), the register fields are in their standard places and the
    status registers have distinct numbers. *)
Record encoding_ok (enc : encoding) : Prop := {
  eo_mask : forall i, STD_MASK enc i &&& 0x7f = 0x7f;
  eo_match : forall i, STD_MATCH enc i &&& 0x7f = match i with S_JAL => 0x6f | S_JALR => 0x67 | _ => 0x73 end;
  eo_rd : INSN_FIELD_RD enc = 0x1f <<< 7;
  eo_rs1 : INSN_FIELD_RS1 enc = 0x1f <<< 15;
  eo_rs2 : INSN_FIELD_RS2 enc = 0x1f <<< 20;
  eo_csr : forall a b, CSR_ enc a = CSR_ enc b -> a = b }.

(** The word the assembler emits for [.insn r opcode, funct3, funct7, rd, rs1, rs2]. *)
Definition insn_r (opcode funct3 funct7 rd rs1 rs2 : Z) : Z :=
  (opcode ||| ((funct3 <<< 12) ||| (funct7 <<< 25))) ||| ((rd <<< 7) ||| ((rs1 <<< 15) ||| (rs2 <<< 20))).

(** The opcode, funct3 and funct7 that the wrappers of xaccel_wrappers.c write in their
    [.insn r]: the scanner's instructions, the checksum, and the list and matrix ones. *)
Definition dfa_insn (i : instr) : option (Z * Z * Z) :=
  match i with
  | XACCEL_XDFACNT_INIT => Some (0x5b, 0, 0)
  | XACCEL_XDFACNT_INC => Some (0x5b, 1, 0)
  | XACCEL_XDFACNT_READ => Some (0x5b, 2, 0)
  | XACCEL_XDFACNT_COMMIT => Some (0x5b, 3, 0)
  | XACCEL_XDFA2_STEP => Some (0x5b, 4, 0)
  | XACCEL_XDFA4_STEP => Some (0x5b, 5, 0)
  | XACCEL_XDFA4H_STEP => Some (0x5b, 5, 1)
  | XACCEL_XDFA4H_FINAL_READ => Some (0x5b, 2, 1)
  | _ => None
  end.
Definition crc_insn (i : instr) : option (Z * Z * Z) :=
  match i with XACCEL_CRCU8 => Some (0x0b, 0, 0) | _ => None end.
Definition kernel_insn (i : instr) : option (Z * Z * Z) :=
  match i with
  | XACCEL_XMAC16 => Some (0x0b, 3, 0)
  | XACCEL_XDOT16 => Some (0x0b, 4, 0)
  | XACCEL_XBMUL => Some (0x0b, 5, 0)
  | XACCEL_XLISTREV_INIT => Some (0x0b, 6, 0)
  | XACCEL_XLISTREV_LOOP => Some (0x0b, 6, 2)
  | XACCEL_XMSUM => Some (0x0b, 7, 2)
  | _ => None
  end.

(** No wrapper emits the two wider checksum instructions. *)
Definition wrapper_insn (i : instr) : option (Z * Z * Z) :=
  match dfa_insn i with
  | Some k => Some k
  | None => match crc_insn i with Some k => Some k | None => kernel_insn i end
  end.

(** A statement about all 5-bit numbers, by evaluation. *)
Lemma all_regs (f : Z -> bool) : forallb f (seqZ 0 32) = true -> forall x, 0 <= x < 32 -> f x = true.
Proof.
  intros H x Hx. rewrite forallb_forall in H. apply H, list_elem_of_In, elem_of_seqZ. lia.
Qed.

Lemma field_land k mask : 
  forallb (fun x => (x <<< k) &&& mask =? 0) (seqZ 0 32) = true ->
  forall x, 0 <= x < 32 -> (x <<< k) &&& mask = 0.
Proof. intros H x Hx. apply Z.eqb_eq. by apply (all_regs (fun x => (x <<< k) &&& mask =? 0)). Qed.

Section encode.
Context (i : instr) (opcode funct3 funct7 rd rs1 rs2 : Z).
Context (Hi : wrapper_insn i = Some (opcode, funct3, funct7)).
Context (Hrd : 0 <= rd < 32) (Hrs1 : 0 <= rs1 < 32) (Hrs2 : 0 <= rs2 < 32).

Lemma insn_land mask :
  insn_r opcode funct3 funct7 rd rs1 rs2 &&& mask =
  ((opcode ||| ((funct3 <<< 12) ||| (funct7 <<< 25))) &&& mask) |||
    (((rd <<< 7) &&& mask) ||| (((rs1 <<< 15) &&& mask) ||| ((rs2 <<< 20) &&& mask))).
Proof. unfold insn_r. by rewrite (Z.land_lor_distr_l _ (_ ||| (_ ||| _)) mask), !(Z.land_lor_distr_l (_ <<< _)). Qed.

(** The fixed fields of the wrappers' words, by evaluation. *)
Lemma fixed_fields (f : instr -> Z -> bool) :
  (forall i, match wrapper_insn i with
             | Some (o, f3, f7) => f i (o ||| ((f3 <<< 12) ||| (f7 <<< 25))) = true
             | None => True end) ->
  f i (opcode ||| ((funct3 <<< 12) ||| (funct7 <<< 25))) = true.
Proof. intros H. specialize (H i). by rewrite Hi in H. Qed.

Lemma fixed_land mask v :
  (forall i, match wrapper_insn i with
             | Some (o, f3, f7) => ((o ||| ((f3 <<< 12) ||| (f7 <<< 25))) &&& mask =? v i) = true
             | None => True end) ->
  (opcode ||| ((funct3 <<< 12) ||| (funct7 <<< 25))) &&& mask = v i.
Proof. intros H. apply Z.eqb_eq. by apply (fixed_fields (fun i w => w &&& mask =? v i)). Qed.

Lemma field_self k x : 0 <= k -> 0 <= x < 32 -> (x <<< k) &&& (0x1f <<< k) = x <<< k.
Proof.
  intros Hk Hx. rewrite <- Z.shiftl_land. f_equal. change 31 with (Z.ones 5).
  rewrite Z.land_ones by lia. apply Z.mod_small. lia.
Qed.

Lemma insn_rd : (insn_r opcode funct3 funct7 rd rs1 rs2 &&& (0x1f <<< 7)) >>> 7 = rd.
Proof.
  rewrite insn_land, field_self, (fixed_land _ (fun _ => 0)) by (lia || by intros []).
  rewrite (field_land 15 (0x1f <<< 7)), (field_land 20 (0x1f <<< 7)) by done.
  rewrite !Z.lor_0_r, Z.lor_0_l, Z.shiftr_shiftl_l, Z.sub_diag by lia. apply Z.shiftl_0_r.
Qed.

Lemma insn_rs1 : (insn_r opcode funct3 funct7 rd rs1 rs2 &&& (0x1f <<< 15)) >>> 15 = rs1.
Proof.
  rewrite insn_land, (field_self 15), (fixed_land _ (fun _ => 0)) by (lia || by intros []).
  rewrite (field_land 7 (0x1f <<< 15)), (field_land 20 (0x1f <<< 15)) by done.
  rewrite !Z.lor_0_r, !Z.lor_0_l, Z.shiftr_shiftl_l, Z.sub_diag by lia. apply Z.shiftl_0_r.
Qed.

Lemma insn_rs2 : (insn_r opcode funct3 funct7 rd rs1 rs2 &&& (0x1f <<< 20)) >>> 20 = rs2.
Proof.
  rewrite insn_land, (field_self 20), (fixed_land _ (fun _ => 0)) by (lia || by intros []).
  rewrite (field_land 7 (0x1f <<< 20)), (field_land 15 (0x1f <<< 20)) by done.
  rewrite !Z.lor_0_l, Z.shiftr_shiftl_l, Z.sub_diag by lia. apply Z.shiftl_0_r.
Qed.

(** The emulator's match word of the instruction is the wrappers' opcode and functs. *)
Lemma insn_key : insn_r opcode funct3 funct7 rd rs1 rs2 &&& MASK_XACCEL = MATCH_XACCEL i.
Proof.
  rewrite insn_land, (field_land 7 MASK_XACCEL), (field_land 15 MASK_XACCEL), (field_land 20 MASK_XACCEL) by done.
  rewrite !Z.lor_0_r. apply fixed_land. by intros [].
Qed.

Lemma insn_opcode : insn_r opcode funct3 funct7 rd rs1 rs2 &&& 0x7f = 0x0b \/ insn_r opcode funct3 funct7 rd rs1 rs2 &&& 0x7f = 0x5b.
Proof.
  rewrite insn_land, (field_land 7 0x7f), (field_land 15 0x7f), (field_land 20 0x7f) by done.
  rewrite !Z.lor_0_r. rewrite (fixed_land 0x7f (fun i => MATCH_XACCEL i &&& 0x7f)) by (by intros []).
  clear -Hi. destruct i; try discriminate Hi; vm_compute; auto.
Qed.

Lemma find_xaccel : find (is_xaccel (insn_r opcode funct3 funct7 rd rs1 rs2)) xaccel_instrs = Some i.
Proof.
  assert (forall j, is_xaccel (insn_r opcode funct3 funct7 rd rs1 rs2) j = (MATCH_XACCEL i =? MATCH_XACCEL j)) as H.
  { intros j. unfold is_xaccel. by rewrite insn_key. }
  clear -H Hi. unfold xaccel_instrs. cbn [find]. rewrite !H.
  destruct i; try discriminate Hi; done.
Qed.
End encode.

Section dispatch.
Context (cfg : config) (enc : encoding) (Henc : encoding_ok enc) {D : Type} `{!MmioBus D} `{!DevicePoll D}.
Context (execute_instruction : Z -> Z -> machine D -> res (Z * Z * machine D)).
Implicit Types m : machine D.

(** The generated interpreter covers the standard instructions only: it refuses the
    opcodes reserved for custom instructions and changes nothing. *)
Context (Hreject : forall inst p m, inst &&& 0x7f = 0x0b \/ inst &&& 0x7f = 0x5b ->
  exists r tmp, r <> 0 /\ execute_instruction inst p m = Ok (r, tmp, m)).

Lemma custom_not_std inst i :
  inst &&& 0x7f = 0x0b \/ inst &&& 0x7f = 0x5b -> is_std enc inst i = false.
Proof.
  intros Hc. unfold is_std. apply Z.eqb_neq. intros E.
  assert (inst &&& 0x7f = STD_MATCH enc i &&& 0x7f) as E1.
  { by rewrite <- E, <- Z.land_assoc, (eo_mask enc Henc i). }
  rewrite (eo_match enc Henc i) in E1. destruct i; lia.
Qed.

Lemma decode_custom inst i p snpc m :
  inst &&& 0x7f = 0x0b \/ inst &&& 0x7f = 0x5b -> find (is_xaccel inst) xaccel_instrs = Some i ->
  decode_exec cfg enc execute_instruction inst p snpc m =
    ('(dnpc, m) ← exec_instr cfg enc i inst p snpc m; m ← set_R cfg 0 0 m; Ok (dnpc, m)).
Proof.
  intros Hc Hf. pose proof (fun i => custom_not_std inst i Hc) as Hstd.
  assert (local_csr_inst enc inst = false) as Hl.
  { unfold local_csr_inst, csr_instrs. cbn [existsb snd]. by rewrite !Hstd. }
  assert ((inst =? FENCE_I) = false) as Hfence.
  { apply Z.eqb_neq. intros ->. destruct Hc as [Hc | Hc]; by vm_compute in Hc. }
  assert (local_system_inst enc inst = false) as Hs.
  { unfold local_system_inst, system_instrs. rewrite Hl, Hfence. cbn [existsb snd]. by rewrite !Hstd. }
  assert (find_instr enc inst = Some i) as Hfi.
  { unfold find_instr, csr_instrs, system_instrs. cbn [app find snd]. by rewrite !Hstd. }
  unfold decode_exec. rewrite Hs. cbn [negb].
  destruct (Hreject inst p m Hc) as (r & tmp & Hr & ->). cbn [mbind res_bind].
  rewrite (proj2 (Z.eqb_neq r 0) Hr), Hl, Hfi, Hfence. cbn [orb andb].
  unfold record_branch, is_branch. rewrite !Hstd.
  replace ((inst &&& 0x7f) =? 0x63) with false by (destruct Hc as [-> | ->]; done). cbn [orb]. done.
Qed.

(** What an instruction does: the value for [rd] (if it has one), the scanner's counters, the
    list register, the word it stores, and whether it runs again. *)
Record effect := Effect {
  e_rd : option Z; e_dfa : numeric_dfa; e_previous : Z; e_store : option (Z * Z); e_again : bool }.

(** The words an instruction finds, with the word it stores. *)
#[local] Instance word_log : WordStore ((Z -> Z) * option (Z * Z)) := {|
  ws_read s a := Ok (s.1 a);
  ws_write s a v := Ok (s.1, Some (a, v)) |}.

(** The operation the accelerated kernels use for each custom instruction, from the old
    value [d] of [rd], the operands [a] and [b], and the words of memory. *)
Definition xaccel_effect (i : instr) (d a b : Z) (word : Z -> Z) (c : numeric_dfa) (previous : Z) : option effect :=
  let value v := Some (Effect (Some v) c previous None false) in
  let counters c := Some (Effect None c previous None false) in
  match i with
  | XACCEL_CRCU8 => value (xaccel_crcu8 a b)
  | XACCEL_CRCU16 => value (xaccel_crcu16 a b)
  | XACCEL_CRCU32 => value (xaccel_crcu32 a b)
  | XACCEL_XMAC16 => value (xaccel_xmac16 d a b)
  | XACCEL_XDOT16 => value (xaccel_xdot16 a b)
  | XACCEL_XBMUL => value (xaccel_xbmul a)
  | XACCEL_XLISTREV_INIT =>
      match xlistrev_init (word, None) a with
      | Ok (v, (_, st), previous) => Some (Effect (Some v) c previous st false)
      | Fault _ => None
      end
  | XACCEL_XLISTREV_LOOP =>
      match xlistrev_loop (word, None) a previous with
      | Ok (v, (_, st), previous, again) => Some (Effect (Some v) c previous st again)
      | Fault _ => None
      end
  | XACCEL_XMSUM => value (matrix_clipped_sum word a b).1
  | XACCEL_XDFACNT_INIT => counters (xdfacnt_init c)
  | XACCEL_XDFACNT_INC => counters (xdfacnt_inc a c)
  | XACCEL_XDFACNT_READ => value (xdfacnt_read a c)
  | XACCEL_XDFACNT_COMMIT => counters (xdfacnt_commit a c)
  | XACCEL_XDFA2_STEP => value (xdfa2_step word a b)
  | XACCEL_XDFA4_STEP => value (xdfa4_step word a b)
  | XACCEL_XDFA4H_FINAL_READ => value (xdfa4h_final_read a c)
  | XACCEL_XDFA4H_STEP =>
      let '(v, c) := xdfa4h_step word a b c in Some (Effect (Some v) c previous None false)
  | _ => None
  end.

(** The addresses an instruction reads, in order. *)
Definition xaccel_reads (i : instr) (a b : Z) : list Z :=
  match i with
  | XACCEL_XLISTREV_INIT => [a]
  | XACCEL_XLISTREV_LOOP => if a =? 0 then [] else [a]
  | XACCEL_XMSUM => (fun k => u32 (a + k * 4)) <$> seqZ 0 (u64 ((b >>> 16) * (b >>> 16)))
  | XACCEL_XDFA2_STEP | XACCEL_XDFA4_STEP | XACCEL_XDFA4H_STEP => [b &&& not32 3]
  | _ => []
  end.

(** Guest reads of these addresses find [word] at each and lead from one machine to the
    other (a read leaves a record in the memory trace, and a device may answer it). *)
Inductive reads (word : Z -> Z) : list Z -> machine D -> machine D -> Prop :=
| reads_nil m : reads word [] m m
| reads_cons a l m m1 m2 :
    guest_read cfg a 4 m = Ok (word a, m1) -> reads word l m1 m2 -> reads word (a :: l) m m2.

Definition stores (st : option (Z * Z)) m m' : Prop :=
  match st with Some (a, v) => guest_write cfg a 4 v m = Ok m' | None => m' = m end.

Lemma reads_nothing word m m' : reads word [] m m' -> m' = m.
Proof. by inversion 1. Qed.

Lemma reads_one word a m m' : reads word [a] m m' -> guest_read cfg a 4 m = Ok (word a, m').
Proof. inversion 1 as [| ? ? ? m1 ? Hr Hl]; subst. by apply reads_nothing in Hl as ->. Qed.

Lemma reads_frame word l m m' : reads word l m m' -> m' = set_guest (guest m') m.
Proof.
  induction 1 as [m | a l m m1 m2 H _ IH]; [by destruct m |].
  rewrite IH. unfold guest_read in H. destruct (vaddr_read cfg a 4 (guest m)) as [[v g] | e]; [| done].
  by injection H as _ <-.
Qed.

Lemma stores_frame st m m' : stores st m m' -> m' = set_guest (guest m') m.
Proof.
  destruct st as [[a v] |]; cbn; [| by intros ->; destruct m].
  unfold guest_write. destruct (vaddr_write cfg a 4 v (guest m)) as [g | e]; [| done]. by intros [= <-].
Qed.

Lemma guest_write_gpr a v r m m' :
  guest_write cfg a 4 v m = Ok m' -> guest_write cfg a 4 v (set_gpr r m) = Ok (set_gpr r m').
Proof.
  unfold guest_write. cbn. destruct (vaddr_write cfg a 4 v (guest m)) as [g | e]; [| done]. by intros [= <-].
Qed.

(** The loop over the elements is [for_] over the words it finds. *)
Lemma clipped_sum_reads word data clip n : forall k st m m',
  reads word ((fun k => u32 (data + k * 4)) <$> seqZ k (Z.of_nat n)) m m' ->
  clipped_sum_loop cfg n k data clip st m =
    Ok (for_from k n (fun k st => clipped_sum_step clip (s32 (word (u32 (data + k * 4)))) st) st, m').
Proof.
  induction n as [| n IH]; intros k st m m' H.
  - rewrite seqZ_nil in H by lia. by inversion H.
  - rewrite seqZ_cons in H by lia. replace (Z.pred (Z.of_nat (S n))) with (Z.of_nat n) in H by lia.
    inversion H as [| ? ? ? m1 ? Hr Hl]; subst.
    cbn [clipped_sum_loop for_from]. rewrite Hr. cbn [mbind res_bind]. apply IH.
    by replace (Z.succ k) with (k + 1) in Hl by lia.
Qed.

Lemma exec_clipped_sum_reads word data config m m' :
  reads word (xaccel_reads XACCEL_XMSUM data config) m m' ->
  exec_clipped_sum cfg data config m = Ok ((matrix_clipped_sum word data config).1, m').
Proof.
  intros H. unfold exec_clipped_sum, matrix_clipped_sum, for_. cbn [xaccel_reads] in H.
  rewrite <- (Z2Nat.id (u64 _)) in H by (apply (wrap_range 64); lia).
  rewrite (clipped_sum_reads word _ _ _ _ _ _ m' H). cbn [mbind res_bind].
  by destruct (for_from _ _ _ _) as [[? ?] ?].
Qed.

Lemma get_R_ok m i : length (gpr (cpu m)) = 32%nat -> 0 <= i < 32 -> get_R cfg m i = Ok (aget 0 (gpr (cpu m)) i).
Proof. intros Hl Hi. unfold get_R. rewrite Hl. by rewrite (proj2 (Z.leb_le _ _)), (proj2 (Z.ltb_lt _ _)) by lia. Qed.

Lemma set_R_ok m i v :
  length (gpr (cpu m)) = 32%nat -> 0 <= i < 32 ->
  set_R cfg i v m = Ok (set_gpr (aset (gpr (cpu m)) i (u32 v)) m).
Proof. intros Hl Hi. unfold set_R. rewrite Hl. by rewrite (proj2 (Z.leb_le _ _)), (proj2 (Z.ltb_lt _ _)) by lia. Qed.

(** The machine after an instruction with the effect [e], from the one its reads and its
    store left. *)
Definition apply_effect (e : effect) (rd : Z) m : machine D :=
  let r := gpr (cpu m) in
  set_previous (e_previous e) (set_dfa (e_dfa e)
    (set_gpr (aset (match e_rd e with Some v => aset r rd (u32 v) | None => r end) 0 0) m)).

(** The end of every instruction: [rd] is written (or not), then register 0 is cleared. *)
Lemma write_back m rd v (npc : Z) st again :
  length (gpr (cpu m)) = 32%nat -> 0 <= rd < 32 ->
  ('(dnpc, m) ← (m ← set_R cfg rd v m; Ok (npc, m)); m ← set_R cfg 0 0 m; Ok (dnpc, m)) =
  Ok (npc, apply_effect (Effect (Some v) (dfa m) (list_reverse_previous m) st again) rd m).
Proof.
  intros Hl Hrd. rewrite (set_R_ok m) by done. cbn [mbind res_bind].
  rewrite set_R_ok by (cbn [cpu gpr set_gpr set_cpu]; rewrite ?length_aset; done). by destruct m.
Qed.

Lemma no_write_back m rd (npc : Z) st again :
  length (gpr (cpu m)) = 32%nat ->
  (m ← set_R cfg 0 0 m; Ok (npc, m)) =
  Ok (npc, apply_effect (Effect None (dfa m) (list_reverse_previous m) st again) rd m).
Proof. intros Hl. rewrite set_R_ok by done. by destruct m. Qed.

(** Writing [rd] before the store is the same as after it. *)
Lemma write_back_store m m' rd a v w q again (npc : Z) :
  length (gpr (cpu m)) = 32%nat -> 0 <= rd < 32 -> stores (Some (a, w)) m m' ->
  ('(dnpc, m) ← (m ← set_R cfg rd v m; m ← guest_write cfg a 4 w m; Ok (npc, set_previous q m));
   m ← set_R cfg 0 0 m; Ok (dnpc, m)) =
  Ok (npc, apply_effect (Effect (Some v) (dfa m) q (Some (a, w)) again) rd m').
Proof.
  intros Hl Hrd Hs. pose proof (stores_frame _ _ _ Hs) as F. cbn [stores] in Hs.
  rewrite (set_R_ok m) by done. cbn [mbind res_bind]. rewrite (guest_write_gpr _ _ _ _ _ Hs). cbn [mbind res_bind].
  rewrite set_R_ok by (cbn [cpu gpr set_previous set_gpr set_cpu]; rewrite ?length_aset; done).
  rewrite F. by destruct m.
Qed.

(** The list instruction that runs again until the list ends. *)
Lemma listrev_loop_effect word rd a m m1 m2 (p snpc : Z) e :
  length (gpr (cpu m)) = 32%nat -> 0 <= rd < 32 ->
  xaccel_effect XACCEL_XLISTREV_LOOP 0 a 0 word (dfa m) (list_reverse_previous m) = Some e ->
  reads word (xaccel_reads XACCEL_XLISTREV_LOOP a 0) m m1 -> stores (e_store e) m1 m2 ->
  ('(dnpc, m) ←
     (if a =? 0 then m ← set_R cfg rd (list_reverse_previous m) m; Ok (snpc, m)
      else
        '(nxt, m) ← guest_read cfg a 4 m;
        m ← guest_write cfg a 4 (list_reverse_previous m) m;
        let m := set_previous a m in
        if negb (nxt =? 0) then m ← set_R cfg rd nxt m; Ok (p, m)
        else m ← set_R cfg rd a m; Ok (snpc, m));
   m ← set_R cfg 0 0 m; Ok (dnpc, m)) =
  Ok (if e_again e then p else snpc, apply_effect e rd m2).
Proof.
  intros Hl Hrd E Hr Hst. pose proof (reads_frame _ _ _ _ Hr) as F1.
  cbn [xaccel_effect xaccel_reads] in E, Hr. unfold xlistrev_loop in E.
  destruct (a =? 0).
  - injection E as <-. cbn in Hst. subst m2. apply reads_nothing in Hr as ->. by apply write_back.
  - apply reads_one in Hr. rewrite Hr. cbn [ws_read ws_write word_log mbind res_bind fst] in E |- *.
    assert (e_store e = Some (a, list_reverse_previous m1)) as Es.
    { rewrite F1. by destruct (negb _); injection E as <-. }
    rewrite Es in Hst. pose proof (stores_frame _ _ _ Hst) as F2. cbn [stores] in Hst. rewrite Hst.
    cbn [mbind res_bind]. cbv zeta.
    assert (length (gpr (cpu (set_previous a m2))) = 32%nat) as Hl2 by (by rewrite F2, F1).
    destruct (negb (word a =? 0)); injection E as <-; cbn [e_again].
    + rewrite (write_back _ rd _ _ None true) by done. by rewrite F2, F1.
    + rewrite (write_back _ rd _ _ None false) by done. by rewrite F2, F1.
Qed.

(** C6. The custom instructions: for every custom instruction the wrappers use, the word
    their [.insn r] assembles (opcode, funct3 and funct7 as written in the wrapper) is decoded
    as that instruction with those registers, whatever the generated encoding and interpreter
    of the standard instructions are, and executing it performs exactly the operation that
    the accelerated kernels are proved with: it reads the words the operation looks at and
    no others, stores the word the operation stores and no other, [rd] receives the result, the scanner's
    counters and the list register are updated, register 0 stays zero, the instruction runs
    again or the next one follows, and nothing else of the machine changes. *)
Theorem xaccel_instructions i opcode funct3 funct7 rd rs1 rs2 p snpc word m m1 m2 e :
  wrapper_insn i = Some (opcode, funct3, funct7) ->
  0 <= rd < 32 -> 0 <= rs1 < 32 -> 0 <= rs2 < 32 -> length (gpr (cpu m)) = 32%nat ->
  let a := aget 0 (gpr (cpu m)) rs1 in
  let b := aget 0 (gpr (cpu m)) rs2 in
  xaccel_effect i (aget 0 (gpr (cpu m)) rd) a b word (dfa m) (list_reverse_previous m) = Some e ->
  reads word (xaccel_reads i a b) m m1 -> stores (e_store e) m1 m2 ->
  decode_exec cfg enc execute_instruction (insn_r opcode funct3 funct7 rd rs1 rs2) p snpc m =
    Ok (if e_again e then p else snpc, apply_effect e rd m2).
Proof.
  intros Hi Hrd H1 H2 Hl a b E Hr Hst.
  rewrite (decode_custom _ i) by (by eapply insn_opcode || by eapply find_xaccel).
  unfold exec_instr. rewrite (eo_rd enc Henc), (eo_rs1 enc Henc), (eo_rs2 enc Henc).
  erewrite insn_rd, insn_rs1, insn_rs2 by done. rewrite !(get_R_ok m) by done. fold a b.
  pose proof (reads_frame _ _ _ _ Hr) as F1.
  assert (Hl1 : length (gpr (cpu m1)) = 32%nat) by (by rewrite F1).
  assert (Hg1 : get_R cfg m1 rs1 = Ok a) by (rewrite F1; by apply get_R_ok).
  destruct i; try discriminate Hi; clear Hi; cbn [mbind res_bind].
  all: cbn [xaccel_effect xaccel_reads] in E, Hr.
  all: lazymatch type of Hr with
    | reads _ [] _ _ =>
        injection E as <-; cbn [e_store stores] in Hst; subst m2; apply reads_nothing in Hr; subst m1
    | reads _ [_ &&& _] _ _ => apply reads_one in Hr; rewrite Hr; cbn [mbind res_bind]; rewrite Hg1; cbn [mbind res_bind]
    | _ => idtac end.
  all: lazymatch goal with 
    | |- mbind _ (mbind _ (set_R _ _ _ ?x)) = Ok (_, apply_effect (Effect _ _ _ _ _) _ _) => 
          (rewrite (write_back x _ _ _ None false) by done; reflexivity)
    | |- mbind _ (set_R _ _ _ ?x) = _ => rewrite (no_write_back x rd _ None false) by done; reflexivity | _ => idtac end.
  - apply reads_one in Hr. rewrite Hr. cbn [mbind res_bind]. injection E as <-. cbn [e_store e_again] in *. 
    rewrite (write_back_store m1 m2 rd _ _ _ _ false) by done. by rewrite F1.
  - by apply (listrev_loop_effect word rd a m m1 m2).
  - rewrite (exec_clipped_sum_reads word a b m m1) by done. cbn [mbind res_bind]. injection E as <-. cbn in Hst. subst m2.
    rewrite (write_back m1 _ _ _ None false) by done. by rewrite F1.
  - injection E as <-. cbn in Hst. subst m2. rewrite (write_back m1 _ _ _ None false) by done. by rewrite F1.
  - injection E as <-. cbn in Hst. subst m2. rewrite (write_back m1 _ _ _ None false) by done. by rewrite F1.
  - assert (dfa m1 = dfa m) as -> by (by rewrite F1).
    change (xdfa4h_step (λ _ : Z, word (b &&& not32 3)) a b (dfa m)) with (xdfa4h_step word a b (dfa m)).
    destruct (xdfa4h_step word a b (dfa m)) as [v d]. injection E as <-. cbn in Hst. subst m2.
    rewrite (write_back (set_dfa d m1) _ _ _ None false) by done. by rewrite F1.
Qed.

(** ** Traps and status registers *)

Lemma find_plain n : n ∈ plain_csrs -> find (fun k => CSR_ enc n =? CSR_ enc k) plain_csrs = Some n.
Proof.
  intros Hn. assert (forall k, (CSR_ enc n =? CSR_ enc k) = bool_decide (n = k)) as H.
  { intros k. destruct (Z.eqb_spec (CSR_ enc n) (CSR_ enc k)) as [E | E].
    - apply (eo_csr enc Henc) in E as ->. by rewrite bool_decide_true.
    - rewrite bool_decide_false; [done |]. by intros ->. }
  unfold plain_csrs. cbn [find]. rewrite !H. apply list_elem_of_In in Hn.
  destruct n; try done; cbn in Hn; intuition discriminate.
Qed.

Lemma csr_ne a b : a <> b -> (CSR_ enc a =? CSR_ enc b) = false.
Proof. intros Hne. apply Z.eqb_neq. intros E. by apply (eo_csr enc Henc) in E. Qed.

Lemma csr_rw_plain n src w m :
  n ∈ plain_csrs ->
  _handle_csr_rw enc (CSR_ enc n) src w m =
    Ok (default 0 (read_plain n (csrs m)), if w then set_csrs (write_plain n src (csrs m)) m else m).
Proof.
  intros Hn. unfold _handle_csr_rw. rewrite !csr_ne, find_plain; try done.
  all: intros ->; apply list_elem_of_In in Hn; cbn in Hn; intuition discriminate.
Qed.

(** The opcode of an instruction that one of the tests recognises. *)
Lemma system_opcode inst x : x ∈ csr_instrs ++ system_instrs -> is_std enc inst x.2 = true -> inst &&& 0x7f = 0x73.
Proof.
  intros Hx E. unfold is_std in E. apply Z.eqb_eq in E.
  assert (inst &&& 0x7f = STD_MATCH enc x.2 &&& 0x7f) as ->.
  { by rewrite <- E, <- Z.land_assoc, (eo_mask enc Henc x.2). }
  rewrite (eo_match enc Henc). apply list_elem_of_In in Hx. cbn in Hx.
  by destruct_or? Hx; subst.
Qed.

Lemma find_std inst i :
  find_instr enc inst = Some i -> i ∉ xaccel_instrs ->
  exists x, find (fun x => is_std enc inst x.2) (csr_instrs ++ system_instrs) = Some x /\ x.1 = i /\
    is_std enc inst x.2 = true /\ x ∈ csr_instrs ++ system_instrs.
Proof.
  unfold find_instr. destruct (find _ (csr_instrs ++ system_instrs)) as [x |] eqn:E; intros Hf Hi.
  - exists x. apply find_some in E as [Hin Hx]. injection Hf as <-. apply list_elem_of_In in Hin. done.
  - destruct Hi. apply find_some in Hf as [Hin _]. by apply list_elem_of_In.
Qed.

Lemma find_app {A} (f : A -> bool) l1 l2 :
  find f (l1 ++ l2) = match find f l1 with Some x => Some x | None => find f l2 end.
Proof. induction l1 as [|x l1 IH]; [done |]. cbn. by destruct (f x). Qed.

Lemma system_facts inst x p snpc m :
  x ∈ csr_instrs ++ system_instrs -> is_std enc inst x.2 = true ->
  local_system_inst enc inst = true /\ (inst =? FENCE_I) = false /\ record_branch enc p inst snpc m = m.
Proof.
  intros Hin Hstd. pose proof (system_opcode inst x Hin Hstd) as Hop. split_and!.
  - unfold local_system_inst, local_csr_inst. rewrite <- existsb_app.
    replace (existsb _ _) with true; [done |]. symmetry. apply existsb_exists. exists x.
    by rewrite <- list_elem_of_In.
  - apply Z.eqb_neq. intros ->. by vm_compute in Hop.
  - unfold record_branch, is_branch. rewrite Hop.
    assert (forall j, STD_MATCH enc j &&& 0x7f <> 0x73 -> is_std enc inst j = false) as Hj.
    { intros j Hj. unfold is_std. apply Z.eqb_neq. intros E. apply Hj.
      by rewrite <- E, <- Z.land_assoc, (eo_mask enc Henc j). }
    by rewrite !Hj by (rewrite (eo_match enc Henc); done).
Qed.

(** The standard instructions that [decode_exec] executes itself. *)
Lemma decode_system inst i p snpc m :
  find_instr enc inst = Some i -> i ∉ xaccel_instrs ->
  (i ∈ csr_instrs.*1 ->
     CSR_ enc FFLAGS <> BITS inst 31 20 /\ CSR_ enc FRM <> BITS inst 31 20 /\ CSR_ enc FCSR <> BITS inst 31 20) ->
  decode_exec cfg enc execute_instruction inst p snpc m =
    ('(dnpc, m) ← exec_instr cfg enc i inst p snpc m; m ← set_R cfg 0 0 m; Ok (dnpc, m)).
Proof.
  intros Hf Hi Hfp. destruct (find_std inst i Hf Hi) as (x & Hx & Ex & Hstd & Hin).
  destruct (system_facts inst x p snpc m Hin Hstd) as (Hs & Hfence & Hb).
  assert (local_csr_inst enc inst && ((BITS inst 31 20 =? CSR_ enc FFLAGS) || (BITS inst 31 20 =? CSR_ enc FRM)
    || (BITS inst 31 20 =? CSR_ enc FCSR)) = false) as Hcsr.
  { destruct (local_csr_inst enc inst) eqn:El; [| done]. cbn [andb].
    assert (i ∈ csr_instrs.*1) as Hic.
    { unfold local_csr_inst in El. apply existsb_exists in El as (y & Hy & Ey). rewrite <- Ex.
      apply list_elem_of_fmap. exists x. split; [done |].
      rewrite find_app in Hx. destruct (find _ csr_instrs) as [z |] eqn:Ez.
      - injection Hx as <-. apply find_some in Ez as [Hz _]. by apply list_elem_of_In.
      - apply (find_none _ _ Ez) in Hy. congruence. }
    destruct (Hfp Hic) as (H1 & H2 & H3).
    apply not_eq_sym, Z.eqb_neq in H1, H2, H3. by rewrite H1, H2, H3. }
  unfold decode_exec. rewrite Hs, Hfence. cbn [negb mbind res_bind orb]. rewrite Hb, Hcsr, Hf. done.
Qed.

(** What a status-register instruction stores. *)
Definition csr_new (i : instr) (old src : Z) : Z :=
  match i with
  | CSRRW | CSRRWI => src
  | CSRRS | CSRRSI => old ||| src
  | _ => old &&& not32 src
  end.
Definition csr_operand (i : instr) (inst : Z) (r : list Z) : Z :=
  match i with
  | CSRRW | CSRRS | CSRRC => aget 0 r ((inst &&& (0x1f <<< 15)) >>> 15)
  | _ => BITS inst 19 15
  end.

Lemma field_reg inst k : 0 <= k -> 0 <= (inst &&& (0x1f <<< k)) >>> k < 32.
Proof.
  intros Hk. rewrite Z.shiftr_land, Z.shiftr_shiftl_l, Z.sub_diag, Z.shiftl_0_r by lia.
  change 31 with (Z.ones 5). rewrite Z.land_ones by lia. apply Z.mod_pos_bound. lia.
Qed.

(** The status-register instructions: for each of the six instructions on one of
    the eight plain status registers, [rd] receives the old value (register 0 stays
    zero), and the status register is replaced by the operand, or has the operand's bits set or
    cleared; the operand is read before [rd] is written, the next instruction follows, and
    nothing else of the machine changes. *)
Theorem csr_instructions i n inst p snpc m :
  find_instr enc inst = Some i -> i ∈ csr_instrs.*1 -> n ∈ plain_csrs -> BITS inst 31 20 = CSR_ enc n ->
  length (gpr (cpu m)) = 32%nat ->
  let r := gpr (cpu m) in
  let rd := (inst &&& (0x1f <<< 7)) >>> 7 in
  let old := default 0 (read_plain n (csrs m)) in
  decode_exec cfg enc execute_instruction inst p snpc m =
    Ok (snpc, set_csrs (write_plain n (csr_new i old (csr_operand i inst r)) (csrs m))
                (set_gpr (aset (aset r rd (u32 old)) 0 0) m)).
Proof.
  intros Hf Hi Hn Ha Hl r rd old.
  rewrite (decode_system inst i); [| done | | ].
  - pose proof (field_reg inst 7) as Hrd. pose proof (field_reg inst 15) as Hrs.
    assert (forall src w m', csrs m' = csrs m -> _handle_csr_rw enc (BITS inst 31 20) src w m' =
      Ok (old, if w : bool then set_csrs (write_plain n src (csrs m)) m' else m')) as Hcsr.
    { intros src w m' Em. rewrite Ha, csr_rw_plain, Em by done. done. }
    assert (forall src, (m1 ← (if negb (rd =? 0) then o ← _csr_read enc (BITS inst 31 20) m; set_R cfg rd o m else Ok m);
      m1 ← _csr_write enc (BITS inst 31 20) src m1; Ok (snpc, m1)) = Ok (snpc,
      set_csrs (write_plain n src (csrs m)) (set_gpr (if rd =? 0 then r else aset r rd (u32 old)) m))) as Hswap.
    { intros src. unfold _csr_read, _csr_write. rewrite (Hcsr 0 false) by done. cbn [fmap res_fmap fst mbind res_bind].
      destruct (rd =? 0); cbn [negb mbind res_bind].
      - rewrite Hcsr by done. cbn. by destruct m as [[] ? ? ? ? ? ? ?].
      - rewrite set_R_ok by (done || apply Hrd; lia). cbn [mbind res_bind]. by rewrite Hcsr. }
    assert (forall (f : Z -> Z -> Z) src, (o ← _csr_read enc (BITS inst 31 20) m; m1 ← set_R cfg rd o m;
      m1 ← _csr_write enc (BITS inst 31 20) (f o src) m1; Ok (snpc, m1)) = Ok (snpc,
      set_csrs (write_plain n (f old src) (csrs m)) (set_gpr (aset r rd (u32 old)) m))) as Hmod.
    { intros f src. unfold _csr_read, _csr_write. rewrite (Hcsr 0 false) by done. cbn [fmap res_fmap fst mbind res_bind].
      rewrite set_R_ok by (done || apply Hrd; lia). cbn [mbind res_bind]. by rewrite Hcsr. }
    assert (forall c l, length l = 32%nat ->
      set_R cfg 0 0 (set_csrs c (set_gpr l m)) = Ok (set_csrs c (set_gpr (aset l 0 0) m))) as H0.
    { intros c l Hll. rewrite set_R_ok by (done || lia). done. }
    assert (aset (if rd =? 0 then r else aset r rd (u32 old)) 0 0 = aset (aset r rd (u32 old)) 0 0) as Hz.
    { destruct (Z.eqb_spec rd 0) as [-> |]; [by rewrite aset_aset | done]. }
    unfold exec_instr. rewrite (eo_rd enc Henc), (eo_rs1 enc Henc), (get_R_ok m ((inst &&& (31 <<< 15)) >>> 15))
      by (done || apply Hrs; lia).
    fold rd r. apply list_elem_of_In in Hi. cbn in Hi.
    destruct_or? Hi; subst i; cbn [mbind res_bind csr_new csr_operand];
      first [rewrite Hswap | rewrite (Hmod Z.lor) | rewrite (Hmod (fun o a => o &&& not32 a))];
      cbn [mbind res_bind]; rewrite H0 by (destruct (rd =? 0); by rewrite ?length_aset);
      cbn [mbind res_bind]; by rewrite ?Hz.
  - intros H. apply list_elem_of_In in Hi, H. cbn in Hi, H. destruct_or? Hi; subst i; intuition discriminate.
  - intros _. rewrite Ha. split_and!; intros E; apply (eo_csr enc Henc) in E as <-;
      apply list_elem_of_In in Hn; cbn in Hn; intuition discriminate.
Qed.

(** C21. Traps: an environment call saves its address and cause and continues at the
    trap vector; a return from that trap, wherever it is executed, continues at the saved
    address; and an access to a floating-point status register while the floating-point unit is
    switched off saves its address, the illegal-instruction cause and the instruction
    word, and continues at the trap vector without accessing the register. *)
Theorem traps call ret inst p q snpc snpc' m :
  find_instr enc call = Some ECALL -> find_instr enc ret = Some MRET ->
  local_csr_inst enc inst = true -> riscv_fp_enabled m = false ->
  (BITS inst 31 20 = CSR_ enc FFLAGS \/ BITS inst 31 20 = CSR_ enc FRM \/ BITS inst 31 20 = CSR_ enc FCSR) ->
  length (gpr (cpu m)) = 32%nat -> aget 0 (gpr (cpu m)) 0 = 0 ->
  let c := csrs m in
  let m1 := set_csrs (CsrFile (CAUSE_MACHINE_ECALL enc) p (g_csr_MTVAL c) (g_csr_MVENDORID c)
    (g_csr_MARCHID c) (g_csr_MSTATUS c) (g_csr_MSCRATCH c) (g_csr_MTVEC c)) m in
  decode_exec cfg enc execute_instruction call p snpc m = Ok (g_csr_MTVEC c, m1) /\
  decode_exec cfg enc execute_instruction ret q snpc' m1 = Ok (p, m1) /\
  decode_exec cfg enc execute_instruction inst p snpc m =
    Ok (g_csr_MTVEC c, set_csrs (CsrFile (CAUSE_ILLEGAL_INSTRUCTION enc) p inst (g_csr_MVENDORID c)
      (g_csr_MARCHID c) (g_csr_MSTATUS c) (g_csr_MSCRATCH c) (g_csr_MTVEC c)) m).
Proof.
  intros Hcall Hret Hinst Hfp Hcsr Hl H0 c m1.
  assert (forall c' : csr_file, set_R cfg 0 0 (set_csrs c' m) = Ok (set_csrs c' m)) as Hz.
  { intros c'. rewrite set_R_ok by (done || lia). do 2 f_equal. cbn. change (u32 0) with 0. rewrite <- H0 at 2.
    rewrite aset_aget by lia. by destruct m as [[] ? ? ? ? ? ? ?]. }
  assert (forall i, i = ECALL \/ i = MRET -> (i ∉ xaccel_instrs) /\ (i ∈ csr_instrs.*1 -> False)) as Hi.
  { intros i [-> | ->]; split; intros H; apply list_elem_of_In in H; cbn in H; intuition discriminate. }
  assert (MEPC ∈ plain_csrs /\ MCAUSE ∈ plain_csrs) as [Hp1 Hp2] by (split; apply list_elem_of_In; cbn; tauto).
  split_and!.
  - destruct (Hi ECALL) as [Hx Hy]; [by left |].
    rewrite (decode_system call ECALL) by (done || by intros ?%Hy). unfold exec_instr, _csr_write.
    rewrite (csr_rw_plain MEPC) by done. cbn [fmap res_fmap snd mbind res_bind].
    rewrite (csr_rw_plain MCAUSE) by done. cbn [fmap res_fmap snd mbind res_bind].
    change (set_csrs _ (set_csrs _ m)) with (set_csrs (write_plain MCAUSE (CAUSE_MACHINE_ECALL enc)
      (write_plain MEPC p (csrs m))) m). rewrite Hz. unfold m1, c. by destruct (csrs m).
  - destruct (Hi MRET) as [Hx Hy]; [by right |].
    rewrite (decode_system ret MRET) by (done || by intros ?%Hy). unfold exec_instr, _csr_read.
    rewrite (csr_rw_plain MEPC) by done. cbn [fmap res_fmap fst mbind res_bind]. unfold m1. by rewrite Hz.
  - pose proof Hinst as Hx. unfold local_csr_inst in Hx. apply existsb_exists in Hx as (x & Hx & Hstd).
    apply list_elem_of_In in Hx.
    destruct (system_facts inst x p snpc m) as (Hs & Hfence & Hb); [apply elem_of_app; by left | done |].
    unfold decode_exec. rewrite Hs, Hfence. cbn [negb mbind res_bind orb]. rewrite Hb, Hinst, Hfp.
    assert ((BITS inst 31 20 =? CSR_ enc FFLAGS) || (BITS inst 31 20 =? CSR_ enc FRM)
      || (BITS inst 31 20 =? CSR_ enc FCSR) = true) as ->.
    { destruct_or! Hcsr; rewrite Hcsr, Z.eqb_refl, ?orb_true_r; done. }
    cbn [andb negb mbind res_bind riscv_raise_illegal_instruction]. rewrite Hz. unfold c. by destruct (csrs m).
Qed.
End dispatch.

(** ** Running and stepping *)

(** ** What instructions leave alone

    A part of the machine that no register, status-register, accelerator or memory update
    touches, such as the run state and the traces. *)
Section keeps.
Context (cfg : config) (enc : encoding) {D : Type} `{!MmioBus D}.
Implicit Types m : machine D.
Context {X : Type} (part : machine D -> X).
Context (Hcpu : forall c m, part (set_cpu c m) = part m) (Hcsrs : forall c m, part (set_csrs c m) = part m).
Context (Hdfa : forall d m, part (set_dfa d m) = part m) (Hprevious : forall p m, part (set_previous p m) = part m).
Context (Hguest : forall g m, part (set_guest g m) = part m).

Lemma set_R_keeps i v m m' : set_R cfg i v m = Ok m' -> part m' = part m.
Proof. unfold set_R. destruct (_ && _); [| done]. intros [= <-]. apply Hcpu. Qed.

Lemma guest_read_keeps a len m v m' : guest_read cfg a len m = Ok (v, m') -> part m' = part m.
Proof. intros E. apply bind_ok in E as ([w g] & _ & E). injection E as _ <-. apply Hguest. Qed.

Lemma guest_write_keeps a len v m m' : guest_write cfg a len v m = Ok m' -> part m' = part m.
Proof. intros E. apply bind_ok in E as (g & _ & E). injection E as <-. apply Hguest. Qed.

Lemma inst_fetch_keeps a len m i s m' : inst_fetch cfg a len m = Ok (i, s, m') -> part m' = part m.
Proof. intros E. apply bind_ok in E as ([w g] & _ & E). injection E as _ _ <-. apply Hguest. Qed.

Lemma csr_write_keeps csr v m m' : _csr_write enc csr v m = Ok m' -> part m' = part m.
Proof.
  unfold _csr_write, _handle_csr_rw, riscv_fp_mark_dirty, set_fcsr.
  repeat case_match; try done; intros [= <-]; by rewrite ?Hcsrs, ?Hcpu.
Qed.

Lemma clipped_sum_keeps n i data clip st st' m m' :
  clipped_sum_loop cfg n i data clip st m = Ok (st', m') -> part m' = part m.
Proof.
  revert i st m. induction n as [|n IH]; intros i st m E; cbn in E; [by injection E as _ <- |].
  apply bind_ok in E as ([cur m1] & E1 & E). apply IH in E. apply guest_read_keeps in E1. congruence.
Qed.

Lemma exec_clipped_sum_keeps data config m v m' :
  exec_clipped_sum cfg data config m = Ok (v, m') -> part m' = part m.
Proof.
  intros E. apply bind_ok in E as ([[[t p] r] m1] & E & E2). injection E2 as _ <-. by eapply clipped_sum_keeps.
Qed.

Ltac keeps_fwd :=
  repeat match goal with
  | E : set_R _ _ _ _ = Ok _ |- _ => apply set_R_keeps in E
  | E : guest_read _ _ _ _ = Ok _ |- _ => apply guest_read_keeps in E
  | E : guest_write _ _ _ _ _ = Ok _ |- _ => apply guest_write_keeps in E
  | E : _csr_write _ _ _ _ = Ok _ |- _ => apply csr_write_keeps in E
  | E : exec_clipped_sum _ _ _ _ = Ok _ |- _ => apply exec_clipped_sum_keeps in E
  | E : (if _ then _ ≫= _ else Ok _) = Ok _ |- _ =>
      destruct (negb _) in E; [apply bind_ok in E as (? & _ & E) | injection E as <-]
  end.

Ltac res_steps E :=
  repeat match type of E with
  | (_ ≫= _) = Ok _ =>
      let x := fresh "x" in let E1 := fresh "E" in
      apply bind_ok in E as (x & E1 & E); repeat match type of x with (_ * _)%type => destruct x as [x ?] end
  | Ok _ = Ok _ => injection E as <- <-
  | (if ?b then _ else _) = Ok _ => destruct b eqn:?
  | (let '(_, _) := ?x in _) = Ok _ => destruct x eqn:?
  end.

(** Every instruction but the one that ends the program. *)
Lemma exec_instr_keeps i inst p dnpc m dnpc' m' :
  exec_instr cfg enc i inst p dnpc m = Ok (dnpc', m') ->
  part m' = part m \/ exists a0, m' = set_nemu_state NEMU_END p a0 m.
Proof.
  intros E. destruct i; unfold exec_instr in E; res_steps E; keeps_fwd;
    try (left; rewrite ?Hdfa, ?Hprevious in *; congruence). right. by eexists.
Qed.

Lemma invalid_inst_keeps p m m' :
  invalid_inst cfg p m = Ok m' -> exists m1, part m1 = part m /\ m' = set_nemu_state NEMU_ABORT p (-1) m1.
Proof.
  intros E. apply bind_ok in E as ([[? ?] m1] & E1 & E). apply bind_ok in E as ([[? ?] m2] & E2 & [= <-]).
  apply inst_fetch_keeps in E1, E2. exists m2. split; [congruence | done].
Qed.
End keeps.

Section stepping.
Context (cfg : config) (enc : encoding) {D : Type} `{!MmioBus D} `{!DevicePoll D}.
Context (execute_instruction : Z -> Z -> machine D -> res (Z * Z * machine D)).
Implicit Types m : machine D.

(** The run state is left alone by the generated interpreter, which has no access to it,
    and no window event arrives. *)
Context (Hexec : forall inst p m r tmp m',
  execute_instruction inst p m = Ok (r, tmp, m') -> nemu_state m' = nemu_state m).
Context (Hpoll : forall s d s' d', device_poll s d = Ok (s', d') -> s' = s).

Definition halted m : Prop := state (nemu_state m) = NEMU_END \/ state (nemu_state m) = NEMU_ABORT.

Lemma exec_instr_nemu i inst p dnpc m dnpc' m' :
  exec_instr cfg enc i inst p dnpc m = Ok (dnpc', m') -> nemu_state m' = nemu_state m \/ halted m'.
Proof.
  intros E. apply (exec_instr_keeps cfg enc nemu_state) in E as [E | [a0 ->]]; try done; [by left |].
  unfold set_nemu_state, halted. destruct (sdb_inited m); [right | left]; cbn; auto.
Qed.

Lemma exec_once_nemu p m m' :
  exec_once cfg enc execute_instruction p m = Ok m' -> nemu_state m' = nemu_state m \/ halted m'.
Proof.
  intros E. unfold exec_once, isa_exec_once in E.
  apply bind_ok in E as ([dnpc m2] & E & [= <-]). apply bind_ok in E as ([[inst s] m1] & E1 & E).
  apply (inst_fetch_keeps cfg nemu_state) in E1; [| done]. rewrite <- E1. clear E1.
  assert (exists m1', nemu_state m1' = nemu_state m1 /\
    decode_exec cfg enc execute_instruction inst p s m1' = Ok (dnpc, m2)) as (mf & <- & Ed).
  { eexists. split; [| exact E]. by destruct (isSoC cfg). }
  clear E. unfold decode_exec in Ed.
  apply bind_ok in Ed as ([[matched d1] ma] & Ea & Ed). apply bind_ok in Ed as ([d2 mb] & Eb & Ed).
  apply bind_ok in Ed as (mc & Ec & [= <- <-]). apply (set_R_keeps cfg nemu_state) in Ec; [| done]. unfold halted in *. cbn. rewrite Ec.
  assert (nemu_state (record_branch enc p inst d1 ma) = nemu_state mf) as Hb.
  { transitivity (nemu_state ma); [clear; unfold record_branch; by destruct (is_branch inst), (is_std enc inst S_JALR), (is_std enc inst S_JAL) |].
    destruct (negb _); [| by injection Ea as _ _ <-].
    apply bind_ok in Ea as ([[r tmp] mx] & Ea & [= _ _ <-]). by eapply Hexec. }
  rewrite <- Hb. revert Eb. generalize (record_branch enc p inst d1 ma) as mr. intros mr Eb.
  destruct (_ || _); [injection Eb as _ <-; auto |].
  destruct (_ && _); [injection Eb as _ <-; by left |].
  destruct (find_instr enc inst) as [i |]; [by apply exec_instr_nemu in Eb |].
  apply bind_ok in Eb as (mi & Ei & [= _ <-]). apply (invalid_inst_keeps cfg nemu_state) in Ei as (m3 & E3 & ->); [| done].
  unfold set_nemu_state. destruct (sdb_inited m3); cbn; auto.
Qed.

(** A run of [a + b] instructions is a run of [a] continued, unless it stopped. *)
Lemma execute_add a b m :
  state (nemu_state m) = NEMU_RUNNING ->
  execute cfg enc execute_instruction (a + b) m =
    (m1 ← execute cfg enc execute_instruction a m;
     if bool_decide (state (nemu_state m1) = NEMU_RUNNING) then execute cfg enc execute_instruction b m1 else Ok m1) /\
  forall m1, execute cfg enc execute_instruction a m = Ok m1 ->
    state (nemu_state m1) = NEMU_RUNNING \/ halted m1.
Proof.
  revert m. induction a as [|a IH]; intros m Hm; cbn [execute Nat.add].
  { cbn [mbind res_bind]. rewrite bool_decide_true by done.
    split; [done |]. intros m1 [= <-]. by left. }
  destruct (exec_once cfg enc execute_instruction (pc (cpu m)) m) as [m1 | f] eqn:E1; cbn [mbind res_bind]; [| done].
  apply exec_once_nemu in E1.
  destruct (decide (state (nemu_state m1) = NEMU_RUNNING)) as [Hr | Hr].
  - rewrite (bool_decide_true (state (nemu_state (count_inst m1)) = NEMU_RUNNING)) by done. cbn [negb].
    destruct (poll_devices cfg (count_inst m1)) as [m2 | f] eqn:E2; cbn [mbind res_bind]; [| done].
    apply IH. unfold poll_devices in E2. destruct (CONFIG_DEVICE cfg); [| by injection E2 as <-].
    destruct (guest (count_inst m1)) as [mem d]. apply bind_ok in E2 as ([s d'] & E2 & [= <-]).
    apply Hpoll in E2. cbn. by rewrite E2.
  - rewrite (bool_decide_false (state (nemu_state (count_inst m1)) = NEMU_RUNNING)) by done. cbn [negb mbind res_bind].
    rewrite bool_decide_false by done. split; [done |]. intros m2 [= <-]. right. unfold halted in *. cbn.
    destruct E1 as [E1 | E1]; [rewrite E1 in Hr; by destruct Hr | exact E1].
Qed.

(** C22. Single stepping and running agree: running [a + b] instructions is running [a]
    and then [b], whether the program halts, is aborted or is still running after the
    first part - as long as no window event arrives; a run never ends in the running
    state; and once the program has ended, been aborted or been closed, running it again
    changes nothing. *)
Theorem cpu_exec_stepping a b m :
  cpu_exec cfg enc execute_instruction (a + b) m =
    (m1 ← cpu_exec cfg enc execute_instruction a m; cpu_exec cfg enc execute_instruction b m1) /\
  (forall m1, cpu_exec cfg enc execute_instruction a m = Ok m1 -> state (nemu_state m1) <> NEMU_RUNNING) /\
  (halted m \/ state (nemu_state m) = NEMU_QUIT -> cpu_exec cfg enc execute_instruction a m = Ok m).
Proof.
  set (ex := execute cfg enc execute_instruction).
  set (fin := fun m1 => match state (nemu_state m1) with NEMU_RUNNING => with_state NEMU_STOP m1 | _ => m1 end).
  set (ended := fun m => match state (nemu_state m) with NEMU_END | NEMU_ABORT | NEMU_QUIT => true | _ => false end).
  assert (forall n m, cpu_exec cfg enc execute_instruction n m =
    if ended m then Ok m else m1 ← ex n (with_state NEMU_RUNNING m); Ok (fin m1)) as Hc.
  { intros n m0. unfold cpu_exec, ended. by destruct (state (nemu_state m0)). }
  assert (forall m1, state (nemu_state (fin m1)) <> NEMU_RUNNING) as Hfin.
  { intros m1. unfold fin. by destruct (state (nemu_state m1)) eqn:E; rewrite ?E. }
  assert (halted m \/ state (nemu_state m) = NEMU_QUIT -> ended m = true) as Hended.
  { unfold halted, ended. by intros [[-> | ->] | ->]. }
  rewrite !Hc. destruct (ended m) eqn:Hh.
  - cbn [mbind res_bind]. rewrite Hc, Hh. split_and!; [done | | done].
    intros m1 [= <-] E. unfold ended in Hh. by rewrite E in Hh.
  - destruct (execute_add a b (with_state NEMU_RUNNING m) eq_refl) as [Ha Hend]. fold ex in Ha, Hend. split_and!.
    + rewrite Ha. destruct (ex a _) as [m1 |] eqn:E1; cbn [mbind res_bind]; [| done]. rewrite Hc.
      destruct (Hend m1 eq_refl) as [Hr | Hr].
      * rewrite bool_decide_true by done.
        assert (fin m1 = with_state NEMU_STOP m1) as -> by (unfold fin; by rewrite Hr).
        change (ended (with_state NEMU_STOP m1)) with false. cbv iota.
        replace (with_state NEMU_RUNNING (with_state NEMU_STOP m1)) with m1; [done |].
        by destruct m1 as [? ? ? ? ? [] ? ?]; cbn in Hr; subst.
      * rewrite bool_decide_false by (unfold halted in Hr; intuition congruence).
        assert (fin m1 = m1 /\ ended m1 = true) as [Hf He] by (unfold fin, ended; destruct Hr as [-> | ->]; done).
        cbn [mbind res_bind]. by rewrite Hf, He.
    + intros m1 E. apply bind_ok in E as (m2 & _ & [= <-]). apply Hfin.
    + intros H. discriminate (Hended H).
Qed.
End stepping.

(** ** Instances *)

(** The standard encoding. *)
Definition riscv_encoding : encoding := {|
  STD_MATCH i := match i with
    | S_CSRRW => 0x1073 | S_CSRRS => 0x2073 | S_CSRRC => 0x3073
    | S_CSRRWI => 0x5073 | S_CSRRSI => 0x6073 | S_CSRRCI => 0x7073
    | S_EBREAK => 0x100073 | S_ECALL => 0x73 | S_MRET => 0x30200073 | S_JAL => 0x6f | S_JALR => 0x67 end;
  STD_MASK i := match i with
    | S_EBREAK | S_ECALL | S_MRET => 0xffffffff | S_JAL => 0x7f | _ => 0x707f end;
  CSR_ n := match n with
    | FFLAGS => 1 | FRM => 2 | FCSR => 3 | MSTATUS => 0x300 | MTVEC => 0x305 | MSCRATCH => 0x340
    | MEPC => 0x341 | MCAUSE => 0x342 | MTVAL => 0x343 | MVENDORID => 0xf11 | MARCHID => 0xf12 end;
  INSN_FIELD_RD := 0xf80; INSN_FIELD_RS1 := 0xf8000; INSN_FIELD_RS2 := 0x1f00000;
  CAUSE_ILLEGAL_INSTRUCTION := 2; CAUSE_MACHINE_ECALL := 11 |}.

Lemma riscv_encoding_ok : encoding_ok riscv_encoding.
Proof. split; try done; try (by intros []). by intros [] []. Qed.

(** No device, and an interpreter that knows only [addi]. *)
#[local] Instance no_bus : MmioBus () := {| bus_read _ _ _ := Fault FAssert; bus_write _ _ _ _ := Fault FAssert |}.
#[local] Instance no_poll : DevicePoll () := fun s d => Ok (s, d).

Definition addi_only (inst p : Z) (m : machine ()) : res (Z * Z * machine ()) :=
  if (inst &&& 0x707f) =? 0x13 then
    let v := aget 0 (gpr (cpu m)) (BITS inst 19 15) + sext 12 (BITS inst 31 20) in
    Ok (0, u32 (p + 4), set_gpr (aset (gpr (cpu m)) (BITS inst 11 7) (u32 v)) m)
  else Ok (1, p, m).

Lemma addi_only_core inst p m r tmp m' :
  core_ok m -> addi_only inst p m = Ok (r, tmp, m') -> core_ok m'.
Proof.
  intros [] E. unfold addi_only in E. destruct (_ =? _); injection E as _ _ <-; [| by split].
  split; try done; cbn; [by rewrite length_aset |]. apply aset_Forall; [unfold word32; auto with cint | done].
Qed.

Lemma addi_only_nemu inst p m r tmp m' : addi_only inst p m = Ok (r, tmp, m') -> nemu_state m' = nemu_state m.
Proof. unfold addi_only. destruct (_ =? _); by intros [= _ _ <-]. Qed.

Lemma addi_only_rejects inst p m :
  inst &&& 0x7f = 0x0b \/ inst &&& 0x7f = 0x5b ->
  exists r tmp, r <> 0 /\ addi_only inst p m = Ok (r, tmp, m).
Proof.
  intros Hc. unfold addi_only.
  destruct (Z.eqb_spec (inst &&& 0x707f) 0x13) as [E |]; [| by exists 1, p].
  assert (inst &&& 0x7f = 0x13); [| lia].
  change 0x7f with (0x707f &&& 0x7f). by rewrite Z.land_assoc, E.
Qed.

(** addi a0, zero, 5; crcu8 a0, a0, zero; csrrw zero, mscratch, a0; csrrs a1, mscratch, zero;
    addi a0, zero, 0; ebreak *)
Definition sample_program : list Z :=
  [0x00500513; insn_r 0x0b 0 0 10 10 0; 0x34051073; 0x340025f3; 0x00000513; 0x00100073].

Definition sample_machine : machine () :=
  let mem := Memory (fun r => if decide (r = Pmem) then
    mem_of 0 (concat ((fun w => [u8 w; u8 (w >>> 8); u8 (w >>> 16); u8 (w >>> 24)]) <$> sample_program))
    else fun _ => 0) None in
  Machine (CpuState (replicate 32 0) 0x80000000 (replicate 32 (0, 0)) 0) initial_csrs
    (NumericDfa (replicate 8 0) (replicate 8 0) 0) 0 (mem, tt) (NemuState NEMU_STOP 0 0) true
    (Traces 0 None None 0).

Lemma sample_machine_ok : machine_ok sample_machine.
Proof. split; [split |]; try done; repeat constructor; done. Qed.

(** The program ends with exit code 0 after six instructions, the checksum in a1. *)
Example sample_run :
  match cpu_exec (default_config false) riscv_encoding addi_only 100 sample_machine with
  | Ok m => state (nemu_state m) = NEMU_END /\ halt_ret (nemu_state m) = 0 /\ is_exit_status_bad m = false /\
      aget 0 (gpr (cpu m)) 11 = crcu8 5 0 /\ g_nr_guest_inst (tr m) = 6 /\ halt_pc (nemu_state m) = 0x80000014
  | Fault _ => False
  end.
Proof. vm_compute. done. Qed.

Lemma cpu_exec_machine_ok_witness :
  is_ok (cpu_exec (default_config false) riscv_encoding addi_only 6 sample_machine) = true /\
  forall m', cpu_exec (default_config false) riscv_encoding addi_only 6 sample_machine = Ok m' -> machine_ok m'.
Proof.
  split; [vm_compute; reflexivity |]. intros m'.
  apply (cpu_exec_machine_ok (default_config false) riscv_encoding addi_only); try done.
  - intros. by eapply addi_only_core.
  - apply sample_machine_ok.
Defined.

(** The first list instruction on the sample program's memory: x11 receives the word at
    0x80000000, which is cleared, and the list register its address. *)
Lemma xaccel_instructions_witness :
  let m := set_gpr (aset (replicate 32 0) 10 0x80000000) sample_machine in
  exists m2, guest_write (default_config false) 0x80000000 4 0 m = Ok m2 /\
  decode_exec (default_config false) riscv_encoding addi_only 0x0005658b 0x80000000 0x80000004 m =
    Ok (0x80000004, apply_effect (Effect (Some 0x00500513) (dfa m) 0x80000000 (Some (0x80000000, 0)) false) 11 m2).
Proof.
  intros m. destruct (guest_write (default_config false) 0x80000000 4 0 m) as [m2 | e] eqn:E.
  2: { exfalso. assert (is_ok (guest_write (default_config false) 0x80000000 4 0 m) = true) as H
         by (vm_compute; reflexivity). by rewrite E in H. }
  exists m2. split; [done |].
  apply (xaccel_instructions (default_config false) riscv_encoding riscv_encoding_ok addi_only addi_only_rejects
    XACCEL_XLISTREV_INIT 0x0b 6 0 11 10 0 0x80000000 0x80000004 (fun _ => 0x00500513) m m m2
    (Effect (Some 0x00500513) (dfa m) 0x80000000 (Some (0x80000000, 0)) false)); try done.
  econstructor; [vm_compute; reflexivity | constructor].
Defined.

Lemma csr_instructions_witness :
  let m := set_gpr (aset (replicate 32 0) 10 0x35) sample_machine in
  decode_exec (default_config false) riscv_encoding addi_only 0x340525f3 0x80000000 0x80000004 m =
    Ok (0x80000004, set_csrs (write_plain MSCRATCH (0x1800 ||| 0x35) (csrs m))
      (set_gpr (aset (aset (gpr (cpu m)) 11 (u32 0x1800)) 0 0) m)).
Proof.
  apply (csr_instructions (default_config false) riscv_encoding riscv_encoding_ok addi_only
    CSRRS MSCRATCH 0x340525f3); try done; by apply list_elem_of_In; cbn; tauto.
Defined.

Lemma traps_witness :
  let m := sample_machine in
  let c := csrs m in
  let m1 := set_csrs (CsrFile 11 0x80000000 (g_csr_MTVAL c) (g_csr_MVENDORID c)
    (g_csr_MARCHID c) (g_csr_MSTATUS c) (g_csr_MSCRATCH c) (g_csr_MTVEC c)) m in
  decode_exec (default_config false) riscv_encoding addi_only 0x73 0x80000000 0x80000004 m = Ok (g_csr_MTVEC c, m1) /\
  decode_exec (default_config false) riscv_encoding addi_only 0x30200073 0x100 0x104 m1 = Ok (0x80000000, m1) /\
  decode_exec (default_config false) riscv_encoding addi_only 0x00102573 0x80000000 0x80000004 m =
    Ok (g_csr_MTVEC c, set_csrs (CsrFile 2 0x80000000 0x00102573 (g_csr_MVENDORID c)
      (g_csr_MARCHID c) (g_csr_MSTATUS c) (g_csr_MSCRATCH c) (g_csr_MTVEC c)) m).
Proof.
  apply (traps (default_config false) riscv_encoding riscv_encoding_ok addi_only 0x73 0x30200073 0x00102573);
    try done. by left.
Defined.

Lemma cpu_exec_stepping_witness :
  cpu_exec (default_config false) riscv_encoding addi_only (2 + 4) sample_machine =
    (m1 ← cpu_exec (default_config false) riscv_encoding addi_only 2 sample_machine;
     cpu_exec (default_config false) riscv_encoding addi_only 4 m1).
Proof.
  destruct (cpu_exec_stepping (default_config false) riscv_encoding addi_only addi_only_nemu) with
    (a := 2%nat) (b := 4%nat) (m := sample_machine) as [H _]; [| exact H].
  by intros s d s' d' [= <- _].
Defined.
