(* ===== verification/Expr.v ===== *)
(** The debugger's expressions (nemu/src/monitor/sdb/expr.c) and register names
    (nemu/src/isa/riscv32/reg.c): tokens, main operator, evaluation.

    [regexec] is the host's POSIX function and a parameter: for a rule and the rest of the
    input it gives the start and end of the first match.  Memory is read through
    [paddr_read] of the emulator. *)

From S2P Require Import Prelude Memory Cpu.

(** ** Registers by name *)

Definition regs : list String.string :=
  ["$0"; "ra"; "sp"; "gp"; "tp"; "t0"; "t1"; "t2";
   "s0"; "s1"; "a0"; "a1"; "a2"; "a3"; "a4"; "a5";
   "a6"; "a7"; "s2"; "s3"; "s4"; "s5"; "s6"; "s7";
   "s8"; "s9"; "s10"; "s11"; "t3"; "t4"; "t5"; "t6"]%string.

(** [strcmp(s, name) == 0] *)
Definition is_name (s : list Z) (name : String.string) : bool := bool_decide (s = bytes name).

Fixpoint reg_loop (names : list String.string) (i : Z) (s : list Z) : option Z :=
  match names with
  | [] => None
  | name :: names => if is_name s name then Some i else reg_loop names (i + 1) s
  end.

Definition dec_digit (c : Z) : bool := (48 <=? c) && (c <=? 57).
Definition dec_value (s : list Z) : Z := foldl (fun a c => a * 10 + (c - 48)) 0 s.

Definition isa_reg_str2val (cpu : CPU_state) (s : list Z) : option Z :=
  if is_name s "pc"%string then Some (pc cpu)
  else
    match reg_loop regs 0 s with
    | Some i => Some (aget 0 (gpr cpu) i)
    | None =>
        if is_name s "fcsr"%string then Some (fcsr cpu)
        else
          match s with
          | 102 :: c :: s' =>
              if dec_digit c then
                let index := dec_value (c :: s') in
                if forallb dec_digit s' && (index <? 32) then Some (u32 (fst (aget (0, 0) (fpr cpu) index))) else None
              else None
          | _ => None
          end
    end.

(** ** Tokens *)

Inductive token_type :=
| TK_DEC | TK_HEX | TK_REG | TK_DEREF | TK_NOTYPE | TK_EQ | TK_NEQ | TK_AND
| TK_PLUS | TK_MINUS | TK_MUL | TK_DIV | TK_LPAREN | TK_RPAREN.
#[export] Instance token_type_eq_dec : EqDecision token_type.
Proof. solve_decision. Defined.

Record Token := MkToken { type : token_type; str : list Z }.

Definition MAX_TOKEN_NUM : Z := 3000.

(** ["[ \r\n]+"]: the class of the three characters themselves. *)
Definition space_regex : String.string :=
  ("[ " ++ String.String (Ascii.ascii_of_nat 13) (String.String (Ascii.ascii_of_nat 10) "]+"))%string.

(** The rules in the order they are tried. *)
Definition rules : list (String.string * token_type) :=
  [(space_regex, TK_NOTYPE); ("\+", TK_PLUS); ("\-", TK_MINUS); ("\*", TK_MUL); ("/", TK_DIV);
   ("\(", TK_LPAREN); ("\)", TK_RPAREN); ("==", TK_EQ); ("!=", TK_NEQ); ("&&", TK_AND);
   ("\$[a-zA-Z]+[0-9]*", TK_REG); ("0[xX][0-9a-fA-F]+", TK_HEX); ("[0-9]+", TK_DEC)]%string.

Definition type_expect_nxt_is_expr (t : token_type) : bool :=
  match t with
  | TK_PLUS | TK_MINUS | TK_MUL | TK_DIV | TK_EQ | TK_NEQ | TK_AND | TK_LPAREN => true
  | _ => false
  end.

Section tokens.
  (** The match of a rule in the rest of the input: start and end. *)
  Variable regexec : String.string -> list Z -> option (Z * Z).

(** The first rule that matches at the current position, and the length of the match. *)
Fixpoint first_rule (rs : list (String.string * token_type)) (e : list Z) : option (token_type * Z) :=
  match rs with
  | [] => None
  | (re, t) :: rs =>
      match regexec re e with
      | Some (so, eo) => if so =? 0 then Some (t, eo) else first_rule rs e
      | None => first_rule rs e
      end
  end.

(** Records the token of [n] characters of [e]. *)
Definition push_token (toks : list Token) (t : token_type) (e : list Z) (n : Z) : res (list Token) :=
  c_assert (Z.of_nat (length toks) <? MAX_TOKEN_NUM);;
  match t with
  | TK_NOTYPE => Ok toks
  | TK_REG | TK_HEX | TK_DEC =>
      c_assert (n <? 32);;
      Ok (toks ++ [MkToken t (take (Z.to_nat n) e)])
  | TK_MUL =>
      let prefix := match last toks with Some l => type_expect_nxt_is_expr (type l) | None => true end in
      Ok (toks ++ [MkToken (if prefix then TK_DEREF else TK_MUL) []])
  | _ => Ok (toks ++ [MkToken t []])
  end.

(** [None] when no rule matches. *)
Fixpoint make_token_loop (fuel : nat) (e : list Z) (toks : list Token) : res (option (list Token)) :=
  match e with
  | [] => Ok (Some toks)
  | _ =>
      match fuel with
      | O => Fault FFuel
      | S fuel =>
          match first_rule rules e with
          | None => Ok None
          | Some (t, n) =>
              toks ← push_token toks t e n;
              make_token_loop fuel (drop (Z.to_nat n) e) toks
          end
      end
  end.

Definition make_token (e : list Z) : res (option (list Token)) := make_token_loop (length e) e [].
End tokens.

(** ** Evaluation *)

Definition no_token : Token := MkToken TK_NOTYPE [].
Definition type_at (toks : list Token) (i : Z) : token_type := type (aget no_token toks i).

(** The loop over the tokens between the outer parentheses. *)
Fixpoint paren_loop (n : nat) (toks : list Token) (i cnt : Z) : bool :=
  match n with
  | O => cnt =? 0
  | S n =>
      match type_at toks i with
      | TK_LPAREN => paren_loop n toks (i + 1) (cnt + 1)
      | TK_RPAREN => if cnt =? 0 then false else paren_loop n toks (i + 1) (cnt - 1)
      | _ => paren_loop n toks (i + 1) cnt
      end
  end.

Definition check_parentheses (toks : list Token) (p q : Z) : bool :=
  match type_at toks p, type_at toks q with
  | TK_LPAREN, TK_RPAREN => paren_loop (Z.to_nat (q - 1 - p)) toks (p + 1) 0
  | _, _ => false
  end.

Definition is_operator (t : token_type) : bool :=
  match t with
  | TK_PLUS | TK_MINUS | TK_MUL | TK_DIV | TK_EQ | TK_NEQ | TK_AND | TK_DEREF => true
  | _ => false
  end.

(** Only called for operators; the source asserts that. *)
Definition op_priority (t : token_type) : Z :=
  match t with
  | TK_DEREF => 15
  | TK_PLUS | TK_MINUS => 12
  | TK_MUL | TK_DIV => 13
  | TK_AND => 5
  | TK_NEQ | TK_EQ => 9
  | _ => 0
  end.

Fixpoint main_op_loop (n : nat) (toks : list Token) (i main_op min_priority cnt : Z) : Z :=
  match n with
  | O => main_op
  | S n =>
      match type_at toks i with
      | TK_LPAREN => main_op_loop n toks (i + 1) main_op min_priority (cnt + 1)
      | TK_RPAREN => main_op_loop n toks (i + 1) main_op min_priority (cnt - 1)
      | t =>
          if (cnt =? 0) && is_operator t && (op_priority t <=? min_priority)
          then main_op_loop n toks (i + 1) i (op_priority t) cnt
          else main_op_loop n toks (i + 1) main_op min_priority cnt
      end
  end.

Definition find_main_op (toks : list Token) (p q : Z) : res Z :=
  let main_op := main_op_loop (Z.to_nat (q - p + 1)) toks p (-1) 0x114514 0 in
  c_assert (negb (main_op =? -1));;
  Ok main_op.

Definition hex_digit_value (c : Z) : Z := if c <? 65 then c - 48 else if c <? 97 then c - 55 else c - 87.

(** [sscanf(str, "%x", ...)] of a token [0x...]; a value that does not fit is undefined. *)
Definition scan_hex (s : list Z) : res Z :=
  let v := foldl (fun a c => a * 16 + hex_digit_value c) 0 (drop 2 s) in
  if v <? 2 ^ 32 then Ok v else Fault FUndef.

(** [atoi] of a token of digits; a value that does not fit an [int] is undefined. *)
Definition scan_dec (s : list Z) : res Z :=
  let v := dec_value s in
  if v <? 2 ^ 31 then Ok v else Fault FUndef.

(** The values of the operators; [None] for a division by zero. *)
Definition apply_op (t : token_type) (a b : Z) : option Z :=
  match t with
  | TK_PLUS => Some (u32 (a + b))
  | TK_MINUS => Some (u32 (a - b))
  | TK_MUL => Some (u32 (a * b))
  | TK_DIV => if b =? 0 then None else Some (a / b)
  | TK_EQ => Some (b2z (a =? b))
  | TK_NEQ => Some (b2z (negb (a =? b)))
  | TK_AND => Some (b2z (negb (a =? 0) && negb (b =? 0)))
  | _ => None
  end.

Section eval.
  Context (cfg : config) {D : Type} `{MmioBus D} (cpu : CPU_state) (toks : list Token).

(** A single token. *)
Definition eval_token (t : Token) : res (option Z) :=
  match type t with
  | TK_DEC => v ← scan_dec (str t); Ok (Some v)
  | TK_HEX => v ← scan_hex (str t); Ok (Some v)
  | TK_REG => Ok (isa_reg_str2val cpu (drop 1 (str t)))
  | _ => Ok None
  end.

(** The value, or [None] when [*success] is false.  Reading memory may change devices. *)
Fixpoint eval (fuel : nat) (p q : Z) (st : memory * D) : res (option Z * (memory * D)) :=
  match fuel with
  | O => Fault FFuel
  | S fuel =>
      if q <? p then Ok (None, st)
      else if p =? q then
        v ← eval_token (aget no_token toks p);
        Ok (v, st)
      else if check_parentheses toks p q then eval fuel (p + 1) (q - 1) st
      else
        op ← find_main_op toks p q;
        let t := type_at toks op in
        '(val1, st) ← (if bool_decide (t = TK_DEREF) then Ok (Some 0, st) else eval fuel p (op - 1) st);
        match val1 with
        | None => Ok (None, st)
        | Some val1 =>
            '(val2, st) ← eval fuel (op + 1) q st;
            match val2 with
            | None => Ok (None, st)
            | Some val2 =>
                match t with
                | TK_DEREF =>
                    '(v, st) ← paddr_read cfg val2 4 st;
                    Ok (Some v, st)
                | _ => Ok (apply_op t val1 val2, st)
                end
            end
        end
  end.
End eval.

(** The recursion is at most as deep as the expression has tokens. *)
Definition expr (regexec : String.string -> list Z -> option (Z * Z)) (cfg : config) {D} `{MmioBus D}
    (cpu : CPU_state) (e : list Z) (st : memory * D) : res (option Z * (memory * D)) :=
  toks ← make_token regexec e;
  match toks with
  | None => Ok (None, st)
  | Some toks => eval cfg cpu toks (S (length toks)) 0 (Z.of_nat (length toks) - 1) st
  end.

(** ** Syntax trees *)

(** An expression as written: parentheses are kept. *)
Inductive ast := ATok (t : Token) | AParen (a : ast) | ADeref (a : ast) | ABin (op : token_type) (a b : ast).

Fixpoint toks_of (a : ast) : list Token :=
  match a with
  | ATok t => [t]
  | AParen a => MkToken TK_LPAREN [] :: toks_of a ++ [MkToken TK_RPAREN []]
  | ADeref a => MkToken TK_DEREF [] :: toks_of a
  | ABin op a b => toks_of a ++ MkToken op [] :: toks_of b
  end.

(** The main operator outside parentheses: position and priority. *)
Definition main_of (a : ast) : option (Z * Z) :=
  match a with
  | ATok _ | AParen _ => None
  | ADeref _ => Some (0, op_priority TK_DEREF)
  | ABin op a _ => Some (Z.of_nat (length (toks_of a)), op_priority op)
  end.

(** No operator outside parentheses binds weaker than [n]; [strict]: nor as weak. *)
Definition binds (n : Z) (a : ast) : Prop := match main_of a with Some (_, p) => n <= p | None => True end.

Definition binary (op : token_type) : bool :=
  match op with TK_PLUS | TK_MINUS | TK_MUL | TK_DIV | TK_EQ | TK_NEQ | TK_AND => true | _ => false end.

(** The trees the text stands for by the usual precedence, all binary operators associating to
    the left; the operand of a dereference is a token or parenthesised. *)
Fixpoint wf (a : ast) : Prop :=
  match a with
  | ATok t => type t = TK_DEC \/ type t = TK_HEX \/ type t = TK_REG
  | AParen a => wf a
  | ADeref a => wf a /\ main_of a = None
  | ABin op a b => binary op = true /\ wf a /\ wf b /\ binds (op_priority op) a /\ binds (op_priority op + 1) b
  end.

(** The value of a tree: operands from left to right, the first failure ends it. *)
Fixpoint sem (cfg : config) {D} `{MmioBus D} (cpu : CPU_state) (a : ast) (st : memory * D) : res (option Z * (memory * D)) :=
  match a with
  | ATok t => v ← eval_token cpu t; Ok (v, st)
  | AParen a => sem cfg cpu a st
  | ADeref a =>
      '(v, st) ← sem cfg cpu a st;
      match v with
      | None => Ok (None, st)
      | Some v => '(w, st) ← paddr_read cfg v 4 st; Ok (Some w, st)
      end
  | ABin op a b =>
      '(v1, st) ← sem cfg cpu a st;
      match v1 with
      | None => Ok (None, st)
      | Some v1 =>
          '(v2, st) ← sem cfg cpu b st;
          match v2 with
          | None => Ok (None, st)
          | Some v2 => Ok (apply_op op v1 v2, st)
          end
      end
  end.

(** ** The index loops as scans of the segment *)

Lemma type_at_mid pre t post : type_at (pre ++ t :: post) (Z.of_nat (length pre)) = type t.
Proof.
  unfold type_at, aget. rewrite Nat2Z.id, nth_lookup, lookup_app_r, Nat.sub_diag by lia. done.
Qed.

Definition mstate := (Z * Z * Z * Z)%type.

Definition mstep (s : mstate) (t : token_type) : mstate :=
  let '(i, m, mp, c) := s in
  match t with
  | TK_LPAREN => (i + 1, m, mp, c + 1)
  | TK_RPAREN => (i + 1, m, mp, c - 1)
  | t =>
      if (c =? 0) && is_operator t && (op_priority t <=? mp) then (i + 1, i, op_priority t, c)
      else (i + 1, m, mp, c)
  end.

Definition mscan (s : mstate) (l : list Token) : mstate := foldl mstep s (type <$> l).

(** Equality of states, component by component. *)
Ltac tuple_eq := repeat match goal with |- (_, _) = (_, _) => apply f_equal2 end; reflexivity || lia.

Lemma mscan_app s l1 l2 : mscan s (l1 ++ l2) = mscan (mscan s l1) l2.
Proof. unfold mscan. by rewrite fmap_app, foldl_app. Qed.

Lemma main_op_loop_scan l pre post m mp c :
  main_op_loop (length l) (pre ++ l ++ post) (Z.of_nat (length pre)) m mp c =
    (mscan (Z.of_nat (length pre), m, mp, c) l).1.1.2.
Proof.
  revert pre m mp c. induction l as [|t l IH]; intros pre m mp c; cbn [length main_op_loop app]; [done |].
  rewrite type_at_mid. unfold mscan in *. cbn [fmap list_fmap foldl].
  assert (pre ++ t :: l ++ post = (pre ++ [t]) ++ l ++ post) as -> by (by rewrite <- app_assoc).
  assert (Z.of_nat (length pre) + 1 = Z.of_nat (length (pre ++ [t]))) as E by (rewrite length_app; cbn; lia).
  unfold mstep at 2. rewrite E. destruct (type t); try apply IH; destruct (_ && _ && _); apply IH.
Qed.

Fixpoint pscan (l : list Token) (c : Z) : bool :=
  match l with
  | [] => c =? 0
  | t :: l =>
      match type t with
      | TK_LPAREN => pscan l (c + 1)
      | TK_RPAREN => if c =? 0 then false else pscan l (c - 1)
      | _ => pscan l c
      end
  end.

Lemma paren_loop_scan l pre post c :
  paren_loop (length l) (pre ++ l ++ post) (Z.of_nat (length pre)) c = pscan l c.
Proof.
  revert pre c. induction l as [|t l IH]; intros pre c; cbn [length paren_loop app pscan]; [done |].
  rewrite type_at_mid.
  assert (pre ++ t :: l ++ post = (pre ++ [t]) ++ l ++ post) as -> by (by rewrite <- app_assoc).
  assert (Z.of_nat (length pre) + 1 = Z.of_nat (length (pre ++ [t]))) as -> by (rewrite length_app; cbn; lia).
  destruct (type t); try apply IH. destruct (c =? 0); [done | apply IH].
Qed.

(** ** The scans of a well-formed expression *)

(** Inside parentheses nothing is recorded. *)
Lemma mscan_inside a i m mp c :
  wf a -> 0 < c -> mscan (i, m, mp, c) (toks_of a) = (i + Z.of_nat (length (toks_of a)), m, mp, c).
Proof.
  revert i c. induction a as [t | a IH | a IH | op a IHa b IHb]; intros i c Hw Hc; cbn [toks_of wf] in *.
  - cbn. rewrite (proj2 (Z.eqb_neq c 0)) by lia. destruct Hw as [-> | [-> | ->]]; done.
  - change (mscan (i + 1, m, mp, c + 1) (toks_of a ++ [MkToken TK_RPAREN []]) = (i + Z.of_nat (S (length (toks_of a ++ [MkToken TK_RPAREN []]))), m, mp, c)).
    rewrite mscan_app, IH by (done || lia). cbn. rewrite length_app. cbn. tuple_eq.
  - destruct Hw as [Hw _].
    change (mscan (mstep (i, m, mp, c) TK_DEREF) (toks_of a) = (i + Z.of_nat (S (length (toks_of a))), m, mp, c)).
    cbn [mstep]. rewrite (proj2 (Z.eqb_neq c 0)) by lia. cbn [andb]. rewrite IH by done. tuple_eq.
  - destruct Hw as (Hop & Ha & Hb & _ & _). rewrite mscan_app, IHa by done.
    change (mscan (mstep (i + Z.of_nat (length (toks_of a)), m, mp, c) op) (toks_of b) = (i + Z.of_nat (length (toks_of a ++ MkToken op [] :: toks_of b)), m, mp, c)).
    assert (forall j, mstep (j, m, mp, c) op = (j + 1, m, mp, c)) as ->.
    { intros j. destruct op; try discriminate Hop; cbn [mstep]; by rewrite (proj2 (Z.eqb_neq c 0)) by lia. }
    rewrite IHb by done. rewrite length_app. cbn [length]. tuple_eq.
Qed.

(** Outside parentheses the main operator is recorded if it binds at most as strongly as the
    one found so far. *)
Lemma mscan_outside a i m mp :
  wf a ->
  mscan (i, m, mp, 0) (toks_of a) =
    match main_of a with
    | Some (pos, p) => if p <=? mp then (i + Z.of_nat (length (toks_of a)), i + pos, p, 0)
                       else (i + Z.of_nat (length (toks_of a)), m, mp, 0)
    | None => (i + Z.of_nat (length (toks_of a)), m, mp, 0)
    end.
Proof.
  revert i m mp. induction a as [t | a IH | a IH | op a IHa b IHb]; intros i m mp Hw; cbn [toks_of wf main_of] in *.
  - cbn. destruct Hw as [-> | [-> | ->]]; done.
  - change (mscan (i + 1, m, mp, 0 + 1) (toks_of a ++ [MkToken TK_RPAREN []]) = (i + Z.of_nat (S (length (toks_of a ++ [MkToken TK_RPAREN []]))), m, mp, 0)).
    rewrite mscan_app, mscan_inside by (done || lia). cbn. rewrite length_app. cbn. tuple_eq.
  - destruct Hw as [Hw Hn].
    change (mscan (mstep (i, m, mp, 0) TK_DEREF) (toks_of a) = if 15 <=? mp then (i + Z.of_nat (S (length (toks_of a))), i + 0, 15, 0)
                       else (i + Z.of_nat (S (length (toks_of a))), m, mp, 0)).
    cbn [mstep Z.eqb is_operator andb op_priority]. destruct (15 <=? mp); rewrite IH, Hn by done; tuple_eq.
  - destruct Hw as (Hop & Ha & Hb & Hpa & Hpb). unfold binds in Hpa, Hpb. rewrite mscan_app, IHa by done.
    set (la := Z.of_nat (length (toks_of a))) in *.
    assert (length (toks_of a ++ MkToken op [] :: toks_of b) = S (length (toks_of a) + length (toks_of b))) as -> by (rewrite length_app; cbn; lia).
    assert (forall j m' mp', mstep (j, m', mp', 0) op = if op_priority op <=? mp' then (j + 1, j, op_priority op, 0) else (j + 1, m', mp', 0)) as Hstep
      by (intros; by destruct op).
    assert (forall j m' mp', mp' < op_priority op + 1 -> mscan (j, m', mp', 0) (toks_of b) = (j + Z.of_nat (length (toks_of b)), m', mp', 0)) as Hbs.
    { intros j m' mp' Hlt. rewrite IHb by done. destruct (main_of b) as [[pos p] |]; [| done].
      by rewrite (proj2 (Z.leb_gt p mp')) by lia. }
    assert (forall j m' mp', mscan (j, m', mp', 0) (MkToken op [] :: toks_of b) =
      if op_priority op <=? mp' then (j + 1 + Z.of_nat (length (toks_of b)), j, op_priority op, 0)
      else (j + 1 + Z.of_nat (length (toks_of b)), m', mp', 0)) as Hrest.
    { intros j m' mp'. change (mscan (mstep (j, m', mp', 0) op) (toks_of b) = if op_priority op <=? mp' then (j + 1 + Z.of_nat (length (toks_of b)), j, op_priority op, 0)
      else (j + 1 + Z.of_nat (length (toks_of b)), m', mp', 0)). rewrite Hstep.
      destruct (Z.leb_spec (op_priority op) mp'); apply Hbs; lia. }
    destruct (main_of a) as [[pos p] |].
    + destruct (Z.leb_spec p mp); rewrite Hrest; destruct (Z.leb_spec (op_priority op) p), (Z.leb_spec (op_priority op) mp);
        try lia; tuple_eq.
    + rewrite Hrest. destruct (op_priority op <=? mp); tuple_eq.
Qed.

(** Well-formed expressions have balanced parentheses. *)
Lemma pscan_balanced a l c : wf a -> 0 <= c -> pscan (toks_of a ++ l) c = pscan l c.
Proof.
  revert l c. induction a as [t | a IH | a IH | op a IHa b IHb]; intros l c Hw Hc; cbn [toks_of wf app pscan type] in *.
  - destruct Hw as [-> | [-> | ->]]; done.
  - rewrite <- app_assoc, IH by (done || lia). cbn [app pscan type]. rewrite (proj2 (Z.eqb_neq (c + 1) 0)) by lia.
    by replace (c + 1 - 1) with c by lia.
  - destruct Hw as [Hw _]. by apply IH.
  - destruct Hw as (Hop & Ha & Hb & _). rewrite <- app_assoc, IHa by done. cbn [app pscan type].
    destruct op; try discriminate Hop; by apply IHb.
Qed.

(** An expression that begins with a parenthesis: the matching one, and what follows. *)
Lemma starts_with_paren a t l :
  wf a -> toks_of a = t :: l -> type t = TK_LPAREN ->
  exists inner rest, wf inner /\ l = toks_of inner ++ MkToken TK_RPAREN [] :: rest /\ (rest = [] -> exists b, a = AParen b).
Proof.
  revert t l. induction a as [t' | a IH | a IH | op a IHa b IHb]; intros t l Hw El Ht; cbn [toks_of wf] in *.
  - injection El as <- <-. destruct Hw as [E | [E | E]]; rewrite E in Ht; done.
  - injection El as <- <-. exists a, []. split_and!; try done. by exists a.
  - injection El as <- <-. done.
  - destruct Hw as (_ & Ha & _). destruct (toks_of a) as [|t0 l0] eqn:Ea.
    { exfalso. destruct a; cbn in Ea; try done. by apply app_nil in Ea as [_ ?]. }
    cbn [app] in El. injection El as -> <-. destruct (IHa t l0 Ha eq_refl Ht) as (inner & rest & Hi & -> & _).
    exists inner, (rest ++ MkToken op [] :: toks_of b). split_and!; [done | by rewrite <- app_assoc |].
    intros E. by apply app_nil in E as [_ ?].
Qed.

Lemma toks_of_nonempty a : exists t l, toks_of a = t :: l.
Proof.
  destruct (toks_of a) as [|t l] eqn:E; [| by exists t, l]. exfalso.
  destruct a; cbn in E; try done. by apply app_nil in E as [_ ?].
Qed.

Lemma check_paren a pre post :
  wf a -> check_parentheses (pre ++ toks_of (AParen a) ++ post) (Z.of_nat (length pre))
            (Z.of_nat (length pre) + Z.of_nat (length (toks_of (AParen a))) - 1) = true.
Proof.
  intros Hw. unfold check_parentheses. cbn [toks_of app]. rewrite type_at_mid. cbn [type].
  set (lp := MkToken TK_LPAREN []). set (rp := MkToken TK_RPAREN []).
  assert (pre ++ lp :: (toks_of a ++ [rp]) ++ post = (pre ++ lp :: toks_of a) ++ rp :: post) as -> by (by rewrite <- !app_assoc).
  assert (Z.of_nat (length pre) + Z.of_nat (length (lp :: toks_of a ++ [rp])) - 1 = Z.of_nat (length (pre ++ lp :: toks_of a))) as ->
    by (rewrite !length_app; cbn [length]; rewrite length_app; cbn; lia).
  rewrite type_at_mid. cbn [type rp].
  assert ((pre ++ lp :: toks_of a) ++ rp :: post = (pre ++ [lp]) ++ toks_of a ++ (rp :: post)) as -> by (by rewrite <- !app_assoc).
  replace (Z.to_nat _) with (length (toks_of a)) by (rewrite length_app; cbn [length]; lia).
  replace (Z.of_nat (length pre) + 1) with (Z.of_nat (length (pre ++ [lp]))) by (rewrite length_app; cbn; lia).
  rewrite paren_loop_scan. rewrite <- (app_nil_r (toks_of a)). by rewrite pscan_balanced.
Qed.

Lemma check_no_paren a pre post :
  wf a -> (forall b, a <> AParen b) -> (1 < length (toks_of a))%nat ->
  check_parentheses (pre ++ toks_of a ++ post) (Z.of_nat (length pre))
    (Z.of_nat (length pre) + Z.of_nat (length (toks_of a)) - 1) = false.
Proof.
  intros Hw Hn Hl. destruct (toks_of_nonempty a) as (t & l & El). rewrite El in *. cbn [length] in Hl.
  unfold check_parentheses. cbn [app]. rewrite type_at_mid.
  destruct (type t) eqn:Et; try done.
  destruct (starts_with_paren a t l Hw El Et) as (inner & rest & Hi & -> & Hr).
  destruct (rest) as [|r0 rest0] eqn:Er; [by destruct Hr as [b ->]; [| destruct (Hn b)] |].
  destruct (exists_last (l := r0 :: rest0)) as (rest' & tl & E); [done |]. rewrite E. clear Er E Hr.
  set (mid := toks_of inner ++ MkToken TK_RPAREN [] :: rest').
  assert (toks_of inner ++ MkToken TK_RPAREN [] :: rest' ++ [tl] = mid ++ [tl]) as -> by (unfold mid; by rewrite <- app_assoc).
  assert (pre ++ t :: (mid ++ [tl]) ++ post = (pre ++ t :: mid) ++ tl :: post) as -> by (by rewrite <- !app_assoc).
  replace (Z.of_nat (length pre) + Z.of_nat (length (t :: mid ++ [tl])) - 1) with (Z.of_nat (length (pre ++ t :: mid)))
    by (rewrite !length_app; cbn [length]; rewrite length_app; cbn; lia).
  rewrite type_at_mid. destruct (type tl); try done.
  assert ((pre ++ t :: mid) ++ tl :: post = (pre ++ [t]) ++ mid ++ (tl :: post)) as -> by (by rewrite <- !app_assoc).
  replace (Z.to_nat _) with (length mid) by (rewrite length_app; cbn [length]; lia).
  replace (Z.of_nat (length pre) + 1) with (Z.of_nat (length (pre ++ [t]))) by (rewrite length_app; cbn; lia).
  rewrite paren_loop_scan. unfold mid. by rewrite pscan_balanced.
Qed.

Lemma find_main_op_correct a pre post pos pr :
  wf a -> main_of a = Some (pos, pr) ->
  find_main_op (pre ++ toks_of a ++ post) (Z.of_nat (length pre))
    (Z.of_nat (length pre) + Z.of_nat (length (toks_of a)) - 1) = Ok (Z.of_nat (length pre) + pos).
Proof.
  intros Hw Hm. unfold find_main_op.
  replace (Z.to_nat _) with (length (toks_of a)) by lia. rewrite main_op_loop_scan, mscan_outside, Hm by done.
  assert (pr <= 15 /\ 0 <= pos) as [Hpr Hpos].
  { destruct a as [| | | op a b]; cbn in Hm; try done; injection Hm as <- <-; [lia |]. destruct op; cbn; lia. }
  rewrite (proj2 (Z.leb_le pr 0x114514)) by lia. cbn [fst snd]. by rewrite (proj2 (Z.eqb_neq _ (-1))) by lia.
Qed.

Section eval_correct.
  Context (cfg : config) {D : Type} `{!MmioBus D} (cpu : CPU_state).

Lemma eval_segment a : forall pre post toks p q fuel st,
  wf a -> toks = pre ++ toks_of a ++ post -> p = Z.of_nat (length pre) ->
  q = Z.of_nat (length pre) + Z.of_nat (length (toks_of a)) - 1 -> (length (toks_of a) <= fuel)%nat ->
  eval cfg cpu toks fuel p q st = sem cfg cpu a st.
Proof using Type.
  induction a as [t | a IH | a IH | op a IHa b IHb]; intros pre post toks p q fuel st Hw Et Ep Eq Hf;
    (destruct fuel as [|fuel];
       [exfalso; match type of Hf with (length (toks_of ?a) <= 0)%nat =>
                   destruct (toks_of_nonempty a) as (? & ? & E); rewrite E in Hf; cbn in Hf; lia end |]);
    subst toks p q; cbn [eval].
  - cbn [toks_of length sem app]. rewrite (proj2 (Z.ltb_ge _ _)) by lia.
    replace (Z.of_nat (length pre) + Z.of_nat 1 - 1) with (Z.of_nat (length pre)) by lia. rewrite Z.eqb_refl.
    unfold aget. by rewrite Nat2Z.id, nth_lookup, lookup_app_r, Nat.sub_diag by lia.
  - assert (length (toks_of (AParen a)) = S (S (length (toks_of a)))) as El by (cbn [toks_of length]; rewrite length_app; cbn; lia).
    rewrite (proj2 (Z.ltb_ge _ _)), (proj2 (Z.eqb_neq _ _)), check_paren by (done || lia).
    apply (IH (pre ++ [MkToken TK_LPAREN []]) ([MkToken TK_RPAREN []] ++ post)); [done | | | | lia].
    + cbn [toks_of app]. by rewrite <- !app_assoc.
    + rewrite length_app. cbn. lia.
    + rewrite El, length_app. cbn [length]. lia.
  - pose proof Hw as [Hwa Hn]. destruct (toks_of_nonempty a) as (t0 & l0 & E0).
    assert (length (toks_of (ADeref a)) = S (length (toks_of a)) /\ 0 < length (toks_of a))%nat as [El Hpos] by (split; [reflexivity | rewrite E0; cbn; lia]).
    rewrite (proj2 (Z.ltb_ge _ _)), (proj2 (Z.eqb_neq _ _)), check_no_paren by (done || lia).
    rewrite (find_main_op_correct (ADeref a) pre post 0 15) by done. cbn [mbind res_bind]. rewrite Z.add_0_r.
    change (toks_of (ADeref a) ++ post) with (MkToken TK_DEREF [] :: toks_of a ++ post).
    rewrite type_at_mid. cbn [type]. rewrite bool_decide_true by done. cbn [mbind res_bind sem].
    rewrite (IH (pre ++ [MkToken TK_DEREF []]) post); [done | done | | | | lia].
    + by rewrite <- app_assoc.
    + rewrite length_app. cbn. lia.
    + rewrite El, length_app. cbn [length]. lia.
  - pose proof Hw as (Hop & Hwa & Hwb & _). destruct (toks_of_nonempty a) as (t0 & l0 & E0), (toks_of_nonempty b) as (t1 & l1 & E1).
    assert (length (toks_of (ABin op a b)) = S (length (toks_of a) + length (toks_of b)))%nat as El by (cbn [toks_of]; rewrite length_app; cbn; lia).
    assert (0 < length (toks_of a) /\ 0 < length (toks_of b))%nat as [Ha0 Hb0] by (rewrite E0, E1; cbn; lia).
    rewrite (proj2 (Z.ltb_ge _ _)), (proj2 (Z.eqb_neq _ _)), check_no_paren by (done || lia).
    rewrite (find_main_op_correct (ABin op a b) pre post (Z.of_nat (length (toks_of a))) (op_priority op)) by done.
    cbn [mbind res_bind].
    assert (pre ++ toks_of (ABin op a b) ++ post = (pre ++ toks_of a) ++ MkToken op [] :: toks_of b ++ post) as Etoks
      by (cbn [toks_of]; by rewrite <- !app_assoc).
    assert (type_at (pre ++ toks_of (ABin op a b) ++ post) (Z.of_nat (length pre) + Z.of_nat (length (toks_of a))) = op) as ->.
    { rewrite Etoks, <- Nat2Z.inj_add, <- length_app. apply type_at_mid. }
    rewrite bool_decide_false by (intros ->; done). cbn [sem].
    rewrite (IHa pre (MkToken op [] :: toks_of b ++ post)); [| done | by rewrite Etoks, <- app_assoc | done | lia | lia].
    destruct (sem cfg cpu a st) as [[[v1 |] st1] |]; cbn [mbind res_bind]; [| done | done].
    rewrite (IHb (pre ++ toks_of a ++ [MkToken op []]) post); [| done | | | | lia].
    + destruct (sem cfg cpu b st1) as [[[v2 |] st2] |]; cbn [mbind res_bind]; [| done | done].
      by destruct op.
    + by rewrite Etoks, <- !app_assoc.
    + rewrite !length_app. cbn [length]. lia.
    + rewrite El, !length_app. cbn [length]. lia.
Qed.
End eval_correct.

(** ** Termination on every input *)

Lemma main_op_range n toks i m mp c :
  let r := main_op_loop n toks i m mp c in r = m \/ i <= r < i + Z.of_nat n.
Proof.
  revert i m mp c. induction n as [|n IH]; intros i m mp c; cbn [main_op_loop]; [by left |].
  destruct (type_at toks i); try (destruct (IH (i + 1) m mp (c + 1)); [by left | right; lia]);
    try (destruct (IH (i + 1) m mp (c - 1)); [by left | right; lia]);
    (destruct (_ && _ && _);
      [match goal with |- context [main_op_loop n toks (i + 1) i ?p c] => destruct (IH (i + 1) i p c) as [E | E];
         [rewrite E; right; lia | right; lia] end |
       destruct (IH (i + 1) m mp c); [by left | right; lia]]).
Qed.

Lemma eval_no_fuel cfg {D} `{!MmioBus D} cpu toks fuel p q (st : memory * D) :
  (forall a st, paddr_read cfg (D := D) a 4 st <> Fault FFuel) ->
  (0 < fuel)%nat -> q - p + 1 < Z.of_nat fuel -> 0 <= p ->
  eval cfg cpu toks fuel p q st <> Fault FFuel.
Proof.
  intros Hr. revert p q st. induction fuel as [|fuel IH]; intros p q st H0 Hf Hp; [lia |]. cbn [eval].
  destruct (Z.ltb_spec q p); [done |]. destruct (Z.eqb_spec p q) as [-> |].
  { unfold eval_token, scan_dec, scan_hex. destruct (type _); cbn [mbind res_bind]; try done; case_match; done. }
  destruct (check_parentheses toks p q); [apply IH; lia |].
  unfold find_main_op. pose proof (main_op_range (Z.to_nat (q - p + 1)) toks p (-1) 0x114514 0) as Hm. cbv zeta in Hm.
  set (op := main_op_loop _ _ _ _ _ _) in *. destruct (Z.eqb_spec op (-1)); [done |]. cbn [negb c_assert mbind res_bind].
  assert (p <= op <= q) as Hop by lia. clearbody op.
  assert (forall r : res (option Z * (memory * D)), r <> Fault FFuel ->
    forall k, (forall v st, k v st <> Fault FFuel) -> ('(v, st) ← r; k v st) <> Fault (A := option Z * (memory * D)) FFuel) as Hbind.
  { intros [[v st'] | f] Hnf k Hk; cbn [mbind res_bind]; [apply Hk | congruence]. }
  apply Hbind.
  - destruct (bool_decide _); [done | apply IH; lia].
  - intros [v1 |] st1; [| done]. apply Hbind; [apply IH; lia |]. intros [v2 |] st2; [| done].
    destruct (type_at toks op); try done. specialize (Hr v2 st2). destruct (paddr_read cfg v2 4 st2) as [[w st3] | f]; cbn; congruence.
Qed.

(** C27. The debugger evaluates expressions by the usual rules.  If the input is tokenised as
    the text of a well-formed syntax tree - binary operators by precedence, associating to
    the left, parentheses, registers, numbers, dereferences - the result is the tree's value
    (with the effects of its memory reads, in order), or failure exactly when the tree's
    evaluation fails (unknown register, division by zero).  On every other token sequence
    the evaluation still terminates. *)
Theorem expr_evaluates regexec cfg {D} `{!MmioBus D} cpu e toks (st : memory * D) :
  make_token regexec e = Ok (Some toks) ->
  (forall a, toks = toks_of a -> wf a -> expr regexec cfg cpu e st = sem cfg cpu a st) /\
  ((forall a st, paddr_read cfg (D := D) a 4 st <> Fault FFuel) -> expr regexec cfg cpu e st <> Fault FFuel).
Proof.
  intros Em. unfold expr. rewrite Em. cbn [mbind res_bind]. split.
  - intros a -> Hw. apply (eval_segment cfg cpu a [] []); [done | by rewrite app_nil_r | done | cbn; lia | lia].
  - intros Hr. apply eval_no_fuel; [done | lia | lia | lia].
Qed.

(** ** Examples the theorem applies to *)

Fixpoint span (f : Z -> bool) (l : list Z) : Z :=
  match l with c :: l => if f c then 1 + span f l else 0 | [] => 0 end.

Fixpoint strip (s l : list Z) : option (list Z) :=
  match s, l with
  | [], l => Some l
  | c :: s, d :: l => if c =? d then strip s l else None
  | _, [] => None
  end.

Definition letter (c : Z) : bool := ((65 <=? c) && (c <=? 90)) || ((97 <=? c) && (c <=? 122)).
Definition hex_digit (c : Z) : bool := dec_digit c || ((65 <=? c) && (c <=? 70)) || ((97 <=? c) && (c <=? 102)).
Definition at_least_one (n : Z) : option (Z * Z) := if n =? 0 then None else Some (0, n).

(** The matches of the rules at the beginning of the input. *)
Definition match_start (re : String.string) (e : list Z) : option (Z * Z) :=
  let lit s := match strip (bytes s) e with Some _ => Some (0, Z.of_nat (length (bytes s))) | None => None end in
  let re_is := String.eqb re in
  if re_is space_regex then at_least_one (span (fun c => (c =? 32) || (c =? 13) || (c =? 10)) e)
  else if re_is "\+"%string then lit "+"%string
  else if re_is "\-"%string then lit "-"%string
  else if re_is "\*"%string then lit "*"%string
  else if re_is "/"%string then lit "/"%string
  else if re_is "\("%string then lit "("%string
  else if re_is "\)"%string then lit ")"%string
  else if re_is "=="%string then lit "=="%string
  else if re_is "!="%string then lit "!="%string
  else if re_is "&&"%string then lit "&&"%string
  else if re_is "\$[a-zA-Z]+[0-9]*"%string then
    match e with
    | 36 :: l => let n := span letter l in if n =? 0 then None else Some (0, 1 + n + span dec_digit (drop (Z.to_nat n) l))
    | _ => None
    end
  else if re_is "0[xX][0-9a-fA-F]+"%string then
    match e with
    | 48 :: x :: l => if (x =? 120) || (x =? 88) then
                        let n := span hex_digit l in if n =? 0 then None else Some (0, 2 + n)
                      else None
    | _ => None
    end
  else at_least_one (span dec_digit e).

#[local] Instance no_device_bus : MmioBus () := {| bus_read _ _ _ := Fault FAssert; bus_write _ _ _ _ := Fault FAssert |}.

(** Memory with 1234 at 0x80000010, and a0 = 0x80000000. *)
Definition sample_memory : memory * () :=
  (Memory (fun r => if decide (r = Pmem) then mem_of 16 [0xd2; 0x04] else fun _ => 0) None, tt).
Definition sample_cpu : CPU_state := CpuState (aset (replicate 32 0) 10 0x80000000) 0x80000100 (replicate 32 (0, 0)) 0.

Definition sample_expr (e : String.string) : res (option Z) :=
  fst <$> expr match_start (default_config false) sample_cpu (bytes e) sample_memory.

(** The last three: a dereference of a dereference is rejected, two numbers in a row stop the emulator, and the
    zero register has no name the tokenizer accepts. *)
Example expressions :
  sample_expr "1 + 2 * (3 - 1) == 5 && $pc != 0" = Ok (Some 1) /\
  sample_expr "10 - 3 - 2" = Ok (Some 5) /\ sample_expr "*($a0 + 0x10)" = Ok (Some 1234) /\
  sample_expr "7 / (2 - 2)" = Ok None /\ sample_expr "$xyz" = Ok None /\
  sample_expr "**($a0 + 0x10)" = Ok None /\ sample_expr "1 2" = Fault FAssert /\ sample_expr "$0" = Ok None.
Proof. vm_compute. intuition. Qed.

(** The tree of [2*($a0-1)]. *)
Definition sample_ast : ast :=
  ABin TK_MUL (ATok (MkToken TK_DEC (bytes "2")))
    (AParen (ABin TK_MINUS (ATok (MkToken TK_REG (bytes "$a0"))) (ATok (MkToken TK_DEC (bytes "1"))))).

Lemma expr_evaluates_witness :
  make_token match_start (bytes "2*($a0-1)") = Ok (Some (toks_of sample_ast)) /\ wf sample_ast /\
  expr match_start (default_config false) sample_cpu (bytes "2*($a0-1)") sample_memory =
    sem (default_config false) sample_cpu sample_ast sample_memory.
Proof.
  assert (make_token match_start (bytes "2*($a0-1)") = Ok (Some (toks_of sample_ast))) as E by reflexivity.
  assert (wf sample_ast) as Hw by (cbn; intuition; vm_compute; discriminate).
  split; [exact E |]. split; [exact Hw |].
  apply (expr_evaluates match_start (default_config false) sample_cpu (bytes "2*($a0-1)") (toks_of sample_ast) sample_memory E);
    [reflexivity | exact Hw].
Defined.
