(* ===== verification/Watchpoint.v ===== *)
(** Watchpoints (nemu/src/monitor/sdb/watchpoint.c): a pool of 32 nodes linked into the list
    of watchpoints in use and the free list, and the operations of the debugger on them.

    Pointers into the pool are indices; the guest's state, read by the expressions, is the
    machine of the emulator.  [watchpoints_refine] shows that the linked lists behave as the
    two plain lists of [watch_list]. *)

From S2P Require Import Prelude Memory Devices Cpu Expr.

Definition NR_WP : nat := 32.

Record WP := MkWP { NO : Z; next : option nat; wp_expr : list Z; last_value : Z }.

Record wp_state := WpState { wp_pool : list WP; head : option nat; free_ : option nat }.

Definition blank_wp : WP := MkWP 0 None [] 0.
Definition wp_at (w : wp_state) (i : nat) : WP := nth i (wp_pool w) blank_wp.

Definition set_next (n : option nat) (x : WP) : WP := MkWP (NO x) n (wp_expr x) (last_value x).
Definition set_value (v : Z) (x : WP) : WP := MkWP (NO x) (next x) (wp_expr x) v.
Definition set_expr (e : list Z) (x : WP) : WP := MkWP (NO x) (next x) e (last_value x).
Definition upd_wp (w : wp_state) (i : nat) (f : WP -> WP) : wp_state :=
  WpState (alter f i (wp_pool w)) (head w) (free_ w).
Definition set_head (h : option nat) (w : wp_state) : wp_state := WpState (wp_pool w) h (free_ w).
Definition set_free (h : option nat) (w : wp_state) : wp_state := WpState (wp_pool w) (head w) h.

(** ** The operations *)

Definition init_wp_pool (w : wp_state) : wp_state :=
  let init i x := MkWP (Z.of_nat i) (if (i =? NR_WP - 1)%nat then None else Some (S i)) (wp_expr x) (last_value x) in
  WpState (imap init (wp_pool w)) None (Some 0%nat).

(** The new node is the first of the list in use. *)
Definition new_wp (w : wp_state) : res (nat * wp_state) :=
  match free_ w with
  | None => Fault FAssert
  | Some wp =>
      let w := set_free (next (wp_at w wp)) w in
      let w := upd_wp w wp (set_next (head w)) in
      Ok (wp, set_head (Some wp) w)
  end.

(** The node whose successor is [wp]; [None] when there is none. *)
Fixpoint find_prev (fuel : nat) (w : wp_state) (prev : option nat) (wp : nat) : res (option nat) :=
  match prev with
  | None => Ok None
  | Some p =>
      if bool_decide (next (wp_at w p) = Some wp) then Ok (Some p)
      else match fuel with
           | O => Fault FFuel
           | S fuel => find_prev fuel w (next (wp_at w p)) wp
           end
  end.

Definition free_wp (w : wp_state) (wp : option nat) : res wp_state :=
  match wp with
  | None => Ok w
  | Some wp =>
      w ← (if bool_decide (head w = Some wp) then Ok (set_head (next (wp_at w wp)) w)
           else
             prev ← find_prev NR_WP w (head w) wp;
             Ok (match prev with
                 | None => w
                 | Some prev => upd_wp w prev (set_next (next (wp_at w wp)))
                 end));
      let w := upd_wp w wp (set_next (free_ w)) in
      Ok (set_free (Some wp) w)
  end.

(** The first node of the list from [wp] with number [no]. *)
Fixpoint find_no (fuel : nat) (w : wp_state) (wp : option nat) (no : Z) : res (option nat) :=
  match wp with
  | None => Ok None
  | Some i =>
      if NO (wp_at w i) =? no then Ok (Some i)
      else match fuel with
           | O => Fault FFuel
           | S fuel => find_no fuel w (next (wp_at w i)) no
           end
  end.

(** [true] when the watchpoint existed. *)
Definition delete_wp (w : wp_state) (no : Z) : res (bool * wp_state) :=
  wp ← find_no NR_WP w (head w) no;
  match wp with
  | None => Ok (false, w)
  | Some i => w ← free_wp w (Some i); Ok (true, w)
  end.

(** The rows of the listing: number, last value, expression. *)
Fixpoint info_loop (fuel : nat) (w : wp_state) (wp : option nat) : res (list (Z * Z * list Z)) :=
  match wp with
  | None => Ok []
  | Some i =>
      match fuel with
      | O => Fault FFuel
      | S fuel =>
          let x := wp_at w i in
          rows ← info_loop fuel w (next x);
          Ok ((NO x, last_value x, wp_expr x) :: rows)
      end
  end.

Definition info_wp (w : wp_state) : res (list (Z * Z * list Z)) := info_loop NR_WP w (head w).

Section with_guest.
  Context (regexec : String.string -> list Z -> option (Z * Z)) (cfg : config) {D : Type} `{MmioBus D}.
  Implicit Type m : machine D.

(** The value of an expression in the guest, which reading memory may change. *)
Definition guest_expr (e : list Z) m : res (option Z * machine D) :=
  '(v, g) ← expr regexec cfg (cpu m) e (guest m);
  Ok (v, set_guest g m).

(** [sexpr] is cut to the 511 characters that fit; [true] when the watchpoint was set. *)
Definition add_wp (w : wp_state) (sexpr : list Z) m : res (bool * wp_state * machine D) :=
  '(wp, w) ← new_wp w;
  let w := upd_wp w wp (set_expr (take 511 sexpr)) in
  '(v, m) ← guest_expr (wp_expr (wp_at w wp)) m;
  let w := upd_wp w wp (set_value (default 0 v)) in
  match v with
  | None => w ← free_wp w (Some wp); Ok (false, w, m)
  | Some _ => Ok (true, w, m)
  end.

(** Evaluates the watchpoints in use; a changed value is recorded and stops the guest. *)
Fixpoint check_loop (fuel : nat) (w : wp_state) (wp : option nat) m : res (wp_state * machine D) :=
  match wp with
  | None => Ok (w, m)
  | Some i =>
      match fuel with
      | O => Fault FFuel
      | S fuel =>
          '(v, m) ← guest_expr (wp_expr (wp_at w i)) m;
          match v with
          | None => check_loop fuel w (next (wp_at w i)) m
          | Some new_value =>
              if negb (new_value =? last_value (wp_at w i)) then
                let w := upd_wp w i (set_value new_value) in
                check_loop fuel w (next (wp_at w i)) (set_nemu_state NEMU_STOP 0 0 m)
              else check_loop fuel w (next (wp_at w i)) m
          end
      end
  end.

Definition check_wp (w : wp_state) m : res (wp_state * machine D) := check_loop NR_WP w (head w) m.
End with_guest.

(** ** The specification: two lists *)

(** Watchpoints in use, newest first, with expression and last value; free numbers. *)
Record watch_list := WatchList { used : list (nat * (list Z * Z)); avail : list nat }.

Definition no_watchpoints : watch_list := WatchList [] (seq 0 NR_WP).

Inductive command := CmdAdd (e : list Z) | CmdDelete (no : Z) | CmdInfo | CmdCheck.
Inductive answer := ADone (b : bool) | ARows (l : list (Z * Z * list Z)) | AChecked.

Section spec.
  Context (regexec : String.string -> list Z -> option (Z * Z)) (cfg : config) {D : Type} `{MmioBus D}.
  Implicit Type m : machine D.

Definition spec_add (a : watch_list) (e : list Z) m : res (bool * watch_list * machine D) :=
  match avail a with
  | [] => Fault FAssert
  | i :: l =>
      '(v, m) ← guest_expr regexec cfg (take 511 e) m;
      Ok (match v with
          | None => (false, a, m)
          | Some v => (true, WatchList ((i, (take 511 e, v)) :: used a) l, m)
          end)
  end.

Definition spec_delete (a : watch_list) (no : Z) : bool * watch_list :=
  let is_no := fun r : nat * (list Z * Z) => Z.of_nat r.1 = no in
  if bool_decide (Exists is_no (used a))
  then (true, WatchList (filter (fun r => ~ is_no r) (used a)) (Z.to_nat no :: avail a))
  else (false, a).

Definition spec_rows (a : watch_list) : list (Z * Z * list Z) :=
  (fun '(i, (e, v)) => (Z.of_nat i, v, e)) <$> used a.

Fixpoint check_rows (l : list (nat * (list Z * Z))) m : res (list (nat * (list Z * Z)) * machine D) :=
  match l with
  | [] => Ok ([], m)
  | (i, (e, v)) :: l =>
      '(v', m) ← guest_expr regexec cfg e m;
      let v' := default v v' in
      '(l, m) ← check_rows l (if v' =? v then m else set_nemu_state NEMU_STOP 0 0 m);
      Ok ((i, (e, v')) :: l, m)
  end.

(** One command and a sequence of commands: the answers and the guest afterwards. *)
Definition spec_step (a : watch_list) (c : command) m : res (answer * watch_list * machine D) :=
  match c with
  | CmdAdd e => '(b, a, m) ← spec_add a e m; Ok (ADone b, a, m)
  | CmdDelete no => let '(b, a) := spec_delete a no in Ok (ADone b, a, m)
  | CmdInfo => Ok (ARows (spec_rows a), a, m)
  | CmdCheck => '(l, m) ← check_rows (used a) m; Ok (AChecked, WatchList l (avail a), m)
  end.

Definition wp_step (w : wp_state) (c : command) m : res (answer * wp_state * machine D) :=
  match c with
  | CmdAdd e => '(b, w, m) ← add_wp regexec cfg w e m; Ok (ADone b, w, m)
  | CmdDelete no => '(b, w) ← delete_wp w no; Ok (ADone b, w, m)
  | CmdInfo => rows ← info_wp w; Ok (ARows rows, w, m)
  | CmdCheck => '(w, m) ← check_wp regexec cfg w m; Ok (AChecked, w, m)
  end.

Fixpoint run {S} (step : S -> command -> machine D -> res (answer * S * machine D))
    (s : S) (cs : list command) m : res (list answer * machine D) :=
  match cs with
  | [] => Ok ([], m)
  | c :: cs =>
      '(x, s, m) ← step s c m;
      '(xs, m) ← run step s cs m;
      Ok (x :: xs, m)
  end.
End spec.

(** ** Linked lists in the pool *)

Fixpoint chain (w : wp_state) (p : option nat) (l : list nat) : Prop :=
  match l with
  | [] => p = None
  | i :: l => p = Some i /\ chain w (next (wp_at w i)) l
  end.

Lemma wp_at_upd w i f j :
  (i < length (wp_pool w))%nat -> wp_at (upd_wp w i f) j = if decide (i = j) then f (wp_at w j) else wp_at w j.
Proof.
  intros Hi. unfold wp_at, upd_wp. cbn. rewrite !nth_lookup. case_decide as E; [subst |].
  - rewrite list_lookup_alter_eq. destruct (lookup_lt_is_Some_2 _ _ Hi) as [x ->]. done.
  - by rewrite list_lookup_alter_ne.
Qed.

Lemma wp_at_set_head h w i : wp_at (set_head h w) i = wp_at w i.
Proof. done. Qed.
Lemma wp_at_set_free h w i : wp_at (set_free h w) i = wp_at w i.
Proof. done. Qed.

Lemma chain_ext w w' p l :
  (forall i, i ∈ l -> next (wp_at w' i) = next (wp_at w i)) -> chain w p l -> chain w' p l.
Proof.
  revert p. induction l as [|i l IH]; intros p E; cbn; [done |]. intros [-> Hc]. split; [done |].
  rewrite E by set_solver. apply IH; [| done]. intros; apply E. set_solver.
Qed.


Lemma find_prev_ok w i l2 q l1 : forall fuel p,
  chain w p (l1 ++ q :: i :: l2) -> NoDup (l1 ++ q :: i :: l2) -> (length l1 <= fuel)%nat ->
  find_prev fuel w p i = Ok (Some q).
Proof.
  induction l1 as [|x l1 IH]; intros fuel p Hc Hn Hf.
  - destruct Hc as (-> & E & _). destruct fuel; cbn; by rewrite bool_decide_true.
  - cbn in Hf. destruct fuel as [|fuel]; [lia |]. destruct Hc as [-> Hc]. cbn [find_prev].
    rewrite bool_decide_false.
    + apply IH; [exact Hc | by inversion Hn | lia].
    + intros E. rewrite E in Hc. apply NoDup_cons in Hn as [_ Hn].
      destruct l1 as [|y l1]; cbn in Hc; destruct Hc as [[= ->] _]; cbn in Hn; apply NoDup_cons in Hn as [Hn _]; set_solver.
Qed.

(** The pool with list [u] in use and free list [f]. *)
Record pool_ok (w : wp_state) (u f : list nat) : Prop := PoolOk {
  pool_length : length (wp_pool w) = NR_WP;
  pool_numbers : forall i, (i < NR_WP)%nat -> NO (wp_at w i) = Z.of_nat i;
  pool_used : chain w (head w) u;
  pool_free : chain w (free_ w) f;
  pool_perm : u ++ f ≡ₚ seq 0 NR_WP }.

(** Everything but the links is the same. *)
Definition same_rows (w w' : wp_state) : Prop :=
  forall j, NO (wp_at w' j) = NO (wp_at w j) /\ wp_expr (wp_at w' j) = wp_expr (wp_at w j) /\
    last_value (wp_at w' j) = last_value (wp_at w j).

Lemma pool_nodup w u f : pool_ok w u f -> NoDup (u ++ f).
Proof. intros [_ _ _ _ Hp]. rewrite Hp. apply NoDup_seq. Qed.

Lemma pool_bound w u f i : pool_ok w u f -> i ∈ u ++ f -> (i < NR_WP)%nat.
Proof. intros [_ _ _ _ Hp]. rewrite Hp, elem_of_seq. lia. Qed.

Lemma upd_length w i f : length (wp_pool (upd_wp w i f)) = length (wp_pool w).
Proof. cbn. apply length_alter. Qed.

(** Changing links keeps the other fields. *)
Lemma same_rows_set_next w i n :
  (i < length (wp_pool w))%nat -> same_rows w (upd_wp w i (set_next n)).
Proof. intros Hi j. rewrite wp_at_upd by done. case_decide; subst; done. Qed.

Lemma same_rows_trans w1 w2 w3 : same_rows w1 w2 -> same_rows w2 w3 -> same_rows w1 w3.
Proof. intros H1 H2 j. destruct (H1 j) as (? & ? & ?), (H2 j) as (? & ? & ?). repeat split; congruence. Qed.

Lemma same_numbers w w' :
  same_rows w w' -> (forall i, (i < NR_WP)%nat -> NO (wp_at w i) = Z.of_nat i) ->
  forall i, (i < NR_WP)%nat -> NO (wp_at w' i) = Z.of_nat i.
Proof. intros Hs Hn i Hi. destruct (Hs i) as [-> _]. auto. Qed.

(** Unlinking a node of the list in use. *)
Lemma chain_unlink w p l1 q i l2 :
  (q < length (wp_pool w))%nat -> NoDup (l1 ++ q :: i :: l2) -> chain w p (l1 ++ q :: i :: l2) ->
  chain (upd_wp w q (set_next (next (wp_at w i)))) p (l1 ++ q :: l2).
Proof.
  intros Hq. revert p. induction l1 as [|x l1 IH]; intros p Hn.
  - intros (-> & E & Hc). apply NoDup_cons in Hn as [Hn _]. split; [done |].
    rewrite wp_at_upd, decide_True by done. cbn.
    apply (chain_ext w); [| done]. intros j Hj. rewrite wp_at_upd by done. case_decide; [subst; set_solver | done].
  - intros [-> Hc]. split; [done |]. cbn in Hn. apply NoDup_cons in Hn as [Hx Hn].
    rewrite wp_at_upd, decide_False by (done || (intros ->; set_solver)). by apply IH.
Qed.

Lemma used_length w u f : pool_ok w u f -> (length u <= NR_WP)%nat.
Proof. intros [_ _ _ _ Hp]. apply Permutation_length in Hp. rewrite length_app, length_seq in Hp. lia. Qed.

Lemma free_wp_ok w l1 i l2 f :
  pool_ok w (l1 ++ i :: l2) f ->
  exists w', free_wp w (Some i) = Ok w' /\ pool_ok w' (l1 ++ l2) (i :: f) /\ same_rows w w'.
Proof.
  intros Hok. pose proof (pool_nodup _ _ _ Hok) as Hn.
  assert (i < length (wp_pool w))%nat as Hi.
  { rewrite (pool_length _ _ _ Hok). apply (pool_bound _ _ _ _ Hok). set_solver. }
  enough (exists w1, (if bool_decide (head w = Some i) then Ok (set_head (next (wp_at w i)) w)
           else prev ← find_prev NR_WP w (head w) i;
             Ok (match prev with None => w | Some prev => upd_wp w prev (set_next (next (wp_at w i))) end)) = Ok w1 /\
    length (wp_pool w1) = length (wp_pool w) /\ same_rows w w1 /\ chain w1 (head w1) (l1 ++ l2) /\ chain w1 (free_ w1) f)
    as (w1 & E & El & Hs & Hu & Hf).
  - unfold free_wp. rewrite E. cbn [mbind res_bind]. eexists. split; [reflexivity |].
    assert (same_rows w1 (upd_wp w1 i (set_next (free_ w1)))) as Hs1 by (apply same_rows_set_next; lia).
    split; [| exact (same_rows_trans _ _ _ Hs Hs1)]. split.
    + cbn [set_free wp_pool]. by rewrite upd_length, El, (pool_length _ _ _ Hok).
    + exact (same_numbers _ _ (same_rows_trans _ _ _ Hs Hs1) (pool_numbers _ _ _ Hok)).
    + apply (chain_ext w1); [| done]. intros j Hj. rewrite wp_at_set_free, wp_at_upd by lia.
      destruct (decide (_ = j)); [subst | done]. apply NoDup_app in Hn as (Hn & _ & _). apply NoDup_app in Hn as (_ & Hd & Hn).
      apply NoDup_cons in Hn as [Hn _]. set_solver.
    + split; [done |]. rewrite wp_at_set_free, wp_at_upd, decide_True by (done || lia). cbn [next set_next].
      apply (chain_ext w1); [| done]. intros j Hj. rewrite wp_at_set_free, wp_at_upd by lia.
      destruct (decide (_ = j)); [subst | done]. apply NoDup_app in Hn as (_ & Hd & _). set_solver.
    + rewrite <- (pool_perm _ _ _ Hok). solve_Permutation.
  - destruct Hok as [Hl Hno Hu Hf Hp]. destruct l1 as [|x l1 _] using rev_ind.
    + destruct Hu as [Hh Hu]. rewrite bool_decide_true by done. eexists. split; [reflexivity |].
      split_and!; [done | done | by apply (chain_ext w) | by apply (chain_ext w)].
    + assert ((l1 ++ [x]) ++ i :: l2 = l1 ++ x :: i :: l2) as El by by rewrite <- app_assoc.
      rewrite El in *. rewrite bool_decide_false.
      * apply NoDup_app in Hn as Hn'. destruct Hn' as (Hnu & Hd & _).
        assert (x < length (wp_pool w))%nat as Hx.
        { rewrite Hl. apply (pool_bound _ _ f _ (PoolOk _ _ _ Hl Hno Hu Hf Hp)). set_solver. }
        rewrite (find_prev_ok w i l2 x l1); [| exact Hu | done |].
        2:{ apply Permutation_length in Hp. rewrite length_app, length_seq, length_app in Hp. lia. }
        cbn [mbind res_bind]. eexists. split; [reflexivity |]. split; [apply upd_length |].
        split; [by apply same_rows_set_next |]. split; [rewrite <- app_assoc; by apply chain_unlink |].
        apply (chain_ext w); [| done]. intros j Hj. rewrite wp_at_upd by done. destruct (decide (_ = j)); [subst | done].
        exfalso. apply (Hd j); set_solver.
      * intros Hh. rewrite Hh in Hu. apply NoDup_app in Hn as (Hn & _ & _).
        destruct l1 as [|y l1]; destruct Hu as [[= ->] _]; cbn in Hn; apply NoDup_cons in Hn as [Hn _]; set_solver.
Qed.

Lemma new_wp_ok w u i f :
  pool_ok w u (i :: f) -> exists w', new_wp w = Ok (i, w') /\ pool_ok w' (i :: u) f /\ same_rows w w'.
Proof.
  intros Hok. pose proof (pool_nodup _ _ _ Hok) as Hn.
  assert (i < length (wp_pool w))%nat as Hi.
  { rewrite (pool_length _ _ _ Hok). apply (pool_bound _ _ _ _ Hok). set_solver. }
  pose proof (same_rows_set_next w i (head w) Hi) as Hs.
  destruct Hok as [Hl Hno Hu [Hf0 Hf] Hp]. unfold new_wp. rewrite Hf0. eexists. split; [reflexivity |]. split; [| done].
  apply NoDup_app in Hn as (_ & Hd & Hn). apply NoDup_cons in Hn as [Hn _].
  assert (forall l : list nat, i ∉ l -> forall j, j ∈ l -> next (wp_at (upd_wp w i (set_next (head w))) j) = next (wp_at w j)) as Hext.
  { intros l Hl' j Hj. rewrite wp_at_upd by done. destruct (decide (i = j)); [by subst | done]. }
  split.
  - cbn. by rewrite length_alter.
  - exact (same_numbers _ _ Hs Hno).
  - split; [done |]. assert (i ∉ u) as Hiu by (intros H; apply (Hd i H); set_solver).
    pose proof (wp_at_upd w i (set_next (head w)) i Hi) as E. rewrite decide_True in E by done.
    apply (chain_ext w); [exact (Hext u Hiu) |].
    replace (next _) with (head w); [done |]. symmetry. exact (f_equal next E).
  - apply (chain_ext w); [| exact Hf]. exact (Hext f Hn).
  - rewrite <- Hp. solve_Permutation.
Qed.

(** A change of expression or value. *)
Lemma pool_ok_upd w u f i g :
  (i < NR_WP)%nat -> (forall x, NO (g x) = NO x /\ next (g x) = next x) ->
  pool_ok w u f -> pool_ok (upd_wp w i g) u f.
Proof.
  intros Hi Hg [Hl Hno Hu Hf Hp].
  assert (forall j, NO (wp_at (upd_wp w i g) j) = NO (wp_at w j) /\ next (wp_at (upd_wp w i g) j) = next (wp_at w j)) as E.
  { intros j. rewrite wp_at_upd by lia. destruct (decide (i = j)); [apply Hg | done]. }
  split; [by rewrite upd_length | | | | done].
  - intros j Hj. destruct (E j) as [-> _]. auto.
  - apply (chain_ext w); [| done]. intros j _. apply E.
  - apply (chain_ext w); [| done]. intros j _. apply E.
Qed.

Lemma find_no_ok w u : forall p fuel no,
  chain w p u -> (forall i, i ∈ u -> NO (wp_at w i) = Z.of_nat i) -> (length u <= fuel)%nat ->
  find_no fuel w p no = Ok (if bool_decide (Exists (fun i => Z.of_nat i = no) u) then Some (Z.to_nat no) else None).
Proof.
  induction u as [|i u IH]; intros p fuel no Hc Hn Hf.
  - rewrite Hc, bool_decide_false by (intros H; inversion H). by destruct fuel.
  - destruct Hc as [-> Hc]. cbn in Hf. destruct fuel as [|fuel]; [lia |]. cbn [find_no].
    rewrite (Hn i) by set_solver. destruct (Z.eqb_spec (Z.of_nat i) no) as [<- | Hne].
    + rewrite bool_decide_true by (by apply Exists_cons; left). by rewrite Nat2Z.id.
    + rewrite (IH _ fuel) by (done || lia || (intros; apply Hn; set_solver)).
      rewrite (bool_decide_ext (Exists (fun i0 => Z.of_nat i0 = no) (i :: u)) (Exists (fun i0 => Z.of_nat i0 = no) u));
        [done |]. rewrite Exists_cons. intuition.
Qed.

Lemma info_loop_ok w u : forall p fuel,
  chain w p u -> (length u <= fuel)%nat ->
  info_loop fuel w p = Ok ((fun i => (NO (wp_at w i), last_value (wp_at w i), wp_expr (wp_at w i))) <$> u).
Proof.
  induction u as [|i u IH]; intros p fuel Hc Hf.
  - rewrite Hc. by destruct fuel.
  - destruct Hc as [-> Hc]. cbn in Hf. destruct fuel as [|fuel]; [lia |]. cbn [info_loop].
    by rewrite (IH _ fuel) by (done || lia).
Qed.

(** ** The refinement *)

Definition row (w : wp_state) (i : nat) : nat * (list Z * Z) := (i, (wp_expr (wp_at w i), last_value (wp_at w i))).

Definition refines (w : wp_state) (a : watch_list) : Prop :=
  pool_ok w (used a).*1 (avail a) /\ used a = row w <$> (used a).*1.

Lemma rows_fst w (l : list nat) : (row w <$> l).*1 = l.
Proof. rewrite <- list_fmap_compose. apply list_fmap_id. Qed.

Lemma refines_intro w u f : pool_ok w u f -> refines w (WatchList (row w <$> u) f).
Proof. intros Hok. split; cbn; by rewrite rows_fst. Qed.

Lemma same_rows_row w w' (l : list nat) : same_rows w w' -> row w' <$> l = row w <$> l.
Proof.
  intros Hs. apply list_fmap_ext. intros _ i _. unfold row. by destruct (Hs i) as (_ & -> & ->).
Qed.

Lemma rows_upd w i g (l : list nat) :
  (i < length (wp_pool w))%nat -> i ∉ l -> row (upd_wp w i g) <$> l = row w <$> l.
Proof.
  intros Hi Hl. apply list_fmap_ext. intros _ j Hj%list_elem_of_lookup_2. unfold row.
  rewrite wp_at_upd by done. destruct (decide (i = j)); [by subst | done].
Qed.

Lemma filter_rows w l1 i l2 :
  NoDup (l1 ++ i :: l2) ->
  filter (fun r : nat * (list Z * Z) => ~ Z.of_nat r.1 = Z.of_nat i) (row w <$> (l1 ++ i :: l2)) = row w <$> (l1 ++ l2).
Proof.
  intros (_ & Hd & [Hn _]%NoDup_cons)%NoDup_app.
  assert (forall l : list nat, i ∉ l -> filter (fun r : nat * (list Z * Z) => ~ Z.of_nat r.1 = Z.of_nat i) (row w <$> l) = row w <$> l) as H.
  { intros l. induction l as [|j l IH]; intros Hl; [done |]. rewrite fmap_cons, filter_cons_True.
    - f_equal. apply IH. set_solver.
    - cbn. intros E%Nat2Z.inj. set_solver. }
  rewrite !fmap_app, filter_app, fmap_cons, filter_cons_False by (cbn; tauto).
  rewrite !H by set_solver. done.
Qed.

(** The same outcome: related states, or the same stop. *)
Definition same_outcome {D} (r : res (answer * wp_state * machine D)) (s : res (answer * watch_list * machine D)) : Prop :=
  match s with
  | Ok (x, a, m) => exists w, r = Ok (x, w, m) /\ refines w a
  | Fault f => r = Fault f
  end.

Section simulation.
  Context (regexec : String.string -> list Z -> option (Z * Z)) (cfg : config) {D : Type} `{!MmioBus D}.
  Implicit Type m : machine D.

Lemma delete_refines w a no m :
  refines w a -> same_outcome (wp_step regexec cfg w (CmdDelete no) m) (spec_step regexec cfg a (CmdDelete no) m).
Proof.
  intros [Hok Hrows]. destruct a as [us f]. cbn in Hok, Hrows. set (u := us.*1) in *. clearbody u. subst us.
  unfold wp_step, spec_step, delete_wp, spec_delete. cbn [used avail].
  rewrite (find_no_ok w u); [| exact (pool_used _ _ _ Hok) | | exact (used_length _ _ _ Hok)].
  2:{ intros i Hi. apply (pool_numbers _ _ _ Hok). apply (pool_bound _ _ _ _ Hok). set_solver. }
  rewrite (bool_decide_ext (Exists (fun r => Z.of_nat r.1 = no) (row w <$> u)) (Exists (fun i => Z.of_nat i = no) u)) by apply Exists_fmap.
  case_bool_decide as Hex; cbn [mbind res_bind].
  - apply Exists_exists in Hex as (i & Hi & <-). rewrite Nat2Z.id.
    apply list_elem_of_split in Hi as (l1 & l2 & ->).
    destruct (free_wp_ok _ _ _ _ _ Hok) as (w' & E & Hok' & Hs). rewrite E. cbn [mbind res_bind].
    exists w'. split; [done |]. rewrite filter_rows.
    + rewrite <- (same_rows_row w w') by done. by apply refines_intro.
    + pose proof (pool_nodup _ _ _ Hok) as Hn. by apply NoDup_app in Hn as [Hn _].
  - exists w. split; [done |]. by apply refines_intro.
Qed.

Lemma info_refines w a m :
  refines w a -> same_outcome (wp_step regexec cfg w CmdInfo m) (spec_step regexec cfg a CmdInfo m).
Proof.
  intros [Hok Hrows]. destruct a as [us f]. cbn in Hok, Hrows. set (u := us.*1) in *. clearbody u. subst us.
  unfold wp_step, spec_step, info_wp, spec_rows. cbn [used].
  rewrite (info_loop_ok w u); [| exact (pool_used _ _ _ Hok) | exact (used_length _ _ _ Hok)].
  cbn [mbind res_bind]. exists w. split; [| by apply refines_intro]. rewrite <- list_fmap_compose.
  replace (_ <$> u) with ((fun i => (Z.of_nat i, last_value (wp_at w i), wp_expr (wp_at w i))) <$> u); [done |].
  apply list_fmap_ext. intros _ i Hi%list_elem_of_lookup_2.
  rewrite (pool_numbers _ _ _ Hok) by (apply (pool_bound _ _ _ _ Hok); set_solver). done.
Qed.

Lemma add_refines w a e m :
  refines w a -> same_outcome (wp_step regexec cfg w (CmdAdd e) m) (spec_step regexec cfg a (CmdAdd e) m).
Proof.
  intros [Hok Hrows]. destruct a as [us f]. cbn in Hok, Hrows. set (u := us.*1) in *. clearbody u. subst us.
  cbn [wp_step spec_step]. unfold add_wp, spec_add. cbn [avail used]. destruct f as [|i f].
  { unfold new_wp. by rewrite (pool_free _ _ _ Hok). }
  destruct (new_wp_ok _ _ _ _ Hok) as (w1 & -> & Hok1 & Hs1). cbn [mbind res_bind].
  assert (i < NR_WP)%nat as Hi by (apply (pool_bound _ _ _ _ Hok); set_solver).
  assert (i ∉ u) as Hiu.
  { pose proof (pool_nodup _ _ _ Hok1) as Hn. cbn in Hn. apply NoDup_cons in Hn as [Hn _]. set_solver. }
  assert (i < length (wp_pool w1))%nat as Hi1 by (by rewrite (pool_length _ _ _ Hok1)).
  set (w2 := upd_wp w1 i _). assert (pool_ok w2 (i :: u) f) as Hok2 by (by apply pool_ok_upd).
  assert (wp_at w2 i = set_expr (take 511 e) (wp_at w1 i)) as E2 by (unfold w2; by rewrite wp_at_upd, decide_True).
  rewrite E2. cbn [set_expr wp_expr].
  destruct (guest_expr regexec cfg (take 511 e) m) as [[v m'] | fl]; cbn [mbind res_bind]; [| done].
  set (w3 := upd_wp w2 i _). assert (pool_ok w3 (i :: u) f) as Hok3 by (by apply pool_ok_upd).
  assert (row w3 <$> u = row w <$> u) as E3.
  { unfold w3, w2. rewrite !rows_upd by (rewrite ?upd_length; done). by apply same_rows_row. }
  destruct v as [v |].
  - cbn. exists w3. split; [done |]. rewrite <- E3.
    replace (i, (take 511 e, v)) with (row w3 i); [exact (refines_intro w3 (i :: u) f Hok3) |].
    unfold row, w3. rewrite wp_at_upd, decide_True by (unfold w2; by rewrite ?upd_length). by rewrite E2.
  - destruct (free_wp_ok w3 [] i u f Hok3) as (w4 & -> & Hok4 & Hs4). cbn [mbind res_bind same_outcome].
    exists w4. split; [done |]. rewrite <- E3, <- (same_rows_row w3 w4) by done. by apply refines_intro.
Qed.

Lemma check_loop_ok U f u : forall w fuel p m,
  pool_ok w U f -> u ⊆ U -> NoDup u -> chain w p u -> (length u <= fuel)%nat ->
  match check_rows regexec cfg (row w <$> u) m with
  | Ok (rows, m') => exists w', check_loop regexec cfg fuel w p m = Ok (w', m') /\
      pool_ok w' U f /\ row w' <$> u = rows /\ (forall j, j ∉ u -> row w' j = row w j)
  | Fault fl => check_loop regexec cfg fuel w p m = Fault fl
  end.
Proof.
  induction u as [|i u IH]; intros w fuel p m Hok HU Hn Hc Hf.
  { rewrite Hc. destruct fuel; exists w; done. }
  destruct Hc as [-> Hc]. cbn in Hf. destruct fuel as [|fuel]; [lia |]. apply NoDup_cons in Hn as [Hiu Hn].
  rewrite fmap_cons. unfold row at 1. cbn [check_loop check_rows].
  destruct (guest_expr regexec cfg (wp_expr (wp_at w i)) m) as [[v m1] | fl]; cbn [mbind res_bind]; [| done].
  assert (u ⊆ U) as HU' by set_solver. assert (i < NR_WP)%nat as Hi by (apply (pool_bound _ _ _ _ Hok); set_solver).
  assert (forall x, v = Some x -> x <> last_value (wp_at w i) -> pool_ok (upd_wp w i (set_value x)) U f) as Hupd
    by (intros; by apply pool_ok_upd).
  assert (v = Some (last_value (wp_at w i)) \/ v = None \/ exists x, v = Some x /\ x <> last_value (wp_at w i)) as [-> | [-> | (x & -> & Hx)]].
  { destruct v as [x |]; [| auto]. destruct (Z.eq_dec x (last_value (wp_at w i))) as [-> |]; eauto. }
  1,2: cbn [default from_option id]; rewrite ?Z.eqb_refl; cbn [negb];
    specialize (IH w fuel (next (wp_at w i)) m1 Hok HU' Hn Hc ltac:(lia));
    destruct (check_rows _ _ _ m1) as [[rows m'] | fl]; cbn [mbind res_bind]; [| done];
    destruct IH as (w' & -> & Hok' & <- & Hr); exists w'; split_and!; [done | done | | set_solver];
    rewrite fmap_cons, Hr by done; done.
  cbn [default from_option id]. destruct (Z.eqb_spec x (last_value (wp_at w i))); [done |]. cbn [negb].
  set (w1 := upd_wp w i (set_value x)) in *. assert (i < length (wp_pool w))%nat as Hil by (by rewrite (pool_length _ _ _ Hok)).
  assert (wp_at w1 i = set_value x (wp_at w i)) as E1 by (unfold w1; by rewrite wp_at_upd, decide_True).
  specialize (IH w1 fuel (next (wp_at w1 i)) (set_nemu_state NEMU_STOP 0 0 m1) (Hupd x eq_refl Hx) HU' Hn).
  replace (row w1 <$> u) with (row w <$> u) in IH by (symmetry; by apply rows_upd).
  assert (chain w1 (next (wp_at w1 i)) u) as Hc1.
  { rewrite E1. apply (chain_ext w); [| done]. intros j Hj. unfold w1. rewrite wp_at_upd by done.
    destruct (decide (i = j)); [by subst | done]. }
  specialize (IH Hc1 ltac:(lia)).
  destruct (check_rows _ _ _ _) as [[rows m'] | fl]; cbn [mbind res_bind]; [| done].
  destruct IH as (w' & -> & Hok' & <- & Hr). exists w'. split_and!; [done | done | |].
  - rewrite fmap_cons, Hr by done. unfold row at 1. by rewrite E1.
  - intros j Hj. rewrite Hr by set_solver. unfold row, w1. rewrite wp_at_upd by done.
    destruct (decide (i = j)); [set_solver | done].
Qed.

Lemma check_refines w a m :
  refines w a -> same_outcome (wp_step regexec cfg w CmdCheck m) (spec_step regexec cfg a CmdCheck m).
Proof.
  intros [Hok Hrows]. destruct a as [us f]. cbn in Hok, Hrows. set (u := us.*1) in *. clearbody u. subst us.
  unfold wp_step, spec_step, check_wp. cbn [used avail].
  pose proof (check_loop_ok u f u w NR_WP (head w) m Hok) as H.
  pose proof (pool_nodup _ _ _ Hok) as Hn. apply NoDup_app in Hn as [Hn _].
  specialize (H ltac:(done) Hn (pool_used _ _ _ Hok) (used_length _ _ _ Hok)).
  destruct (check_rows _ _ _ m) as [[rows m'] | fl]; cbn [mbind res_bind].
  - destruct H as (w' & -> & Hok' & <- & _). cbn. exists w'. split; [done |]. by apply refines_intro.
  - by rewrite H.
Qed.

Lemma step_refines w a c m :
  refines w a -> same_outcome (wp_step regexec cfg w c m) (spec_step regexec cfg a c m).
Proof. destruct c; auto using add_refines, delete_refines, info_refines, check_refines. Qed.

Lemma run_refines cs : forall w a m,
  refines w a -> run (wp_step regexec cfg) w cs m = run (spec_step regexec cfg) a cs m.
Proof.
  induction cs as [|c cs IH]; intros w a m Hr; [done |]. cbn [run]. pose proof (step_refines w a c m Hr) as Hs.
  destruct (spec_step regexec cfg a c m) as [[[x a'] m'] | fl]; cbn in Hs.
  - destruct Hs as (w' & -> & Hr'). cbn [mbind res_bind]. by rewrite (IH w' a').
  - by rewrite Hs.
Qed.
End simulation.

Lemma init_refines w : length (wp_pool w) = NR_WP -> refines (init_wp_pool w) no_watchpoints.
Proof.
  intros Hl. assert (forall i, (i < NR_WP)%nat -> NO (wp_at (init_wp_pool w) i) = Z.of_nat i /\
    next (wp_at (init_wp_pool w) i) = if (i =? NR_WP - 1)%nat then None else Some (S i)) as E.
  { intros i Hi. unfold wp_at, init_wp_pool. cbn [wp_pool]. rewrite nth_lookup, list_lookup_imap.
    destruct (lookup_lt_is_Some_2 (wp_pool w) i) as [x ->]; [lia | done]. }
  split; [| done]. split; [cbn; by rewrite length_imap | apply E | done | | done].
  cbn [no_watchpoints avail].
  enough (forall n i, (i + n = NR_WP)%nat -> chain (init_wp_pool w) (if (i =? NR_WP)%nat then None else Some i) (seq i n)) as H
    by exact (H NR_WP 0%nat eq_refl).
  induction n as [|n IH]; intros i Hi; cbn [seq chain].
  - by rewrite (proj2 (Nat.eqb_eq i NR_WP)) by lia.
  - rewrite (proj2 (Nat.eqb_neq i NR_WP)) by lia. split; [done |]. destruct (E i) as [_ ->]; [lia |].
    specialize (IH (S i) ltac:(lia)). destruct (Nat.eqb_spec i (NR_WP - 1)).
    + by rewrite (proj2 (Nat.eqb_eq (S i) NR_WP)) in IH by lia.
    + by rewrite (proj2 (Nat.eqb_neq (S i) NR_WP)) in IH by lia.
Qed.

(** C14. The watchpoint pool implements a list of watchpoints.  From a pool of any contents,
    after [init_wp_pool], every sequence of commands - setting, deleting, listing and
    checking watchpoints - gives the answers and the guest state of the two plain lists of
    [watch_list]: the newest watchpoint first, a number freed by a deletion or a failed
    expression reused first, every expression evaluated once per check in that order, a
    changed value recorded and the guest stopped, and the emulator stopped by the
    thirty-third watchpoint.  All traversals of the linked lists terminate. *)
Theorem watchpoints_refine regexec cfg {D} `{!MmioBus D} w cs (m : machine D) :
  length (wp_pool w) = NR_WP ->
  run (wp_step regexec cfg) (init_wp_pool w) cs m = run (spec_step regexec cfg) no_watchpoints cs m.
Proof. intros Hl. apply run_refines. by apply init_refines. Qed.

(** ** A session the theorem applies to *)

#[local] Existing Instance no_device_bus.

(** Two watchpoints, one of a register and one of memory, and a rejected one. *)
Definition sample_session : list command :=
  [CmdAdd (bytes "$pc"); CmdAdd (bytes "1 +"); CmdAdd (bytes "*0x80000010"); CmdCheck; CmdDelete 0; CmdDelete 7; CmdInfo].

Definition debugged : machine () :=
  set_guest sample_memory (set_cpu sample_cpu sample_machine).

Definition dirty_pool : wp_state := WpState (replicate NR_WP (MkWP 9 (Some 3%nat) [] 5)) (Some 1%nat) None.

Example session_answers :
  (fun r => r.1) <$> run (wp_step match_start (default_config false)) (init_wp_pool dirty_pool) sample_session debugged =
  Ok [ADone true; ADone false; ADone true; AChecked; ADone true; ADone false; ARows [(1, 1234, bytes "*0x80000010")]].
Proof. vm_compute. reflexivity. Qed.

Lemma watchpoints_refine_witness :
  length (wp_pool dirty_pool) = NR_WP /\
  run (wp_step match_start (default_config false)) (init_wp_pool dirty_pool) sample_session debugged =
  run (spec_step match_start (default_config false)) no_watchpoints sample_session debugged.
Proof. split; [reflexivity |]. apply (watchpoints_refine match_start (default_config false) dirty_pool sample_session debugged). reflexivity. Defined.
