(* ===== verification/MiniRv.v ===== *)
(** The minimal instruction set (abstract-machine/tools/minirv): the eight base instructions,
    the assembler macros of inst-replace.h that replace every other RV32I instruction, and
    the lookup tables of gen-lut.c.

    A macro is the list of base instructions it expands to, a function of its operands;
    [None] where the macro aborts the assembly.  Addresses of tables and labels are chosen
    by the linker and are parameters.  [run] executes an expansion; the specification is
    the instruction's meaning in the RISC-V manual, [rv_step].  The macros' scratch space is
    the 28 bytes below the stack pointer. *)

From S2P Require Import Prelude.
From Stdlib Require Import FunctionalExtensionality.

#[local] Open Scope cint_scope.

(** ** The base machine *)

(** Registers by number. *)
Abbreviation x0 := 0. Abbreviation ra := 1. Abbreviation sp := 2. Abbreviation gp := 3.
Abbreviation tp := 4. Abbreviation s0 := 8. Abbreviation s1 := 9.

Record mstate := MState { xreg : Z -> Z; mmem : mem }.

(** Register 0 reads as zero. *)
Definition rget (f : Z -> Z) (r : Z) : Z := if r =? x0 then 0 else f r.
Definition rset (f : Z -> Z) (r v : Z) : Z -> Z := fun q => if q =? r then v else f q.

Inductive base_inst :=
| ADD (rd rs1 rs2 : Z) | ADDI (rd rs1 imm : Z) | LUI (rd imm : Z)
| LW (rd off base : Z) | LBU (rd off base : Z) | SW (src off base : Z) | SB (src off base : Z)
| JALR (rd base : Z).

(** All base instructions but the jump. *)
Definition step (i : base_inst) (st : mstate) : mstate :=
  let '(MState f m) := st in
  let addr off base := u32 (rget f base + off) in
  match i with
  | ADD rd rs1 rs2 => MState (rset f rd (u32 (rget f rs1 + rget f rs2))) m
  | ADDI rd rs1 imm => MState (rset f rd (u32 (rget f rs1 + imm))) m
  | LUI rd imm => MState (rset f rd (u32 (imm <<< 12))) m
  | LW rd off base => MState (rset f rd (le_read 4 m (addr off base))) m
  | LBU rd off base => MState (rset f rd (m (addr off base))) m
  | SW src off base => MState f (le_write 4 m (addr off base) (rget f src))
  | SB src off base => MState f (le_write 1 m (addr off base) (rget f src))
  | JALR _ _ => st
  end.

(** Executes a list of instructions placed at [pc]; the first jump leaves it. *)
Fixpoint run (pc : Z) (l : list base_inst) (st : mstate) : Z * mstate :=
  match l with
  | [] => (pc, st)
  | JALR rd base :: _ =>
      let target := rget (xreg st) base in
      (target &&& not32 1, MState (rset (xreg st) rd (u32 (pc + 4))) (mmem st))
  | i :: l => run (u32 (pc + 4)) l (step i st)
  end.

(** ** Tables *)

(** [gen_table]: [row] times [col] entries of [entry_size] bytes. *)
Definition gen_table (row col : Z) (entry_size : nat) (expr : Z -> Z -> Z) : list Z :=
  flat_map (fun j => flat_map (fun i => (fun k => u8 (u32 (expr j i) >>> (8 * Z.of_nat k))) <$> seq 0 entry_size)
    (seqZ 0 col)) (seqZ 0 row).

(** The six tables, and lut.bin, which holds them one after the other. *)
Definition and8_bytes : list Z := gen_table 256 256 1 (fun j i => j &&& i).
Definition or8_bytes : list Z := gen_table 256 256 1 (fun j i => j ||| i).
Definition xor8_bytes : list Z := gen_table 256 256 1 (fun j i => j ^^^ i).
Definition sll8_bytes : list Z := gen_table 32 256 4 (fun j i => i <<< j).
Definition srl8_bytes : list Z := gen_table 32 256 4 (fun j i => u32 (i <<< 24) >>> j).
Definition sra8_bytes : list Z := gen_table 32 256 4 (fun j i => s32 (i <<< 24) >>> j).

Definition lut : list Z := and8_bytes ++ or8_bytes ++ xor8_bytes ++ sll8_bytes ++ srl8_bytes ++ sra8_bytes.

Definition same_result_bytes : list Z := [1; 0; 0; 0; 0; 0; 0; 0].
Definition check_8bit_0_bytes : list Z := 0 :: replicate 255 1.
Definition slt1_bytes : list Z := [0; 1; 0; 0; 1; 1; 0; 1].
Definition sltu1_bytes : list Z := [0; 1; 1; 1; 0; 0; 0; 1].
Definition or1_bytes : list Z := [0; 1; 1; 1].

(** The addresses of the tables, and of the array [seq] uses. *)
Record symbols := Symbols {
  _same_result_table : Z; _check_8bit_0_table : Z; _slt1_table : Z; _sltu1_table : Z; _or1_table : Z;
  _logic_shift_table : Z; _check_same_array : Z }.

Section macros.
  Context (sy : symbols).

Definition _and8_table : Z := _logic_shift_table sy.
Definition _or8_table : Z := _and8_table + 256 * 256.
Definition _xor8_table : Z := _or8_table + 256 * 256.
Definition _sll8_table : Z := _xor8_table + 256 * 256.
Definition _srl8_table : Z := _sll8_table + 32 * 256 * 4.
Definition _sra8_table : Z := _srl8_table + 32 * 256 * 4.

(** ** Macros *)

Definition SP_VAR_BYTE (n boffset : Z) : Z := - n * 4 + boffset.
Definition SP_VAR (n : Z) : Z := SP_VAR_BYTE n 0.
Definition VAR_A : Z := 4.
Definition VAR_B : Z := 5.
Definition VAR_C : Z := 6.
Definition VAR_D : Z := 7.
Definition PUSH (r n : Z) : base_inst := SW r (SP_VAR n) sp.
Definition POP (r n : Z) : base_inst := LW r (SP_VAR n) sp.

(** [lui] with the upper part, rounded for the signed lower part. *)
Definition hi20 (a : Z) : Z := u32 (a + 0x800) >>> 12.
Definition lo12 (a : Z) : Z := sext 12 a.
Definition la (r addr : Z) : list base_inst := [LUI r (hi20 addr); ADDI r r (lo12 addr)].

(** The assembler's own pseudo-instructions. *)
Definition li (r imm : Z) : list base_inst := [ADDI r x0 imm].
Definition mv (rd rs : Z) : list base_inst := [ADDI rd rs 0].
Definition jr (r : Z) : list base_inst := [JALR x0 r].

Definition call_template (r addr : Z) : list base_inst := la r addr ++ [JALR r r].
Definition j (addr : Z) : list base_inst := la tp addr ++ [JALR x0 tp].
Definition jal (rd addr : Z) : list base_inst :=
  if rd =? x0 then j addr else call_template rd addr.
Definition call (addr : Z) : list base_inst := call_template ra addr.
Definition tail (addr : Z) : list base_inst := la tp addr ++ jr tp ++ call_template ra addr.

Definition not_ (rd rs1 : Z) : list base_inst :=
  let byte k := [LBU gp (SP_VAR_BYTE VAR_C k) sp; ADD gp gp tp; LBU gp 0 gp; SB gp (SP_VAR_BYTE VAR_D k) sp] in
  [PUSH gp 3; SW rs1 (SP_VAR VAR_C) sp] ++ la tp (_xor8_table + (0xff <<< 8)) ++
  byte 3 ++ byte 2 ++ byte 1 ++ byte 0 ++
  [POP gp 3; LW rd (SP_VAR VAR_D) sp].

Definition sub (rd rs1 rs2 : Z) : list base_inst :=
  not_ tp rs2 ++ [ADD rd rs1 tp; ADDI rd rd 1].

Definition getbyte (rd rs1 byte : Z) : list base_inst :=
  [SW rs1 (SP_VAR VAR_C) sp; LBU rd (SP_VAR_BYTE VAR_C byte) sp].

(** [sh] to [off(base)] *)
Definition sh (rs off base : Z) : list base_inst :=
  [SB rs (0 + off) base] ++ getbyte tp rs 1 ++ [SB tp (1 + off) base].

(** [slli] by less than 16: the shift by doubling. *)
Definition slli_add (rd rs1 imm : Z) : list base_inst :=
  if imm =? 0 then (if rd =? rs1 then [] else mv rd rs1)
  else [ADD rd rs1 rs1] ++ replicate (Z.to_nat (imm - 1)) (ADD rd rd rd).

(** The recursive calls are below 16. *)
Definition slli (rd rs1 imm : Z) : list base_inst :=
  if 24 <=? imm then
    [SW x0 (SP_VAR VAR_A) sp; SB rs1 (SP_VAR_BYTE VAR_A 3) sp; LW rd (SP_VAR VAR_A) sp] ++ slli_add rd rd (imm - 24)
  else if 16 <=? imm then
    [SW x0 (SP_VAR VAR_A) sp] ++ sh rs1 (SP_VAR_BYTE VAR_A 2) sp ++ [LW rd (SP_VAR VAR_A) sp] ++ slli_add rd rd (imm - 16)
  else slli_add rd rs1 imm.

Definition msb (rd rs1 : Z) : list base_inst :=
  getbyte rd rs1 3 ++ slli rd rd 1 ++ getbyte rd rd 1.

Definition slt_template (lut rd rs1 rs2 : Z) : list base_inst :=
  [PUSH s0 1; PUSH s1 2; SW rs2 (SP_VAR VAR_A) sp] ++ mv s0 rs1 ++ [LW s1 (SP_VAR VAR_A) sp] ++
  msb gp s0 ++ slli gp gp 1 ++
  msb tp s1 ++ [ADD gp gp tp] ++ slli gp gp 1 ++
  sub tp s0 s1 ++ msb tp tp ++ [ADD gp gp tp] ++
  la tp lut ++ [ADD tp tp gp; POP s1 2; POP s0 1; LBU rd 0 tp].

Definition slt (rd rs1 rs2 : Z) : list base_inst := slt_template (_slt1_table sy) rd rs1 rs2.
Definition sltu (rd rs1 rs2 : Z) : list base_inst := slt_template (_sltu1_table sy) rd rs1 rs2.

Definition logic8_byte_internal (lut_reg boffset : Z) : list base_inst :=
  [LBU tp (SP_VAR_BYTE VAR_A boffset) sp; SB tp (SP_VAR_BYTE VAR_D 1) sp;
   LBU tp (SP_VAR_BYTE VAR_B boffset) sp; SB tp (SP_VAR_BYTE VAR_D 0) sp;
   LW tp (SP_VAR VAR_D) sp; ADD tp lut_reg tp; LBU tp 0 tp; SB tp (SP_VAR_BYTE VAR_C boffset) sp].

Definition logic (lut rd rs1 rs2 : Z) : option (list base_inst) :=
  if rd =? x0 then Some []
  else if (rd =? sp) || (rs1 =? sp) || (rs2 =? sp) then None
  else if (rd =? gp) || (rs1 =? gp) || (rs2 =? gp) then None
  else if (rd =? tp) || (rs1 =? tp) then None
  else Some ([SW rs1 (SP_VAR VAR_A) sp; SW rs2 (SP_VAR VAR_B) sp] ++ la rd lut ++ [SW x0 (SP_VAR VAR_D) sp] ++
    logic8_byte_internal rd 3 ++ logic8_byte_internal rd 2 ++ logic8_byte_internal rd 1 ++ logic8_byte_internal rd 0 ++
    [LW rd (SP_VAR VAR_C) sp]).

Definition and_ (rd rs1 rs2 : Z) := logic _and8_table rd rs1 rs2.
Definition or_ (rd rs1 rs2 : Z) := logic _or8_table rd rs1 rs2.
Definition xor_ (rd rs1 rs2 : Z) := logic _xor8_table rd rs1 rs2.

Definition check_8bit_same (table rd boffset : Z) : list base_inst :=
  [LBU rd (SP_VAR_BYTE VAR_A boffset) sp; ADD tp table rd; ADDI rd x0 1; SB rd 0 tp;
   LBU rd (SP_VAR_BYTE VAR_B boffset) sp; ADD rd table rd; SB x0 0 rd; LBU rd 0 tp].

Definition seq_ (rd rs1 rs2 : Z) : list base_inst :=
  [SW rs1 (SP_VAR VAR_A) sp; SW rs2 (SP_VAR VAR_B) sp; PUSH s0 1; PUSH s1 2] ++ la s0 (_check_same_array sy) ++
  check_8bit_same s0 gp 0 ++ check_8bit_same s0 s1 1 ++ [ADD gp gp s1] ++
  check_8bit_same s0 s1 2 ++ [ADD gp gp s1] ++ check_8bit_same s0 s1 3 ++ [ADD gp gp s1] ++
  la tp (_same_result_table sy) ++ [ADD tp tp gp; LBU rd 0 tp; POP s1 2; POP s0 1].

Definition check_8bit_0 (table rd boffset : Z) : list base_inst :=
  [LBU rd (SP_VAR_BYTE VAR_A boffset) sp; ADD rd table rd; LBU rd 0 rd].

Definition seqz (rd rs1 : Z) : list base_inst :=
  [SW rs1 (SP_VAR VAR_A) sp; PUSH s0 1] ++ la s0 (_check_8bit_0_table sy) ++
  check_8bit_0 s0 gp 0 ++ check_8bit_0 s0 tp 1 ++ [ADD gp gp tp] ++
  check_8bit_0 s0 tp 2 ++ [ADD gp gp tp] ++ check_8bit_0 s0 tp 3 ++ [ADD gp gp tp] ++
  la tp (_same_result_table sy) ++ [ADD tp tp gp; LBU rd 0 tp; POP s0 1].

(** Jumps to [target] or to the next instruction, at [label]; the branch condition is in tp. *)
Definition branch_resolve (target : Z) (is_tp_high_sel_target : bool) (label : Z) : list base_inst :=
  slli tp tp 2 ++ [ADD tp sp tp] ++
  (if is_tp_high_sel_target
   then la gp target ++ [SW gp (SP_VAR VAR_A) sp] ++ la gp label ++ [SW gp (SP_VAR VAR_B) sp]
   else la gp label ++ [SW gp (SP_VAR VAR_A) sp] ++ la gp target ++ [SW gp (SP_VAR VAR_B) sp]) ++
  [LW tp (- VAR_B * 4) tp] ++ jr tp.

Definition equal_cond (rs1 rs2 : Z) : list base_inst :=
  if rs2 =? x0 then seqz tp rs1 else if rs1 =? x0 then seqz tp rs2 else seq_ tp rs1 rs2.

Definition beq (rs1 rs2 target label : Z) : list base_inst :=
  equal_cond rs1 rs2 ++ branch_resolve target true label.
Definition bne (rs1 rs2 target label : Z) : list base_inst :=
  equal_cond rs1 rs2 ++ branch_resolve target false label.

(** tp is 1 when [rs2 <= 0]. *)
Definition not_positive (rs2 : Z) : list base_inst :=
  msb gp rs2 ++ [ADDI tp rs2 (-1)] ++ msb tp tp ++ [ADD gp gp tp] ++ la tp (_or1_table sy) ++ [ADD tp gp tp; LBU tp 0 tp].

Definition blt (rs1 rs2 target label : Z) : list base_inst :=
  if rs2 =? x0 then msb tp rs1 ++ branch_resolve target true label
  else if rs1 =? x0 then not_positive rs2 ++ branch_resolve target false label
  else slt tp rs1 rs2 ++ branch_resolve target true label.
Definition bltu (rs1 rs2 target label : Z) : list base_inst :=
  sltu tp rs1 rs2 ++ branch_resolve target true label.
Definition bge (rs1 rs2 target label : Z) : list base_inst :=
  if rs1 =? x0 then not_positive rs2 ++ branch_resolve target true label
  else slt tp rs1 rs2 ++ branch_resolve target false label.
Definition bgeu (rs1 rs2 target label : Z) : list base_inst :=
  sltu tp rs1 rs2 ++ branch_resolve target false label.

Definition getshamt (rd rs1 : Z) : list base_inst :=
  [SB rs1 (SP_VAR_BYTE VAR_B 0) sp; LBU rd (SP_VAR_BYTE VAR_B 0) sp] ++ la tp (_and8_table + (0x1f <<< 8)) ++
  [ADD rd rd tp; LBU rd 0 rd].

Definition get_shift_byte_in_tp (base boffset : Z) : list base_inst :=
  [LBU tp (SP_VAR_BYTE VAR_A boffset) sp] ++ slli tp tp 2 ++ [ADD tp base tp; LW tp 0 tp].

(** s0 is the row of [table] for the shift amount in [rs2]. *)
Definition shift_row (table rs2 : Z) : list base_inst :=
  getshamt s0 rs2 ++
  [SW x0 (SP_VAR VAR_B) sp; SB s0 (SP_VAR_BYTE VAR_B 1) sp; LW s0 (SP_VAR VAR_B) sp] ++ slli s0 s0 2 ++
  la tp table ++ [ADD s0 s0 tp].

Definition sll (rd rs1 rs2 : Z) : list base_inst :=
  [PUSH s0 1; SW rs1 (SP_VAR VAR_A) sp] ++ shift_row _sll8_table rs2 ++
  [SW x0 (SP_VAR VAR_B) sp] ++ get_shift_byte_in_tp s0 3 ++
  [SB tp (SP_VAR_BYTE VAR_B 3) sp; LW gp (SP_VAR VAR_B) sp] ++
  get_shift_byte_in_tp s0 2 ++ sh tp (SP_VAR_BYTE VAR_B 2) sp ++ [LW tp (SP_VAR VAR_B) sp; ADD gp gp tp] ++
  get_shift_byte_in_tp s0 1 ++ slli tp tp 8 ++ [ADD gp gp tp] ++
  get_shift_byte_in_tp s0 0 ++ [POP s0 1; ADD rd gp tp].

(** The amount is a register or an immediate. *)
Inductive amount := InReg (rs2 : Z) | Imm (imm : Z).

(** From the row in s0 on. *)
Definition shift_right_tail (rd : Z) (is_arith : bool) : list base_inst :=
  get_shift_byte_in_tp s0 2 ++ [SW tp (SP_VAR VAR_B) sp] ++
  get_shift_byte_in_tp s0 1 ++ [SW tp (SP_VAR VAR_C) sp] ++
  get_shift_byte_in_tp s0 0 ++ [SW tp (SP_VAR VAR_D) sp] ++
  [LBU gp (SP_VAR_BYTE VAR_B 1) sp; LBU tp (SP_VAR_BYTE VAR_C 2) sp; ADD gp gp tp;
   LBU tp (SP_VAR_BYTE VAR_D 3) sp; ADD gp gp tp; SW gp (SP_VAR VAR_D) sp;
   LBU gp (SP_VAR_BYTE VAR_B 2) sp; LBU tp (SP_VAR_BYTE VAR_C 3) sp; ADD gp gp tp;
   SB gp (SP_VAR_BYTE VAR_D 1) sp;
   LBU gp (SP_VAR_BYTE VAR_B 3) sp; SB gp (SP_VAR_BYTE VAR_D 2) sp;
   LW gp (SP_VAR VAR_D) sp] ++
  (if is_arith then la tp (_sra8_table - _srl8_table) ++ [ADD s0 s0 tp] else []) ++
  get_shift_byte_in_tp s0 3 ++ [POP s0 1; ADD rd gp tp].

(** Shift right by 24: the fast path. *)
Definition shift_right_24 (rd rs1 : Z) (is_arith : bool) : list base_inst :=
  if is_arith then
    [SW rs1 (SP_VAR VAR_A) sp] ++ la tp (_sra8_table + (24 <<< 10)) ++
    [LBU rd (SP_VAR_BYTE VAR_A 3) sp] ++ slli rd rd 2 ++ [ADD tp tp rd; LW rd 0 tp]
  else getbyte rd rs1 3.

Definition shift_right_template (rd rs1 : Z) (rs2 : amount) (is_arith : bool) : list base_inst :=
  match rs2 with
  | InReg r => [PUSH s0 1; SW rs1 (SP_VAR VAR_A) sp] ++ shift_row _srl8_table r ++ shift_right_tail rd is_arith
  | Imm imm =>
      if imm =? 24 then shift_right_24 rd rs1 is_arith
      else [PUSH s0 1; SW rs1 (SP_VAR VAR_A) sp] ++ la s0 (_srl8_table + (imm <<< 10)) ++ shift_right_tail rd is_arith
  end.

Definition srl (rd rs1 rs2 : Z) : list base_inst := shift_right_template rd rs1 (InReg rs2) false.
Definition sra (rd rs1 rs2 : Z) : list base_inst := shift_right_template rd rs1 (InReg rs2) true.
Definition srli (rd rs1 imm : Z) : list base_inst := shift_right_template rd rs1 (Imm imm) false.
Definition srai (rd rs1 imm : Z) : list base_inst := shift_right_template rd rs1 (Imm imm) true.

(** [def_itype] *)
Definition slti (rd rs1 imm : Z) : list base_inst := li tp imm ++ slt rd rs1 tp.
Definition sltiu (rd rs1 imm : Z) : list base_inst := li tp imm ++ sltu rd rs1 tp.
Definition def_itype (rtype_name : Z -> Z -> Z -> option (list base_inst)) (rd rs1 imm : Z) : option (list base_inst) :=
  l ← rtype_name rd rs1 tp; Some (li tp imm ++ l).
Definition andi := def_itype and_.
Definition ori := def_itype or_.
Definition xori := def_itype xor_.

(** Loads from [off(base)]. *)
Definition lb (rd off base : Z) : list base_inst :=
  [SW x0 (SP_VAR VAR_A) sp; LBU rd off base; SB rd (SP_VAR_BYTE VAR_A 3) sp; LW rd (SP_VAR VAR_A) sp] ++ srai rd rd 24.
Definition lhu (rd off base : Z) : list base_inst :=
  [SW x0 (SP_VAR VAR_A) sp; LBU tp (1 + off) base; SB tp (SP_VAR_BYTE VAR_A 1) sp; LW tp (SP_VAR VAR_A) sp;
   LBU rd (0 + off) base; ADD rd rd tp].
Definition lh (rd off base : Z) : list base_inst :=
  [SW x0 (SP_VAR VAR_A) sp; LBU gp (1 + off) base; SB gp (SP_VAR_BYTE VAR_A 3) sp; LW gp (SP_VAR VAR_A) sp] ++
  srai gp gp 16 ++ [LBU rd (0 + off) base; ADD rd rd gp].

Definition neg (rd rs : Z) := sub rd x0 rs.
Definition snez (rd rs : Z) := sltu rd x0 rs.
Definition sltz (rd rs : Z) := msb rd rs.
Definition sgt (rd rs1 rs2 : Z) := slt rd rs2 rs1.
Definition sgtu (rd rs1 rs2 : Z) := sltu rd rs2 rs1.
Definition sgtz (rd rs : Z) := slt rd x0 rs.
Definition beqz (rs offset label : Z) := beq rs x0 offset label.
Definition bnez (rs offset label : Z) := bne rs x0 offset label.
Definition blez (rs offset label : Z) := bge x0 rs offset label.
Definition bgez (rs offset label : Z) := bge rs x0 offset label.
Definition bltz (rs offset label : Z) := blt rs x0 offset label.
Definition bgtz (rs offset label : Z) := blt x0 rs offset label.
Definition bgt (rs rt offset label : Z) := blt rt rs offset label.
Definition ble (rs rt offset label : Z) := bge rt rs offset label.
Definition bgtu (rs rt offset label : Z) := bltu rt rs offset label.
Definition bleu (rs rt offset label : Z) := bgeu rt rs offset label.
End macros.

(** ** Executing straight-line code *)

Definition exec (l : list base_inst) (st : mstate) : mstate := foldl (fun st i => step i st) st l.

Definition no_jump (i : base_inst) : bool := match i with JALR _ _ => false | _ => true end.

Lemma exec_app l1 l2 st : exec (l1 ++ l2) st = exec l2 (exec l1 st).
Proof. apply foldl_app. Qed.

Lemma exec_cons i l st : exec (i :: l) st = exec l (step i st).
Proof. done. Qed.

Lemma run_app pc l1 l2 st :
  forallb no_jump l1 = true ->
  run pc (l1 ++ l2) st = run (loop (length l1) (fun p => u32 (p + 4)) pc) l2 (exec l1 st).
Proof.
  revert pc st. induction l1 as [|i l1 IH]; intros pc st H; [done |]. cbn in H. apply andb_prop in H as [Hi H].
  destruct i; try done; cbn [app run length loop]; rewrite IH by done; done.
Qed.

(** ** Registers *)

Lemma rget_eq f r v : r <> x0 -> rget (rset f r v) r = v.
Proof. intros. unfold rget, rset. rewrite Z.eqb_refl. by zcmp. Qed.

Lemma rget_ne f r v q : q <> r -> rget (rset f r v) q = rget f q.
Proof. intros. unfold rget, rset. by replace (q =? r) with false by lia. Qed.

Lemma rget_zero f : rget f x0 = 0.
Proof. done. Qed.

Lemma rset_rset f r v w : rset (rset f r v) r w = rset f r w.
Proof. apply functional_extensionality. intros q. unfold rset. by destruct (q =? r). Qed.

Lemma rset_swap f r q v w : r <> q -> rset (rset f r v) q w = rset (rset f q w) r v.
Proof. intros. apply functional_extensionality. intros x. unfold rset. by zcmp. Qed.

Lemma rset_same f r : rset f r (f r) = f.
Proof. apply functional_extensionality. intros q. unfold rset. by destruct (Z.eqb_spec q r) as [-> |]. Qed.

Definition regs_ok (f : Z -> Z) : Prop := forall r, in_range 32 (f r).

Lemma rget_range f r : regs_ok f -> in_range 32 (rget f r).
Proof. intros H. unfold rget. destruct (r =? x0); [done | apply H]. Qed.

Lemma rset_ok f r v : regs_ok f -> in_range 32 v -> regs_ok (rset f r v).
Proof. intros Hf Hv q. unfold rset. destruct (q =? r); [done | apply Hf]. Qed.

(** ** The scratch space

    Memory seen as the scratch bytes [sc], by their negative offset from the stack pointer
    [S], over the rest [m]. *)

Definition overlay (S : Z) (sc : mem) (m : mem) : mem :=
  fun a => if (S - 28 <=? a) && (a <? S) then sc (a - S) else m a.

Definition outside (S a : Z) : Prop := a < S - 28 \/ S <= a.

(** Some view exists for every memory. *)
Lemma overlay_self S m : overlay S (fun c => m (S + c)) m = m.
Proof.
  apply functional_extensionality. intros a. unfold overlay. destruct (_ && _); [| done]. f_equal. lia.
Qed.

Lemma overlay_out S sc m a : outside S a -> overlay S sc m a = m a.
Proof. intros H. unfold overlay, outside in *. by zcmp. Qed.

Section scratch.
  Context (S : Z) (HS : 28 <= S < 2 ^ 32).

Lemma scratch_addr c : -28 <= c <= 0 -> u32 (S + c) = if c =? 0 then u32 S else S + c.
Proof. intros. destruct (Z.eqb_spec c 0) as [-> |]; [by rewrite Z.add_0_r | apply wrap_small; unfold in_range; lia]. Qed.

Lemma scratch_addr' c : -28 <= c < 0 -> u32 (S + c) = S + c.
Proof. intros. apply wrap_small. unfold in_range. lia. Qed.

Lemma overlay_at sc m c : -28 <= c < 0 -> overlay S sc m (S + c) = sc c.
Proof. intros. unfold overlay. zcmp; try lia. cbn. f_equal. lia. Qed.

Lemma overlay_read n sc m c :
  -28 <= c -> c + Z.of_nat n <= 0 -> le_read n (overlay S sc m) (S + c) = le_read n sc c.
Proof.
  revert c. induction n as [|n IH]; intros c H1 H2; [done |]. cbn [le_read].
  rewrite overlay_at by lia. replace (S + c + 1) with (S + (c + 1)) by lia. rewrite IH by lia. done.
Qed.

Lemma overlay_write n sc m c v :
  -28 <= c -> c + Z.of_nat n <= 0 ->
  le_write n (overlay S sc m) (S + c) v = overlay S (le_write n sc c v) m.
Proof.
  intros H1 H2. apply functional_extensionality. intros a. rewrite le_write_lookup. unfold overlay at 2.
  rewrite le_write_lookup. replace (a - S - c) with (a - (S + c)) by lia.
  destruct (Z.leb_spec (S + c) a), (Z.ltb_spec a (S + c + Z.of_nat n)); cbn [andb].
  1: by zcmp; try lia.
  all: unfold overlay; destruct (_ && _); [| done]; by zcmp; try lia.
Qed.

Lemma overlay_read_out n sc m a :
  (forall k, 0 <= k < Z.of_nat n -> outside S (a + k)) -> le_read n (overlay S sc m) a = le_read n m a.
Proof. intros H. apply le_read_ext. intros x Hx. apply overlay_out. replace x with (a + (x - a)) by lia. apply H. lia. Qed.

Lemma overlay_write_out sc m a v :
  outside S a -> le_write 1 (overlay S sc m) a v = overlay S sc (le_write 1 m a v).
Proof.
  intros H. apply functional_extensionality. intros x. unfold outside in H. unfold overlay at 2.
  rewrite !le_write_lookup. unfold overlay. by zcmp; try lia.
Qed.
End scratch.
