(* ===== verification/MiniRvCorrect.v ===== *)
(** Correctness of the minimal instruction set's macros (MiniRv): every expansion computes
    what the instruction it replaces computes, and changes nothing else but gp, tp and the
    scratch space below the stack pointer. *)

From S2P Require Import Prelude MiniRv.
From Stdlib Require Import FunctionalExtensionality.

#[local] Open Scope cint_scope.

(** Linear arithmetic with division by constants. *)
Ltac dlia := Z.to_euclidean_division_equations; lia.

(** ** Bytes of words *)

(** Byte [k] of a word. *)
Definition byte (k v : Z) : Z := u8 (v >>> (8 * k)).

Lemma byte_range k v : in_range 8 (byte k v).
Proof. apply wrap_range. lia. Qed.

Lemma byte_div k v : 0 <= k -> byte k v = v / 2 ^ (8 * k) mod 256.
Proof. intros. unfold byte, wrap. by rewrite Z.shiftr_div_pow2 by lia. Qed.

Lemma word_of_bytes v : in_range 32 v -> v = byte 0 v + 2 ^ 8 * byte 1 v + 2 ^ 16 * byte 2 v + 2 ^ 24 * byte 3 v.
Proof.
  unfold in_range. intros. rewrite !byte_div by lia. change (2 ^ (8 * 0)) with 1. change (2 ^ (8 * 1)) with 256.
  change (2 ^ (8 * 2)) with 65536. change (2 ^ (8 * 3)) with 16777216. dlia.
Qed.

(** A little-endian word as a sum. *)
Lemma le_read4 m a :
  bytes_ok m -> le_read 4 m a = m a + 2 ^ 8 * m (a + 1) + 2 ^ 16 * m (a + 2) + 2 ^ 24 * m (a + 3).
Proof.
  intros Hm. cbn [le_read].
  assert (forall x y, in_range 8 x -> x ||| (y <<< 8) = x + 2 ^ 8 * y) as H.
  { intros x y Hx. rewrite Z.lor_comm, lor_add by (done || lia). lia. }
  replace (a + 1 + 1) with (a + 2) by lia. replace (a + 2 + 1) with (a + 3) by lia.
  rewrite Z.shiftl_0_l, Z.lor_0_r, !H by apply Hm. lia.
Qed.

(** The parts of a word written to memory. *)
Lemma le_write4_at m a v k : 0 <= k < 4 -> le_write 4 m a v (a + k) = byte k v.
Proof.
  intros. rewrite le_write_lookup. replace (a + k - a) with k by lia. zcmp.
Qed.

(** Reading four known bytes. *)
Lemma le_read4_bytes m a v :
  in_range 32 v -> (forall k, 0 <= k < 4 -> m (a + k) = byte k v) -> le_read 4 m a = v.
Proof.
  intros Hv H. rewrite (le_read_ext 4 _ (le_write 4 m a v)).
  - rewrite le_read_write. by apply wrap_small.
  - intros x Hx. replace x with (a + (x - a)) by lia. rewrite le_write4_at by lia. apply H. lia.
Qed.

(** ** Single instructions on the scratch space *)

Definition view (S : Z) (f : Z -> Z) (sc m : mem) : mstate := MState f (overlay S sc m).

Section steps.
  Context (S : Z) (HS : 28 <= S < 2 ^ 32).

Lemma step_sw f sc m r c :
  rget f sp = S -> -28 <= c <= -4 ->
  step (SW r c sp) (view S f sc m) = view S f (le_write 4 sc c (rget f r)) m.
Proof. intros Hsp Hc. unfold view. cbn [step]. rewrite Hsp, scratch_addr', overlay_write by lia. done. Qed.

Lemma step_sb f sc m r c :
  rget f sp = S -> -28 <= c < 0 ->
  step (SB r c sp) (view S f sc m) = view S f (le_write 1 sc c (rget f r)) m.
Proof. intros Hsp Hc. unfold view. cbn [step]. rewrite Hsp, scratch_addr', overlay_write by lia. done. Qed.

Lemma step_lw f sc m r c :
  rget f sp = S -> -28 <= c <= -4 ->
  step (LW r c sp) (view S f sc m) = view S (rset f r (le_read 4 sc c)) sc m.
Proof. intros Hsp Hc. unfold view. cbn [step]. rewrite Hsp, scratch_addr', overlay_read by lia. done. Qed.

Lemma step_lbu f sc m r c :
  rget f sp = S -> -28 <= c < 0 ->
  step (LBU r c sp) (view S f sc m) = view S (rset f r (sc c)) sc m.
Proof. intros Hsp Hc. unfold view. cbn [step]. rewrite Hsp, scratch_addr', overlay_at by lia. done. Qed.

(** Reading outside the scratch space. *)
Lemma step_lbu_out f sc m r b off a :
  u32 (rget f b + off) = a -> outside S a ->
  step (LBU r off b) (view S f sc m) = view S (rset f r (m a)) sc m.
Proof. intros <- Ho. unfold view. cbn [step]. by rewrite overlay_out. Qed.

Lemma step_lw_out f sc m r b off a :
  u32 (rget f b + off) = a -> (forall k, 0 <= k < 4 -> outside S (a + k)) ->
  step (LW r off b) (view S f sc m) = view S (rset f r (le_read 4 m a)) sc m.
Proof. intros <- Ho. unfold view. cbn [step]. by rewrite overlay_read_out. Qed.

Lemma step_sb_out f sc m r b off a :
  u32 (rget f b + off) = a -> outside S a ->
  step (SB r off b) (view S f sc m) = view S f sc (le_write 1 m a (rget f r)).
Proof. intros <- Ho. unfold view. cbn [step]. by rewrite overlay_write_out. Qed.

Lemma step_add f sc m rd rs1 rs2 :
  step (ADD rd rs1 rs2) (view S f sc m) = view S (rset f rd (u32 (rget f rs1 + rget f rs2))) sc m.
Proof. done. Qed.

Lemma step_addi f sc m rd rs1 imm :
  step (ADDI rd rs1 imm) (view S f sc m) = view S (rset f rd (u32 (rget f rs1 + imm))) sc m.
Proof. done. Qed.

(** ** The small macros *)

Lemma hi_lo12 a : u32 (u32 (hi20 a <<< 12) + lo12 a) = u32 a.
Proof.
  unfold hi20, lo12. rewrite wrap_add_l. rewrite Z.shiftl_mul_pow2, Z.shiftr_div_pow2 by lia.
  unfold sext, wrap. change (2 ^ (12 - 1)) with 2048. change (2 ^ 12) with 4096. change (2 ^ 32) with 4294967296. dlia.
Qed.

Lemma exec_la f sc m r a : r <> x0 -> exec (la r a) (view S f sc m) = view S (rset f r (u32 a)) sc m.
Proof.
  intros Hr. unfold la, view. cbn [exec foldl step]. rewrite rget_eq, rset_rset, hi_lo12 by done. done.
Qed.

Lemma exec_getbyte f sc m rd rs b :
  rget f sp = S -> 0 <= b < 4 ->
  exec (getbyte rd rs b) (view S f sc m) =
  view S (rset f rd (byte b (rget f rs))) (le_write 4 sc (-24) (rget f rs)) m.
Proof.
  intros Hsp Hb. unfold getbyte. rewrite !exec_cons. change (SP_VAR VAR_C) with (-24).
  rewrite step_sw by (done || lia). unfold SP_VAR_BYTE. change (- VAR_C * 4) with (-24).
  rewrite step_lbu, le_write4_at by (done || lia). done.
Qed.

Lemma exec_double f sc m r n :
  r <> x0 -> in_range 32 (rget f r) ->
  exec (replicate n (ADD r r r)) (view S f sc m) = view S (rset f r (u32 (rget f r <<< Z.of_nat n))) sc m.
Proof.
  intros Hr. revert f. induction n as [|n IH]; intros f Hf.
  - change (Z.of_nat 0) with 0. rewrite Z.shiftl_0_r, wrap_small by done. unfold rget.
    replace (r =? x0) with false by lia. by rewrite rset_same.
  - cbn [replicate]. rewrite exec_cons, step_add, IH by (rewrite ?rget_eq by done; auto with cint).
    rewrite rget_eq, rset_rset by done. do 2 f_equal. rewrite !Z.shiftl_mul_pow2 by lia. rewrite wrap_mul_l.
    replace (Z.of_nat (Datatypes.S n)) with (1 + Z.of_nat n) by lia. rewrite Z.pow_add_r by lia. f_equal. lia.
Qed.

Lemma exec_slli_range f sc m rd rs n :
  rd <> x0 -> in_range 32 (rget f rs) -> 0 <= n ->
  exec (slli_add rd rs n) (view S f sc m) = view S (rset f rd (u32 (rget f rs <<< n))) sc m.
Proof.
  intros Hrd Hr Hn. unfold slli_add. destruct (Z.eqb_spec n 0) as [-> |].
  - rewrite Z.shiftl_0_r, wrap_small by done. destruct (Z.eqb_spec rd rs) as [-> |].
    + unfold rget. replace (rs =? x0) with false by lia. by rewrite rset_same.
    + cbn. by rewrite Z.add_0_r, wrap_small.
  - rewrite exec_app. cbn [exec foldl]. rewrite step_add.
    change (foldl _ ?s ?l) with (exec l s). rewrite exec_double by (rewrite ?rget_eq by done; auto with cint).
    rewrite rget_eq, rset_rset by done. do 2 f_equal. rewrite !Z.shiftl_mul_pow2 by lia. rewrite wrap_mul_l.
    rewrite Z2Nat.id by lia. replace n with (1 + (n - 1)) at 2 by lia. rewrite Z.pow_add_r by lia. f_equal. lia.
Qed.

Lemma exec_slli_add f sc m rd rs n :
  rd <> x0 -> regs_ok f -> 0 <= n ->
  exec (slli_add rd rs n) (view S f sc m) = view S (rset f rd (u32 (rget f rs <<< n))) sc m.
Proof. intros Hrd Hf. apply exec_slli_range; [done | by apply rget_range]. Qed.
End steps.

(** ** The tables *)

Lemma nth_flat_map (g : Z -> list Z) c (l : list Z) k r :
  (forall i, length (g i) = c) -> (r < c)%nat -> (k < length l)%nat ->
  nth (c * k + r) (flat_map g l) 0 = nth r (g (nth k l 0)) 0.
Proof.
  intros Hg Hr. revert k. induction l as [|x l IH]; intros k Hk; [cbn in Hk; lia |]. cbn [flat_map]. destruct k as [|k].
  - rewrite app_nth1 by (rewrite Hg; lia). cbn. f_equal. lia.
  - rewrite app_nth2 by (rewrite Hg; lia). rewrite Hg. replace (c * Datatypes.S k + r - c)%nat with (c * k + r)%nat by lia.
    rewrite IH by (cbn in Hk; lia). done.
Qed.

Lemma length_flat_map (g : Z -> list Z) c (l : list Z) :
  (forall i, length (g i) = c) -> length (flat_map g l) = (c * length l)%nat.
Proof. intros Hg. induction l as [|x l IH]; cbn; [lia |]. rewrite length_app, Hg, IH. lia. Qed.

Lemma nth_seqZ n k : 0 <= k < n -> nth (Z.to_nat k) (seqZ 0 n) 0 = k.
Proof.
  intros H. rewrite nth_lookup. rewrite (proj2 (lookup_seqZ 0 n (Z.to_nat k) k)); [done | lia].
Qed.

Definition table_row (col : Z) (es : nat) (e : Z -> Z -> Z) (j : Z) : list Z :=
  flat_map (fun i => (fun k => u8 (u32 (e j i) >>> (8 * Z.of_nat k))) <$> seq 0 es) (seqZ 0 col).

Lemma length_table_row col es e j : 0 <= col -> length (table_row col es e j) = (es * Z.to_nat col)%nat.
Proof.
  intros Hc. unfold table_row. rewrite (length_flat_map _ es), length_seqZ by (intros; by rewrite length_fmap, length_seq). done.
Qed.

Lemma length_gen_table row col es e :
  0 <= row -> 0 <= col -> Z.of_nat (length (gen_table row col es e)) = row * col * Z.of_nat es.
Proof.
  intros. unfold gen_table. fold (table_row col es e).
  rewrite (length_flat_map _ (es * Z.to_nat col)), length_seqZ by (intros; by apply length_table_row). lia.
Qed.

(** Byte [k] of the entry in row [j] and column [i]. *)
Lemma gen_table_at row col es e j i k :
  0 <= j < row -> 0 <= i < col -> 0 <= k < Z.of_nat es ->
  aget 0 (gen_table row col es e) ((j * col + i) * Z.of_nat es + k) = byte k (u32 (e j i)).
Proof.
  intros Hj Hi Hk. unfold aget, gen_table.
  replace (Z.to_nat _) with (es * Z.to_nat col * Z.to_nat j + (es * Z.to_nat i + Z.to_nat k))%nat by lia.
  rewrite (nth_flat_map (table_row col es e)); [| intros; apply length_table_row; lia | nia | rewrite length_seqZ; lia].
  rewrite nth_seqZ by done. unfold table_row.
  rewrite nth_flat_map; [| intros; by rewrite length_fmap, length_seq | lia | rewrite length_seqZ; lia].
  rewrite nth_seqZ, nth_lookup, list_lookup_fmap by done.
  rewrite lookup_seq_lt by lia. cbn. unfold byte. do 3 f_equal. lia.
Qed.

Lemma aget_app_l (l1 l2 : list Z) k : k < Z.of_nat (length l1) -> 0 <= k -> aget 0 (l1 ++ l2) k = aget 0 l1 k.
Proof. intros. unfold aget. apply app_nth1. lia. Qed.

Lemma aget_app_r (l1 l2 : list Z) n k :
  Z.of_nat (length l1) = n -> 0 <= k -> aget 0 (l1 ++ l2) (n + k) = aget 0 l2 k.
Proof. intros. unfold aget. rewrite app_nth2 by lia. f_equal. lia. Qed.

(** A table placed in memory. *)
Definition placed (m : mem) (base : Z) (l : list Z) : Prop :=
  forall k, 0 <= k < Z.of_nat (length l) -> m (base + k) = aget 0 l k.

Lemma length_logic_tables :
  Z.of_nat (length and8_bytes) = 65536 /\ Z.of_nat (length or8_bytes) = 65536 /\ Z.of_nat (length xor8_bytes) = 65536.
Proof. unfold and8_bytes, or8_bytes, xor8_bytes. rewrite !length_gen_table by lia. done. Qed.

Lemma length_shift_tables :
  Z.of_nat (length sll8_bytes) = 32768 /\ Z.of_nat (length srl8_bytes) = 32768 /\ Z.of_nat (length sra8_bytes) = 32768.
Proof. unfold sll8_bytes, srl8_bytes, sra8_bytes. rewrite !length_gen_table by lia. done. Qed.

Lemma gen_table_ok row col es e : Forall (in_range 8) (gen_table row col es e).
Proof.
  unfold gen_table. apply Forall_flat_map, Forall_true. intros j. apply Forall_flat_map, Forall_true.
  intros i. apply Forall_map, Forall_true. intros k. by apply wrap_range.
Qed.

Lemma lut_ok : Forall (in_range 8) lut.
Proof. unfold lut. rewrite !Forall_app. split_and!; apply gen_table_ok. Qed.

#[local] Opaque gen_table and8_bytes or8_bytes xor8_bytes sll8_bytes srl8_bytes sra8_bytes.

Section lut.
  Context (sy : symbols) (m : mem) (Hlut : placed m (_logic_shift_table sy) lut).

Lemma lut_at (l1 l2 l3 : list Z) n k a :
  lut = l1 ++ l2 ++ l3 -> Z.of_nat (length l1) = n -> 0 <= k < Z.of_nat (length l2) ->
  a = _logic_shift_table sy + (n + k) -> m a = aget 0 l2 k.
Proof.
  intros E Hn Hk ->. rewrite Hlut by (rewrite E, !length_app; lia).
  rewrite E, (aget_app_r _ _ n), aget_app_l by lia. done.
Qed.

(** The entries of the six tables. *)
Lemma logic_entry e j i :
  in_range 8 j -> in_range 8 i -> in_range 8 (e j i) -> aget 0 (gen_table 256 256 1 e) (256 * j + i) = e j i.
Proof.
  unfold in_range. intros Hj Hi He. replace (256 * j + i) with ((j * 256 + i) * Z.of_nat 1 + 0) by lia.
  rewrite gen_table_at by lia. unfold byte. rewrite Z.shiftr_0_r, wrap_wrap_le by lia. by apply wrap_small.
Qed.

Lemma shift_entry e s i k :
  0 <= s < 32 -> in_range 8 i -> 0 <= k < 4 ->
  aget 0 (gen_table 32 256 4 e) (1024 * s + 4 * i + k) = byte k (u32 (e s i)).
Proof.
  unfold in_range. intros. replace (1024 * s + 4 * i + k) with ((s * 256 + i) * Z.of_nat 4 + k) by lia.
  apply gen_table_at; lia.
Qed.

Lemma lut_logic j i :
  in_range 8 j -> in_range 8 i ->
  m (_and8_table sy + (256 * j + i)) = j &&& i /\
  m (_or8_table sy + (256 * j + i)) = j ||| i /\
  m (_xor8_table sy + (256 * j + i)) = j ^^^ i.
Proof.
  intros Hj Hi. destruct length_logic_tables as (L1 & L2 & L3). unfold _xor8_table, _or8_table, _and8_table.
  unfold in_range in Hj, Hi. split_and!.
  - rewrite (lut_at [] and8_bytes (or8_bytes ++ xor8_bytes ++ sll8_bytes ++ srl8_bytes ++ sra8_bytes) 0 (256 * j + i));
      [| unfold lut; exact (eq_sym (app_nil_l _)) | reflexivity | lia | lia].
    apply (logic_entry (fun j i => j &&& i)); [done | done | apply land_range; unfold in_range; lia].
  - rewrite (lut_at and8_bytes or8_bytes (xor8_bytes ++ sll8_bytes ++ srl8_bytes ++ sra8_bytes) 65536 (256 * j + i)); [| unfold lut; reflexivity | lia | lia | lia].
    apply (logic_entry (fun j i => j ||| i)); [done | done | apply lor_range; unfold in_range; lia].
  - rewrite (lut_at (and8_bytes ++ or8_bytes) xor8_bytes (sll8_bytes ++ srl8_bytes ++ sra8_bytes) 131072 (256 * j + i));
      [| unfold lut; by rewrite <- app_assoc | rewrite length_app; lia | lia | lia].
    apply (logic_entry (fun j i => j ^^^ i)); [done | done | apply lxor_range; unfold in_range; lia].
Qed.

Lemma lut_shift s i :
  0 <= s < 32 -> in_range 8 i ->
  le_read 4 m (_sll8_table sy + (1024 * s + 4 * i)) = u32 (i <<< s) /\
  le_read 4 m (_srl8_table sy + (1024 * s + 4 * i)) = (i <<< 24) >>> s /\
  le_read 4 m (_sra8_table sy + (1024 * s + 4 * i)) = u32 (s32 (i <<< 24) >>> s).
Proof.
  intros Hs Hi. unfold _sra8_table, _srl8_table, _sll8_table, _xor8_table, _or8_table, _and8_table.
  destruct length_logic_tables as (L1 & L2 & L3), length_shift_tables as (L4 & L5 & L6).
  pose proof Hi as Hi'. unfold in_range in Hi'.
  assert (u32 (i <<< 24) = i <<< 24) as E24.
  { apply wrap_small. unfold in_range. rewrite Z.shiftl_mul_pow2 by lia. lia. }
  assert (in_range 32 ((i <<< 24) >>> s)) as Hr.
  { apply shiftr_range; [lia |]. rewrite <- E24. apply wrap_range. lia. }
  split_and!; (apply le_read4_bytes; [first [exact Hr | apply wrap_range; lia] | intros k Hk]).
  - rewrite (lut_at (and8_bytes ++ or8_bytes ++ xor8_bytes) sll8_bytes (srl8_bytes ++ sra8_bytes) 196608 (1024 * s + 4 * i + k));
      [| unfold lut; by rewrite <- !app_assoc | rewrite !length_app; lia | lia | lia].
    by apply (shift_entry (fun j i => i <<< j)).
  - rewrite (lut_at (and8_bytes ++ or8_bytes ++ xor8_bytes ++ sll8_bytes) srl8_bytes sra8_bytes 229376 (1024 * s + 4 * i + k));
      [| unfold lut; by rewrite <- !app_assoc | rewrite !length_app; lia | lia | lia].
    pose proof (shift_entry (fun j i => u32 (i <<< 24) >>> j) s i k Hs Hi Hk) as E.
    cbv beta in E. rewrite E24, (wrap_small 32 ((i <<< 24) >>> s)) in E by done. exact E.
  - rewrite (lut_at (and8_bytes ++ or8_bytes ++ xor8_bytes ++ sll8_bytes ++ srl8_bytes) sra8_bytes [] 262144 (1024 * s + 4 * i + k));
      [| unfold lut; by rewrite <- !app_assoc, app_nil_r | rewrite !length_app; lia | lia | lia].
    by apply (shift_entry (fun j i => s32 (i <<< 24) >>> j)).
Qed.

Lemma length_lut : Z.of_nat (length lut) = 294912.
Proof.
  destruct length_logic_tables as (L1 & L2 & L3), length_shift_tables as (L4 & L5 & L6).
  unfold lut. rewrite !length_app. lia.
Qed.
End lut.

(** ** Stepping tactics *)

Lemma le_write4_in m a v c k : c = a + k -> 0 <= k < 4 -> le_write 4 m a v c = byte k v.
Proof. intros ->. apply le_write4_at. Qed.

Lemma le_write1_in m a v : le_write 1 m a v a = byte 0 v.
Proof. rewrite le_write_lookup. unfold byte. rewrite Z.sub_diag. zcmp. Qed.

Lemma le_write_out n m a v c : c < a \/ a + Z.of_nat n <= c -> le_write n m a v c = m c.
Proof. intros. rewrite le_write_lookup. zcmp. Qed.

(** Reads of known scratch bytes. *)
Ltac scratch_read :=
  repeat match goal with
  | |- context [le_write 4 ?m ?a ?v ?c] =>
      let k := eval vm_compute in (c - a) in
      first [rewrite (le_write4_in m a v c k) by lia | rewrite (le_write_out 4 m a v c) by lia]
  | |- context [le_write 1 ?m ?a ?v ?c] =>
      first [change c with a; rewrite (le_write1_in m a v) | rewrite (le_write_out 1 m a v c) by lia]
  end.

(** Registers after known writes. *)
Ltac regs_read := repeat first [rewrite rget_zero | rewrite rget_eq by lia | rewrite rget_ne by lia].

(** The scratch offsets as numbers. *)
Ltac offsets :=
  unfold PUSH, POP, SP_VAR, SP_VAR_BYTE, VAR_A, VAR_B, VAR_C, VAR_D;
  repeat match goal with
  | |- context [?a * ?b + ?c] =>
      let t := constr:(a * b + c) in
      let v := eval vm_compute in t in
      lazymatch v with Z0 => idtac | Zpos _ => idtac | Zneg _ => idtac end; change t with v
  end.

Lemma exec_view S f sc m i l : exec (i :: l) (view S f sc m) = exec l (step i (view S f sc m)).
Proof. done. Qed.

Lemma exec_nil st : exec [] st = st.
Proof. done. Qed.

(** One instruction. *)
Ltac step1 :=
  first [rewrite step_add | rewrite step_addi
        | rewrite step_sw by (first [lia | regs_read; assumption]) | rewrite step_sb by (first [lia | regs_read; assumption])
        | rewrite step_lw by (first [lia | regs_read; assumption]) | rewrite step_lbu by (first [lia | regs_read; assumption])].
Ltac steps := repeat first [rewrite exec_nil | rewrite exec_view; step1; regs_read; rewrite ?rset_rset].

(** Where the tables are: below the address limit and away from the scratch space. *)
Definition apart (S b n : Z) : Prop := 0 <= b /\ b + n <= 2 ^ 32 /\ (b + n <= S - 28 \/ S <= b).

Record layout (S : Z) (sy : symbols) (m : mem) : Prop := Layout {
  stack_ok : 28 <= S < 2 ^ 32;
  lut_apart : apart S (_logic_shift_table sy) 294912;
  same_apart : apart S (_same_result_table sy) 8;
  zero_apart : apart S (_check_8bit_0_table sy) 256;
  slt_apart : apart S (_slt1_table sy) 8;
  sltu_apart : apart S (_sltu1_table sy) 8;
  or_apart : apart S (_or1_table sy) 4;
  array_apart : apart S (_check_same_array sy) 256;
  lut_placed : placed m (_logic_shift_table sy) lut;
  same_placed : placed m (_same_result_table sy) same_result_bytes;
  zero_placed : placed m (_check_8bit_0_table sy) check_8bit_0_bytes;
  slt_placed : placed m (_slt1_table sy) slt1_bytes;
  sltu_placed : placed m (_sltu1_table sy) sltu1_bytes;
  or_placed : placed m (_or1_table sy) or1_bytes;
  array_same : _check_same_array sy + 256 <= _same_result_table sy \/ _same_result_table sy + 8 <= _check_same_array sy }.

(** Scratch bytes that are kept. *)
Definition agree (lo hi : Z) (sc sc' : mem) : Prop := forall c, lo <= c < hi -> sc' c = sc c.

Lemma agree_refl lo hi sc : agree lo hi sc sc.
Proof. done. Qed.

Lemma agree_trans lo hi sc sc' sc'' : agree lo hi sc sc' -> agree lo hi sc' sc'' -> agree lo hi sc sc''.
Proof. intros H1 H2 c Hc. rewrite H2, H1 by done. done. Qed.

Lemma agree_write lo hi sc sc' n a v :
  agree lo hi sc sc' -> a + Z.of_nat n <= lo \/ hi <= a -> agree lo hi sc (le_write n sc' a v).
Proof. intros H Ha c Hc. rewrite le_write_out by lia. by apply H. Qed.

Lemma agree_le_read lo hi sc sc' n a :
  agree lo hi sc sc' -> lo <= a -> a + Z.of_nat n <= hi -> le_read n sc' a = le_read n sc a.
Proof. intros H Hl Hh. apply le_read_ext. intros x Hx. apply H. lia. Qed.

Ltac agrees := repeat (apply agree_write; [| lia]); first [assumption | apply agree_refl].

(** Operations on bytes, bytewise. *)
Lemma byte_xor_ff k v : 0 <= k < 4 -> 0xff ^^^ byte k v = byte k (not32 v).
Proof.
  intros Hk. unfold byte, not32. rewrite Z.lxor_comm. change 0xff with (Z.ones 8).
  apply Z.bits_inj'. intros i Hi. rewrite Z.lxor_spec, !testbit_wrap, !Z.shiftr_spec, testbit_wrap, Z.lnot_spec by lia.
  rewrite Z.testbit_ones_nonneg by lia. destruct (Z.ltb_spec i 8), (Z.ltb_spec (i + 8 * k) 32); try lia; cbn; try done.
Qed.

Section not_sub.
  Context (S : Z) (sy : symbols) (m : mem) (HL : layout S sy m).

Lemma lut_byte f sc r x a :
  0 <= x < 294912 -> rget f r = u32 (_logic_shift_table sy + x) -> a = _logic_shift_table sy + x ->
  forall rd, step (LBU rd 0 r) (view S f sc m) = view S (rset f rd (m a)) sc m.
Proof.
  intros Hx Hr -> rd. pose proof (lut_apart _ _ _ HL) as (H0 & H1 & H2). apply step_lbu_out.
  - rewrite Hr, Z.add_0_r, wrap_wrap by lia. apply wrap_small. unfold in_range. lia.
  - unfold outside. lia.
Qed.

Lemma exec_not_byte f sc x c d k :
  rget f sp = S -> rget f tp = u32 (_xor8_table sy + 65280) -> 0 <= k < 4 -> -28 <= c < 0 -> -28 <= d < 0 -> sc c = byte k x ->
  exec [LBU gp c sp; ADD gp gp tp; LBU gp 0 gp; SB gp d sp] (view S f sc m) =
  view S (rset f gp (byte k (not32 x))) (le_write 1 sc d (byte k (not32 x))) m.
Proof.
  intros Hsp Htp Hk Hc Hd Hx. pose proof (stack_ok _ _ _ HL) as HS. pose proof (byte_range k x) as Hb.
  steps. rewrite exec_view, (lut_byte _ _ gp (131072 + 65280 + byte k x) (_xor8_table sy + (256 * 0xff + byte k x))).
  - rewrite rset_rset. destruct (lut_logic sy m (lut_placed _ _ _ HL) 0xff (byte k x)) as (_ & _ & ->); [done | done |].
    rewrite byte_xor_ff by done. steps. done.
  - unfold in_range in Hb. lia.
  - regs_read. rewrite Htp, Hx, wrap_add_r. f_equal. unfold _xor8_table, _or8_table, _and8_table. lia.
  - unfold _xor8_table, _or8_table, _and8_table. lia.
Qed.

Lemma byte0_byte k x : byte 0 (byte k x) = byte k x.
Proof. unfold byte at 1. rewrite Z.shiftr_0_r. apply wrap_small, byte_range. Qed.

Lemma exec_not f sc rd rs :
  rget f sp = S -> regs_ok f -> rd <> sp ->
  exists sc', exec (not_ sy rd rs) (view S f sc m) =
    view S (rset (rset f tp (u32 (_xor8_table sy + 65280))) rd (not32 (rget f rs))) sc' m /\
    agree (-8) 0 sc sc' /\ agree (-20) (-12) sc sc'.
Proof.
  intros Hsp Hf Hrd. pose proof (stack_ok _ _ _ HL) as HS. unfold not_. change (0xff <<< 8) with 65280.
  offsets. rewrite !exec_app. steps. rewrite exec_la by done. set (x := rget f rs).
  rewrite (exec_not_byte _ _ x _ _ 3); [| by regs_read | by regs_read | lia | lia | lia | by scratch_read].
  rewrite (exec_not_byte _ _ x _ _ 2); [| by regs_read | by regs_read | lia | lia | lia | by scratch_read].
  rewrite (exec_not_byte _ _ x _ _ 1); [| by regs_read | by regs_read | lia | lia | lia | by scratch_read].
  rewrite (exec_not_byte _ _ x _ _ 0); [| by regs_read | by regs_read | lia | lia | lia | by scratch_read].
  rewrite !rset_rset. rewrite exec_view, step_lw by (first [lia | by regs_read]). rewrite !rset_rset.
  rewrite (le_read4_bytes _ (-12) (rget f gp)); [| by apply rget_range |].
  2:{ intros k Hk. assert (k = 0 \/ k = 1 \/ k = 2 \/ k = 3) as [-> | [-> | [-> | ->]]] by lia; by scratch_read. }
  rewrite (rset_swap f tp gp) by lia. replace (rget f gp) with (f gp) by done. rewrite rset_same.
  rewrite exec_view, step_lw by (first [lia | by regs_read]). rewrite (le_read4_bytes _ (-28) (not32 x)); [| by apply wrap_range |].
  2:{ intros k Hk. assert (k = 0 \/ k = 1 \/ k = 2 \/ k = 3) as [-> | [-> | [-> | ->]]] by lia;
      scratch_read; by rewrite byte0_byte. }
  eexists. split; [reflexivity |]. split; agrees.
Qed.

Lemma exec_sub f sc rd rs1 rs2 :
  rget f sp = S -> regs_ok f -> rs1 <> tp -> rd <> x0 ->
  exists sc' v, exec (sub sy rd rs1 rs2) (view S f sc m) =
    view S (rset (rset f tp v) rd (u32 (rget f rs1 - rget f rs2))) sc' m /\ in_range 32 v /\
    agree (-8) 0 sc sc' /\ agree (-20) (-12) sc sc'.
Proof.
  intros Hsp Hf H1 Hd. unfold sub. rewrite exec_app. destruct (exec_not f sc tp rs2 Hsp Hf) as (sc' & -> & Ha & Hb); [lia |].
  rewrite !rset_rset. rewrite exec_view, step_add, exec_view, step_addi, exec_nil. rewrite rset_rset, rget_eq by done.
  rewrite (rget_ne _ tp _ rs1), rget_eq by lia.
  eexists _, _. split; [| split; [by apply wrap_range | done]]. do 2 f_equal. rewrite wrap_add_l.
  unfold not32, Z.lnot. rewrite <- (wrap_add_l _ (rget f rs1 + _)), wrap_add_r, wrap_add_l. f_equal. lia.
Qed.
End not_sub.

(** ** Comparisons *)

Definition top (x : Z) : Z := x >>> 31.

Lemma top_cases x : in_range 32 x -> (top x = 0 /\ x < 2 ^ 31) \/ (top x = 1 /\ 2 ^ 31 <= x).
Proof. unfold in_range, top. intros. rewrite Z.shiftr_div_pow2 by lia. dlia. Qed.

Lemma byte_top x : in_range 32 x -> byte 1 (u32 (byte 3 x <<< 1)) = top x.
Proof.
  intros Hx. pose proof (byte_range 3 x) as Hb. unfold in_range in *.
  rewrite wrap_small by (unfold in_range; rewrite Z.shiftl_mul_pow2 by lia; lia).
  rewrite (byte_div 1), byte_div by lia. unfold top. rewrite Z.shiftl_mul_pow2, Z.shiftr_div_pow2 by lia.
  change (2 ^ (8 * 1)) with 256. change (2 ^ (8 * 3)) with 16777216. change (2 ^ 31) with 2147483648. change (2 ^ 1) with 2. dlia.
Qed.

Lemma slt_entry x y :
  in_range 32 x -> in_range 32 y ->
  let k := 4 * top x + 2 * top y + top (u32 (x - y)) in
  0 <= k < 8 /\ aget 0 slt1_bytes k = b2z (s32 x <? s32 y) /\ aget 0 sltu1_bytes k = b2z (x <? y).
Proof.
  intros Hx Hy. pose proof (wrap_range 32 (x - y) ltac:(lia)) as Hd.
  assert (u32 (x - y) = if x <? y then x - y + 2 ^ 32 else x - y) as Ed.
  { unfold in_range in *. destruct (Z.ltb_spec x y); [| apply wrap_small; unfold in_range; lia].
    unfold wrap. rewrite <- (Z.mod_add (x - y) 1) by lia. rewrite Z.mod_small; lia. }
  assert (forall z, in_range 32 z -> s32 z = if z <? 2 ^ 31 then z else z - 2 ^ 32) as Es.
  { intros z Hz. unfold in_range in Hz. unfold sext. destruct (Z.ltb_spec z (2 ^ 31)).
    - rewrite wrap_small by (unfold in_range; lia). lia.
    - unfold wrap. replace (z + 2 ^ (32 - 1)) with (z - 2 ^ 31 + 1 * 2 ^ 32) by lia.
      rewrite Z.mod_add, Z.mod_small by lia. lia. }
  rewrite !Es by done. cbv zeta. unfold in_range in *.
  destruct (top_cases x Hx) as [[-> ?] | [-> ?]], (top_cases y Hy) as [[-> ?] | [-> ?]],
    (top_cases _ Hd) as [[-> ?] | [-> ?]]; rewrite Ed in *;
    destruct (Z.ltb_spec x y), (Z.ltb_spec x (2 ^ 31)), (Z.ltb_spec y (2 ^ 31)); try lia;
    (split; [lia |]); split; zcmp.
Qed.

Lemma top_range x : in_range 32 x -> in_range 32 (top x).
Proof. intros. apply shiftr_range; [lia | done]. Qed.

Lemma byte_range32 k v : in_range 32 (byte k v).
Proof. pose proof (byte_range k v). unfold in_range in *. lia. Qed.

Create HintDb minirv.
#[local] Hint Resolve wrap_range top_range byte_range32 rget_range : minirv.
#[local] Hint Extern 2 (in_range 32 (u32 _)) => (apply wrap_range; lia) : minirv.
#[local] Hint Extern 5 (in_range 32 _) => (unfold in_range; lia) : minirv.

(** Registers hold 32-bit values. *)
Ltac regs_fine := repeat first [assumption | apply rset_ok; [| solve [eauto with minirv]]].

(** Equality of register files by cases on the register. *)
Ltac regs_equal :=
  apply functional_extensionality; let q := fresh "q" in intros q; unfold rset;
  repeat match goal with |- context [?a =? ?b] => destruct (Z.eqb_spec a b); try subst end; try done; try lia.

Section compare.
  Context (S : Z) (sy : symbols) (m : mem) (HL : layout S sy m).

Lemma exec_msb f sc rd rs :
  rget f sp = S -> regs_ok f -> rd <> x0 -> rd <> sp ->
  exists sc', exec (msb rd rs) (view S f sc m) = view S (rset f rd (top (rget f rs))) sc' m /\
    agree (-20) 0 sc sc' /\ agree (-28) (-24) sc sc'.
Proof.
  intros Hsp Hf H0 H2. pose proof (stack_ok _ _ _ HL) as HS. unfold msb. rewrite !exec_app.
  change (slli rd rd 1) with (slli_add rd rd 1).
  pose proof (byte_range 3 (rget f rs)) as Hb. unfold in_range in Hb.
  rewrite exec_getbyte by (done || lia).
  rewrite exec_slli_add by (done || lia || (apply rset_ok; [done | unfold in_range; lia])).
  rewrite rset_rset, exec_getbyte by (regs_read; done || lia). rewrite !rget_eq, rset_rset by done.
  rewrite byte_top by (by apply rget_range). eexists. split; [reflexivity |]. split; agrees.
Qed.

Lemma exec_slt_template f sc lut tbl rd rs1 rs2 :
  rget f sp = S -> regs_ok f -> rd <> x0 -> apart S lut 8 -> placed m lut tbl -> length tbl = 8%nat ->
  let x := rget f rs1 in let y := rget f rs2 in
  exists sc' g t, exec (slt_template sy lut rd rs1 rs2) (view S f sc m) =
    view S (rset (rset (rset f gp g) tp t) rd (aget 0 tbl (4 * top x + 2 * top y + top (u32 (x - y))))) sc' m.
Proof.
  intros Hsp Hf H0 Hap Hpl Hlen x y. pose proof (stack_ok _ _ _ HL) as HS.
  assert (in_range 32 x /\ in_range 32 y) as [Hx Hy] by (split; by apply rget_range).
  unfold slt_template, mv. change (slli gp gp 1) with (slli_add gp gp 1). offsets. rewrite !exec_app. steps.
  fold x y. rewrite le_read_write. rewrite Z.add_0_r, !(wrap_small 32) by done.
  set (sc0 := le_write 4 _ (-16) y). set (f0 := rset (rset f s0 x) s1 y).
  assert (regs_ok f0) as Hf0 by regs_fine. assert (rget f0 sp = S) as Hsp0 by (unfold f0; by regs_read).
  assert (rget f0 s0 = x /\ rget f0 s1 = y) as [E0 E1] by (unfold f0; by regs_read).
  assert (f0 = rset (rset f s0 x) s1 y) as Ef0 by done. clearbody f0.
  destruct (exec_msb f0 sc0 gp s0) as (sc1 & -> & A1 & _); [done | done | lia | lia |]. rewrite E0.
  rewrite exec_slli_add by (lia || regs_fine). rewrite rset_rset. regs_read.
  set (f1 := rset f0 gp _). assert (regs_ok f1) as Hf1 by regs_fine.
  destruct (exec_msb f1 sc1 tp s1) as (sc2 & -> & A2 & _); [unfold f1; by regs_read | done | lia | lia |].
  replace (rget f1 s1) with y by (unfold f1; by regs_read). steps.
  rewrite exec_slli_add by (lia || regs_fine). rewrite rset_rset. regs_read.
  set (f2 := rset (rset f1 tp (top y)) gp _). assert (regs_ok f2) as Hf2 by regs_fine.
  destruct (exec_sub S sy m HL f2 sc2 tp s0 s1) as (sc3 & v & -> & _ & A3 & _); [unfold f2, f1; by regs_read | done | lia | lia |].
  replace (rget f2 s0) with x by (unfold f2, f1; by regs_read).
  replace (rget f2 s1) with y by (unfold f2, f1; by regs_read). rewrite rset_rset.
  set (f3 := rset f2 tp _). assert (regs_ok f3) as Hf3 by regs_fine.
  destruct (exec_msb f3 sc3 tp tp) as (sc4 & -> & A4 & _); [unfold f3, f2, f1; by regs_read | done | lia | lia |].
  replace (rget f3 tp) with (u32 (x - y)) by (unfold f3; by regs_read). unfold f3. rewrite rset_rset.
  rewrite exec_view, step_add, exec_nil. rewrite exec_la by lia. unfold f2, f1. regs_read.
  destruct (slt_entry x y Hx Hy) as (Hk & _ & _). cbv zeta in Hk. set (k := 4 * top x + _ + _) in *.
  match goal with |- context [u32 (u32 (u32 (u32 (top x <<< 1) + top y) <<< 1) + ?t)] =>
    replace (u32 (u32 (u32 (u32 (top x <<< 1) + top y) <<< 1) + t)) with k end.
  2:{ rewrite !Z.shiftl_mul_pow2 by lia.
      destruct (top_cases x Hx) as [[Ex _] | [Ex _]], (top_cases y Hy) as [[Ey _] | [Ey _]];
        unfold k; rewrite Ex, Ey;
        destruct (top_cases (u32 (x - y)) ltac:(apply wrap_range; lia)) as [[-> _] | [-> _]]; reflexivity. }
  steps. assert (agree (-8) 0 sc0 sc4) as A.
  { eapply agree_trans; [| intros c Hc; apply A4; lia]. eapply agree_trans; [| exact A3].
    intros c Hc. rewrite A2, A1 by lia. done. }
  assert (forall c r, (c = -8 /\ r = s1) \/ (c = -4 /\ r = s0) -> le_read 4 sc4 c = rget f r) as Hpop.
  { intros c r Hc. rewrite (agree_le_read (-8) 0 sc0) by (done || lia).
    apply le_read4_bytes; [by apply rget_range |]. intros j Hj.
    destruct Hc as [[-> ->] | [-> ->]]; assert (j = 0 \/ j = 1 \/ j = 2 \/ j = 3) as [-> | [-> | [-> | ->]]] by lia;
      unfold sc0; by scratch_read. }
  rewrite (Hpop (-8) s1), (Hpop (-4) s0) by auto. destruct Hap as (L0 & L1 & L2).
  rewrite exec_view, exec_nil, (step_lbu_out _ _ _ _ _ _ _ (lut + k)).
  - rewrite (Hpl k) by lia. exists sc4, k, (u32 (u32 lut + k)). f_equal. rewrite Ef0. unfold rget. cbn. regs_equal.
  - regs_read. rewrite Z.add_0_r, wrap_wrap, wrap_add_l by lia. apply wrap_small. unfold in_range. lia.
  - unfold outside. lia.
Qed.

Lemma exec_slt f sc rd rs1 rs2 :
  rget f sp = S -> regs_ok f -> rd <> x0 ->
  exists sc' g t, exec (slt sy rd rs1 rs2) (view S f sc m) =
    view S (rset (rset (rset f gp g) tp t) rd (b2z (s32 (rget f rs1) <? s32 (rget f rs2)))) sc' m.
Proof.
  intros Hsp Hf H0. unfold slt.
  destruct (exec_slt_template f sc _ _ rd rs1 rs2 Hsp Hf H0 (slt_apart _ _ _ HL) (slt_placed _ _ _ HL) eq_refl) as (sc' & g & t & ->).
  destruct (slt_entry _ _ (rget_range f rs1 Hf) (rget_range f rs2 Hf)) as (_ & <- & _). by exists sc', g, t.
Qed.

Lemma exec_sltu f sc rd rs1 rs2 :
  rget f sp = S -> regs_ok f -> rd <> x0 ->
  exists sc' g t, exec (sltu sy rd rs1 rs2) (view S f sc m) =
    view S (rset (rset (rset f gp g) tp t) rd (b2z (rget f rs1 <? rget f rs2))) sc' m.
Proof.
  intros Hsp Hf H0. unfold sltu.
  destruct (exec_slt_template f sc _ _ rd rs1 rs2 Hsp Hf H0 (sltu_apart _ _ _ HL) (sltu_placed _ _ _ HL) eq_refl) as (sc' & g & t & ->).
  destruct (slt_entry _ _ (rget_range f rs1 Hf) (rget_range f rs2 Hf)) as (_ & _ & <-). by exists sc', g, t.
Qed.
End compare.

(** ** Logical operations *)

(** The four bytes of a scratch word, one after the other. *)
Ltac four_bytes :=
  let k := fresh "k" in let Hk := fresh "Hk" in
  intros k Hk; assert (k = 0 \/ k = 1 \/ k = 2 \/ k = 3) as [-> | [-> | [-> | ->]]] by lia; scratch_read.

Lemma byte_small k x : 0 <= k -> in_range 8 x -> byte k x = if k =? 0 then x else 0.
Proof.
  unfold in_range. intros Hk Hx. destruct (Z.eqb_spec k 0) as [-> |].
  - unfold byte. rewrite Z.shiftr_0_r. by apply wrap_small.
  - rewrite byte_div, Z.div_small; [done | | lia]. split; [lia |]. apply Z.lt_le_trans with (2 ^ 8); [lia |].
    apply Z.pow_le_mono_r; lia.
Qed.

Lemma byte_pair k a b :
  in_range 8 a -> in_range 8 b -> 0 <= k < 4 ->
  byte k (256 * a + b) = if k =? 0 then b else if k =? 1 then a else 0.
Proof.
  unfold in_range. intros. assert (k = 0 \/ k = 1 \/ k = 2 \/ k = 3) as [-> | [-> | [-> | ->]]] by lia; cbn [Z.eqb Pos.eqb];
    rewrite byte_div by lia; cbn; dlia.
Qed.

(** An operation on words that acts bytewise. *)
Definition bytewise (op : Z -> Z -> Z) : Prop :=
  (forall x y, in_range 32 x -> in_range 32 y -> in_range 32 (op x y)) /\
  (forall k x y, 0 <= k < 4 -> byte k (op x y) = op (byte k x) (byte k y)).

Lemma bitwise_bytewise : bytewise Z.land /\ bytewise Z.lor /\ bytewise Z.lxor.
Proof.
  split_and!; split.
  - intros x y Hx Hy. apply land_range; [lia | unfold in_range in Hx; lia | done].
  - intros k x y Hk. unfold byte. apply Z.bits_inj'. intros i Hi.
    rewrite Z.land_spec, !testbit_wrap, !Z.shiftr_spec, Z.land_spec by lia. by destruct (i <? 8).
  - intros x y Hx Hy. by apply lor_range.
  - intros k x y Hk. unfold byte. apply Z.bits_inj'. intros i Hi.
    rewrite Z.lor_spec, !testbit_wrap, !Z.shiftr_spec, Z.lor_spec by lia. by destruct (i <? 8).
  - intros x y Hx Hy. by apply lxor_range.
  - intros k x y Hk. unfold byte. apply Z.bits_inj'. intros i Hi.
    rewrite Z.lxor_spec, !testbit_wrap, !Z.shiftr_spec, Z.lxor_spec by lia. by destruct (i <? 8).
Qed.

Section logic.
  Context (S : Z) (sy : symbols) (m : mem) (HL : layout S sy m).
  (** A table of the first three. *)
  Context (o : Z) (op : Z -> Z -> Z) (Ho : 0 <= o <= 131072) (Hop : bytewise op).
  Context (Hentry : forall j i, in_range 8 j -> in_range 8 i -> m (_logic_shift_table sy + o + (256 * j + i)) = op j i).

Lemma exec_logic_byte f sc lr x y k :
  rget f sp = S -> lr <> tp -> rget f lr = u32 (_logic_shift_table sy + o) -> 0 <= k < 4 ->
  sc (-16 + k) = byte k x -> sc (-20 + k) = byte k y -> sc (-26) = 0 -> sc (-25) = 0 ->
  exec (logic8_byte_internal lr k) (view S f sc m) =
  view S (rset f tp (byte k (op x y)))
    (le_write 1 (le_write 1 (le_write 1 sc (-27) (byte k x)) (-28) (byte k y)) (-24 + k) (byte k (op x y))) m.
Proof.
  intros Hsp Hlr Htab Hk Hx Hy H2 H3. pose proof (stack_ok _ _ _ HL) as HS. unfold logic8_byte_internal.
  unfold SP_VAR, SP_VAR_BYTE. change (- VAR_A * 4) with (-16). change (- VAR_B * 4) with (-20).
  change (- VAR_C * 4) with (-24). change (- VAR_D * 4 + 1) with (-27). change (- VAR_D * 4 + 0) with (-28).
  pose proof (byte_range k x) as Rx. pose proof (byte_range k y) as Ry.
  rewrite exec_view, step_lbu, exec_view, step_sb by (first [lia | by regs_read]). regs_read.
  rewrite exec_view, step_lbu, le_write_out by (first [lia | by regs_read]). rewrite rset_rset.
  rewrite exec_view, step_sb by (first [lia | by regs_read]). regs_read. rewrite Hx, Hy.
  rewrite exec_view, step_lw by (first [lia | by regs_read]). rewrite rset_rset.
  rewrite (le_read4_bytes _ (-28) (256 * byte k x + byte k y)).
  2:{ unfold in_range in *. lia. }
  2:{ intros j Hj. rewrite byte_pair by done.
      assert (j = 0 \/ j = 1 \/ j = 2 \/ j = 3) as [-> | [-> | [-> | ->]]] by lia; scratch_read; rewrite ?byte0_byte; done. }
  rewrite exec_view, step_add, rset_rset. regs_read. rewrite Htab.
  pose proof (lut_apart _ _ _ HL) as (L0 & L1 & L2). unfold in_range in Rx, Ry.
  rewrite exec_view, (lut_byte S sy m HL _ _ tp (o + (256 * byte k x + byte k y)) (_logic_shift_table sy + o + (256 * byte k x + byte k y))).
  - rewrite rset_rset, Hentry by done. rewrite exec_view, step_sb by (first [lia | by regs_read]). regs_read.
    destruct Hop as [_ ->]; done.
  - lia.
  - regs_read. rewrite wrap_add_l. f_equal. lia.
  - lia.
Qed.

Lemma exec_logic f sc rd rs1 rs2 l :
  rget f sp = S -> regs_ok f -> rd <> x0 -> logic (_logic_shift_table sy + o) rd rs1 rs2 = Some l ->
  exists sc' t, exec l (view S f sc m) = view S (rset (rset f tp t) rd (op (rget f rs1) (rget f rs2))) sc' m.
Proof.
  intros Hsp Hf H0 El. pose proof (stack_ok _ _ _ HL) as HS. unfold logic in El.
  replace (rd =? x0) with false in El by lia.
  destruct (Z.eqb_spec rd sp); [done |]. destruct (Z.eqb_spec rs1 sp); [done |]. destruct (Z.eqb_spec rs2 sp); [done |].
  destruct (Z.eqb_spec rd gp); [done |]. destruct (Z.eqb_spec rs1 gp); [done |]. destruct (Z.eqb_spec rs2 gp); [done |].
  destruct (Z.eqb_spec rd tp); [done |]. destruct (Z.eqb_spec rs1 tp); [done |]. cbn [orb] in El.
  match type of El with Some ?x = _ => assert (l = x) as -> by congruence end. clear El.
  set (x := rget f rs1). set (y := rget f rs2).
  offsets. rewrite !exec_app. steps. rewrite exec_la by done. steps. fold x y.
  rewrite (exec_logic_byte _ _ rd x y 3); [| by regs_read | lia | by regs_read | lia | by scratch_read ..].
  rewrite (exec_logic_byte _ _ rd x y 2); [| by regs_read | lia | by regs_read | lia | by scratch_read ..].
  rewrite (exec_logic_byte _ _ rd x y 1); [| by regs_read | lia | by regs_read | lia | by scratch_read ..].
  rewrite (exec_logic_byte _ _ rd x y 0); [| by regs_read | lia | by regs_read | lia | by scratch_read ..].
  rewrite !rset_rset. rewrite exec_view, step_lw, exec_nil by (first [lia | by regs_read]).
  rewrite (le_read4_bytes _ (-24) (op x y)); [| by apply Hop; apply rget_range | four_bytes; by rewrite byte0_byte].
  eexists _, (byte 0 (op x y)). f_equal. regs_equal.
Qed.
End logic.

(** ** Equality *)

Section equality.
  Context (S : Z) (sy : symbols) (m : mem) (HL : layout S sy m).

(** 0 for equal bytes, 1 for different ones; only the array changes. *)
Lemma exec_check_8bit_same f sc m' r x y k :
  rget f sp = S -> rget f s0 = _check_same_array sy -> r <> x0 -> r <> sp -> r <> tp -> r <> s0 -> 0 <= k < 4 ->
  sc (-16 + k) = byte k x -> sc (-20 + k) = byte k y ->
  exec (check_8bit_same s0 r k) (view S f sc m') =
  view S (rset (rset f tp (_check_same_array sy + byte k x)) r (if byte k x =? byte k y then 0 else 1)) sc
    (le_write 1 (le_write 1 m' (_check_same_array sy + byte k x) 1) (_check_same_array sy + byte k y) 0).
Proof.
  intros Hsp Hs0 H0 H2 H4 H8 Hk Hx Hy. pose proof (stack_ok _ _ _ HL) as HS. unfold check_8bit_same.
  unfold SP_VAR_BYTE. change (- VAR_A * 4) with (-16). change (- VAR_B * 4) with (-20).
  pose proof (byte_range k x) as Rx. pose proof (byte_range k y) as Ry. unfold in_range in Rx, Ry.
  pose proof (array_apart _ _ _ HL) as (A0 & A1 & A2). set (T := _check_same_array sy) in *.
  assert (forall b, 0 <= b < 2 ^ 8 -> u32 (T + b) = T + b) as Hb by (intros; apply wrap_small; unfold in_range; lia).
  rewrite exec_view, step_lbu, Hx by (first [lia | by regs_read]). steps. rewrite Hs0, Hb by done.
  rewrite exec_view, (step_sb_out _ _ _ _ _ _ _ (T + byte k x));
    [| regs_read; rewrite Z.add_0_r; by apply Hb | unfold outside; lia]. regs_read.
  rewrite exec_view, step_lbu, Hy, rset_rset by (first [lia | by regs_read]). steps. rewrite Hs0, Hb by done.
  rewrite exec_view, (step_sb_out _ _ _ _ _ _ _ (T + byte k y));
    [| regs_read; rewrite Z.add_0_r; by apply Hb | unfold outside; lia]. regs_read.
  rewrite exec_view, exec_nil, (step_lbu_out _ _ _ _ _ _ _ (T + byte k x));
    [| regs_read; rewrite Z.add_0_r; by apply Hb | unfold outside; lia].
  change (u32 (0 + 1)) with 1. match goal with |- context [le_write 1 ?w ?a 0 (T + byte k x)] =>
    replace (le_write 1 w a 0 (T + byte k x)) with (if byte k x =? byte k y then 0 else 1) end.
  - f_equal. regs_equal.
  - destruct (Z.eqb_spec (byte k x) (byte k y)) as [-> |]; [by rewrite le_write1_in |].
    by rewrite le_write_out, le_write1_in by lia.
Qed.

(** Memory that changed at most in the array. *)
Definition array_only (m1 m2 : mem) : Prop :=
  forall a, a < _check_same_array sy \/ _check_same_array sy + 256 <= a -> m2 a = m1 a.

Lemma array_only_write m1 m2 b v :
  array_only m1 m2 -> in_range 8 b -> array_only m1 (le_write 1 m2 (_check_same_array sy + b) v).
Proof. unfold in_range. intros H Hb a Ha. rewrite le_write_out by lia. by apply H. Qed.

Definition differ (k x y : Z) : Z := if byte k x =? byte k y then 0 else 1.

Lemma differ_cases k x y : differ k x y = 0 \/ differ k x y = 1.
Proof. unfold differ. destruct (_ =? _); auto. Qed.

Lemma same_entry x y :
  in_range 32 x -> in_range 32 y ->
  let n := differ 0 x y + differ 1 x y + differ 2 x y + differ 3 x y in
  0 <= n < 8 /\ aget 0 same_result_bytes n = b2z (x =? y).
Proof.
  intros Hx Hy n. destruct (Z.eqb_spec x y) as [-> | Hne].
  - assert (n = 0) as -> by (unfold n, differ; rewrite !Z.eqb_refl; done). by split; [lia |].
  - assert (1 <= n <= 4) as Hn.
    { unfold n. destruct (differ_cases 0 x y), (differ_cases 1 x y), (differ_cases 2 x y), (differ_cases 3 x y); try lia.
      exfalso. apply Hne. rewrite (word_of_bytes x), (word_of_bytes y) by done. unfold differ in *.
      destruct (Z.eqb_spec (byte 0 x) (byte 0 y)), (Z.eqb_spec (byte 1 x) (byte 1 y)),
        (Z.eqb_spec (byte 2 x) (byte 2 y)), (Z.eqb_spec (byte 3 x) (byte 3 y)); try lia. }
    split; [lia |]. assert (n = 1 \/ n = 2 \/ n = 3 \/ n = 4) as [-> | [-> | [-> | ->]]] by lia; done.
Qed.

Lemma exec_seq f sc rs1 rs2 :
  rget f sp = S -> regs_ok f ->
  exists sc' m' g, exec (seq_ sy tp rs1 rs2) (view S f sc m) =
    view S (rset (rset f gp g) tp (b2z (rget f rs1 =? rget f rs2))) sc' m' /\ array_only m m'.
Proof.
  intros Hsp Hf. pose proof (stack_ok _ _ _ HL) as HS. set (x := rget f rs1). set (y := rget f rs2).
  assert (in_range 32 x /\ in_range 32 y) as [Hx Hy] by (split; by apply rget_range).
  pose proof (array_apart _ _ _ HL) as (A0 & A1 & A2). set (T := _check_same_array sy) in *.
  unfold seq_. offsets. rewrite !exec_app. steps. rewrite exec_la, (wrap_small 32) by (unfold in_range; lia). fold x y.
  rewrite (exec_check_8bit_same _ _ _ gp x y 0); [| by regs_read | by regs_read | lia | lia | lia | lia | lia | by scratch_read ..].
  rewrite (exec_check_8bit_same _ _ _ s1 x y 1); [| by regs_read | by regs_read | lia | lia | lia | lia | lia | by scratch_read ..].
  steps.
  rewrite (exec_check_8bit_same _ _ _ s1 x y 2); [| by regs_read | by regs_read | lia | lia | lia | lia | lia | by scratch_read ..].
  steps.
  rewrite (exec_check_8bit_same _ _ _ s1 x y 3); [| by regs_read | by regs_read | lia | lia | lia | lia | lia | by scratch_read ..].
  steps. fold (differ 0 x y) (differ 1 x y) (differ 2 x y) (differ 3 x y).
  destruct (same_entry x y Hx Hy) as [Hn En]. cbv zeta in Hn, En.
  set (n := differ 0 x y + differ 1 x y + differ 2 x y + differ 3 x y) in *.
  match goal with |- context [view S _ _ ?w] => set (m4 := w); assert (array_only m m4) as Hm4
    by (unfold m4; repeat (apply array_only_write; [| apply byte_range]); done) end. clearbody m4.
  match goal with |- context [rset _ 3 ?g] => replace g with n end.
  2:{ unfold n. destruct (differ_cases 0 x y) as [-> | ->], (differ_cases 1 x y) as [-> | ->],
        (differ_cases 2 x y) as [-> | ->], (differ_cases 3 x y) as [-> | ->]; done. }
  rewrite exec_la by lia. steps. pose proof (same_apart _ _ _ HL) as (L0 & L1 & L2). set (R := _same_result_table sy) in *.
  rewrite exec_view, (step_lbu_out _ _ _ _ _ _ _ (R + n)).
  2:{ regs_read. rewrite Z.add_0_r, wrap_wrap, wrap_add_l by lia. apply wrap_small. unfold in_range. lia. }
  2:{ unfold outside. lia. }
  pose proof (array_same _ _ _ HL) as Hsep. fold T R in Hsep.
  rewrite (Hm4 (R + n)) by (fold T; lia). pose proof (same_placed _ _ _ HL n Hn) as Es. fold R in Es. rewrite Es, En. steps.
  rewrite (le_read4_bytes _ (-8) (rget f s1)); [| by apply rget_range | four_bytes; done].
  rewrite (le_read4_bytes _ (-4) (rget f s0)); [| by apply rget_range | four_bytes; done].
  eexists _, m4, n. split; [| done]. f_equal. unfold rget. cbn. regs_equal.
Qed.

Lemma zero_entry k x : aget 0 check_8bit_0_bytes (byte k x) = differ k x 0.
Proof.
  pose proof (byte_range k x) as Hb. unfold in_range in Hb. unfold differ. replace (byte k 0) with 0 by (unfold byte; by rewrite Z.shiftr_0_l).
  destruct (Z.eqb_spec (byte k x) 0) as [-> |]; [done |]. unfold aget, check_8bit_0_bytes.
  replace (Z.to_nat (byte k x)) with (Datatypes.S (Z.to_nat (byte k x - 1))) by lia. cbn [nth].
  rewrite nth_lookup, lookup_replicate_2 by lia. done.
Qed.

Lemma exec_check_8bit_0 f sc r x k :
  rget f sp = S -> rget f s0 = _check_8bit_0_table sy -> r <> x0 -> 0 <= k < 4 -> sc (-16 + k) = byte k x -> r <> s0 ->
  exec (check_8bit_0 s0 r k) (view S f sc m) = view S (rset f r (differ k x 0)) sc m.
Proof.
  intros Hsp Hs0 H0 Hk Hx H8. pose proof (stack_ok _ _ _ HL) as HS. unfold check_8bit_0.
  unfold SP_VAR_BYTE. change (- VAR_A * 4) with (-16). pose proof (zero_apart _ _ _ HL) as (A0 & A1 & A2).
  pose proof (byte_range k x) as Rx. unfold in_range in Rx.
  rewrite exec_view, step_lbu, Hx by (first [lia | by regs_read]). steps. rewrite Hs0.
  rewrite exec_view, exec_nil, (step_lbu_out _ _ _ _ _ _ _ (_check_8bit_0_table sy + byte k x)), rset_rset.
  - rewrite (zero_placed _ _ _ HL), zero_entry by (cbn; lia). done.
  - regs_read. rewrite Z.add_0_r, wrap_wrap by lia. apply wrap_small. unfold in_range. lia.
  - unfold outside. lia.
Qed.

(** Except into s0, which is restored after the result was written. *)
Lemma exec_seqz f sc rd rs :
  rget f sp = S -> regs_ok f -> rd <> x0 -> rd <> sp ->
  exists sc' g t, exec (seqz sy rd rs) (view S f sc m) =
    view S (rset (rset (rset f gp g) tp t) rd (if rd =? s0 then rget f s0 else b2z (rget f rs =? 0))) sc' m.
Proof.
  intros Hsp Hf H0 Hd2. pose proof (stack_ok _ _ _ HL) as HS. set (x := rget f rs).
  assert (in_range 32 x) as Hx by (by apply rget_range).
  pose proof (zero_apart _ _ _ HL) as (A0 & A1 & A2).
  unfold seqz. offsets. rewrite !exec_app. steps. rewrite exec_la, (wrap_small 32) by (unfold in_range; lia). fold x.
  rewrite (exec_check_8bit_0 _ _ gp x 0); [| by regs_read | by regs_read | lia | lia | by scratch_read | lia].
  rewrite (exec_check_8bit_0 _ _ tp x 1); [| by regs_read | by regs_read | lia | lia | by scratch_read | lia]. steps.
  rewrite (exec_check_8bit_0 _ _ tp x 2); [| by regs_read | by regs_read | lia | lia | by scratch_read | lia]. steps.
  rewrite (exec_check_8bit_0 _ _ tp x 3); [| by regs_read | by regs_read | lia | lia | by scratch_read | lia]. steps.
  destruct (same_entry x 0 Hx ltac:(done)) as [Hn En]. cbv zeta in Hn, En.
  set (n := differ 0 x 0 + differ 1 x 0 + differ 2 x 0 + differ 3 x 0) in *.
  match goal with |- context [rset _ 3 ?g] => replace g with n end.
  2:{ unfold n. destruct (differ_cases 0 x 0) as [-> | ->], (differ_cases 1 x 0) as [-> | ->],
        (differ_cases 2 x 0) as [-> | ->], (differ_cases 3 x 0) as [-> | ->]; done. }
  rewrite exec_la by lia. steps. pose proof (same_apart _ _ _ HL) as (L0 & L1 & L2). set (R := _same_result_table sy) in *.
  rewrite exec_view, (step_lbu_out _ _ _ _ _ _ _ (R + n)).
  2:{ regs_read. rewrite Z.add_0_r, wrap_wrap, wrap_add_l by lia. apply wrap_small. unfold in_range. lia. }
  2:{ unfold outside. lia. }
  pose proof (same_placed _ _ _ HL n Hn) as Es. fold R in Es. rewrite Es, En. steps.
  rewrite (le_read4_bytes _ (-4) (rget f s0)); [| by apply rget_range | four_bytes; done].
  eexists _, n, _. f_equal. unfold rget. cbn. destruct (Z.eqb_spec rd s0); [subst |]; regs_equal.
Qed.
End equality.

(** ** Shifts *)

Lemma and31 x : 0x1f &&& byte 0 x = x mod 32.
Proof.
  unfold byte. rewrite Z.shiftr_0_r, Z.land_comm. change 0x1f with (Z.ones 5). rewrite Z.land_ones by lia.
  unfold wrap. change (2 ^ 8) with 256. change (2 ^ 5) with 32. dlia.
Qed.

(** A sum of a multiple of a power of two and a smaller number is shifted part by part. *)
Lemma shift_split hi lo j s : 0 <= j -> 0 <= s -> 0 <= lo < 2 ^ j -> (hi * 2 ^ j + lo) / 2 ^ s = hi * 2 ^ j / 2 ^ s + lo / 2 ^ s.
Proof.
  intros Hj Hs Hlo. destruct (Z.le_ge_cases s j).
  - replace j with ((j - s) + s) by lia. rewrite Z.pow_add_r, Z.mul_assoc, Z.div_add_l, Z.div_mul by lia. done.
  - rewrite (Z.div_small lo); [| split; [lia |]; apply Z.lt_le_trans with (2 ^ j); [lia |]; apply Z.pow_le_mono_r; lia].
    replace s with (j + (s - j)) by lia. rewrite Z.pow_add_r, <- !Z.div_div by lia.
    rewrite Z.div_add_l, Z.div_mul, (Z.div_small lo) by lia. by rewrite !Z.add_0_r.
Qed.

(** The word shifted right is the sum of its bytes' table entries, each dropped to its place. *)
Lemma srl_bytes x3 x2 x1 x0 s :
  0 <= s -> in_range 8 x2 -> in_range 8 x1 -> in_range 8 x0 ->
  (2 ^ 24 * x3 + 2 ^ 16 * x2 + 2 ^ 8 * x1 + x0) / 2 ^ s =
  (x3 * 2 ^ 24) / 2 ^ s + (x2 * 2 ^ 24) / 2 ^ s / 2 ^ 8 + (x1 * 2 ^ 24) / 2 ^ s / 2 ^ 16 + (x0 * 2 ^ 24) / 2 ^ s / 2 ^ 24.
Proof.
  unfold in_range. intros Hs H2 H1 H0.
  replace (2 ^ 24 * x3 + 2 ^ 16 * x2 + 2 ^ 8 * x1 + x0) with (x3 * 2 ^ 24 + (x2 * 2 ^ 16 + (x1 * 2 ^ 8 + x0))) by lia.
  rewrite (shift_split x3), (shift_split x2), (shift_split x1) by lia.
  assert (forall a k, 0 <= k <= 24 -> a * 2 ^ 24 / 2 ^ s / 2 ^ k = a * 2 ^ (24 - k) / 2 ^ s) as E.
  { intros a k Hk. rewrite Z.div_div, (Z.mul_comm (2 ^ s)), <- Z.div_div by lia. f_equal.
    replace 24 with (24 - k + k) at 1 by lia. rewrite Z.pow_add_r, Z.mul_assoc, Z.div_mul by lia. done. }
  rewrite !E by lia. change (24 - 8) with 16. change (24 - 16) with 8. change (24 - 24) with 0. rewrite Z.mul_1_r. lia.
Qed.

Lemma no_carry p q j : 0 <= j <= 8 -> 0 <= q < 2 ^ j -> (p * 2 ^ j) mod 256 + q < 256.
Proof.
  intros Hj Hq. replace 256 with (2 ^ (8 - j) * 2 ^ j) by (rewrite <- Z.pow_add_r by lia; by replace (8 - j + j) with 8 by lia).
  rewrite Z.mul_mod_distr_r by lia. pose proof (Z.mod_pos_bound p (2 ^ (8 - j)) ltac:(lia)). nia.
Qed.

(** Byte [a / 8] of a table entry for a byte [k]. *)
Lemma entry_byte k s a : 0 <= s -> 0 <= a <= 24 -> (k * 2 ^ 24) / 2 ^ s / 2 ^ a = k * 2 ^ (24 - a) / 2 ^ s.
Proof.
  intros. rewrite Z.div_div, (Z.mul_comm (2 ^ s)), <- Z.div_div by lia. f_equal.
  replace 24 with (24 - a + a) at 1 by lia. rewrite Z.pow_add_r, Z.mul_assoc, Z.div_mul by lia. done.
Qed.

Lemma byte_gone y s : in_range 8 y -> 8 <= s -> y / 2 ^ s = 0.
Proof.
  unfold in_range. intros. apply Z.div_small. split; [lia |]. apply Z.lt_le_trans with (2 ^ 8); [lia |].
  apply Z.pow_le_mono_r; lia.
Qed.

(** Two adjacent bytes that meet in one byte of the result do not overlap. *)
Lemma adjacent x y s :
  0 <= s -> in_range 8 x -> in_range 8 y ->
  (x * 2 ^ 8 / 2 ^ s) mod 256 + (y / 2 ^ s) mod 256 < 256.
Proof.
  unfold in_range. intros Hs Hx Hy. destruct (Z.le_gt_cases s 8).
  - replace (x * 2 ^ 8 / 2 ^ s) with (x * 2 ^ (8 - s)).
    + rewrite (Z.mod_small (y / 2 ^ s)) by (split; [apply Z.div_pos; lia | apply Z.div_lt_upper_bound; nia]).
      apply no_carry; [lia |]. split; [apply Z.div_pos; lia |]. apply Z.div_lt_upper_bound; [lia |].
      rewrite <- Z.pow_add_r by lia. replace (s + (8 - s)) with 8 by lia. lia.
    + replace 8 with (8 - s + s) at 2 by lia. rewrite Z.pow_add_r, Z.mul_assoc, Z.div_mul by lia. done.
  - rewrite (byte_gone y) by (done || lia).
    pose proof (Z.mod_pos_bound (x * 2 ^ 8 / 2 ^ s) 256 ltac:(lia)). rewrite Z.mod_0_l by lia. lia.
Qed.

(** The bytes that are added have no bit in common. *)
Lemma srl_no_carry x2 x1 x0 s :
  0 <= s -> in_range 8 x2 -> in_range 8 x1 -> in_range 8 x0 ->
  let y k := (k * 2 ^ 24) / 2 ^ s in
  byte 1 (y x2) + byte 2 (y x1) + byte 3 (y x0) < 256 /\ byte 2 (y x2) + byte 3 (y x1) < 256.
Proof.
  intros Hs H2 H1 H0. cbv zeta. rewrite !byte_div by lia. change (8 * 1) with 8. change (8 * 2) with 16. change (8 * 3) with 24.
  rewrite !entry_byte by lia. change (24 - 8) with 16. change (24 - 16) with 8. change (24 - 24) with 0. rewrite !Z.mul_1_r.
  split; [| by apply adjacent]. destruct (Z.le_gt_cases s 8).
  - replace ((x2 * 2 ^ 16 / 2 ^ s) mod 256) with 0; [pose proof (adjacent x1 x0 s Hs H1 H0); lia |].
    replace 16 with (8 + (8 - s) + s) by lia. rewrite !Z.pow_add_r, !Z.mul_assoc, Z.div_mul by lia.
    rewrite <- Z.mul_assoc, (Z.mul_comm (2 ^ 8)), Z.mul_assoc. by rewrite Z.mod_mul.
  - rewrite (byte_gone x0), Z.mod_0_l, Z.add_0_r by (done || lia). pose proof (adjacent x2 x1 (s - 8) ltac:(lia) H2 H1) as H'.
    replace s with (8 + (s - 8)) by lia. rewrite Z.pow_add_r, <- !Z.div_div by lia.
    replace (x2 * 2 ^ 16) with (x2 * 2 ^ 8 * 2 ^ 8) by lia. rewrite !Z.div_mul by lia. done.
Qed.

(** The word shifted left from its bytes' table entries. *)
Lemma sll_bytes x s :
  in_range 32 x -> 0 <= s ->
  let e k := u32 (byte k x <<< s) in
  u32 (u32 (u32 (2 ^ 24 * byte 0 (e 3) + (2 ^ 16 * byte 0 (e 2) + 2 ^ 24 * byte 1 (e 2))) + u32 (e 1 <<< 8)) + e 0) = u32 (x <<< s).
Proof.
  intros Hx Hs. cbv zeta.
  replace (u32 (x <<< s)) with (u32 ((byte 0 x + 2 ^ 8 * byte 1 x + 2 ^ 16 * byte 2 x + 2 ^ 24 * byte 3 x) <<< s))
    by (by rewrite <- word_of_bytes).
  rewrite !Z.shiftl_mul_pow2, !byte_div by lia.
  generalize (x / 2 ^ (8 * 0) mod 256), (x / 2 ^ (8 * 1) mod 256), (x / 2 ^ (8 * 2) mod 256), (x / 2 ^ (8 * 3) mod 256).
  intros x0 x1 x2 x3. change (2 ^ (8 * 0)) with 1. change (2 ^ (8 * 1)) with 256. change (2 ^ 8) with 256.
  replace ((x0 + 256 * x1 + 2 ^ 16 * x2 + 2 ^ 24 * x3) * 2 ^ s)
    with (x0 * 2 ^ s + 256 * (x1 * 2 ^ s) + 65536 * (x2 * 2 ^ s) + 16777216 * (x3 * 2 ^ s)) by lia.
  generalize (x0 * 2 ^ s), (x1 * 2 ^ s), (x2 * 2 ^ s), (x3 * 2 ^ s). intros a0 a1 a2 a3.
  unfold wrap. change (2 ^ 32) with 4294967296. change (2 ^ 24) with 16777216. change (2 ^ 16) with 65536. dlia.
Qed.

(** A word as the sum of four known bytes. *)
Lemma le_read4_sum (m : mem) a b0 b1 b2 b3 :
  m a = b0 -> m (a + 1) = b1 -> m (a + 2) = b2 -> m (a + 3) = b3 ->
  in_range 8 b0 -> in_range 8 b1 -> in_range 8 b2 -> in_range 8 b3 ->
  le_read 4 m a = b0 + 2 ^ 8 * b1 + 2 ^ 16 * b2 + 2 ^ 24 * b3.
Proof.
  intros E0 E1 E2 E3 R0 R1 R2 R3.
  rewrite (le_read_ext 4 _ (mem_of a [b0; b1; b2; b3])).
  - rewrite le_read4 by (apply mem_of_bytes; auto). unfold mem_of.
    replace (a - a) with 0 by lia. replace (a + 1 - a) with 1 by lia. replace (a + 2 - a) with 2 by lia. replace (a + 3 - a) with 3 by lia.
    cbn [nth Z.to_nat Pos.to_nat Pos.iter_op Nat.add]. zcmp.
  - intros x Hx. unfold mem_of. replace (a <=? x) with true by lia.
    assert (x = a \/ x = a + 1 \/ x = a + 2 \/ x = a + 3) as [-> | [-> | [-> | ->]]] by lia;
      [rewrite Z.sub_diag, E0 | rewrite E1 | rewrite E2 | rewrite E3]; [done | |  |];
      rewrite Z.add_simpl_l; done.
Qed.

(** A half word at [c]. *)
Lemma exec_sh_scratch S f sc m rs c :
  28 <= S < 2 ^ 32 -> rget f sp = S -> -28 <= c <= -2 ->
  exec (sh rs c sp) (view S f sc m) =
  view S (rset f tp (byte 1 (rget f rs)))
    (le_write 1 (le_write 4 (le_write 1 sc c (rget f rs)) (-24) (rget f rs)) (c + 1) (byte 1 (rget f rs))) m.
Proof.
  intros HS Hsp Hc. unfold sh. rewrite !exec_app, exec_view, step_sb, exec_nil by (first [lia | by regs_read]).
  rewrite exec_getbyte by (done || lia). rewrite exec_view, step_sb, exec_nil by (first [lia | by regs_read]).
  regs_read. by rewrite Z.add_0_l, (Z.add_comm 1).
Qed.

(** Shifts left by an immediate, through a byte or a half word for large amounts. *)
Lemma slli_byte x n : 24 <= n -> u32 ((2 ^ 24 * byte 0 x) <<< (n - 24)) = u32 (x <<< n).
Proof.
  intros Hn. rewrite byte_div, !Z.shiftl_mul_pow2 by lia. change (2 ^ (8 * 0)) with 1. rewrite Z.div_1_r.
  replace (2 ^ 24 * (x mod 256) * 2 ^ (n - 24)) with (x mod 256 * 2 ^ n)
    by (replace n with (24 + (n - 24)) at 1 by lia; rewrite Z.pow_add_r by lia; lia).
  rewrite (Z.div_mod x 256) at 2 by lia. unfold wrap.
  replace ((256 * (x / 256) + x mod 256) * 2 ^ n) with (x mod 256 * 2 ^ n + (x / 256 * 2 ^ (n - 24)) * 2 ^ 32).
  - by rewrite Z.mod_add by lia.
  - replace (2 ^ n) with (2 ^ 24 * 2 ^ (n - 24)) by (rewrite <- Z.pow_add_r by lia; f_equal; lia). lia.
Qed.

Lemma slli_half x n :
  16 <= n -> u32 ((2 ^ 16 * byte 0 x + 2 ^ 24 * byte 1 x) <<< (n - 16)) = u32 (x <<< n).
Proof.
  intros Hn. rewrite !byte_div, !Z.shiftl_mul_pow2 by lia. change (2 ^ (8 * 0)) with 1. change (2 ^ (8 * 1)) with 256. rewrite Z.div_1_r.
  replace (2 ^ 16 * (x mod 256) + 2 ^ 24 * (x / 256 mod 256)) with (2 ^ 16 * (x mod 65536)) by dlia.
  replace (2 ^ 16 * (x mod 65536) * 2 ^ (n - 16)) with (x mod 65536 * 2 ^ n)
    by (replace n with (16 + (n - 16)) at 1 by lia; rewrite Z.pow_add_r by lia; lia).
  rewrite (Z.div_mod x 65536) at 2 by lia. unfold wrap.
  replace ((65536 * (x / 65536) + x mod 65536) * 2 ^ n) with (x mod 65536 * 2 ^ n + (x / 65536 * 2 ^ (n - 16)) * 2 ^ 32).
  - by rewrite Z.mod_add by lia.
  - replace (2 ^ n) with (2 ^ 16 * 2 ^ (n - 16)) by (rewrite <- Z.pow_add_r by lia; f_equal; lia). lia.
Qed.

Lemma exec_slli S f sc m rd rs n :
  28 <= S < 2 ^ 32 -> rget f sp = S -> regs_ok f -> rd <> x0 -> 0 <= n < 32 ->
  exists sc' t, exec (slli rd rs n) (view S f sc m) = view S (rset (rset f tp t) rd (u32 (rget f rs <<< n))) sc' m.
Proof.
  intros HS Hsp Hf H0 Hn. set (x := rget f rs). unfold slli.
  pose proof (byte_range 0 x) as B0. pose proof (byte_range 1 x) as B1. unfold in_range in B0, B1.
  destruct (Z.leb_spec 24 n); [| destruct (Z.leb_spec 16 n)].
  - offsets. rewrite exec_app. rewrite exec_view, step_sw, exec_view, step_sb, exec_view, step_lw, exec_nil by (first [lia | done]).
    fold x. rewrite (le_read4_sum _ (-16) 0 0 0 (byte 0 x)); [| by scratch_read .. | done | done | done | apply byte_range].
    rewrite exec_slli_add by (lia || (apply rset_ok; [done | unfold in_range; lia])). rewrite rget_eq, rset_rset by done.
    rewrite !Z.mul_0_r, !Z.add_0_l, slli_byte by lia. eexists _, (f tp). f_equal. by rewrite rset_same.
  - offsets. rewrite !exec_app. rewrite exec_view, step_sw, exec_nil by (first [lia | done]).
    rewrite exec_sh_scratch by (done || lia). fold x. change (-14 + 1) with (-13).
    rewrite exec_view, step_lw, exec_nil by (first [lia | by regs_read]).
    rewrite (le_read4_sum _ (-16) 0 0 (byte 0 x) (byte 1 x));
      [| by scratch_read | by scratch_read | by scratch_read | scratch_read; by rewrite byte0_byte | done | done | apply byte_range | apply byte_range].
    rewrite exec_slli_add by (lia || (apply rset_ok; [regs_fine | unfold in_range; lia])). rewrite rget_eq, rset_rset by done.
    rewrite Z.mul_0_r, !Z.add_0_l, slli_half by lia. eexists _, _. f_equal.
  - rewrite exec_slli_add by (done || lia). eexists _, (f tp). f_equal. by rewrite rset_same.
Qed.

Section shifts.
  Context (S : Z) (sy : symbols) (m : mem) (HL : layout S sy m).

(** A row of one of the shift tables. *)
Definition row_ok (R : Z) : Prop :=
  _logic_shift_table sy <= R /\ R + 1024 <= _logic_shift_table sy + 294912.

Lemma exec_shift_byte f sc b R x k :
  rget f sp = S -> b <> tp -> rget f b = R -> row_ok R -> regs_ok f -> 0 <= k < 4 -> sc (-16 + k) = byte k x ->
  exec (get_shift_byte_in_tp b k) (view S f sc m) = view S (rset f tp (le_read 4 m (R + 4 * byte k x))) sc m.
Proof.
  intros Hsp Hb HR [R1 R2] Hf Hk Hx. pose proof (stack_ok _ _ _ HL) as HS. pose proof (lut_apart _ _ _ HL) as (L0 & L1 & L2).
  unfold get_shift_byte_in_tp. unfold SP_VAR_BYTE. change (- VAR_A * 4) with (-16). change (slli tp tp 2) with (slli_add tp tp 2).
  pose proof (byte_range k x) as Rx. unfold in_range in Rx.
  rewrite !exec_app, exec_view, step_lbu, exec_nil, Hx by (first [lia | by regs_read]).
  rewrite exec_slli_add by (lia || regs_fine). regs_read. rewrite rset_rset, Z.shiftl_mul_pow2 by lia. steps. rewrite HR.
  rewrite (wrap_small 32 (byte k x * 2 ^ 2)) by (unfold in_range; lia).
  rewrite (wrap_small 32 (R + _)) by (unfold in_range; lia).
  rewrite exec_view, exec_nil, (step_lw_out _ _ _ _ _ _ _ (R + 4 * byte k x)), rset_rset; [done | |].
  - regs_read. rewrite Z.add_0_r. replace (byte k x * 2 ^ 2) with (4 * byte k x) by lia. apply wrap_small. unfold in_range. lia.
  - intros j Hj. unfold outside. lia.
Qed.

(** s0 becomes the row for the amount; only the second scratch word changes. *)
Lemma exec_shift_row f sc rs2 T :
  rget f sp = S -> regs_ok f -> _logic_shift_table sy <= T -> T + 32768 <= _logic_shift_table sy + 294912 ->
  exists sc' t, exec (shift_row sy T rs2) (view S f sc m) =
    view S (rset (rset f tp t) s0 (T + 1024 * (rget f rs2 mod 32))) sc' m /\
    agree (-16) 0 sc sc' /\ regs_ok (rset (rset f tp t) s0 (T + 1024 * (rget f rs2 mod 32))).
Proof.
  intros Hsp Hf HT1 HT2. pose proof (stack_ok _ _ _ HL) as HS. pose proof (lut_apart _ _ _ HL) as (L0 & L1 & L2).
  set (x := rget f rs2). unfold shift_row, getshamt. change (0x1f <<< 8) with 7936. offsets.
  change (slli s0 s0 2) with (slli_add s0 s0 2). rewrite !exec_app. steps. fold x. scratch_read.
  rewrite exec_la by lia. steps. pose proof (byte_range 0 x) as Rx. unfold in_range in Rx.
  rewrite exec_view, (lut_byte S sy m HL _ _ s0 (7936 + byte 0 x) (_and8_table sy + (256 * 0x1f + byte 0 x))), rset_rset.
  2:{ lia. }
  2:{ regs_read. rewrite wrap_add_r. f_equal. unfold _and8_table. lia. }
  2:{ unfold _and8_table. lia. }
  destruct (lut_logic sy m (lut_placed _ _ _ HL) 0x1f (byte 0 x)) as (-> & _ & _); [done | unfold in_range; lia |].
  rewrite and31, exec_nil. set (n := x mod 32). assert (0 <= n < 32) as Hn by (apply Z.mod_pos_bound; lia). steps.
  rewrite (le_read4_bytes _ (-20) (256 * n + 0)).
  2:{ unfold in_range. lia. }
  2:{ intros k Hk. rewrite byte_pair by (done || (unfold in_range; lia)).
      assert (k = 0 \/ k = 1 \/ k = 2 \/ k = 3) as [-> | [-> | [-> | ->]]] by lia; scratch_read; try done.
      rewrite byte_small by (unfold in_range; lia). done. }
  rewrite exec_slli_add by (lia || (apply rset_ok; [regs_fine | unfold in_range; lia])).
  rewrite rset_rset, exec_la by lia. regs_read. steps.
  replace (u32 (u32 ((256 * n + 0) <<< 2) + u32 T)) with (T + 1024 * n).
  2:{ rewrite wrap_add_l, wrap_add_r, Z.shiftl_mul_pow2 by lia. symmetry. replace ((256 * n + 0) * 2 ^ 2 + T) with (T + 1024 * n) by lia.
      apply wrap_small. unfold in_range. lia. }
  eexists _, (u32 T). split; [| split].
  - f_equal. regs_equal.
  - agrees.
  - apply rset_ok; [apply rset_ok; [done | apply wrap_range; lia] | unfold in_range; lia].
Qed.

Lemma exec_sll f sc rd rs1 rs2 :
  rget f sp = S -> regs_ok f -> rd <> x0 ->
  exists sc' g t, exec (sll sy rd rs1 rs2) (view S f sc m) =
    view S (rset (rset (rset f gp g) tp t) rd (u32 (rget f rs1 <<< (rget f rs2 mod 32)))) sc' m.
Proof.
  intros Hsp Hf H0. pose proof (stack_ok _ _ _ HL) as HS. set (x := rget f rs1). set (y := rget f rs2).
  assert (in_range 32 x) as Hx by (by apply rget_range).
  unfold sll. change (slli tp tp 8) with (slli_add tp tp 8). offsets. rewrite !exec_app. steps. fold x.
  assert (_logic_shift_table sy <= _sll8_table sy /\ _sll8_table sy + 32768 <= _logic_shift_table sy + 294912) as [T1 T2]
    by (unfold _sll8_table, _xor8_table, _or8_table, _and8_table; lia).
  match goal with |- context [view S f ?w m] => set (sc0 := w) end.
  destruct (exec_shift_row f sc0 rs2 (_sll8_table sy) Hsp Hf T1 T2) as (sc1 & t & -> & A1 & Hf1). fold y in Hf1 |- *.
  set (s := y mod 32) in *. assert (0 <= s < 32) as Hs by (apply Z.mod_pos_bound; lia).
  set (R := _sll8_table sy + 1024 * s) in *. assert (row_ok R) as HR by (unfold R, row_ok; lia).
  assert (forall k, 0 <= k < 4 -> le_read 4 m (R + 4 * byte k x) = u32 (byte k x <<< s)) as Hent.
  { intros k Hk. destruct (lut_shift sy m (lut_placed _ _ _ HL) s (byte k x) Hs (byte_range k x)) as (<- & _ & _). f_equal. unfold R. lia. }
  assert (forall k, 0 <= k < 4 -> sc1 (-16 + k) = byte k x) as HA.
  { intros k Hk. rewrite A1 by lia. unfold sc0. rewrite (le_write4_in _ (-16) x _ k) by lia. done. }
  set (f1 := rset (rset f tp t) s0 R) in *. assert (rget f1 sp = S /\ rget f1 s0 = R) as [Hsp1 Hr1] by (unfold f1; by regs_read).
  set (e := fun k => u32 (byte k x <<< s)). change (forall k, 0 <= k < 4 -> le_read 4 m (R + 4 * byte k x) = e k) in Hent.
  assert (u32 (u32 (u32 (2 ^ 24 * byte 0 (e 3) + (2 ^ 16 * byte 0 (e 2) + 2 ^ 24 * byte 1 (e 2))) + u32 (e 1 <<< 8)) + e 0)
    = u32 (x <<< s)) as Hres by exact (sll_bytes x s Hx (proj1 Hs)).
  assert (forall k, in_range 32 (e k)) as He by (intros; apply wrap_range; lia).
  assert (f1 = rset (rset f tp t) s0 R) as Ef1 by done. clearbody f1 e.
  rewrite exec_view, step_sw, exec_nil by (first [lia | done]). regs_read.
  rewrite (exec_shift_byte _ _ s0 R x 3); [| done | lia | done | done | done | lia | rewrite le_write_out by lia; apply HA; lia].
  rewrite Hent by lia. steps. rewrite (le_read4_sum _ (-20) 0 0 0 (byte 0 (e 3)));
    [| by scratch_read .. | done | done | done | apply byte_range].
  rewrite (exec_shift_byte _ _ s0 R x 2);
    [| by regs_read | lia | by regs_read | done | | lia | scratch_read; apply HA; lia].
  2:{ pose proof (byte_range 0 (e 3)) as Hb. unfold in_range in Hb.
      apply rset_ok; [regs_fine |]. unfold in_range. lia. }
  rewrite Hent by lia.
  rewrite exec_sh_scratch by (first [lia | by regs_read]). regs_read. rewrite rset_rset. change (-18 + 1) with (-17).
  rewrite exec_view, step_lw by (first [lia | by regs_read]). rewrite rset_rset.
  rewrite (le_read4_sum _ (-20) 0 0 (byte 0 (e 2)) (byte 1 (e 2)));
    [| by scratch_read | by scratch_read | by scratch_read | scratch_read; by rewrite byte0_byte | done | done | apply byte_range | apply byte_range].
  steps. set (A := 0 + _ + _ + 2 ^ 24 * byte 0 (e 3)). set (B := 0 + _ + _ + 2 ^ 24 * byte 1 (e 2)).
  match goal with |- context [view S ?w _ m] => assert (regs_ok w) as Hf2 end.
  { pose proof (byte_range 0 (e 3)). pose proof (byte_range 0 (e 2)). pose proof (byte_range 1 (e 2)).
    repeat apply rset_ok; first [done | apply He | by apply wrap_range | unfold in_range, A, B in *; lia]. }
  rewrite (exec_shift_byte _ _ s0 R x 1);
    [| by regs_read | lia | by regs_read | done | done | lia | scratch_read; apply HA; lia].
  rewrite Hent, exec_slli_add by (lia || regs_fine). rewrite rset_rset. regs_read. steps.
  rewrite (exec_shift_byte _ _ s0 R x 0);
    [| by regs_read | lia | by regs_read | done | regs_fine | lia | scratch_read; apply HA; lia].
  rewrite Hent by lia. steps.
  rewrite (le_read4_bytes _ (-4) (rget f s0));
    [| by apply rget_range | four_bytes; rewrite A1 by lia; unfold sc0; by scratch_read].
  replace (2 ^ 24 * byte 0 (e 3) + _) with (A + B) in Hres by (unfold A, B; lia). rewrite <- Hres.
  eexists _, (u32 (u32 (A + B) + u32 (e 1 <<< 8))), (e 0). f_equal. rewrite Ef1. unfold rget. cbn. regs_equal.
Qed.

Lemma shift_right_sum y2 y1 y0 :
  in_range 32 y2 -> in_range 32 y1 -> in_range 32 y0 ->
  (byte 1 y2 + byte 2 y1 + byte 3 y0) + 2 ^ 8 * (byte 2 y2 + byte 3 y1) + 2 ^ 16 * byte 3 y2 =
  y2 / 2 ^ 8 + y1 / 2 ^ 16 + y0 / 2 ^ 24.
Proof.
  unfold in_range. intros. rewrite !byte_div by lia. change (2 ^ (8 * 1)) with 256. change (2 ^ (8 * 2)) with 65536.
  change (2 ^ (8 * 3)) with 16777216. change (2 ^ 8) with 256. change (2 ^ 16) with 65536. change (2 ^ 24) with 16777216. dlia.
Qed.

(** The result of a right shift. *)
Definition shifted (is_arith : bool) (x s : Z) : Z := if is_arith then u32 (s32 x >>> s) else x >>> s.

Lemma s32_top x : in_range 32 x -> s32 x = 2 ^ 24 * sext 8 (byte 3 x) + 2 ^ 16 * byte 2 x + 2 ^ 8 * byte 1 x + byte 0 x /\
  s32 (byte 3 x <<< 24) = sext 8 (byte 3 x) * 2 ^ 24.
Proof.
  intros Hx. rewrite Z.shiftl_mul_pow2 by lia. rewrite (word_of_bytes x Hx) at 1.
  pose proof (byte_range 0 x). pose proof (byte_range 1 x). pose proof (byte_range 2 x). pose proof (byte_range 3 x).
  unfold in_range, sext, wrap in *. change (2 ^ 8) with 256 in *. change (2 ^ 16) with 65536. change (2 ^ 24) with 16777216.
  change (2 ^ (8 - 1)) with 128. change (2 ^ (32 - 1)) with 2147483648. change (2 ^ 32) with 4294967296.
  generalize dependent (byte 0 x). generalize dependent (byte 1 x). generalize dependent (byte 2 x). generalize dependent (byte 3 x).
  intros. split; dlia.
Qed.

Lemma shift_right_value (is_arith : bool) x s :
  in_range 32 x -> 0 <= s ->
  let y k := (byte k x * 2 ^ 24) / 2 ^ s in
  u32 (y 2 / 2 ^ 8 + y 1 / 2 ^ 16 + y 0 / 2 ^ 24 + (if is_arith then u32 (s32 (byte 3 x <<< 24) >>> s) else (byte 3 x <<< 24) >>> s)) =
  shifted is_arith x s.
Proof.
  intros Hx Hs. cbv zeta. pose proof (byte_range 0 x) as B0. pose proof (byte_range 1 x) as B1. pose proof (byte_range 2 x) as B2.
  unfold shifted. destruct is_arith.
  - destruct (s32_top x Hx) as [-> ->]. rewrite wrap_add_r, !Z.shiftr_div_pow2, srl_bytes by done. f_equal. lia.
  - rewrite Z.shiftl_mul_pow2, !Z.shiftr_div_pow2 by lia.
    assert (in_range 32 (x / 2 ^ s)) as Hr by (rewrite <- Z.shiftr_div_pow2 by done; by apply shiftr_range).
    rewrite <- (wrap_small 32 (x / 2 ^ s) Hr). f_equal. rewrite (word_of_bytes x Hx) at 5.
    replace (byte 0 x + 2 ^ 8 * byte 1 x + 2 ^ 16 * byte 2 x + 2 ^ 24 * byte 3 x)
      with (2 ^ 24 * byte 3 x + 2 ^ 16 * byte 2 x + 2 ^ 8 * byte 1 x + byte 0 x) by lia.
    rewrite srl_bytes by done. lia.
Qed.

Lemma exec_shift_right_tail f sc rd x s is_arith old :
  rget f sp = S -> regs_ok f -> rd <> x0 -> in_range 32 x -> 0 <= s < 32 -> rget f s0 = _srl8_table sy + 1024 * s ->
  (forall k, 0 <= k < 4 -> sc (-16 + k) = byte k x) -> le_read 4 sc (-4) = old ->
  exists sc' g t, exec (shift_right_tail sy rd is_arith) (view S f sc m) =
    view S (rset (rset (rset (rset f s0 old) gp g) tp t) rd (shifted is_arith x s)) sc' m.
Proof.
  intros Hsp Hf H0 Hx Hs Hs0 HA Hold. pose proof (stack_ok _ _ _ HL) as HS. pose proof (lut_apart _ _ _ HL) as (L0 & L1 & L2).
  set (R := _srl8_table sy + 1024 * s) in *.
  assert (row_ok R) as HR by (unfold R, row_ok, _srl8_table, _sll8_table, _xor8_table, _or8_table, _and8_table; lia).
  set (y := fun k => (byte k x * 2 ^ 24) / 2 ^ s).
  assert (forall k, 0 <= k < 4 -> le_read 4 m (R + 4 * byte k x) = y k) as Hent.
  { intros k Hk. destruct (lut_shift sy m (lut_placed _ _ _ HL) s (byte k x) Hs (byte_range k x)) as (_ & E & _).
    unfold R. rewrite <- Z.add_assoc, E. unfold y. by rewrite Z.shiftl_mul_pow2, Z.shiftr_div_pow2 by lia. }
  assert (forall k, in_range 32 (y k)) as Hy.
  { intros k. unfold y. rewrite <- Z.shiftr_div_pow2 by lia. apply shiftr_range; [lia |]. pose proof (byte_range k x). unfold in_range in *. lia. }
  destruct (srl_no_carry (byte 2 x) (byte 1 x) (byte 0 x) s ltac:(lia) (byte_range _ _) (byte_range _ _) (byte_range _ _)) as [N0 N1].
  cbv zeta in N0, N1. change (byte 1 (y 2) + byte 2 (y 1) + byte 3 (y 0) < 256) in N0. change (byte 2 (y 2) + byte 3 (y 1) < 256) in N1.
  set (e3 := if is_arith then u32 (s32 (byte 3 x <<< 24) >>> s) else (byte 3 x <<< 24) >>> s).
  set (b0 := byte 1 (y 2) + byte 2 (y 1) + byte 3 (y 0)) in *. set (b1 := byte 2 (y 2) + byte 3 (y 1)) in *.
  assert (u32 (b0 + 2 ^ 8 * b1 + 2 ^ 16 * byte 3 (y 2) + e3) = shifted is_arith x s) as Hval.
  { unfold b0, b1. rewrite shift_right_sum by apply Hy. exact (shift_right_value is_arith x s Hx ltac:(lia)). }
  pose proof (byte_range 1 (y 2)) as Y12. pose proof (byte_range 2 (y 1)) as Y21. pose proof (byte_range 3 (y 0)) as Y30.
  pose proof (byte_range 2 (y 2)) as Y22. pose proof (byte_range 3 (y 1)) as Y31. pose proof (byte_range 3 (y 2)) as Y32.
  assert (u32 (u32 (byte 1 (y 2) + byte 2 (y 1)) + byte 3 (y 0)) = b0) as E0.
  { rewrite wrap_add_l. apply wrap_small. unfold in_range, b0 in *. lia. }
  assert (u32 (byte 2 (y 2) + byte 3 (y 1)) = b1) as E1 by (apply wrap_small; unfold in_range, b1 in *; lia).
  assert (in_range 8 b0 /\ in_range 8 b1) as [Rb0 Rb1] by (unfold in_range, b0, b1 in *; lia).
  unfold shift_right_tail. offsets. rewrite !exec_app.
  rewrite (exec_shift_byte _ _ s0 R x 2); [| done | lia | done | done | done | lia | apply HA; lia]. rewrite Hent by lia. steps.
  rewrite (exec_shift_byte _ _ s0 R x 1); [| by regs_read | lia | by regs_read | done | regs_fine | lia | scratch_read; apply HA; lia].
  rewrite Hent, rset_rset by lia. steps.
  rewrite (exec_shift_byte _ _ s0 R x 0); [| by regs_read | lia | by regs_read | done | regs_fine | lia | scratch_read; apply HA; lia].
  rewrite Hent, rset_rset by lia. clearbody y. steps. scratch_read.
  rewrite E0, E1. rewrite (le_read4_sum _ (-28) b0 b1 (byte 3 (y 2)) 0);
    [| scratch_read; by rewrite byte_small by (done || lia) | scratch_read; by rewrite byte_small by (done || lia)
     | scratch_read; by rewrite byte_small by (done || lia) | scratch_read; by rewrite byte_small by (done || lia) | done | done | done | done].
  set (G := b0 + _ + _ + _). match goal with |- context [view S ?w ?v m] => set (f2 := w); set (sc2 := v) end.
  assert (regs_ok f2) as Hf2.
  { assert (in_range 32 G) by (unfold in_range, G in *; lia). unfold f2. regs_fine. }
  assert (rget f2 sp = S /\ rget f2 s0 = R /\ rget f2 gp = G) as (Hsp2 & Hs02 & Hg2) by (unfold f2; by regs_read).
  set (R3 := if is_arith then R + 32768 else R). assert (row_ok R3 /\ in_range 32 R3) as [HR3 HR3'].
  { split; [unfold R3, row_ok, R, _srl8_table, _sll8_table, _xor8_table, _or8_table, _and8_table in *; destruct is_arith; lia |].
    destruct HR. unfold R3, in_range. destruct is_arith; unfold R, _srl8_table, _sll8_table, _xor8_table, _or8_table, _and8_table in *; lia. }
  assert (exists t, in_range 32 t /\ exec (if is_arith then la tp (_sra8_table sy - _srl8_table sy) ++ [ADD s0 s0 tp] else [])
    (view S f2 sc2 m) = view S (rset (rset f2 tp t) s0 R3) sc2 m) as (t & Ht & ->).
  { unfold R3. destruct is_arith.
    - rewrite exec_app, exec_la by lia. replace (_sra8_table sy - _srl8_table sy) with 32768 by (unfold _sra8_table; lia).
      exists 32768. split; [done |]. steps. rewrite Hs02. do 2 f_equal. change (u32 32768) with 32768. exact (wrap_small 32 _ HR3').
    - exists (f2 tp). split; [apply Hf2 |]. rewrite exec_nil, rset_same. f_equal.
      rewrite <- Hs02. change (rget f2 s0) with (f2 s0). by rewrite rset_same. }
  rewrite (exec_shift_byte _ _ s0 R3 x 3); [| by regs_read | lia | by regs_read | done | regs_fine | lia |].
  2:{ unfold sc2. scratch_read. apply HA. lia. }
  replace (le_read 4 m (R3 + 4 * byte 3 x)) with e3.
  2:{ destruct (lut_shift sy m (lut_placed _ _ _ HL) s (byte 3 x) Hs (byte_range 3 x)) as (_ & El & Ea).
      unfold R3, e3, R. destruct is_arith; [rewrite <- Ea; f_equal; unfold _sra8_table; lia | rewrite <- El; f_equal; lia]. }
  rewrite exec_view, step_lw by (first [lia | by regs_read]). rewrite (agree_le_read (-16) 0 sc sc2) by (lia || (unfold sc2; agrees)).
  rewrite Hold, exec_view, step_add, exec_nil. regs_read. rewrite Hg2.
  replace (u32 (G + e3)) with (shifted is_arith x s) by (rewrite <- Hval; f_equal; unfold G; lia).
  exists sc2, G, e3. f_equal. unfold f2. regs_equal.
Qed.

(** Right shifts by a register or an immediate. *)
Definition amount_of (f : Z -> Z) (a : amount) : Z := match a with InReg r => rget f r mod 32 | Imm i => i end.

Lemma shifted_24 is_arith x :
  in_range 32 x -> shifted is_arith x 24 = if is_arith then u32 (s32 (byte 3 x <<< 24) >>> 24) else byte 3 x.
Proof.
  intros Hx. unfold shifted. destruct is_arith.
  - destruct (s32_top x Hx) as [-> ->]. f_equal. rewrite !Z.shiftr_div_pow2 by lia.
    pose proof (byte_range 0 x). pose proof (byte_range 1 x). pose proof (byte_range 2 x). unfold in_range in *.
    change (2 ^ 8) with 256 in *. change (2 ^ 16) with 65536. change (2 ^ 24) with 16777216. dlia.
  - unfold byte. symmetry. apply wrap_small. unfold in_range in *. rewrite Z.shiftr_div_pow2 by lia.
    change (2 ^ (8 * 3)) with 16777216. change (2 ^ 8) with 256. change (2 ^ 32) with 4294967296 in *. dlia.
Qed.

Lemma exec_shift_24 f sc rd rs1 is_arith :
  rget f sp = S -> regs_ok f -> rd <> x0 -> rd <> tp ->
  exists sc' g t, exec (shift_right_24 sy rd rs1 is_arith) (view S f sc m) =
    view S (rset (rset (rset f gp g) tp t) rd (shifted is_arith (rget f rs1) 24)) sc' m.
Proof.
  intros Hsp Hf H0 H4. pose proof (stack_ok _ _ _ HL) as HS. pose proof (lut_apart _ _ _ HL) as (L0 & L1 & L2).
  rewrite shifted_24 by (by apply rget_range). set (x := rget f rs1). unfold shift_right_24. destruct is_arith.
  - change (24 <<< 10) with 24576. change (slli rd rd 2) with (slli_add rd rd 2). offsets. rewrite !exec_app. steps. fold x.
    rewrite exec_la by lia. pose proof (byte_range 3 x) as B3. unfold in_range in B3.
    rewrite exec_view, step_lbu, exec_nil by (first [lia | by regs_read]). scratch_read.
    rewrite exec_slli_add by (lia || regs_fine). rewrite rset_rset, Z.shiftl_mul_pow2 by lia. regs_read.
    rewrite (wrap_small 32 (byte 3 x * 2 ^ 2)) by (unfold in_range; lia).
    rewrite exec_view, step_add. regs_read. rewrite wrap_add_l.
    set (T := _sra8_table sy + 24576). assert (_logic_shift_table sy <= T /\ T + 1024 <= _logic_shift_table sy + 294912) as [T1 T2]
      by (unfold T, _sra8_table, _srl8_table, _sll8_table, _xor8_table, _or8_table, _and8_table; lia).
    rewrite exec_view, exec_nil, (step_lw_out _ _ _ _ _ _ _ (T + 4 * byte 3 x)).
    2:{ regs_read. rewrite Z.add_0_r, wrap_wrap by lia. replace (byte 3 x * 2 ^ 2) with (4 * byte 3 x) by lia.
        apply wrap_small. unfold in_range. lia. }
    2:{ intros k Hk. unfold outside. lia. }
    destruct (lut_shift sy m (lut_placed _ _ _ HL) 24 (byte 3 x) ltac:(lia) (byte_range 3 x)) as (_ & _ & <-).
    replace (_sra8_table sy + (1024 * 24 + 4 * byte 3 x)) with (T + 4 * byte 3 x) by (unfold T; lia).
    eexists _, (f gp), _. f_equal. regs_equal.
  - rewrite exec_getbyte by (done || lia). eexists _, (f gp), (f tp). f_equal. rewrite !rset_same. done.
Qed.

Lemma exec_shift_right f sc rd rs1 a is_arith :
  rget f sp = S -> regs_ok f -> rd <> x0 -> rd <> tp -> (forall i, a = Imm i -> 0 <= i < 32) ->
  exists sc' g t, exec (shift_right_template sy rd rs1 a is_arith) (view S f sc m) =
    view S (rset (rset (rset f gp g) tp t) rd (shifted is_arith (rget f rs1) (amount_of f a))) sc' m.
Proof.
  intros Hsp Hf H0 H4 Hi. pose proof (stack_ok _ _ _ HL) as HS. pose proof (lut_apart _ _ _ HL) as (L0 & L1 & L2).
  set (x := rget f rs1). assert (in_range 32 x) as Hx by (by apply rget_range).
  assert (_logic_shift_table sy <= _srl8_table sy /\ _srl8_table sy + 32768 <= _logic_shift_table sy + 294912) as [T1 T2]
    by (unfold _srl8_table, _sll8_table, _xor8_table, _or8_table, _and8_table; lia).
  (* the general path from the row on *)
  assert (forall sc1 t n,
    agree (-16) 0 (le_write 4 (le_write 4 sc (-4) (rget f s0)) (-16) x) sc1 -> 0 <= n < 32 ->
    regs_ok (rset (rset f tp t) s0 (_srl8_table sy + 1024 * n)) ->
    exists sc' g t', exec (shift_right_tail sy rd is_arith) (view S (rset (rset f tp t) s0 (_srl8_table sy + 1024 * n)) sc1 m) =
      view S (rset (rset (rset f gp g) tp t') rd (shifted is_arith x n)) sc' m) as Htail.
  { intros sc1 t n A1 Hn Hf1.
    destruct (exec_shift_right_tail (rset (rset f tp t) s0 (_srl8_table sy + 1024 * n)) sc1 rd x n is_arith (f s0)) as (sc' & g & t' & ->);
      [by regs_read | done | done | done | done | by regs_read | | |].
    - intros k Hk. rewrite A1 by lia. by rewrite (le_write4_in _ (-16) x _ k) by lia.
    - rewrite (agree_le_read (-16) 0 _ sc1 4 (-4) A1) by lia.
      apply le_read4_bytes; [apply Hf |]. four_bytes; done.
    - exists sc', g, t'. f_equal. regs_equal. }
  destruct a as [r | i]; cbn [shift_right_template amount_of].
  - offsets. rewrite !exec_app. steps. fold x.
    destruct (exec_shift_row f (le_write 4 (le_write 4 sc (-4) (rget f s0)) (-16) x) r (_srl8_table sy) Hsp Hf T1 T2)
      as (sc1 & t & -> & A1 & Hf1).
    apply (Htail sc1 t (rget f r mod 32)); [done | apply Z.mod_pos_bound; lia | done].
  - specialize (Hi i eq_refl). destruct (Z.eqb_spec i 24) as [-> | Hi24].
    + exact (exec_shift_24 f sc rd rs1 is_arith Hsp Hf H0 H4).
    + offsets. rewrite !exec_app. steps. fold x. rewrite exec_la by lia.
      rewrite Z.shiftl_mul_pow2 by lia. replace (i * 2 ^ 10) with (1024 * i) by lia.
      rewrite (wrap_small 32) by (unfold in_range; lia).
      pose proof (Htail _ (f tp) i (agree_refl _ _ _) Hi) as H. rewrite rset_same in H. apply H.
      apply rset_ok; [done | unfold in_range; lia].
Qed.
End shifts.

(** ** Loads and stores of bytes and half words *)

Section memory.
  Context (S : Z) (sy : symbols) (m : mem) (HL : layout S sy m) (Hm : bytes_ok m).

Lemma exec_lb f sc rd off base :
  let a := u32 (rget f base + off) in
  rget f sp = S -> regs_ok f -> rd <> x0 -> rd <> tp -> rd <> sp -> outside S a ->
  exists sc' g t, exec (lb sy rd off base) (view S f sc m) = view S (rset (rset (rset f gp g) tp t) rd (u32 (sext 8 (m a)))) sc' m.
Proof.
  intros a Hsp Hf H0 H4 H2 Ho. pose proof (stack_ok _ _ _ HL) as HS. unfold lb, srai. offsets. rewrite exec_app.
  rewrite exec_view, step_sw by (first [lia | done]). rewrite exec_view, (step_lbu_out _ _ _ _ _ _ _ a) by done.
  pose proof (Hm a) as Ha. pose proof Ha as Ha'. unfold in_range in Ha'.
  rewrite exec_view, step_sb, exec_view, step_lw, exec_nil by (first [lia | by regs_read]). regs_read. rewrite rset_rset.
  rewrite (le_read4_sum _ (-16) 0 0 0 (m a)); [| by scratch_read | by scratch_read | by scratch_read | | done | done | done | done].
  2:{ scratch_read. by rewrite byte_small. }
  match goal with |- context [view S ?w ?v m] => destruct (exec_shift_24 S sy m HL w v rd rd true) as (sc' & g & t & E) end;
    [by regs_read | apply rset_ok; [done | unfold in_range; lia] | done | done |].
  change (shift_right_template sy rd rd (Imm 24) true) with (shift_right_24 sy rd rd true). rewrite E. exists sc', g, t. f_equal. rewrite rget_eq by done.
  rewrite shifted_24 by (unfold in_range; lia).
  replace (byte 3 (0 + 2 ^ 8 * 0 + 2 ^ 16 * 0 + 2 ^ 24 * m a)) with (m a) by (rewrite byte_div by lia; change (2 ^ (8 * 3)) with 16777216; dlia).
  replace (u32 (s32 (m a <<< 24) >>> 24)) with (u32 (sext 8 (m a))); [regs_equal |].
  f_equal. rewrite Z.shiftl_mul_pow2, Z.shiftr_div_pow2 by lia. unfold sext, wrap. change (2 ^ (32 - 1)) with 2147483648.
  change (2 ^ 32) with 4294967296. change (2 ^ 24) with 16777216. change (2 ^ (8 - 1)) with 128. change (2 ^ 8) with 256 in *. dlia.
Qed.

Lemma next_addr a off : u32 (a + (1 + off)) = u32 (u32 (a + off) + 1).
Proof. rewrite wrap_add_l. f_equal. lia. Qed.

Lemma exec_lhu f sc rd off base :
  let a := u32 (rget f base + off) in
  rget f sp = S -> regs_ok f -> rd <> x0 -> rd <> tp -> base <> tp -> outside S a -> outside S (u32 (a + 1)) ->
  exists sc' t, exec (lhu rd off base) (view S f sc m) =
    view S (rset (rset f tp t) rd (m a + 2 ^ 8 * m (u32 (a + 1)))) sc' m.
Proof.
  intros a Hsp Hf H0 H4 Hb Ho Ho1. pose proof (stack_ok _ _ _ HL) as HS. unfold lhu. offsets.
  pose proof (Hm a) as Ra. pose proof (Hm (u32 (a + 1))) as R1. unfold in_range in Ra, R1.
  rewrite exec_view, step_sw by (first [lia | done]).
  rewrite exec_view, (step_lbu_out _ _ _ _ _ _ _ (u32 (a + 1))) by (first [apply next_addr | done]).
  rewrite exec_view, step_sb, exec_view, step_lw by (first [lia | by regs_read]). regs_read. rewrite rset_rset.
  rewrite (le_read4_sum _ (-16) 0 (m (u32 (a + 1))) 0 0);
    [| by scratch_read | scratch_read; by rewrite byte_small | by scratch_read | by scratch_read | done | done | done | done].
  rewrite exec_view, (step_lbu_out _ _ _ _ _ _ _ a) by (first [by regs_read; rewrite Z.add_0_l | done]).
  rewrite exec_view, step_add, exec_nil, rset_rset. regs_read. eexists _, _. do 2 f_equal.
  rewrite wrap_small by (unfold in_range; lia). lia.
Qed.

Lemma exec_lh f sc rd off base :
  let a := u32 (rget f base + off) in
  rget f sp = S -> regs_ok f -> rd <> x0 -> rd <> tp -> rd <> gp -> base <> tp -> base <> gp -> outside S a -> outside S (u32 (a + 1)) ->
  exists sc' g t, exec (lh sy rd off base) (view S f sc m) =
    view S (rset (rset (rset f gp g) tp t) rd (u32 (sext 16 (m a + 2 ^ 8 * m (u32 (a + 1)))))) sc' m.
Proof.
  intros a Hsp Hf H0 H4 H3 Hb Hb3 Ho Ho1. pose proof (stack_ok _ _ _ HL) as HS. unfold lh, srai. offsets. rewrite !exec_app.
  pose proof (Hm a) as Ra. pose proof (Hm (u32 (a + 1))) as R1. unfold in_range in Ra, R1.
  rewrite exec_view, step_sw by (first [lia | done]).
  rewrite exec_view, (step_lbu_out _ _ _ _ _ _ _ (u32 (a + 1))) by (first [apply next_addr | done]).
  rewrite exec_view, step_sb, exec_view, step_lw, exec_nil by (first [lia | by regs_read]). regs_read. rewrite rset_rset.
  rewrite (le_read4_sum _ (-16) 0 0 0 (m (u32 (a + 1))));
    [| by scratch_read | by scratch_read | by scratch_read | scratch_read; by rewrite byte_small | done | done | done | done].
  match goal with |- context [view S ?w ?v m] => destruct (exec_shift_right S sy m HL w v gp gp (Imm 16) true) as (sc' & g & t & ->) end;
    [by regs_read | apply rset_ok; [done | unfold in_range; lia] | lia | lia | intros i [= <-]; lia |].
  rewrite exec_view, (step_lbu_out _ _ _ _ _ _ _ a) by (first [by regs_read; rewrite Z.add_0_l | done]).
  rewrite exec_view, step_add, exec_nil, rset_rset. regs_read. eexists _, _, t. f_equal.
  match goal with |- rset _ rd ?v = rset _ rd ?w => replace v with w end; [regs_equal |].
  symmetry. unfold shifted, amount_of. rewrite wrap_add_r. rewrite <- (wrap_sext 32) by lia. f_equal.
  rewrite Z.shiftr_div_pow2 by lia. unfold sext, wrap. change (2 ^ (32 - 1)) with 2147483648.
  change (2 ^ 32) with 4294967296. change (2 ^ 24) with 16777216. change (2 ^ (16 - 1)) with 32768. change (2 ^ 8) with 256 in *.
  change (2 ^ 16) with 65536. dlia.
Qed.

Lemma exec_sh f sc rs off base :
  let a := u32 (rget f base + off) in
  rget f sp = S -> regs_ok f -> base <> tp -> outside S a -> outside S (u32 (a + 1)) ->
  exists sc' t, exec (sh rs off base) (view S f sc m) =
    view S (rset f tp t) sc' (le_write 1 (le_write 1 m a (rget f rs)) (u32 (a + 1)) (byte 1 (rget f rs))).
Proof.
  intros a Hsp Hf Hb Ho Ho1. pose proof (stack_ok _ _ _ HL) as HS. unfold sh. rewrite !exec_app.
  rewrite exec_view, (step_sb_out _ _ _ _ _ _ _ a), exec_nil by (first [by rewrite Z.add_0_l | done]).
  rewrite exec_getbyte by (done || lia).
  rewrite exec_view, (step_sb_out _ _ _ _ _ _ _ (u32 (a + 1))), exec_nil by (first [by regs_read; apply next_addr | done]).
  regs_read. by eexists _, _.
Qed.
End memory.

(** ** The replaced instructions *)

Inductive rv_op := OSub | OSlt | OSltu | OAnd | OOr | OXor | OSll | OSrl | OSra | OSgt | OSgtu.
Inductive rv_imm := OSlti | OSltiu | OAndi | OOri | OXori | OSlli | OSrli | OSrai.
Inductive rv_load := OLb | OLh | OLhu.
Inductive rv_unary := ONot | ONeg | OSeqz | OSnez | OSltz | OSgtz.

Inductive rv_inst :=
| Op (o : rv_op) (rd rs1 rs2 : Z)
| OpImm (o : rv_imm) (rd rs1 imm : Z)
| Load (o : rv_load) (rd off base : Z)
| Unary (o : rv_unary) (rd rs : Z).

(** The macro of an instruction. *)
Definition expand (sy : symbols) (i : rv_inst) : option (list base_inst) :=
  match i with
  | Op o rd rs1 rs2 =>
      match o with
      | OSub => Some (sub sy rd rs1 rs2) | OSlt => Some (slt sy rd rs1 rs2) | OSltu => Some (sltu sy rd rs1 rs2)
      | OAnd => and_ sy rd rs1 rs2 | OOr => or_ sy rd rs1 rs2 | OXor => xor_ sy rd rs1 rs2
      | OSll => Some (sll sy rd rs1 rs2) | OSrl => Some (srl sy rd rs1 rs2) | OSra => Some (sra sy rd rs1 rs2)
      | OSgt => Some (sgt sy rd rs1 rs2) | OSgtu => Some (sgtu sy rd rs1 rs2)
      end
  | OpImm o rd rs1 imm =>
      match o with
      | OSlti => Some (slti sy rd rs1 imm) | OSltiu => Some (sltiu sy rd rs1 imm)
      | OAndi => andi sy rd rs1 imm | OOri => ori sy rd rs1 imm | OXori => xori sy rd rs1 imm
      | OSlli => Some (slli rd rs1 imm) | OSrli => Some (srli sy rd rs1 imm) | OSrai => Some (srai sy rd rs1 imm)
      end
  | Load o rd off base =>
      match o with OLb => Some (lb sy rd off base) | OLh => Some (lh sy rd off base) | OLhu => Some (lhu rd off base) end
  | Unary o rd rs =>
      match o with
      | ONot => Some (not_ sy rd rs) | ONeg => Some (neg sy rd rs) | OSeqz => Some (seqz sy rd rs)
      | OSnez => Some (snez sy rd rs) | OSltz => Some (sltz rd rs) | OSgtz => Some (sgtz sy rd rs)
      end
  end.

Definition dest (i : rv_inst) : Z :=
  match i with Op _ rd _ _ | OpImm _ rd _ _ | Load _ rd _ _ | Unary _ rd _ => rd end.

(** The value the instruction puts into its destination. *)
Definition op_value (o : rv_op) (x y : Z) : Z :=
  match o with
  | OSub => u32 (x - y) | OSlt => b2z (s32 x <? s32 y) | OSltu => b2z (x <? y)
  | OAnd => x &&& y | OOr => x ||| y | OXor => x ^^^ y
  | OSll => u32 (x <<< (y mod 32)) | OSrl => x >>> (y mod 32) | OSra => u32 (s32 x >>> (y mod 32))
  | OSgt => b2z (s32 y <? s32 x) | OSgtu => b2z (y <? x)
  end.

Definition imm_value (o : rv_imm) (x imm : Z) : Z :=
  match o with
  | OSlti => b2z (s32 x <? imm) | OSltiu => b2z (x <? u32 imm)
  | OAndi => x &&& u32 imm | OOri => x ||| u32 imm | OXori => x ^^^ u32 imm
  | OSlli => u32 (x <<< imm) | OSrli => x >>> imm | OSrai => u32 (s32 x >>> imm)
  end.

Definition load_value (o : rv_load) (m : mem) (a : Z) : Z :=
  match o with
  | OLb => u32 (sext 8 (m a))
  | OLh => u32 (sext 16 (m a + 2 ^ 8 * m (u32 (a + 1))))
  | OLhu => m a + 2 ^ 8 * m (u32 (a + 1))
  end.

Definition unary_value (o : rv_unary) (x : Z) : Z :=
  match o with
  | ONot => not32 x | ONeg => u32 (- x) | OSeqz => b2z (x =? 0) | OSnez => b2z (0 <? x)
  | OSltz => b2z (s32 x <? 0) | OSgtz => b2z (0 <? s32 x)
  end.

Definition rv_value (f : Z -> Z) (m : mem) (i : rv_inst) : Z :=
  match i with
  | Op o _ rs1 rs2 => op_value o (rget f rs1) (rget f rs2)
  | OpImm o _ rs1 imm => imm_value o (rget f rs1) imm
  | Load o _ off base => load_value o m (u32 (rget f base + off))
  | Unary o _ rs => unary_value o (rget f rs)
  end.

(** A register the compiler uses. *)
Definition user (r : Z) : Prop := r <> gp /\ r <> tp.

Definition is_shift (o : rv_imm) : bool := match o with OSlli | OSrli | OSrai => true | _ => false end.

(** Operands for which the macro is defined; [seqz] into s0 is left out, see [seqz_into_s0]. *)
Definition operands_ok (S : Z) (f : Z -> Z) (i : rv_inst) : Prop :=
  dest i <> x0 /\ dest i <> sp /\ user (dest i) /\
  match i with
  | Op o _ rs1 rs2 => user rs1 /\ user rs2 /\ match o with OAnd | OOr | OXor => rs1 <> sp /\ rs2 <> sp | _ => True end
  | OpImm o _ rs1 imm =>
      user rs1 /\ (if is_shift o then 0 <= imm < 32 else -2048 <= imm < 2048) /\
      match o with OAndi | OOri | OXori => rs1 <> sp | _ => True end
  | Load o _ off base => user base /\ outside S (u32 (rget f base + off)) /\ outside S (u32 (u32 (rget f base + off) + 1))
  | Unary o rd rs => user rs /\ (o = OSeqz -> rd <> s0)
  end.

(** Where execution is after the expansion. *)
Definition after (pc : Z) (l : list base_inst) : Z := loop (length l) (fun p => u32 (p + 4)) pc.

Lemma run_exec pc l st : forallb no_jump l = true -> run pc l st = (after pc l, exec l st).
Proof. intros H. rewrite <- (app_nil_r l) at 1. by rewrite run_app. Qed.

Lemma no_jump_app l1 l2 : forallb no_jump (l1 ++ l2) = forallb no_jump l1 && forallb no_jump l2.
Proof. apply forallb_app. Qed.

Lemma no_jump_double n r : forallb no_jump (replicate n (ADD r r r)) = true.
Proof. induction n; done. Qed.

Lemma no_jump_slli_add rd rs n : forallb no_jump (slli_add rd rs n) = true.
Proof. unfold slli_add. destruct (n =? 0), (rd =? rs); try done; cbn; apply no_jump_double. Qed.

Lemma no_jump_slli rd rs n : forallb no_jump (slli rd rs n) = true.
Proof.
  unfold slli. destruct (24 <=? n), (16 <=? n); rewrite ?no_jump_app, ?no_jump_slli_add; done.
Qed.

Lemma no_jump_tail sy rd a : forallb no_jump (shift_right_tail sy rd a) = true.
Proof. destruct a; done. Qed.

Lemma no_jump_right sy rd rs a b : forallb no_jump (shift_right_template sy rd rs a b) = true.
Proof.
  destruct a; cbn [shift_right_template].
  - by rewrite !no_jump_app, no_jump_tail.
  - destruct (imm =? 24); [| by rewrite !no_jump_app, no_jump_tail]. unfold shift_right_24. destruct b; [| done].
    by rewrite !no_jump_app, no_jump_slli.
Qed.

Lemma no_jump_logic lut rd rs1 rs2 l : logic lut rd rs1 rs2 = Some l -> forallb no_jump l = true.
Proof. unfold logic. repeat case_match; intros [= <-]; done. Qed.

Section instructions.
  Context (S : Z) (sy : symbols) (m : mem) (HL : layout S sy m) (Hm : bytes_ok m).
  Context (f : Z -> Z) (Hsp : rget f sp = S) (Hf : regs_ok f).

(** The expansion exists, has no jump, and leaves the value in the destination. *)
Definition computes (o : option (list base_inst)) (rd v : Z) : Prop :=
  exists l, o = Some l /\ forallb no_jump l = true /\
  forall sc, exists sc' g t, exec l (view S f sc m) = view S (rset (rset (rset f gp g) tp t) rd v) sc' m.

(** A macro that leaves gp alone. *)
Lemma computes_tp o l rd v :
  o = Some l -> forallb no_jump l = true ->
  (forall sc, exists sc' t, exec l (view S f sc m) = view S (rset (rset f tp t) rd v) sc' m) -> computes o rd v.
Proof.
  intros -> Hj H. exists l. split_and!; [done | done |]. intros sc. destruct (H sc) as (sc' & t & ->).
  exists sc', (f gp), t. by rewrite rset_same.
Qed.

Lemma computes_gp o l rd v :
  o = Some l -> forallb no_jump l = true ->
  (forall sc, exists sc' g t, exec l (view S f sc m) = view S (rset (rset (rset f gp g) tp t) rd v) sc' m) -> computes o rd v.
Proof. intros -> Hj H. by exists l. Qed.

Lemma logic_defined lut rd rs1 rs2 :
  rd <> x0 -> rd <> sp -> rs1 <> sp -> rs2 <> sp -> user rd -> rs1 <> tp -> rs1 <> gp -> rs2 <> gp ->
  exists l, logic lut rd rs1 rs2 = Some l.
Proof.
  intros ? ? ? ? [? ?] ? ? ?. unfold logic.
  destruct (Z.eqb_spec rd x0); [done |]. destruct (Z.eqb_spec rd sp); [done |]. destruct (Z.eqb_spec rs1 sp); [done |].
  destruct (Z.eqb_spec rs2 sp); [done |]. destruct (Z.eqb_spec rd gp); [done |]. destruct (Z.eqb_spec rs1 gp); [done |].
  destruct (Z.eqb_spec rs2 gp); [done |]. destruct (Z.eqb_spec rd tp); [done |]. destruct (Z.eqb_spec rs1 tp); [done |].
  by eexists.
Qed.

(** The three logical operations, for the register file after a possible [li]. *)
Lemma exec_logic_op f' sc rd rs1 rs2 l (o : rv_op) :
  rget f' sp = S -> regs_ok f' -> rd <> x0 ->
  match o with OAnd => and_ sy rd rs1 rs2 | OOr => or_ sy rd rs1 rs2 | OXor => xor_ sy rd rs1 rs2 | _ => None end = Some l ->
  exists sc' t, exec l (view S f' sc m) = view S (rset (rset f' tp t) rd (op_value o (rget f' rs1) (rget f' rs2))) sc' m.
Proof.
  intros Hsp' Hf' H0 El. destruct bitwise_bytewise as (B1 & B2 & B3). pose proof (lut_logic sy m (lut_placed _ _ _ HL)) as Hlut.
  destruct o; try done.
  - apply (exec_logic S sy m HL 0 Z.land); [lia | done | | done | done | done |].
    + intros j i Hj Hi. rewrite Z.add_0_r. by apply Hlut.
    + rewrite Z.add_0_r. exact El.
  - apply (exec_logic S sy m HL 65536 Z.lor); [lia | done | | done | done | done | exact El]. intros j i Hj Hi. by apply Hlut.
  - apply (exec_logic S sy m HL 131072 Z.lxor); [lia | done | | done | done | done |].
    + intros j i Hj Hi. destruct (Hlut j i Hj Hi) as (_ & _ & <-). f_equal. unfold _xor8_table, _or8_table, _and8_table. lia.
    + rewrite <- El. unfold xor_, _xor8_table, _or8_table, _and8_table. f_equal. lia.
Qed.

Lemma op_computes o rd rs1 rs2 : operands_ok S f (Op o rd rs1 rs2) -> computes (expand sy (Op o rd rs1 rs2)) rd (rv_value f m (Op o rd rs1 rs2)).
Proof.
  intros (H0 & H2 & Hu & [H13 H14] & [H23 H24] & Hs). cbn [dest] in *. destruct Hu as [H3 H4]. cbn [expand rv_value].
  assert (forall o', match o' with OAnd | OOr | OXor => rs1 <> sp /\ rs2 <> sp | _ => False end ->
    computes match o' with OAnd => and_ sy rd rs1 rs2 | OOr => or_ sy rd rs1 rs2 | OXor => xor_ sy rd rs1 rs2 | _ => None end
      rd (op_value o' (rget f rs1) (rget f rs2))) as Hlog.
  { intros o' Ho'. assert (rs1 <> sp /\ rs2 <> sp) as [? ?] by (by destruct o').
    assert (exists l, match o' with OAnd => and_ sy rd rs1 rs2 | OOr => or_ sy rd rs1 rs2 | OXor => xor_ sy rd rs1 rs2 | _ => None end = Some l) as [l El]
      by (destruct o'; try done; by apply logic_defined).
    apply (computes_tp _ l); [done | | intros sc; by apply exec_logic_op]. by destruct o'; try done; eapply no_jump_logic. }
  destruct o; try (by apply (Hlog OAnd)); try (by apply (Hlog OOr)); try (by apply (Hlog OXor)).
  - eapply computes_tp; [done | done |]. intros sc.
    destruct (exec_sub S sy m HL f sc rd rs1 rs2 Hsp Hf H14 H0) as (sc' & v & -> & _). by exists sc', v.
  - eapply computes_gp; [done | done |]. intros sc. by apply exec_slt.
  - eapply computes_gp; [done | done |]. intros sc. by apply exec_sltu.
  - eapply computes_gp; [done | done |]. intros sc. by apply exec_sll.
  - eapply computes_gp; [done | apply no_jump_right |]. intros sc. apply (exec_shift_right S sy m HL f sc rd rs1 (InReg rs2) false); done.
  - eapply computes_gp; [done | apply no_jump_right |]. intros sc. apply (exec_shift_right S sy m HL f sc rd rs1 (InReg rs2) true); done.
  - eapply computes_gp; [done | done |]. intros sc. by apply exec_slt.
  - eapply computes_gp; [done | done |]. intros sc. by apply exec_sltu.
Qed.

(** After [li tp, imm]. *)
Lemma exec_li sc imm l : exec (li tp imm ++ l) (view S f sc m) = exec l (view S (rset f tp (u32 imm)) sc m).
Proof. done. Qed.

Lemma imm_computes o rd rs1 imm :
  operands_ok S f (OpImm o rd rs1 imm) -> computes (expand sy (OpImm o rd rs1 imm)) rd (rv_value f m (OpImm o rd rs1 imm)).
Proof.
  intros (H0 & H2 & [H3 H4] & [H13 H14] & Hi & Hs). cbn [dest] in *. cbn [expand rv_value].
  set (f' := rset f tp (u32 imm)). assert (rget f' sp = S) as Hsp' by (unfold f'; by regs_read).
  assert (regs_ok f') as Hf' by (apply rset_ok; [done | apply wrap_range; lia]).
  assert (rget f' rs1 = rget f rs1) as E1 by (unfold f'; by rewrite rget_ne by done).
  assert (rget f' tp = u32 imm) as E2 by (unfold f'; by rewrite rget_eq by done).
  assert (forall oi o', (oi = OAndi /\ o' = OAnd) \/ (oi = OOri /\ o' = OOr) \/ (oi = OXori /\ o' = OXor) -> rs1 <> sp ->
    computes (expand sy (OpImm oi rd rs1 imm)) rd (imm_value oi (rget f rs1) imm)) as Hlog.
  { intros oi o' Hoo Hrs.
    assert (exists l, match o' with OAnd => and_ sy rd rs1 tp | OOr => or_ sy rd rs1 tp | OXor => xor_ sy rd rs1 tp | _ => None end = Some l) as [l El]
      by (destruct Hoo as [[_ ->] | [[_ ->] | [_ ->]]]; by apply logic_defined).
    apply (computes_tp _ (li tp imm ++ l)).
    - destruct Hoo as [[-> ->] | [[-> ->] | [-> ->]]]; cbn [expand]; unfold andi, ori, xori, def_itype; by rewrite El.
    - rewrite no_jump_app. destruct Hoo as [[_ ->] | [[_ ->] | [_ ->]]]; by rewrite (no_jump_logic _ _ _ _ _ El).
    - intros sc. rewrite exec_li. fold f'. destruct (exec_logic_op f' sc rd rs1 tp l o' Hsp' Hf' H0 El) as (sc' & t & ->).
      rewrite E1, E2. exists sc', t. f_equal. unfold f'. rewrite rset_rset.
      by destruct Hoo as [[-> ->] | [[-> ->] | [-> ->]]]. }
  destruct o; try (by apply (Hlog OAndi OAnd); auto); try (by apply (Hlog OOri OOr); auto); try (by apply (Hlog OXori OXor); auto);
    cbn [is_shift] in Hi.
  - eapply computes_gp; [done | done |]. intros sc. unfold slti. rewrite exec_li. fold f'.
    destruct (exec_slt S sy m HL f' sc rd rs1 tp Hsp' Hf' H0) as (sc' & g & t & ->). exists sc', g, t. rewrite E1, E2.
    cbn [imm_value]. rewrite sext_wrap, (sext_small 32 imm) by (unfold in_srange; lia). f_equal. unfold f'. regs_equal.
  - eapply computes_gp; [done | done |]. intros sc. unfold sltiu. rewrite exec_li. fold f'.
    destruct (exec_sltu S sy m HL f' sc rd rs1 tp Hsp' Hf' H0) as (sc' & g & t & ->). exists sc', g, t. rewrite E1, E2.
    f_equal. unfold f'. regs_equal.
  - eapply computes_tp; [done | apply no_jump_slli |]. intros sc. by apply (exec_slli S f sc m rd rs1 imm (stack_ok _ _ _ HL)).
  - eapply computes_gp; [done | apply no_jump_right |]. intros sc.
    apply (exec_shift_right S sy m HL f sc rd rs1 (Imm imm) false); [done | done | done | done | by intros i [= <-]].
  - eapply computes_gp; [done | apply no_jump_right |]. intros sc.
    apply (exec_shift_right S sy m HL f sc rd rs1 (Imm imm) true); [done | done | done | done | by intros i [= <-]].
Qed.

Lemma load_computes o rd off base :
  operands_ok S f (Load o rd off base) -> computes (expand sy (Load o rd off base)) rd (rv_value f m (Load o rd off base)).
Proof.
  intros (H0 & H2 & [H3 H4] & [H13 H14] & Ho & Ho1). cbn [dest] in *. cbn [expand rv_value]. destruct o.
  - eapply computes_gp; [done | | intros sc; by apply exec_lb]. unfold lb, srai. by rewrite no_jump_app, no_jump_right.
  - eapply computes_gp; [done | | intros sc; by apply exec_lh]. unfold lh, srai. by rewrite !no_jump_app, no_jump_right.
  - eapply computes_tp; [done | done | intros sc; by apply (exec_lhu S sy m HL Hm)].
Qed.

Lemma top_sign x : in_range 32 x -> top x = b2z (s32 x <? 0).
Proof.
  intros Hx. destruct (top_cases x Hx) as [[-> H] | [-> H]]; unfold in_range in Hx; unfold sext, wrap.
  - rewrite Z.mod_small by lia. by replace (x + 2 ^ (32 - 1) - 2 ^ (32 - 1) <? 0) with false by lia.
  - replace (x + 2 ^ (32 - 1)) with (x - 2 ^ 31 + 1 * 2 ^ 32) by lia. rewrite Z.mod_add, Z.mod_small by lia.
    by replace (x - 2 ^ 31 - 2 ^ (32 - 1) <? 0) with true by lia.
Qed.

Lemma unary_computes o rd rs :
  operands_ok S f (Unary o rd rs) -> computes (expand sy (Unary o rd rs)) rd (rv_value f m (Unary o rd rs)).
Proof.
  intros (H0 & H2 & [H3 H4] & [H13 H14] & Hz). cbn [dest] in *. cbn [expand rv_value]. destruct o.
  - eapply computes_tp; [done | done |]. intros sc. destruct (exec_not S sy m HL f sc rd rs Hsp Hf H2) as (sc' & -> & _). by eexists _, _.
  - eapply computes_tp; [done | done |]. intros sc. unfold neg.
    destruct (exec_sub S sy m HL f sc rd x0 rs Hsp Hf ltac:(lia) H0) as (sc' & v & -> & _). by exists sc', v.
  - eapply computes_gp; [done | done |]. intros sc.
    destruct (exec_seqz S sy m HL f sc rd rs Hsp Hf H0 H2) as (sc' & g & t & ->). exists sc', g, t.
    replace (rd =? s0) with false by (specialize (Hz eq_refl); lia). done.
  - eapply computes_gp; [done | done |]. intros sc. unfold snez. by apply (exec_sltu S sy m HL f sc rd x0 rs).
  - eapply computes_tp; [done | | intros sc].
    + unfold sltz, msb. by rewrite !no_jump_app, no_jump_slli.
    + unfold sltz. destruct (exec_msb S sy m HL f sc rd rs Hsp Hf H0 H2) as (sc' & -> & _).
      exists sc', (f tp). rewrite rset_same, top_sign by (by apply rget_range). done.
  - eapply computes_gp; [done | done |]. intros sc. unfold sgtz. by apply (exec_slt S sy m HL f sc rd x0 rs).
Qed.
End instructions.

(** C10. Every arithmetic, logical, shift, comparison and load instruction that the base
    machine lacks is replaced correctly.  For operands the compiler may use, the macro
    expands, runs to the end of its expansion without leaving it, and puts the value the
    RISC-V manual prescribes into the destination; every other register but gp and tp and
    every byte of memory outside the 28 scratch bytes below the stack pointer is unchanged.
    The lookup tables, generated by gen-lut.c, may lie anywhere away from the scratch bytes. *)
Theorem minirv_instructions_correct sy f m pc i :
  let S := rget f sp in
  layout S sy m -> bytes_ok m -> regs_ok f -> operands_ok S f i ->
  exists l f' m', expand sy i = Some l /\
    run pc l (MState f m) = (after pc l, MState f' m') /\
    rget f' (dest i) = rv_value f m i /\
    (forall r, r <> dest i -> user r -> rget f' r = rget f r) /\
    (forall a, outside S a -> m' a = m a).
Proof.
  intros S HL Hm Hf Hi.
  assert (computes S m f (expand sy i) (dest i) (rv_value f m i)) as (l & El & Hj & H).
  { destruct i; [by apply op_computes | by apply imm_computes | by apply load_computes | by apply unary_computes]. }
  destruct (H (fun c => m (S + c))) as (sc' & g & t & E). unfold view in E. rewrite overlay_self in E.
  eexists l, _, _. split; [done |]. split; [rewrite run_exec, E by done; reflexivity |].
  destruct Hi as (H0 & _ & [H3 H4] & _). split_and!.
  - by rewrite rget_eq by done.
  - intros r Hr [? ?]. by rewrite !rget_ne by done.
  - intros a Ha. by apply overlay_out.
Qed.

(** ** Branches *)

Inductive rv_cond := CEq | CNe | CLt | CLtu | CGe | CGeu.

Definition branch (sy : symbols) (c : rv_cond) (rs1 rs2 target label : Z) : list base_inst :=
  match c with
  | CEq => beq sy rs1 rs2 target label | CNe => bne sy rs1 rs2 target label
  | CLt => blt sy rs1 rs2 target label | CLtu => bltu sy rs1 rs2 target label
  | CGe => bge sy rs1 rs2 target label | CGeu => bgeu sy rs1 rs2 target label
  end.

Definition cond_holds (c : rv_cond) (x y : Z) : bool :=
  match c with
  | CEq => x =? y | CNe => negb (x =? y) | CLt => s32 x <? s32 y | CLtu => x <? y
  | CGe => s32 y <=? s32 x | CGeu => y <=? x
  end.

(** A code address. *)
Definition code_addr (a : Z) : Prop := in_range 32 a /\ a mod 2 = 0.

Lemma code_addr_even a : code_addr a -> u32 a &&& not32 1 = a.
Proof.
  intros [Ha H2]. rewrite wrap_small by done. apply Z.bits_inj'. intros i Hi. rewrite Z.land_spec. unfold not32.
  rewrite testbit_wrap, Z.lnot_spec by lia. destruct (Z.ltb_spec i 32).
  - cbn [andb]. destruct (Z.eqb_spec i 0) as [-> |].
    + rewrite <- Z.bit0_mod in H2. destruct (Z.testbit a 0); [done | by cbn].
    + replace (Z.testbit 1 i) with false; [by rewrite andb_true_r |]. symmetry.
      change 1 with (2 ^ 0). apply Z.pow2_bits_false. lia.
  - rewrite (testbit_high 32 a) by (done || lia). done.
Qed.

Section branches.
  Context (S : Z) (sy : symbols) (m : mem) (HL : layout S sy m).

Lemma step_lw_at f sc m' rd off b c :
  u32 (rget f b + off) = S + c -> -28 <= c <= -4 ->
  step (LW rd off b) (view S f sc m') = view S (rset f rd (le_read 4 sc c)) sc m'.
Proof. intros E Hc. unfold view. cbn [step]. rewrite E, overlay_read by lia. done. Qed.

Lemma run_branch_resolve pc f sc m' b high target label :
  rget f sp = S -> rget f tp = b2z b -> code_addr target -> code_addr label ->
  exists sc' g t p, run pc (branch_resolve target high label) (view S f sc m') =
    (if eqb b high then target else label, view S (rset (rset (rset f gp g) tp t) x0 p) sc' m').
Proof.
  intros Hsp Hb Ht Hl. pose proof (stack_ok _ _ _ HL) as HS. unfold branch_resolve, jr.
  rewrite !app_assoc, run_app by (by destruct high). rewrite <- !app_assoc, !exec_app. cbn [run].
  change (slli tp tp 2) with (slli_add tp tp 2).
  rewrite exec_slli_range by (lia || (rewrite Hb; by destruct b)). rewrite Hb.
  rewrite exec_view, step_add, exec_nil, rset_rset. regs_read. rewrite Hsp.
  set (hi := if high then target else label). set (lo := if high then label else target).
  match goal with |- context [exec (if high then ?x else ?y) (view S ?w sc m')] =>
    replace (exec (if high then x else y) (view S w sc m'))
      with (view S (rset w gp (u32 lo)) (le_write 4 (le_write 4 sc (-16) (u32 hi)) (-20) (u32 lo)) m') end.
  2:{ unfold hi, lo. destruct high; offsets; rewrite !exec_app, exec_la by lia; steps; rewrite exec_la by lia; steps; done. }
  change (- VAR_B * 4) with (-20). rewrite exec_view, exec_nil, (step_lw_at _ _ _ _ _ _ (4 * b2z b - 20)).
  2:{ regs_read. destruct b; cbn [b2z Z.b2z]; [change (u32 (1 <<< 2)) with 4 | change (u32 (0 <<< 2)) with 0];
      rewrite wrap_add_l, wrap_small by (unfold in_range; lia); lia. }
  2:{ destruct b; cbn; lia. }
  replace (le_read 4 _ (4 * b2z b - 20)) with (u32 (if b then hi else lo)).
  2:{ symmetry. apply le_read4_bytes; [apply wrap_range; lia |]. destruct b; cbn [b2z Z.b2z]; four_bytes; done. }
  cbn [xreg mmem view]. regs_read. rewrite code_addr_even by (unfold hi, lo; by destruct b, high).
  replace (if b then hi else lo) with (if eqb b high then target else label) by (unfold hi, lo; by destruct b, high).
  eexists _, (u32 lo), (u32 (if eqb b high then target else label)), _. f_equal. unfold view. f_equal. regs_equal.
Qed.

Lemma exec_equal_cond f sc rs1 rs2 :
  rget f sp = S -> regs_ok f ->
  exists sc' m' g, exec (equal_cond sy rs1 rs2) (view S f sc m) =
    view S (rset (rset f gp g) tp (b2z (rget f rs1 =? rget f rs2))) sc' m' /\ array_only sy m m'.
Proof.
  intros Hsp Hf. unfold equal_cond. destruct (Z.eqb_spec rs2 x0) as [-> |]; [| destruct (Z.eqb_spec rs1 x0) as [-> |]].
  - destruct (exec_seqz S sy m HL f sc tp rs1 Hsp Hf) as (sc' & g & t & ->); [lia | lia |].
    exists sc', m, g. split; [| done]. by rewrite rset_rset.
  - destruct (exec_seqz S sy m HL f sc tp rs2 Hsp Hf) as (sc' & g & t & ->); [lia | lia |].
    exists sc', m, g. split; [| done]. by rewrite rset_rset, rget_zero, Z.eqb_sym.
  - by apply exec_seq.
Qed.

Lemma or_entry x :
  in_range 32 x -> let k := top x + top (u32 (x + -1)) in 0 <= k < 4 /\ aget 0 or1_bytes k = b2z (s32 x <=? 0).
Proof.
  intros Hx. assert (s32 x = if x <? 2 ^ 31 then x else x - 2 ^ 32) as Es.
  { unfold in_range in Hx. unfold sext, wrap. destruct (Z.ltb_spec x (2 ^ 31)).
    - rewrite Z.mod_small by lia. lia.
    - replace (x + 2 ^ (32 - 1)) with (x - 2 ^ 31 + 1 * 2 ^ 32) by lia. rewrite Z.mod_add, Z.mod_small by lia. lia. }
  assert (u32 (x + -1) = if x =? 0 then 2 ^ 32 - 1 else x - 1) as Ed.
  { unfold in_range in Hx. destruct (Z.eqb_spec x 0) as [-> |]; [done |]. apply wrap_small. unfold in_range. lia. }
  pose proof (wrap_range 32 (x + -1) ltac:(lia)) as Hd. rewrite Es. cbv zeta. unfold in_range in Hx.
  destruct (top_cases x Hx) as [[-> ?] | [-> ?]], (top_cases _ Hd) as [[-> ?] | [-> ?]]; rewrite Ed in *;
    destruct (Z.eqb_spec x 0), (Z.ltb_spec x (2 ^ 31)); try lia; (split; [lia |]); zcmp.
Qed.

Lemma exec_not_positive f sc rs2 :
  rget f sp = S -> regs_ok f -> rs2 <> gp ->
  exists sc' g, exec (not_positive sy rs2) (view S f sc m) =
    view S (rset (rset f gp g) tp (b2z (s32 (rget f rs2) <=? 0))) sc' m.
Proof.
  intros Hsp Hf H3. set (y := rget f rs2). assert (in_range 32 y) as Hy by (by apply rget_range).
  unfold not_positive. rewrite !exec_app. destruct (exec_msb S sy m HL f sc gp rs2 Hsp Hf) as (sc1 & -> & _); [lia | lia |].
  rewrite exec_view, step_addi, exec_nil. rewrite (rget_ne _ gp _ rs2) by done. fold y.
  match goal with |- context [view S ?w sc1 m] => destruct (exec_msb S sy m HL w sc1 tp tp) as (sc2 & -> & _) end;
    [by regs_read | regs_fine | lia | lia |].
  rewrite rset_rset. regs_read. rewrite exec_view, step_add, exec_nil, exec_la by lia. rewrite exec_view, step_add. regs_read.
  rewrite !rset_rset. destruct (or_entry y Hy) as [Hk Ek]. cbv zeta in Hk, Ek. set (k := top y + _) in *.
  pose proof (or_apart _ _ _ HL) as (L0 & L1 & L2). rewrite (wrap_small 32 k), wrap_add_r by (unfold in_range; lia).
  rewrite exec_view, exec_nil, (step_lbu_out _ _ _ _ _ _ _ (_or1_table sy + k)).
  - rewrite (or_placed _ _ _ HL k) by (cbn; lia). rewrite Ek. exists sc2, k. f_equal. regs_equal.
  - regs_read. rewrite Z.add_0_r, wrap_wrap, Z.add_comm by lia. apply wrap_small. unfold in_range. lia.
  - unfold outside. lia.
Qed.

(** Code that leaves the condition [b] in tp, changing nothing but gp, tp, the scratch bytes
    and the array. *)
Definition condition (f : Z -> Z) (l : list base_inst) (b : bool) : Prop :=
  forallb no_jump l = true /\
  forall sc, exists sc' m' g, exec l (view S f sc m) = view S (rset (rset f gp g) tp (b2z b)) sc' m' /\ array_only sy m m'.

Lemma slt_condition f rs1 rs2 :
  rget f sp = S -> regs_ok f -> condition f (slt sy tp rs1 rs2) (s32 (rget f rs1) <? s32 (rget f rs2)).
Proof.
  intros Hsp Hf. split; [done |]. intros sc. destruct (exec_slt S sy m HL f sc tp rs1 rs2 Hsp Hf) as (sc' & g & t & ->); [lia |].
  exists sc', m, g. by rewrite rset_rset.
Qed.

Lemma sltu_condition f rs1 rs2 :
  rget f sp = S -> regs_ok f -> condition f (sltu sy tp rs1 rs2) (rget f rs1 <? rget f rs2).
Proof.
  intros Hsp Hf. split; [done |]. intros sc. destruct (exec_sltu S sy m HL f sc tp rs1 rs2 Hsp Hf) as (sc' & g & t & ->); [lia |].
  exists sc', m, g. by rewrite rset_rset.
Qed.

Lemma msb_condition f rs : rget f sp = S -> regs_ok f -> condition f (msb tp rs) (s32 (rget f rs) <? 0).
Proof.
  intros Hsp Hf. split; [done |]. intros sc. destruct (exec_msb S sy m HL f sc tp rs Hsp Hf) as (sc' & -> & _); [lia | lia |].
  exists sc', m, (f gp). by rewrite rset_same, top_sign by (by apply rget_range).
Qed.

Lemma pos_condition f rs : rget f sp = S -> regs_ok f -> rs <> gp -> condition f (not_positive sy rs) (s32 (rget f rs) <=? 0).
Proof.
  intros Hsp Hf H3. split; [done |]. intros sc. destruct (exec_not_positive f sc rs Hsp Hf H3) as (sc' & g & ->). by exists sc', m, g.
Qed.

Lemma equal_condition f rs1 rs2 :
  rget f sp = S -> regs_ok f -> condition f (equal_cond sy rs1 rs2) (rget f rs1 =? rget f rs2).
Proof.
  intros Hsp Hf. split; [unfold equal_cond; by destruct (rs2 =? x0), (rs1 =? x0) |]. intros sc. by apply exec_equal_cond.
Qed.

(** The condition, then the jump. *)
Lemma run_condition pc f l b high target label :
  rget f sp = S -> condition f l b -> code_addr target -> code_addr label ->
  exists sc' m' g t p, run pc (l ++ branch_resolve target high label) (view S f (fun o => m (S + o)) m) =
    (if eqb b high then target else label, view S (rset (rset (rset f gp g) tp t) x0 p) sc' m') /\ array_only sy m m'.
Proof.
  intros Hsp [Hj H] Ht Hl. destruct (H (fun o => m (S + o))) as (sc1 & m1 & g1 & E & Ha). rewrite run_app, E by done.
  match goal with |- context [run ?q _ (view S ?w sc1 m1)] =>
    destruct (run_branch_resolve q w sc1 m1 b high target label) as (sc2 & g & t & p & ->) end;
    [by regs_read | by regs_read | done | done |].
  exists sc2, m1, g, t, p. split; [| done]. f_equal. unfold view. f_equal. regs_equal.
Qed.

(** Every branch is a condition and a jump on it, or on its negation. *)
Lemma branch_shape f c rs1 rs2 target label :
  rget f sp = S -> regs_ok f -> rs2 <> gp ->
  exists l b high, branch sy c rs1 rs2 target label = l ++ branch_resolve target high label /\
    condition f l b /\ eqb b high = cond_holds c (rget f rs1) (rget f rs2).
Proof.
  intros Hsp Hf H3. assert (forall b, eqb b true = b) as Et by (by intros []). assert (forall b, eqb b false = negb b) as Ef by (by intros []).
  pose proof (slt_condition f rs1 rs2 Hsp Hf) as Hslt. pose proof (sltu_condition f rs1 rs2 Hsp Hf) as Hsltu.
  pose proof (equal_condition f rs1 rs2 Hsp Hf) as Heq. pose proof (pos_condition f rs2 Hsp Hf H3) as Hpos.
  destruct c; cbn [branch cond_holds].
  - eexists _, _, true. split; [done |]. split; [exact Heq | apply Et].
  - eexists _, _, false. split; [done |]. split; [exact Heq | apply Ef].
  - unfold blt. destruct (Z.eqb_spec rs2 x0) as [-> |]; [| destruct (Z.eqb_spec rs1 x0) as [-> |]].
    + eexists _, _, true. split; [done |]. split; [exact (msb_condition f rs1 Hsp Hf) | apply Et].
    + eexists _, _, false. split; [done |]. split; [exact Hpos | rewrite Ef; symmetry; apply Z.ltb_antisym].
    + eexists _, _, true. split; [done |]. split; [exact Hslt | apply Et].
  - eexists _, _, true. split; [done |]. split; [exact Hsltu | apply Et].
  - unfold bge. destruct (Z.eqb_spec rs1 x0) as [-> |].
    + eexists _, _, true. split; [done |]. split; [exact Hpos | apply Et].
    + eexists _, _, false. split; [done |]. split; [exact Hslt | rewrite Ef; symmetry; apply Z.leb_antisym].
  - eexists _, _, false. split; [done |]. split; [exact Hsltu | rewrite Ef; symmetry; apply Z.leb_antisym].
Qed.
End branches.

(** C28. Every conditional branch is replaced correctly: whatever the registers hold, the
    expansion of beq, bne, blt, bltu, bge and bgeu - and so of the branches against zero,
    which are defined by them - ends by jumping to the target exactly when the condition
    holds and to the instruction after it otherwise.  All registers but gp and tp are
    kept, and all of memory but the scratch bytes and the comparison array. *)
Theorem minirv_branches_correct sy f m pc c rs1 rs2 target label :
  let S := rget f sp in
  layout S sy m -> regs_ok f -> user rs1 -> user rs2 -> code_addr target -> code_addr label ->
  exists f' m', run pc (branch sy c rs1 rs2 target label) (MState f m) =
      (if cond_holds c (rget f rs1) (rget f rs2) then target else label, MState f' m') /\
    (forall r, user r -> rget f' r = rget f r) /\
    (forall a, outside S a -> a < _check_same_array sy \/ _check_same_array sy + 256 <= a -> m' a = m a).
Proof.
  intros S HL Hf _ [H23 _] Ht Hl.
  destruct (branch_shape S sy m HL f c rs1 rs2 target label eq_refl Hf H23) as (l & b & high & -> & Hc & <-).
  destruct (run_condition S sy m HL pc f l b high target label eq_refl Hc Ht Hl) as (sc' & m' & g & t & p & E & Ha).
  unfold view at 1 in E. rewrite overlay_self in E. eexists _, _. split; [exact E |]. split.
  - intros r [H3 H4]. destruct (Z.eq_dec r x0) as [-> |]; [done |]. by rewrite !rget_ne by done.
  - intros a Ho Hr. rewrite overlay_out by done. by apply Ha.
Qed.

(** ** Jumps and half-word stores *)

Lemma run_call_template pc r target f m :
  r <> x0 -> code_addr target ->
  run pc (call_template r target) (MState f m) = (target, MState (rset f r (u32 (pc + 12))) m).
Proof.
  intros Hr Ht. unfold call_template, la. cbn [app run step xreg mmem]. rewrite !rset_rset, !rget_eq, hi_lo12, code_addr_even by done.
  do 3 f_equal. rewrite wrap_add_l, <- Z.add_assoc, wrap_add_l. f_equal. lia.
Qed.

Lemma run_jump pc target f m l :
  code_addr target ->
  exists p, run pc (la tp target ++ JALR x0 tp :: l) (MState f m) = (target, MState (rset (rset f tp (u32 target)) x0 p) m).
Proof.
  intros Ht. eexists. unfold la. cbn [app run step xreg mmem]. rewrite !rget_eq, hi_lo12, rset_rset, code_addr_even by (done || lia). done.
Qed.

(** Jumps and half-word stores are replaced correctly.  [jal] - and with it [call] and
    [j] - and [tail] reach their target; the link register receives the address after the
    expansion, tp is the only other register that may change, and memory is untouched.
    [sh] stores the two low bytes of its operand at consecutive addresses and changes
    nothing else but tp and the scratch bytes. *)
Theorem minirv_jumps_and_stores_correct sy f m pc :
  (forall rd target, code_addr target -> rd <> tp ->
    exists f', run pc (jal rd target) (MState f m) = (target, MState f' m) /\
      (rd <> x0 -> rget f' rd = u32 (pc + 4 * Z.of_nat (length (jal rd target)))) /\
      (forall r, r <> rd -> r <> tp -> rget f' r = rget f r)) /\
  (forall target, code_addr target ->
    exists f', run pc (tail target) (MState f m) = (target, MState f' m) /\ (forall r, r <> tp -> rget f' r = rget f r)) /\
  (forall rs off base, let S := rget f sp in let a := u32 (rget f base + off) in
    layout S sy m -> regs_ok f -> user rs -> user base -> outside S a -> outside S (u32 (a + 1)) ->
    exists f' m', run pc (sh rs off base) (MState f m) = (after pc (sh rs off base), MState f' m') /\
      (forall r, r <> tp -> rget f' r = rget f r) /\
      (forall b, outside S b -> m' b = if b =? u32 (a + 1) then byte 1 (rget f rs) else if b =? a then byte 0 (rget f rs) else m b)).
Proof.
  split_and!.
  - intros rd target Ht H4. unfold jal. destruct (Z.eqb_spec rd x0) as [-> | H0].
    + destruct (run_jump pc target f m [] Ht) as [p E]. eexists. split; [exact E |]. split; [done |].
      intros r Hr Hr4. by rewrite !rget_ne by done.
    + rewrite run_call_template by done. eexists. split; [done |]. split; [by rewrite rget_eq |].
      intros r Hr Hr4. by rewrite rget_ne.
  - intros target Ht. unfold tail, jr. destruct (run_jump pc target f m (call_template ra target) Ht) as [p E].
    eexists. split; [exact E |]. intros r Hr. destruct (Z.eq_dec r x0) as [-> |]; [done |]. by rewrite !rget_ne by done.
  - intros rs off base S a HL Hf _ [_ Hb] Ho Ho1.
    destruct (exec_sh S sy m HL f (fun c => m (S + c)) rs off base eq_refl Hf Hb Ho Ho1) as (sc' & t & E).
    unfold view in E. rewrite overlay_self in E. rewrite run_exec, E by done. eexists _, _. split; [done |]. split.
    + intros r Hr. by rewrite rget_ne.
    + intros b Hbo. rewrite overlay_out by done. fold a.
      destruct (Z.eqb_spec b (u32 (a + 1))) as [-> |]; [by rewrite le_write1_in, byte0_byte |]. rewrite le_write_out by lia.
      destruct (Z.eqb_spec b a) as [-> |]; [by rewrite le_write1_in |]. by rewrite le_write_out by lia.
Qed.

(** The known deviation: [seqz] into s0.  The macro restores s0 after it has written its
    result, so the destination keeps its old value. *)
Theorem seqz_into_s0 sy f m pc rs :
  let S := rget f sp in
  layout S sy m -> regs_ok f ->
  exists f' m', run pc (seqz sy s0 rs) (MState f m) = (after pc (seqz sy s0 rs), MState f' m') /\ rget f' s0 = rget f s0.
Proof.
  intros S HL Hf.
  destruct (exec_seqz S sy m HL f (fun c => m (S + c)) s0 rs eq_refl Hf ltac:(lia) ltac:(lia)) as (sc' & g & t & E).
  unfold view in E. rewrite overlay_self in E. rewrite run_exec, E by done. eexists _, _. split; [done |]. by rewrite rget_eq by lia.
Qed.

(** ** A concrete machine: the tables from 0x80100000 on, the stack below 0x80001000 *)

Definition placed_at (b : Z) (l : list Z) (m : mem) : mem :=
  fun a => if (b <=? a) && (a <? b + Z.of_nat (length l)) then aget 0 l (a - b) else m a.

Lemma placed_here b l m : placed (placed_at b l m) b l.
Proof. intros k Hk. unfold placed_at. zcmp; try lia. cbn [andb]. f_equal. lia. Qed.

Lemma placed_other b l m b' l' :
  placed m b' l' -> b' + Z.of_nat (length l') <= b \/ b + Z.of_nat (length l) <= b' -> placed (placed_at b l m) b' l'.
Proof. intros H Hd k Hk. unfold placed_at. destruct (_ && _) eqn:E; [lia | by apply H]. Qed.

Lemma placed_at_ok b l m : Forall (in_range 8) l -> bytes_ok m -> bytes_ok (placed_at b l m).
Proof. intros Hl Hm a. unfold placed_at. destruct (_ && _); [by apply aget_Forall | apply Hm]. Qed.

Definition sample_symbols : symbols :=
  Symbols 0x80000000 0x80000100 0x80000200 0x80000210 0x80000220 0x80100000 0x80000300.

Definition sample_memory : mem :=
  placed_at 0x80100000 lut (placed_at 0x80000000 same_result_bytes (placed_at 0x80000100 check_8bit_0_bytes
    (placed_at 0x80000200 slt1_bytes (placed_at 0x80000210 sltu1_bytes (placed_at 0x80000220 or1_bytes (fun a => a mod 256)))))).

(** The stack pointer is 0x80001000; register [r] holds [r] ones. *)
Definition sample_regs : Z -> Z := fun r => if r =? sp then 0x80001000 else u32 (Z.ones r).

Lemma sample_regs_ok : regs_ok sample_regs.
Proof. intros r. unfold sample_regs. destruct (r =? sp); [done | apply wrap_range; lia]. Qed.

Lemma sample_memory_ok : bytes_ok sample_memory.
Proof.
  unfold sample_memory. repeat apply placed_at_ok.
  - apply lut_ok.
  - by repeat constructor.
  - unfold check_8bit_0_bytes. constructor; [done | by apply Forall_replicate].
  - by repeat constructor.
  - by repeat constructor.
  - by repeat constructor.
  - intros a. unfold in_range. pose proof (Z.mod_pos_bound a 256). lia.
Qed.

Lemma sample_layout : layout (rget sample_regs sp) sample_symbols sample_memory.
Proof.
  pose proof length_lut as HL. set (T := lut) in *. assert (T = lut) as ET by done. clearbody T.
  assert (length check_8bit_0_bytes = 256%nat) as HC by done.
  change (rget sample_regs sp) with 0x80001000. unfold sample_memory. rewrite <- ET.
  constructor; try (unfold apart; cbn; lia); cbn [sample_symbols _same_result_table _check_8bit_0_table _slt1_table _sltu1_table _or1_table _logic_shift_table].
  1: rewrite <- ET; apply placed_here.
  all: repeat first [apply placed_here | apply placed_other; [| cbn [length same_result_bytes slt1_bytes sltu1_bytes or1_bytes]; rewrite ?HC, ?HL; lia]].
Qed.

(** Arithmetic shift right by register, on the sample machine: the destination is x10. *)
Theorem minirv_instructions_witness :
  exists l f' m', expand sample_symbols (Op OSra 10 31 5) = Some l /\
    run 0x80200000 l (MState sample_regs sample_memory) = (after 0x80200000 l, MState f' m') /\
    rget f' 10 = rv_value sample_regs sample_memory (Op OSra 10 31 5) /\
    (forall r, r <> 10 -> user r -> rget f' r = rget sample_regs r) /\
    (forall a, outside (rget sample_regs sp) a -> m' a = sample_memory a).
Proof.
  apply (minirv_instructions_correct sample_symbols sample_regs sample_memory 0x80200000 (Op OSra 10 31 5)).
  - exact sample_layout.
  - exact sample_memory_ok.
  - exact sample_regs_ok.
  - by unfold operands_ok, user.
Defined.

Theorem minirv_branches_witness :
  exists f' m', run 0x80200000 (branch sample_symbols CLt 10 11 0x80200800 0x80200100) (MState sample_regs sample_memory) =
      (0x80200800, MState f' m') /\
    (forall r, user r -> rget f' r = rget sample_regs r) /\
    (forall a, outside (rget sample_regs sp) a -> a < 0x80000300 \/ 0x80000300 + 256 <= a -> m' a = sample_memory a).
Proof.
  apply (minirv_branches_correct sample_symbols sample_regs sample_memory 0x80200000 CLt 10 11 0x80200800 0x80200100);
    first [exact sample_layout | exact sample_regs_ok | by unfold user | by unfold code_addr, in_range].
Defined.

Theorem minirv_jumps_and_stores_witness :
  (exists f', run 0x80200000 (jal 1 0x80200800) (MState sample_regs sample_memory) = (0x80200800, MState f' sample_memory) /\
    (1 <> x0 -> rget f' 1 = 0x8020000c) /\ (forall r, r <> 1 -> r <> tp -> rget f' r = rget sample_regs r)) /\
  (exists f' m', run 0x80200000 (sh 20 4 2) (MState sample_regs sample_memory) = (after 0x80200000 (sh 20 4 2), MState f' m') /\
      (forall r, r <> tp -> rget f' r = rget sample_regs r) /\
      (forall b, outside (rget sample_regs sp) b ->
         m' b = if b =? 0x80001005 then 0xff else if b =? 0x80001004 then 0xff else sample_memory b)).
Proof.
  destruct (minirv_jumps_and_stores_correct sample_symbols sample_regs sample_memory 0x80200000) as (Hjal & _ & Hsh). split.
  - apply (Hjal 1 0x80200800); [by unfold code_addr, in_range | lia].
  - apply (Hsh 20 4 2 sample_layout sample_regs_ok); [done | done | |]; right; by vm_compute.
Defined.
