(* ===== verification/Int64.v ===== *)
(** 64-bit integer arithmetic on a 32-bit machine
    (abstract-machine/klib/src/int64.c): unsigned and signed division and remainder,
    leading and trailing zero counts.

    The 64-bit unions of the source are split and joined with [hi], [lo] and [dword].
    [__builtin_clz] and [__builtin_ctz] are the compiler's built-in functions. *)

From S2P Require Import Prelude.

Definition hi (x : Z) : Z := x >>> 32.
Definition lo (x : Z) : Z := u32 x.
Definition dword (h l : Z) : Z := (h <<< 32) ||| l.

(** Defined for non-zero arguments only. *)
Definition __builtin_clz (x : Z) : Z := 31 - Z.log2 x.
Definition __builtin_ctz (x : Z) : Z := Z.log2 (x &&& (- x)).

(** ** Division *)

(** The body of the shift-and-subtract loop on (r.high, r.low, q.high, q.low, carry). *)
Definition div_step (d : Z) (st : Z * Z * Z * Z * Z) : Z * Z * Z * Z * Z :=
  let '(rh, rl, qh, ql, carry) := st in
  let rh := u32 (rh <<< 1) ||| (rl >>> 31) in
  let rl := u32 (rl <<< 1) ||| (qh >>> 31) in
  let qh := u32 (qh <<< 1) ||| (ql >>> 31) in
  let ql := u32 (ql <<< 1) ||| carry in
  let r := dword rh rl in
  let s := s64 (u64 (d - r - 1)) >>> 63 in
  let carry := s &&& 1 in
  let r := u64 (r - (d &&& u64 s)) in
  (hi r, lo r, qh, ql, carry).

(** From the initialised r and q to the end: quotient and remainder. *)
Definition div_loop (d sr rh rl qh ql : Z) : Z * Z :=
  let '(rh, rl, qh, ql, carry) := loop (Z.to_nat sr) (div_step d) (rh, rl, qh, ql, 0) in
  (u64 (dword qh ql <<< 1) ||| carry, dword rh rl).

(** Quotient and remainder; a division by zero is undefined. *)
Definition __udivmoddi4 (a b : Z) : res (Z * Z) :=
  let nh := hi a in
  let nl := lo a in
  let dh := hi b in
  let dl := lo b in
  if nh =? 0 then
    if dh =? 0 then
      if dl =? 0 then Fault FUndef else Ok (nl / dl, nl mod dl)
    else Ok (0, nl)
  else if dl =? 0 then
    if dh =? 0 then Fault FUndef
    else if nl =? 0 then Ok (nh / dh, dword (nh mod dh) 0)
    else if (dh &&& u32 (dh - 1)) =? 0 then
      Ok (nh >>> __builtin_ctz dh, dword (nh &&& u32 (dh - 1)) nl)
    else
      let sr := u32 (__builtin_clz dh - __builtin_clz nh) in
      if 32 - 2 <? sr then Ok (0, a)
      else
        let sr := sr + 1 in
        Ok (div_loop b sr (nh >>> sr) (u32 (nh <<< (32 - sr)) ||| (nl >>> sr)) (u32 (nl <<< (32 - sr))) 0)
  else if dh =? 0 then
    if (dl &&& u32 (dl - 1)) =? 0 then
      let rem := nl &&& u32 (dl - 1) in
      if dl =? 1 then Ok (a, rem)
      else
        let sr := __builtin_ctz dl in
        Ok (dword (nh >>> sr) (u32 (nh <<< (32 - sr)) ||| (nl >>> sr)), rem)
    else
      let sr := u32 (1 + 32 + __builtin_clz dl - __builtin_clz nh) in
      if sr =? 32 then Ok (div_loop b sr 0 nh nl 0)
      else if sr <? 32 then
        Ok (div_loop b sr (nh >>> sr) (u32 (nh <<< (32 - sr)) ||| (nl >>> sr)) (u32 (nl <<< (32 - sr))) 0)
      else
        Ok (div_loop b sr 0 (nh >>> (sr - 32))
              (u32 (nh <<< (64 - sr)) ||| (nl >>> (sr - 32))) (u32 (nl <<< (64 - sr))))
  else
    let sr := u32 (__builtin_clz dh - __builtin_clz nh) in
    if 32 - 1 <? sr then Ok (0, a)
    else
      let sr := sr + 1 in
      if sr =? 32 then Ok (div_loop b sr 0 nh nl 0)
      else
        Ok (div_loop b sr (nh >>> sr) (u32 (nh <<< (32 - sr)) ||| (nl >>> sr)) (u32 (nl <<< (32 - sr))) 0).

Definition __udivdi3 (a b : Z) : res Z := fst <$> __udivmoddi4 a b.
Definition __umoddi3 (a b : Z) : res Z := snd <$> __udivmoddi4 a b.

(** [(a ^ s) - s] on signed 64-bit numbers: negates when [s] is -1. C leaves the negation
    of the smallest number undefined; the model wraps, as two's-complement code does. *)
Definition cond_neg (a s : Z) : Z := s64 ((a ^^^ s) - s).

Definition __divdi3 (a b : Z) : res Z :=
  let s_a := a >>> 63 in
  let s_b := b >>> 63 in
  let a := cond_neg a s_a in
  let b := cond_neg b s_b in
  let s_a := s_a ^^^ s_b in
  '(q, _) ← __udivmoddi4 (u64 a) (u64 b);
  Ok (s64 (u64 ((q ^^^ u64 s_a) - u64 s_a))).

Definition __divmoddi4 (a b : Z) : res (Z * Z) :=
  d ← __divdi3 a b;
  Ok (d, s64 (a - s64 (d * b))).

Definition __moddi3 (a b : Z) : res Z :=
  let s := b >>> 63 in
  let b := cond_neg b s in
  let s := a >>> 63 in
  let a := cond_neg a s in
  '(_, r) ← __udivmoddi4 (u64 a) (u64 b);
  Ok (cond_neg (s64 r) s).

(** ** Zero counts *)

(** [t = ((x & mask) == 0) << k] *)
Definition zero_shift (x mask k : Z) : Z := b2z ((x &&& mask) =? 0) <<< k.

Definition __clzsi2 (a : Z) : Z :=
  let x := u32 a in
  let t := zero_shift x 0xFFFF0000 4 in
  let x := x >>> (16 - t) in
  let r := t in
  let t := zero_shift x 0xFF00 3 in
  let x := x >>> (8 - t) in
  let r := r + t in
  let t := zero_shift x 0xF0 2 in
  let x := x >>> (4 - t) in
  let r := r + t in
  let t := zero_shift x 0xC 1 in
  let x := x >>> (2 - t) in
  let r := r + t in
  s32 (u32 (r + (u32 (2 - x) &&& u32 (- b2z ((x &&& 2) =? 0))))).

Definition __ctzsi2 (a : Z) : Z :=
  let x := u32 a in
  let t := zero_shift x 0x0000FFFF 4 in
  let x := x >>> t in
  let r := t in
  let t := zero_shift x 0x00FF 3 in
  let x := x >>> t in
  let r := r + t in
  let t := zero_shift x 0x0F 2 in
  let x := x >>> t in
  let r := r + t in
  let t := zero_shift x 0x3 1 in
  let x := x >>> t in
  let x := x &&& 3 in
  let r := r + t in
  s32 (u32 (r + (u32 (2 - (x >>> 1)) &&& u32 (- b2z ((x &&& 1) =? 0))))).

(** The signed halves of a [dwords] union are taken as words; the casts to [si_int] do not
    change the selected bits. *)
Definition __ctzdi2 (a : Z) : Z :=
  let low := lo (u64 a) in
  let high := hi (u64 a) in
  let f := - b2z (low =? 0) in
  __ctzsi2 ((high &&& f) ||| (low &&& Z.lnot f)) + (f &&& 32).

Definition __clzdi2 (a : Z) : Z :=
  let low := lo (u64 a) in
  let high := hi (u64 a) in
  let f := - b2z (high =? 0) in
  __clzsi2 ((high &&& Z.lnot f) ||| (low &&& f)) + (f &&& 32).

Example divisions :
  __udivmoddi4 0xfedcba9876543210 0x123456789 = Ok (0xfedcba9876543210 / 0x123456789, 0xfedcba9876543210 mod 0x123456789) /\
  __udivmoddi4 0xfedcba9876543210 0x8234567812345678 = Ok (1, 0x7ca86420641fdb98) /\
  __udivmoddi4 0xfedcba9876543210 0x300000000 = Ok (0xfedcba9876543210 / 0x300000000, 0xfedcba9876543210 mod 0x300000000) /\
  __divdi3 (-7000000000000) 3000 = Ok (-2333333333) /\ __moddi3 (-7000000000000) 3000 = Ok (-1000) /\
  __clzdi2 1 = 63 /\ __ctzdi2 (-8) = 3 /\ __clzsi2 0x00800000 = 8 /\ __ctzdi2 (1 <<< 40) = 40.
Proof. vm_compute. intuition reflexivity. Qed.

(** ** Words and double words *)

Lemma dword_hi_lo x : dword (hi x) (lo x) = x.
Proof.
  unfold dword, hi, lo. zbits. destruct (Z.ltb_spec i 32); cbn [andb].
  - by rewrite (Z.testbit_neg_r _ (i - 32)) by lia.
  - rewrite Z.shiftr_spec, orb_false_r, Z.sub_add by lia. done.
Qed.

Lemma dword_add h l : in_range 32 l -> dword h l = h * 2 ^ 32 + l.
Proof. apply lor_add. lia. Qed.

Lemma hi_lo x : x = hi x * 2 ^ 32 + lo x.
Proof. rewrite <- dword_add by (apply wrap_range; lia). by rewrite dword_hi_lo. Qed.

Lemma hi_range x : in_range 64 x -> in_range 32 (hi x).
Proof.
  unfold in_range, hi. intros Hx. rewrite Z.shiftr_div_pow2 by lia. split; [apply Z.div_pos; lia |].
  apply Z.div_lt_upper_bound; lia.
Qed.

(** The shifted dividend, by words. *)
Lemma shift_right_words a sr :
  in_range 64 a -> 0 < sr < 32 ->
  hi (a >>> sr) = hi a >>> sr /\ lo (a >>> sr) = u32 (hi a <<< (32 - sr)) ||| (lo a >>> sr).
Proof.
  intros Ha Hsr. unfold hi, lo. split.
  - by rewrite !Z.shiftr_shiftr, Z.add_comm by lia.
  - zbits. destruct (Z.ltb_spec i 32), (Z.ltb_spec (i + sr) 32); cbn [andb orb]; try lia.
    + by rewrite (Z.testbit_neg_r _ (i - (32 - sr))) by lia.
    + rewrite orb_false_r, Z.shiftr_spec by lia. f_equal. lia.
Qed.

Lemma shift_left_words a sr :
  0 < sr < 32 ->
  hi (u64 (a <<< (64 - sr))) = u32 (lo a <<< (32 - sr)) /\ lo (u64 (a <<< (64 - sr))) = 0.
Proof.
  intros Hsr. unfold hi, lo. split.
  - zbits. destruct (Z.ltb_spec (i + 32) 64), (Z.ltb_spec i 32), (Z.ltb_spec (i - (32 - sr)) 32);
      cbn [andb]; try lia; try done. f_equal. lia.
  - zbits. rewrite Z.bits_0. destruct (Z.ltb_spec i 32); cbn [andb]; [| done].
    rewrite (Z.testbit_neg_r a) by lia. by rewrite andb_false_r.
Qed.

Lemma shift_words_32 a :
  in_range 64 a -> hi (a >>> 32) = 0 /\ lo (a >>> 32) = hi a /\
  hi (u64 (a <<< 32)) = lo a /\ lo (u64 (a <<< 32)) = 0.
Proof.
  intros Ha. pose proof (hi_range a Ha) as Hh. unfold hi, lo in *. split_and!.
  - rewrite Z.shiftr_shiftr by lia. rewrite Z.shiftr_div_pow2 by lia. apply Z.div_small. exact Ha.
  - by apply wrap_small.
  - zbits. rewrite Z.add_simpl_r. destruct (Z.ltb_spec (i + 32) 64), (Z.ltb_spec i 32); lia || done.
  - zbits. rewrite Z.bits_0. destruct (Z.ltb_spec i 32); cbn [andb]; [| done].
    by rewrite (Z.testbit_neg_r a), andb_false_r by lia.
Qed.

Lemma shift_words_high a sr :
  in_range 64 a -> 32 < sr < 64 ->
  hi (a >>> sr) = 0 /\ lo (a >>> sr) = hi a >>> (sr - 32) /\
  hi (u64 (a <<< (64 - sr))) = u32 (hi a <<< (64 - sr)) ||| (lo a >>> (sr - 32)) /\
  lo (u64 (a <<< (64 - sr))) = u32 (lo a <<< (64 - sr)).
Proof.
  intros Ha Hsr. unfold hi, lo. split_and!.
  - rewrite Z.shiftr_shiftr by lia. zbits. rewrite Z.bits_0. apply (testbit_high 64); [done | lia].
  - rewrite Z.shiftr_shiftr by lia. replace (32 + (sr - 32)) with sr by lia.
    apply wrap_small. unfold in_range in *. rewrite Z.shiftr_div_pow2 by lia.
    assert (2 ^ 64 <= 2 ^ 32 * 2 ^ sr) by (rewrite <- Z.pow_add_r by lia; apply Z.pow_le_mono_r; lia).
    split; [apply Z.div_pos; lia | apply Z.div_lt_upper_bound; lia].
  - zbits. destruct (Z.ltb_spec (i + 32) 64), (Z.ltb_spec i 32); cbn [andb orb]; try lia.
    + destruct (Z.ltb_spec (i + (sr - 32)) 32); cbn [andb].
      * rewrite (Z.testbit_neg_r (a >>> 32)) by lia. cbn [orb]. f_equal. lia.
      * rewrite orb_false_r, Z.shiftr_spec by lia. f_equal. lia.
  - zbits. destruct (Z.ltb_spec i 32), (Z.ltb_spec i 64), (Z.ltb_spec (i - (64 - sr)) 32);
      cbn [andb]; try lia; done.
Qed.

(** ** The loop *)

(** The loop body on double words. *)
Definition div_step64 (d : Z) (st : Z * Z * Z) : Z * Z * Z :=
  let '(r, q, carry) := st in
  let r := u64 (r <<< 1) ||| (q >>> 63) in
  let q := u64 (q <<< 1) ||| carry in
  let s := s64 (u64 (d - r - 1)) >>> 63 in
  (u64 (r - (d &&& u64 s)), q, s &&& 1).

Definition split_words (st : Z * Z * Z) : Z * Z * Z * Z * Z :=
  let '(r, q, carry) := st in (hi r, lo r, hi q, lo q, carry).

Lemma div_step_words d r q carry :
  in_range 64 r -> in_range 64 q -> in_range 1 carry ->
  div_step d (split_words (r, q, carry)) = split_words (div_step64 d (r, q, carry)).
Proof.
  intros Hr Hq Hc. cbn [split_words div_step div_step64].
  assert (forall x, in_range 64 x -> u32 (hi x <<< 1) ||| (lo x >>> 31) = hi (u64 (x <<< 1))) as Hh.
  { intros x Hx. unfold hi, lo. zbits.
    destruct (Z.ltb_spec i 32), (Z.ltb_spec (i + 31) 32), (Z.ltb_spec (i + 32) 64); cbn [andb orb]; try lia.
    - rewrite (Z.testbit_neg_r _ (i - 1)) by lia. cbn [orb]. f_equal. lia.
    - rewrite orb_false_r, Z.shiftr_spec by lia. f_equal. lia. }
  assert (forall x b, in_range 1 b -> hi (x ||| b) = hi x) as Hhb.
  { intros x b Hb. unfold hi. rewrite Z.shiftr_lor. replace (b >>> 32) with 0; [apply Z.lor_0_r |].
    symmetry. apply Z.shiftr_eq_0; [unfold in_range in Hb; lia |].
    unfold in_range in Hb. assert (b = 0 \/ b = 1) as [-> | ->] by lia; cbn; lia. }
  assert (in_range 1 (q >>> 63)) as Hq63.
  { unfold in_range in *. rewrite Z.shiftr_div_pow2 by lia.
    split; [apply Z.div_pos; lia | apply Z.div_lt_upper_bound; lia]. }
  assert (u32 (lo r <<< 1) ||| (hi q >>> 31) = lo (u64 (r <<< 1) ||| (q >>> 63))) as Hl.
  { unfold hi, lo. rewrite Z.shiftr_shiftr by lia. zbits. change (32 + 31) with 63.
    destruct (Z.ltb_spec i 32), (Z.ltb_spec (i - 1) 32), (Z.ltb_spec i 64); cbn [andb orb]; try lia; try done.
    all: apply (testbit_high 64); [done | lia]. }
  assert (u32 (lo q <<< 1) ||| carry = lo (u64 (q <<< 1) ||| carry)) as Hlq.
  { unfold lo. zbits. destruct (Z.ltb_spec i 32), (Z.ltb_spec (i - 1) 32), (Z.ltb_spec i 64);
      cbn [andb orb]; try lia; try done. all: apply (testbit_high 1); [done | lia]. }
  rewrite (Hh r Hr), <- (Hhb (u64 (r <<< 1)) _ Hq63), Hl, dword_hi_lo.
  rewrite (Hh q Hq), <- (Hhb (u64 (q <<< 1)) _ Hc), Hlq. done.
Qed.

(** One more bit of the quotient: [Q] is the quotient so far, [n] the dividend, [k] the
    number of steps left. *)
Record div_inv (n d K k r q carry Q : Z) : Prop := {
  di_rem : r + d * Q = n / 2 ^ k;
  di_q : q = (n mod 2 ^ k) * 2 ^ (64 - k) + Q / 2;
  di_carry : carry = Q mod 2;
  di_Q : 0 <= Q < 2 ^ (K - k);
  di_r : 0 <= r < d }.

Lemma borrow_mask d r :
  0 < d < 2 ^ 64 -> 0 <= r < 2 ^ 64 -> - 2 ^ 63 <= d - r - 1 < 2 ^ 63 ->
  s64 (u64 (d - r - 1)) >>> 63 = if d <=? r then -1 else 0.
Proof.
  intros Hd Hr Hdiff. rewrite sext_wrap, sext_small by (unfold in_srange; cbn in *; lia).
  rewrite Z.shiftr_div_pow2 by lia. destruct (Z.leb_spec d r).
  - assert (d - r - 1 = (-1) * 2 ^ 63 + (d - r - 1 + 2 ^ 63)) as -> by lia.
    rewrite Z.div_add_l, Z.div_small by lia. done.
  - apply Z.div_small. lia.
Qed.

Lemma lor_bit x b : in_range 1 b -> u64 (x <<< 1) ||| b = u64 (2 * x) + b.
Proof.
  intros Hb. rewrite Z.shiftl_mul_pow2, Z.mul_comm by lia. change (2 ^ 1) with 2.
  assert (u64 (2 * x) = wrap 63 x <<< 1) as ->.
  { rewrite Z.shiftl_mul_pow2 by lia. unfold wrap. change (2 ^ 64) with (2 * 2 ^ 63).
    rewrite Z.mul_mod_distr_l by lia. lia. }
  rewrite lor_add by (done || lia). rewrite Z.shiftl_mul_pow2 by lia. done.
Qed.

Section divide.
Context (n d K : Z) (Hn : in_range 64 n) (Hd : 0 < d < 2 ^ 64) (HK : 0 <= K <= 63).

(** The comparison by the sign of a 64-bit difference is exact: either the divisor has at
    most 63 bits, or there is one step only and the dividend has 64 bits too. *)
Context (Hfit : d <= 2 ^ 63 \/ (K = 1 /\ 2 ^ 63 <= n)).

Lemma div_inv_q k r q carry Q :
  1 <= k <= K -> div_inv n d K k r q carry Q ->
  in_range 64 q /\ q >>> 63 = (n / 2 ^ (k - 1)) mod 2 /\
  u64 (2 * q) + carry = (n mod 2 ^ (k - 1)) * 2 ^ (64 - (k - 1)) + Q.
Proof.
  intros Hk [Hrem Hq Hcarry HQ Hr]. unfold in_range in *.
  assert (2 ^ k = 2 * 2 ^ (k - 1)) as Ek by (rewrite <- Z.pow_succ_r by lia; f_equal; lia).
  assert (2 ^ (64 - (k - 1)) = 2 * 2 ^ (64 - k)) as Es by (rewrite <- Z.pow_succ_r by lia; f_equal; lia).
  assert (2 ^ (k - 1) * 2 ^ (64 - k) = 2 ^ 63) as Eab by (rewrite <- Z.pow_add_r by lia; f_equal; lia).
  assert (2 * 2 ^ (K - k) <= 2 ^ (64 - k)) as Hc
    by (rewrite <- Z.pow_succ_r by lia; apply Z.pow_le_mono_r; lia).
  pose proof (Z.pow_pos_nonneg 2 (k - 1)) as HA. pose proof (Z.pow_pos_nonneg 2 (64 - k)) as HB.
  rewrite Hq, Ek, Es, Hcarry. set (A := 2 ^ (k - 1)) in *. set (B := 2 ^ (64 - k)) in *.
  set (C := 2 ^ (K - k)) in *. clear Hq Hcarry.
  assert (n mod (2 * A) = A * ((n / A) mod 2) + n mod A) as Em.
  { rewrite (Z.mul_comm 2 A), Z.rem_mul_r by lia. lia. }
  pose proof (Z.mod_pos_bound (n / A) 2 ltac:(lia)) as Hbit. pose proof (Z.mod_pos_bound n A ltac:(lia)) as Hm.
  pose proof (Z.div_mod Q 2 ltac:(lia)) as EQ. pose proof (Z.mod_pos_bound Q 2 ltac:(lia)) as HQ2.
  rewrite Em. set (b := (n / A) mod 2) in *. set (m := n mod A) in *.
  assert ((A * b + m) * B + Q / 2 = b * 2 ^ 63 + (m * B + Q / 2)) as Ex by nia. rewrite Ex.
  assert (0 <= m * B + Q / 2 < 2 ^ 63) as Hx by nia.
  split_and!.
  - nia.
  - nia.
  - rewrite Z.shiftr_div_pow2 by lia. rewrite Z.div_add_l, (Z.div_small (m * B + _)) by lia. lia.
  - replace (2 * (b * 2 ^ 63 + (m * B + Q / 2))) with (2 * (m * B + Q / 2) + b * 2 ^ 64) by lia.
    unfold wrap. rewrite Z.mod_add, Z.mod_small by lia. lia.
Qed.

Lemma div_step_inv k r q carry Q :
  1 <= k <= K -> div_inv n d K k r q carry Q ->
  exists r' q' carry' Q', div_step64 d (r, q, carry) = (r', q', carry') /\
    div_inv n d K (k - 1) r' q' carry' Q'.
Proof.
  intros Hk Hinv. destruct (div_inv_q k r q carry Q Hk Hinv) as (Hq & Hbit & Hq'). destruct Hinv as [Hrem _ Hcarry HQ Hr].
  unfold in_range in *.
  assert (in_range 1 carry) as Hc1 by (rewrite Hcarry; apply (Z.mod_pos_bound Q 2); lia).
  assert (in_range 1 (q >>> 63)) as Hb1 by (rewrite Hbit; apply (Z.mod_pos_bound _ 2); lia).
  cbn [div_step64]. rewrite !lor_bit, Hq' by done. rewrite Hbit in *.
  assert (2 ^ k = 2 ^ (k - 1) * 2) as Ek by (rewrite Z.mul_comm, <- Z.pow_succ_r by lia; f_equal; lia).
  assert (n / 2 ^ k = n / 2 ^ (k - 1) / 2) as En.
  { rewrite Ek, Z.div_div by (try apply Z.pow_nonzero; lia). done. }
  pose proof (Z.pow_pos_nonneg 2 (k - 1)) as HA.
  assert (0 <= n / 2 ^ (k - 1) <= n) as Hnk.
  { split; [apply Z.div_pos; lia | apply Z.div_le_upper_bound; nia]. }
  pose proof (Z.div_mod (n / 2 ^ (k - 1)) 2 ltac:(lia)) as Ed. pose proof (Z.mod_pos_bound (n / 2 ^ (k - 1)) 2 ltac:(lia)) as Hb.
  rewrite <- En, <- Hrem in Ed. set (N := n / 2 ^ (k - 1)) in *. set (b := N mod 2) in *.
  assert (0 <= 2 * r + b < 2 ^ 64) as Hr1 by nia.
  rewrite (wrap_small 64 (2 * r)) by (unfold in_range; lia).
  assert (- 2 ^ 63 <= d - (2 * r + b) - 1 < 2 ^ 63) as Hdiff.
  { destruct Hfit as [Hf | [HK1 Hn63]]; [lia |].
    assert (k = 1) by lia. assert (N = n) as HN by (unfold N; replace (k - 1) with 0 by lia; apply Z.div_1_r).
    assert (Q = 0) by (replace (K - k) with 0 in HQ by lia; lia). subst Q. lia. }
  rewrite borrow_mask by lia.
  eexists _, _, _, (2 * Q + b2z (d <=? 2 * r + b)). split; [done |].
  assert (2 ^ (K - (k - 1)) = 2 * 2 ^ (K - k)) as EK by (rewrite <- Z.pow_succ_r by lia; f_equal; lia).
  destruct (Z.leb_spec d (2 * r + b)) as [Hle | Hlt]; unfold b2z; cbn [Z.b2z].
  - change (u64 (-1)) with (Z.ones 64). rewrite Z.land_ones, (Z.mod_small d) by lia.
    rewrite wrap_small by (unfold in_range; lia). split.
    + fold N. lia.
    + by rewrite <- (Z.div_unique (2 * Q + 1) 2 Q 1) by lia.
    + by rewrite <- (Z.mod_unique (2 * Q + 1) 2 Q 1) by lia.
    + lia.
    + nia.
  - change (u64 0) with 0. rewrite Z.land_0_r, Z.sub_0_r, wrap_small by (unfold in_range; lia). split.
    + fold N. lia.
    + by rewrite <- (Z.div_unique (2 * Q + 0) 2 Q 0) by lia.
    + by rewrite <- (Z.mod_unique (2 * Q + 0) 2 Q 0) by lia.
    + lia.
    + lia.
Qed.

Lemma div_loop_inv j k r q carry Q :
  Z.of_nat j <= k <= K -> div_inv n d K k r q carry Q ->
  exists r' q' carry' Q', loop j (div_step d) (split_words (r, q, carry)) = split_words (r', q', carry') /\
    div_inv n d K (k - Z.of_nat j) r' q' carry' Q'.
Proof.
  revert k r q carry Q. induction j as [|j IH]; intros k r q carry Q Hk Hinv.
  { exists r, q, carry, Q. by rewrite Z.sub_0_r. }
  destruct (div_inv_q k r q carry Q ltac:(lia) Hinv) as (Hq & _).
  cbn [loop]. rewrite div_step_words; [| | done |].
  - destruct (div_step_inv k r q carry Q ltac:(lia) Hinv) as (r1 & q1 & c1 & Q1 & -> & Hinv1).
    destruct (IH (k - 1) r1 q1 c1 Q1 ltac:(lia) Hinv1) as (r' & q' & c' & Q' & -> & Hinv').
    exists r', q', c', Q'. split; [done |]. by replace (k - Z.of_nat (S j)) with (k - 1 - Z.of_nat j) by lia.
  - destruct Hinv as [_ _ _ _ Hr]. unfold in_range. lia.
  - destruct Hinv as [_ _ -> _ _]. apply (Z.mod_pos_bound Q 2). lia.
Qed.
End divide.

Lemma div_loop_correct n d sr rh rl qh ql :
  in_range 64 n -> 0 < d < 2 ^ 64 -> sr = 1 + Z.log2 n - Z.log2 d -> 1 <= sr <= 63 -> 0 < n ->
  hi (n >>> sr) = rh -> lo (n >>> sr) = rl ->
  hi (u64 (n <<< (64 - sr))) = qh -> lo (u64 (n <<< (64 - sr))) = ql ->
  div_loop d sr rh rl qh ql = (n / d, n mod d).
Proof.
  intros Hn Hd Esr Hsr Hn0 <- <- <- <-. unfold div_loop.
  pose proof (Z.log2_spec n Hn0) as Ln. pose proof (Z.log2_spec d ltac:(lia)) as Ld.
  pose proof (Z.log2_nonneg d) as Hl0.
  assert (Z.log2 n < 64) as Hl64 by (apply Z.log2_lt_pow2; unfold in_range in Hn; lia).
  assert (d <= 2 ^ 63 \/ (sr = 1 /\ 2 ^ 63 <= n)) as Hfit.
  { destruct (decide (d <= 2 ^ 63)) as [| Hbig]; [by left | right].
    assert (63 <= Z.log2 d) by (apply Z.log2_le_pow2; unfold in_range in *; lia). split; [lia |].
    assert (Z.log2 n = 63) as En by lia. rewrite En in Ln. lia. }
  destruct (div_loop_inv n d sr Hn Hd ltac:(lia) Hfit (Z.to_nat sr) sr (n >>> sr) (u64 (n <<< (64 - sr))) 0 0)
    as (r & q & c & Q & E & Hinv); [lia | |].
  - split.
    + rewrite Z.mul_0_r, Z.add_0_r. by rewrite Z.shiftr_div_pow2 by lia.
    + rewrite Z.shiftl_mul_pow2 by lia. unfold wrap.
      replace (2 ^ 64) with (2 ^ sr * 2 ^ (64 - sr)) by (rewrite <- Z.pow_add_r by lia; f_equal; lia).
      rewrite Z.mul_mod_distr_r by (apply Z.pow_nonzero; lia). change (0 / 2) with 0. lia.
    + done.
    + rewrite Z.sub_diag. lia.
    + pose proof (Z.pow_pos_nonneg 2 sr). rewrite Z.shiftr_div_pow2 by lia. split; [apply Z.div_pos; lia |].
      apply Z.lt_le_trans with (2 ^ Z.log2 d); [| lia]. apply Z.div_lt_upper_bound; [lia |].
      rewrite <- Z.pow_add_r by lia. replace (sr + Z.log2 d) with (Z.succ (Z.log2 n)) by lia. lia.
  - cbn [split_words] in E. rewrite E. rewrite !dword_hi_lo.
    rewrite Z2Nat.id, Z.sub_diag in Hinv by lia. destruct Hinv as [Hrem Hq Hc HQ Hr].
    rewrite Z.sub_0_r in HQ. change (2 ^ 0) with 1 in *. rewrite Z.div_1_r in Hrem. rewrite Z.mod_1_r in Hq.
    assert (2 ^ sr <= 2 ^ 63) by (apply Z.pow_le_mono_r; lia).
    pose proof (Z.div_mod Q 2 ltac:(lia)) as EQ. pose proof (Z.mod_pos_bound Q 2 ltac:(lia)) as HQ2.
    rewrite lor_bit by (rewrite Hc; exact HQ2).
    rewrite (wrap_small 64 (2 * q)) by (unfold in_range; lia).
    replace (2 * q + c) with Q by lia. f_equal; [apply (Z.div_unique n d Q r) | apply (Z.mod_unique n d Q r)]; lia.
Qed.

(** ** Special cases *)

Lemma pow2_test d : 0 < d -> d &&& (d - 1) = 0 -> d = 2 ^ Z.log2 d.
Proof.
  intros Hd H0. pose proof (Z.log2_spec d Hd) as Hl. pose proof (Z.log2_nonneg d).
  destruct (decide (d = 2 ^ Z.log2 d)) as [| Hne]; [done | exfalso].
  assert (Z.testbit (d &&& (d - 1)) (Z.log2 d) = true) as Ht; [| by rewrite H0, Z.bits_0 in Ht].
  rewrite Z.land_spec, Z.bit_log2 by lia. cbn [andb].
  assert (Z.log2 (d - 1) = Z.log2 d) as <- by (apply Z.log2_unique; lia).
  apply Z.bit_log2. pose proof (Z.pow_pos_nonneg 2 (Z.log2 d)). lia.
Qed.

Lemma ctz_pow2 k : 0 <= k -> __builtin_ctz (2 ^ k) = k.
Proof.
  intros Hk. unfold __builtin_ctz.
  assert (2 ^ k &&& - 2 ^ k = 2 ^ k) as ->; [| by apply Z.log2_pow2].
  replace (- 2 ^ k) with (Z.lnot (Z.ones k)) by (unfold Z.lnot; rewrite Z.ones_equiv; lia).
  apply Z.bits_inj'. intros i Hi. rewrite Z.land_spec, Z.lnot_spec, Z.testbit_ones_nonneg by lia.
  rewrite Z.pow2_bits_eqb by lia. destruct (Z.eqb_spec k i), (Z.ltb_spec i k); cbn; lia || done.
Qed.

Lemma log2_hi x : in_range 64 x -> hi x <> 0 -> Z.log2 x = 32 + Z.log2 (hi x).
Proof.
  intros Hx Hh. pose proof (hi_range x Hx). pose proof (hi_lo x) as Ex.
  pose proof (wrap_range 32 x ltac:(lia)) as Hw. unfold in_range, lo in *.
  assert (Z.log2 (hi x) = Z.max 0 (Z.log2 x - 32)) as E by (unfold hi; apply Z.log2_shiftr; lia).
  assert (32 <= Z.log2 x); [| lia]. apply Z.log2_le_pow2; lia.
Qed.

Lemma log2_32 x : 0 < x < 2 ^ 32 -> 0 <= Z.log2 x < 32.
Proof. intros Hx. split; [apply Z.log2_nonneg | apply Z.log2_lt_pow2; lia]. Qed.

(** The value of a mask of low bits. *)
Lemma land_pow2_pred x k : 0 <= k -> x &&& (2 ^ k - 1) = x mod 2 ^ k.
Proof. intros Hk. rewrite <- Z.land_ones by lia. f_equal. rewrite Z.ones_equiv. lia. Qed.

Section udivmod.
Context (a b : Z) (Ha : in_range 64 a) (Hb : in_range 64 b) (Hb0 : b <> 0) (Nha : hi a <> 0).

Lemma shorter_dividend : hi b <> 0 -> Z.log2 (hi a) < Z.log2 (hi b) -> Ok (0, a) = Ok (a / b, a mod b).
Proof.
  intros Nhb Hlt. assert (a < b) as Hab.
  { apply Z.log2_lt_cancel. rewrite (log2_hi a), (log2_hi b) by done. lia. }
  unfold in_range in *. by rewrite Z.div_small, Z.mod_small by lia.
Qed.

Lemma loop_below_32 sr :
  sr = 1 + Z.log2 a - Z.log2 b -> 1 <= sr < 32 ->
  Ok (div_loop b sr (hi a >>> sr) (u32 (hi a <<< (32 - sr)) ||| (lo a >>> sr)) (u32 (lo a <<< (32 - sr))) 0) =
  Ok (a / b, a mod b).
Proof.
  intros Esr Hsr. destruct (shift_right_words a sr Ha) as [E1 E2]; [lia |].
  destruct (shift_left_words a sr) as [E3 E4]; [lia |]. f_equal.
  apply div_loop_correct; try done; try lia; [unfold in_range in Hb; lia |].
  unfold in_range in Ha. destruct (decide (a = 0)) as [-> |]; [done | lia].
Qed.

Lemma loop_at_32 :
  32 = 1 + Z.log2 a - Z.log2 b -> Ok (div_loop b 32 0 (hi a) (lo a) 0) = Ok (a / b, a mod b).
Proof.
  intros Esr. destruct (shift_words_32 a Ha) as (E1 & E2 & E3 & E4). f_equal.
  apply div_loop_correct; try done; try lia; [unfold in_range in Hb; lia |].
  unfold in_range in Ha. destruct (decide (a = 0)) as [-> |]; [done | lia].
Qed.

Lemma loop_above_32 sr :
  sr = 1 + Z.log2 a - Z.log2 b -> 32 < sr < 64 ->
  Ok (div_loop b sr 0 (hi a >>> (sr - 32)) (u32 (hi a <<< (64 - sr)) ||| (lo a >>> (sr - 32)))
        (u32 (lo a <<< (64 - sr)))) = Ok (a / b, a mod b).
Proof.
  intros Esr Hsr. destruct (shift_words_high a sr Ha) as (E1 & E2 & E3 & E4); [lia |]. f_equal.
  apply div_loop_correct; try done; try lia; [unfold in_range in Hb; lia |].
  unfold in_range in Ha. destruct (decide (a = 0)) as [-> |]; [done | lia].
Qed.

(** The divisor is a power of two times 2^32. *)
Lemma high_pow2 :
  lo b = 0 -> hi b &&& (hi b - 1) = 0 ->
  Ok (hi a >>> __builtin_ctz (hi b), dword (hi a &&& (hi b - 1)) (lo a)) = Ok (a / b, a mod b).
Proof.
  intros Elb H0. pose proof (hi_range a Ha) as Hha. pose proof (hi_range b Hb) as Hhb.
  pose proof (wrap_range 32 a ltac:(lia) : in_range 32 (lo a)) as Hla.
  pose proof (hi_lo b) as Eb. unfold in_range in Hha, Hhb.
  pose proof (pow2_test (hi b) ltac:(lia) H0) as Ek. pose proof (Z.log2_nonneg (hi b)) as Hk.
  rewrite Ek at 1 2. rewrite ctz_pow2, land_pow2_pred, dword_add, Z.shiftr_div_pow2, <- Ek by (done || lia).
  assert (hi a = a / 2 ^ 32) as Eha by (unfold hi; apply Z.shiftr_div_pow2; lia).
  assert (b = 2 ^ 32 * hi b) as -> by lia.
  assert (hi (2 ^ 32 * hi b) = hi b) as -> by (unfold hi; rewrite Z.mul_comm, Z.shiftr_div_pow2, Z.div_mul by lia; done).
  rewrite <- Z.div_div, Z.rem_mul_r, Eha by lia. unfold lo, wrap. do 2 f_equal. lia.
Qed.

(** The divisor is a word and a power of two. *)
Lemma low_pow2 :
  hi b = 0 -> lo b &&& (lo b - 1) = 0 -> lo b <> 1 ->
  Ok (dword (hi a >>> __builtin_ctz (lo b)) (u32 (hi a <<< (32 - __builtin_ctz (lo b))) ||| (lo a >>> __builtin_ctz (lo b))),
      lo a &&& (lo b - 1)) = Ok (a / b, a mod b).
Proof.
  intros Ehb H0 H1. pose proof (wrap_range 32 b ltac:(lia) : in_range 32 (lo b)) as Hlb.
  pose proof (hi_lo b) as Eb. assert (lo b = b) as Elb by lia. rewrite Elb in *. unfold in_range in Hlb.
  pose proof (pow2_test b ltac:(lia) H0) as Ek. pose proof (log2_32 b ltac:(lia)) as Hk.
  assert (0 < Z.log2 b) as Hk0 by (apply Z.log2_pos; lia).
  rewrite Ek at 1 2 3. rewrite ctz_pow2 by lia.
  destruct (shift_right_words a (Z.log2 b) Ha) as [<- <-]; [lia |]. rewrite dword_hi_lo.
  rewrite Z.shiftr_div_pow2, <- Ek by lia. do 2 f_equal. rewrite Ek, land_pow2_pred by lia.
  apply (wrap_wrap_le (Z.log2 b) 32 a). lia.
Qed.
End udivmod.

Lemma udivmod_exact a b :
  in_range 64 a -> in_range 64 b -> b <> 0 -> __udivmoddi4 a b = Ok (a / b, a mod b).
Proof.
  intros Ha Hb Hb0. pose proof (hi_range a Ha) as Hha. pose proof (hi_range b Hb) as Hhb.
  pose proof (wrap_range 32 a ltac:(lia) : in_range 32 (lo a)) as Hla.
  pose proof (wrap_range 32 b ltac:(lia) : in_range 32 (lo b)) as Hlb.
  pose proof (hi_lo a) as Ea. pose proof (hi_lo b) as Eb. unfold in_range in Hha, Hhb, Hla, Hlb.
  unfold __udivmoddi4, __builtin_clz.
  destruct (Z.eqb_spec (hi a) 0) as [Eha | Nha].
  { destruct (Z.eqb_spec (hi b) 0) as [Ehb | Nhb].
    - destruct (Z.eqb_spec (lo b) 0); [lia |].
      assert (lo a = a) as -> by lia. by assert (lo b = b) as -> by lia.
    - rewrite Z.div_small, Z.mod_small by lia. by assert (lo a = a) as -> by lia. }
  pose proof (log2_hi a Ha Nha) as La. pose proof (log2_32 (hi a) ltac:(lia)) as Lha.
  destruct (Z.eqb_spec (hi b) 0) as [Ehb | Nhb].
  - destruct (Z.eqb_spec (lo b) 0) as [| Nlb]; [lia |].
    rewrite (wrap_small 32 (lo b - 1)) by (unfold in_range; lia).
    destruct (Z.eqb_spec (lo b &&& (lo b - 1)) 0) as [Ep | Np].
    + destruct (Z.eqb_spec (lo b) 1) as [E1 | N1]; [| by apply low_pow2].
      rewrite E1. change (1 - 1) with 0. rewrite Z.land_0_r. assert (b = 1) as -> by lia.
      by rewrite Z.div_1_r, Z.mod_1_r.
    + assert (lo b = b) as Elb by lia. rewrite Elb in *.
      pose proof (log2_32 b ltac:(lia)) as Lb.
      assert (0 < Z.log2 b) by (apply Z.log2_pos; destruct (decide (b = 1)) as [-> |]; [done | lia]).
      set (sr := 1 + 32 + (31 - Z.log2 b) - (31 - Z.log2 (hi a))).
      rewrite (wrap_small 32 sr) by (unfold in_range, sr; lia).
      assert (sr = 1 + Z.log2 a - Z.log2 b) as Esr by (unfold sr; lia).
      destruct (Z.eqb_spec sr 32) as [E32 | N32]; [rewrite E32; apply loop_at_32; (done || lia) |].
      destruct (Z.ltb_spec sr 32); [apply loop_below_32 | apply loop_above_32]; try done; unfold sr in *; lia.
  - pose proof (log2_hi b Hb Nhb) as Lb. pose proof (log2_32 (hi b) ltac:(lia)) as Lhb.
    set (e := 31 - Z.log2 (hi b) - (31 - Z.log2 (hi a))).
    assert (e < 0 -> 31 < u32 e) as Hneg.
    { intros He. unfold wrap. rewrite <- (Z.mod_add e 1), Z.mod_small by (unfold e in *; lia). unfold e in *. lia. }
    assert (0 <= e -> u32 e = e) as Hpos by (intros; apply wrap_small; unfold in_range, e in *; lia).
    assert (e < 0 -> Ok (0, a) = Ok (a / b, a mod b)) as Hshort.
    { intros He. apply shorter_dividend; try done. unfold e in He. lia. }
    destruct (Z.eqb_spec (lo b) 0) as [Elb | Nlb].
    + destruct (Z.eqb_spec (lo a) 0) as [Ela | Nla].
      { rewrite dword_add by done. assert (a = hi a * 2 ^ 32) as Ea' by lia. assert (b = hi b * 2 ^ 32) as Eb' by lia.
        rewrite Ea' at 3 4. rewrite Eb' at 3 4. rewrite Z.div_mul_cancel_r, Z.mul_mod_distr_r by lia.
        by rewrite Z.add_0_r. }
      rewrite (wrap_small 32 (hi b - 1)) by (unfold in_range; lia).
      destruct (Z.eqb_spec (hi b &&& (hi b - 1)) 0) as [Ep | Np]; [by apply high_pow2 |].
      assert (0 < Z.log2 (hi b)) by (apply Z.log2_pos; destruct (decide (hi b = 1)) as [E |]; [by rewrite E in Np | lia]).
      destruct (Z.ltb_spec (32 - 2) (u32 e)) as [Hlt | Hge].
      * apply Hshort. destruct (decide (e < 0)); [done |]. rewrite Hpos in Hlt by lia. unfold e in *. lia.
      * assert (0 <= e) as He by (destruct (decide (e < 0)); lia). rewrite Hpos in * by done.
        apply loop_below_32; try done; unfold e in *; lia.
    + destruct (Z.ltb_spec (32 - 1) (u32 e)) as [Hlt | Hge].
      * apply Hshort. destruct (decide (e < 0)); [done |]. rewrite Hpos in Hlt by lia. unfold e in *. lia.
      * assert (0 <= e) as He by (destruct (decide (e < 0)); lia). rewrite Hpos in * by done.
        destruct (Z.eqb_spec (e + 1) 32) as [E32 | N32].
        -- rewrite E32. apply loop_at_32; try done. unfold e in *. lia.
        -- apply loop_below_32; try done; unfold e in *; lia.
Qed.

(** C23. 64-bit unsigned division is exact: for every dividend and every non-zero divisor
    the routine terminates with the quotient and the remainder - in the cases it
    treats separately (single words, a divisor that is a power of two, a divisor with an
    empty low word, a divisor longer than the dividend) and in the shift-and-subtract
    loop, whose comparison by the sign of a 64-bit difference never overflows. *)
Theorem udivmoddi4_correct a b :
  in_range 64 a -> in_range 64 b -> b <> 0 -> __udivmoddi4 a b = Ok (a / b, a mod b).
Proof. apply udivmod_exact. Qed.

(** ** Signed division *)

Lemma sign_mask a : in_srange 64 a -> a >>> 63 = if a <? 0 then -1 else 0.
Proof.
  intros Ha. unfold in_srange in Ha. rewrite Z.shiftr_div_pow2 by lia. destruct (Z.ltb_spec a 0).
  - replace a with ((-1) * 2 ^ 63 + (a + 2 ^ 63)) by lia. rewrite Z.div_add_l, Z.div_small by (cbn in *; lia). done.
  - apply Z.div_small. cbn in *. lia.
Qed.

Lemma cond_neg_val x s : s = 0 \/ s = -1 -> cond_neg x s = s64 (if s =? 0 then x else - x).
Proof.
  intros [-> | ->]; unfold cond_neg; cbn [Z.eqb].
  - by rewrite Z.lxor_0_r, Z.sub_0_r.
  - rewrite Z.lxor_m1_r. unfold Z.lnot. f_equal. lia.
Qed.

Lemma cond_neg_abs a : in_srange 64 a -> u64 (cond_neg a (a >>> 63)) = Z.abs a.
Proof.
  intros Ha. rewrite sign_mask by done. unfold in_srange in Ha.
  rewrite cond_neg_val by (destruct (a <? 0); auto). rewrite wrap_sext by lia.
  destruct (Z.ltb_spec a 0); cbn [Z.eqb]; rewrite wrap_small by (unfold in_range; cbn in *; lia); lia.
Qed.

(** The sign is applied to an unsigned result. *)
Lemma apply_sign q s :
  in_range 64 q -> s = 0 \/ s = -1 -> in_srange 64 (if s =? 0 then q else - q) ->
  s64 (u64 ((q ^^^ u64 s) - u64 s)) = if s =? 0 then q else - q.
Proof.
  intros Hq [-> | ->] Hr; cbn [Z.eqb] in *; rewrite sext_wrap.
  - change (u64 0) with 0. rewrite Z.lxor_0_r, Z.sub_0_r. by apply sext_small.
  - change (u64 (-1)) with (Z.ones 64).
    assert (q ^^^ Z.ones 64 = u64 (Z.lnot q)) as ->.
    { zbits. rewrite Z.testbit_ones_nonneg by lia. destruct (Z.ltb_spec i 64); cbn [andb].
      - by destruct (Z.testbit q i).
      - by rewrite (testbit_high 64 q) by (done || lia). }
    rewrite <- (sext_wrap 64 (_ - _)), wrap_sub_l, sext_wrap. unfold Z.lnot.
    replace (Z.pred (- q) - Z.ones 64) with (- q + (-1) * 2 ^ 64) by (rewrite Z.ones_equiv; lia).
    rewrite <- (sext_wrap 64 (_ + _)). unfold wrap. rewrite Z.mod_add by lia. fold (u64 (- q)).
    rewrite sext_wrap. by apply sext_small.
Qed.

Lemma sign_xor (x y : bool) :
  (if x then -1 else 0) ^^^ (if y then -1 else 0) = if xorb x y then -1 else 0.
Proof. by destruct x, y. Qed.

(** Signed 64-bit division truncates toward zero: except for the one overflowing
    case (the smallest number divided by -1) the quotient and the remainder of every
    division by a non-zero number are those of C's [/] and [%], and the combined routine
    returns both. *)
Theorem signed_division_correct a b :
  in_srange 64 a -> in_srange 64 b -> b <> 0 -> ~ (a = - 2 ^ 63 /\ b = -1) ->
  __divdi3 a b = Ok (Z.quot a b) /\ __moddi3 a b = Ok (Z.rem a b) /\
  __divmoddi4 a b = Ok (Z.quot a b, Z.rem a b).
Proof.
  intros Ha Hb Hb0 Hov.
  assert (in_range 64 (Z.abs a) /\ in_range 64 (Z.abs b) /\ Z.abs b <> 0) as (Ra & Rb & Nb)
    by (unfold in_range, in_srange in *; cbn in *; lia).
  assert (__udivmoddi4 (Z.abs a) (Z.abs b) = Ok (Z.abs a / Z.abs b, Z.abs a mod Z.abs b)) as Eu.
  { by apply udivmod_exact. }
  set (q := Z.abs a / Z.abs b) in *. set (r := Z.abs a mod Z.abs b) in *.
  assert (0 <= r < Z.abs b) as Hr by (apply Z.mod_pos_bound; lia).
  assert (Z.abs a = Z.abs b * q + r) as Edm by (apply Z.div_mod; lia).
  assert (0 <= q) as Hq0 by (apply Z.div_pos; lia).
  assert (q <= Z.abs a) as Hqa by nia.
  assert (q = 2 ^ 63 -> a = - 2 ^ 63 /\ b = 1) as Hqmax.
  { intros E. unfold in_srange in Ha. cbn in Ha. assert (Z.abs b = 1) by nia. lia. }
  assert (__divdi3 a b = Ok (Z.quot a b)) as Hdiv.
  { unfold __divdi3. rewrite !cond_neg_abs, Eu by done. cbn [mbind res_bind].
    rewrite !sign_mask, Z.quot_div by done. fold q.
    rewrite sign_xor, apply_sign.
    - f_equal. destruct (Z.ltb_spec a 0), (Z.ltb_spec b 0); cbn [xorb Z.eqb];
        destruct (Z.sgn_spec a) as [[? ->] | [[? ->] | [? ->]]], (Z.sgn_spec b) as [[? ->] | [[? ->] | [? ->]]]; lia.
    - unfold in_range, in_srange in *; cbn in *; lia.
    - destruct (xorb _ _); auto.
    - unfold in_srange in *. cbn in *. destruct (Z.ltb_spec a 0), (Z.ltb_spec b 0); cbn; lia. }
  split_and!; [done | |].
  - unfold __moddi3. rewrite !cond_neg_abs, Eu by done. cbn [mbind res_bind].
    rewrite sign_mask, Z.rem_mod by done. fold r. f_equal.
    rewrite cond_neg_val by (destruct (a <? 0); auto).
    rewrite (sext_small 64 r) by (unfold in_srange in *; cbn in *; lia).
    destruct (Z.ltb_spec a 0); cbn [Z.eqb]; rewrite sext_small by (unfold in_srange in *; cbn in *; lia);
      destruct (Z.sgn_spec a) as [[? ->] | [[? ->] | [? ->]]]; lia.
  - unfold __divmoddi4. rewrite Hdiv. cbn [mbind res_bind]. do 2 f_equal.
    rewrite <- (sext_wrap 64 (a - _)), <- (wrap_sub_r 64 a), wrap_sext, wrap_sub_r, sext_wrap by lia.
    pose proof (Z.quot_rem a b Hb0) as Eqr. pose proof (Z.rem_bound_abs a b Hb0) as Hrem.
    replace (a - Z.quot a b * b) with (Z.rem a b) by lia. apply sext_small; [lia |].
    unfold in_srange in *. cbn in *. lia.
Qed.

(** ** Zero counts *)

Lemma zero_shift_high x w k :
  0 <= w -> in_range (2 * w) x -> zero_shift x (Z.ones w <<< w) k = if x <? 2 ^ w then 1 <<< k else 0.
Proof.
  intros Hw Hx. unfold zero_shift, b2z.
  assert (x &&& (Z.ones w <<< w) = (x / 2 ^ w) * 2 ^ w) as ->.
  { rewrite <- Z.shiftl_mul_pow2, <- Z.shiftr_div_pow2 by lia. zbits.
    destruct (Z.ltb_spec i w).
    - by rewrite !(Z.testbit_neg_r _ (i - w)), andb_false_r by lia.
    - rewrite Z.testbit_ones_nonneg, Z.shiftr_spec, Z.sub_add by lia.
      destruct (Z.ltb_spec (i - w) w); [by rewrite andb_true_r |].
      by rewrite (testbit_high (2 * w) x) by (done || lia). }
  pose proof (Z.pow_pos_nonneg 2 w). unfold in_range in Hx.
  destruct (Z.ltb_spec x (2 ^ w)).
  - rewrite Z.div_small by lia. by rewrite Z.mul_0_l.
  - rewrite (proj2 (Z.eqb_neq _ _)); [by rewrite Z.shiftl_0_l |].
    assert (1 <= x / 2 ^ w) by (apply Z.div_le_lower_bound; lia). nia.
Qed.

(** One halving of the search for the highest bit. *)
Lemma clz_stage x w k mask :
  0 <= w -> 1 <<< k = w -> mask = Z.ones w <<< w -> in_range (2 * w) x -> 0 < x ->
  let t := zero_shift x mask k in
  in_range w (x >>> (w - t)) /\ 0 < x >>> (w - t) /\ Z.log2 (x >>> (w - t)) = Z.log2 x - (w - t).
Proof.
  intros Hw Hk -> Hx Hx0 t. subst t. rewrite zero_shift_high, Hk by done.
  pose proof (Z.pow_pos_nonneg 2 w). unfold in_range in *.
  destruct (Z.ltb_spec x (2 ^ w)).
  - rewrite Z.sub_diag, Z.shiftr_0_r. lia.
  - rewrite Z.sub_0_r. rewrite Z.log2_shiftr by lia.
    assert (w <= Z.log2 x) by (apply Z.log2_le_pow2; lia).
    rewrite Z.shiftr_div_pow2 by lia. split_and!.
    + apply Z.div_pos; lia.
    + apply Z.div_lt_upper_bound; [lia |]. rewrite <- Z.pow_add_r by lia. replace (w + w) with (2 * w) by lia. lia.
    + apply Z.div_str_pos. lia.
    + lia.
Qed.

(** Names the shift of one stage of [__clzsi2] and the shifted word, with what [clz_stage]
    says of them. *)
Ltac clz_step x w k mask t y :=
  let R := fresh "R" in let P := fresh "P" in let L := fresh "L" in
  destruct (clz_stage x w k mask) as (R & P & L);
    [lia | reflexivity | reflexivity | assumption | assumption |];
  set (t := zero_shift x mask k) in *; set (y := x >>> (w - t)) in *; clearbody y.

Lemma clzsi2_log2 x : 0 < x < 2 ^ 32 -> __clzsi2 x = 31 - Z.log2 x.
Proof.
  intros Hx. unfold __clzsi2. cbv zeta. assert (in_range (2 * 16) x) as Hr by (unfold in_range; lia).
  rewrite (wrap_small 32 x) by done. assert (0 < x) as H0 by lia.
  clz_step x 16 4 0xFFFF0000 t1 x1. clz_step x1 8 3 0xFF00 t2 x2.
  clz_step x2 4 2 0xF0 t3 x3. clz_step x3 2 1 0xC t4 x4.
  assert (u32 (2 - x4) &&& u32 (- b2z ((x4 &&& 2) =? 0)) = 1 - Z.log2 x4) as ->.
  { unfold in_range in R2. change (2 ^ 2) with 4 in R2. assert (x4 = 1 \/ x4 = 2 \/ x4 = 3) as [-> | [-> | ->]] by lia; done. }
  pose proof (log2_32 x Hx). replace (t1 + t2 + t3 + t4 + (1 - Z.log2 x4)) with (31 - Z.log2 x) by lia.
  rewrite sext_wrap, sext_small by (unfold in_srange; cbn; lia). done.
Qed.

(** [c] is the index of the lowest set bit. *)
Definition lowest_bit (x c : Z) : Prop :=
  0 <= c /\ Z.testbit x c = true /\ forall i, 0 <= i < c -> Z.testbit x i = false.

Lemma zero_shift_low x w k c :
  0 <= w -> lowest_bit x c -> zero_shift x (Z.ones w) k = if w <=? c then 1 <<< k else 0.
Proof.
  intros Hw (Hc & Hb & Hl). unfold zero_shift, b2z. destruct (Z.leb_spec w c).
  - replace (x &&& Z.ones w) with 0; [done |]. zbits. rewrite Z.bits_0, Z.testbit_ones_nonneg by lia.
    destruct (Z.ltb_spec i w); [| by rewrite andb_false_r]. by rewrite Hl by lia.
  - rewrite (proj2 (Z.eqb_neq _ _)); [by rewrite Z.shiftl_0_l |]. intros E.
    assert (Z.testbit (x &&& Z.ones w) c = true) as Ht; [| by rewrite E, Z.bits_0 in Ht].
    rewrite Z.land_spec, Hb, Z.testbit_ones_nonneg by lia. by replace (c <? w) with true by lia.
Qed.

Lemma ctz_stage x w k mask c :
  0 <= w -> 1 <<< k = w -> mask = Z.ones w -> lowest_bit x c -> c < 2 * w ->
  let t := zero_shift x mask k in lowest_bit (x >>> t) (c - t) /\ c - t < w.
Proof.
  intros Hw Hk -> Hlow H2 t. subst t. rewrite (zero_shift_low x w k c), Hk by done.
  destruct Hlow as (Hc & Hb & Hl).
  destruct (Z.leb_spec w c); split; try lia; (split; [lia |]; split;
    [rewrite Z.shiftr_spec by lia; by rewrite Z.sub_add |
     intros i Hi; rewrite Z.shiftr_spec by lia; apply Hl; lia]).
Qed.

Ltac ctz_step x w k mask c t y :=
  let L := fresh "L" in let B := fresh "B" in
  destruct (ctz_stage x w k mask c) as [L B];
    [lia | reflexivity | reflexivity | assumption | assumption |];
  set (t := zero_shift x mask k) in *; set (y := x >>> t) in *; clearbody y.

(** The last two bits. *)
Lemma ctz_last x c :
  lowest_bit x c -> c < 2 -> u32 (2 - ((x &&& 3) >>> 1)) &&& u32 (- b2z (((x &&& 3) &&& 1) =? 0)) = c.
Proof.
  intros (H0 & Hb & Hl) H2.
  assert (0 <= x &&& 3 < 4) as Hr.
  { change 3 with (Z.ones 2). rewrite Z.land_ones by lia. apply (Z.mod_pos_bound x (2 ^ 2)). lia. }
  assert (Z.testbit (x &&& 3) 0 = Z.testbit x 0 /\ Z.testbit (x &&& 3) 1 = Z.testbit x 1) as [E0 E1]
    by (rewrite !Z.land_spec, !andb_true_r; done).
  assert (c = 0 \/ c = 1) as [-> | ->] by lia; [| specialize (Hl 0 ltac:(lia))];
    assert (x &&& 3 = 0 \/ x &&& 3 = 1 \/ x &&& 3 = 2 \/ x &&& 3 = 3) as [F | [F | [F | F]]] by lia;
    rewrite F in E0, E1 |- *; rewrite ?Hb, ?Hl in E0; rewrite ?Hb in E1; (discriminate || reflexivity).
Qed.

Lemma ctzsi2_lowest x c : in_range 32 x -> lowest_bit x c -> c < 32 -> __ctzsi2 x = c.
Proof.
  intros Hx Hc H32. unfold __ctzsi2. cbv zeta. rewrite (wrap_small 32 x) by done.
  change 32 with (2 * 16) in H32.
  ctz_step x 16 4 0x0000FFFF c t1 x1. ctz_step x1 8 3 0x00FF (c - t1) t2 x2.
  ctz_step x2 4 2 0x0F (c - t1 - t2) t3 x3. ctz_step x3 2 1 0x3 (c - t1 - t2 - t3) t4 x4.
  rewrite (ctz_last x4 _ L2 B2).
  replace (t1 + t2 + t3 + t4 + (c - t1 - t2 - t3 - t4)) with c by lia.
  destruct Hc. rewrite sext_wrap, sext_small by (unfold in_srange; cbn; lia). done.
Qed.

(** The word __clzdi2 and __ctzdi2 hand on: one half, selected by an all-ones or all-zeros mask. *)
Lemma half_select (c : bool) a b :
  ((a &&& Z.lnot (- b2z c)) ||| (b &&& - b2z c) = if c then b else a) /\ (- b2z c &&& 32 = if c then 32 else 0).
Proof.
  destruct c; cbn [b2z].
  - rewrite Z.land_0_r, Z.land_m1_r. done.
  - rewrite Z.land_m1_r, Z.land_0_r, Z.lor_0_r. done.
Qed.

Lemma u64_nonzero a : in_srange 64 a -> a <> 0 -> u64 a <> 0.
Proof.
  intros Ha H0 E. apply H0. rewrite <- (sext_small 64 a), <- sext_wrap by (done || lia).
  change (s64 (u64 a) = 0). by rewrite E.
Qed.

Lemma lowest_bit_lt w x c : 0 <= w -> in_range w x -> lowest_bit x c -> c < w.
Proof.
  intros Hw Hx (H0 & Hb & _). destruct (Z.lt_ge_cases c w); [done |].
  by rewrite (testbit_high w x c) in Hb by (done || lia).
Qed.

Lemma lowest_bit_u64 a c : in_srange 64 a -> a <> 0 -> lowest_bit a c -> lowest_bit (u64 a) c.
Proof.
  intros Ha Ha0 (H0 & Hb & Hl). assert (c < 64) as Hc.
  { destruct (Z.lt_ge_cases c 64); [done |]. exfalso. apply (u64_nonzero a Ha Ha0).
    zbits. rewrite Z.bits_0. destruct (Z.ltb_spec i 64); [| done]. cbn [andb]. apply Hl. lia. }
  split; [done |]. split.
  - rewrite testbit_wrap, Hb by lia. by replace (c <? 64) with true by lia.
  - intros i Hi. rewrite testbit_wrap, Hl by lia. apply andb_false_r.
Qed.

Lemma clzdi2_log2 a : u64 a <> 0 -> __clzdi2 a = 63 - Z.log2 (u64 a).
Proof.
  intros H0. unfold __clzdi2. cbv zeta. pose proof (wrap_range 64 a ltac:(lia)) as Hr. fold (u64 a) in Hr.
  destruct (half_select (hi (u64 a) =? 0) (hi (u64 a)) (lo (u64 a))) as [-> ->].
  pose proof (hi_range (u64 a) Hr) as Hh. pose proof (wrap_range 32 (u64 a) ltac:(lia)) as Hl.
  fold (lo (u64 a)) in Hl. pose proof (hi_lo (u64 a)) as E. unfold in_range in Hh, Hl.
  destruct (Z.eqb_spec (hi (u64 a)) 0) as [E0 | N0].
  - assert (u64 a = lo (u64 a)) as E1 by lia. rewrite clzsi2_log2, <- E1 by lia. lia.
  - rewrite clzsi2_log2, (log2_hi (u64 a)) by (done || lia). lia.
Qed.

Lemma ctzdi2_lowest a c : lowest_bit (u64 a) c -> __ctzdi2 a = c.
Proof.
  intros Hc. unfold __ctzdi2. cbv zeta. pose proof (wrap_range 64 a ltac:(lia)) as Hr. fold (u64 a) in Hr.
  set (n := u64 a) in *. destruct (half_select (lo n =? 0) (lo n) (hi n)) as [E1 ->].
  rewrite (Z.lor_comm (hi n &&& _)), E1. pose proof (lowest_bit_lt 64 n c ltac:(lia) Hr Hc) as H64.
  pose proof (hi_range n Hr) as Hh. pose proof (wrap_range 32 n ltac:(lia)) as Hl. fold (lo n) in Hl.
  destruct Hc as (H0 & Hb & Hlow). unfold lo in *.
  destruct (Z.eqb_spec (u32 n) 0) as [E0 | N0].
  - assert (32 <= c) as Hc.
    { destruct (Z.lt_ge_cases c 32); [| lia]. assert (Z.testbit (u32 n) c = true) as Ht.
      - rewrite testbit_wrap, Hb by lia. by replace (c <? 32) with true by lia.
      - by rewrite E0, Z.bits_0 in Ht. }
    rewrite (ctzsi2_lowest _ (c - 32)); [lia | done | | lia]. unfold hi. split; [lia |]. split.
    + rewrite Z.shiftr_spec by lia. by rewrite Z.sub_add.
    + intros i Hi. rewrite Z.shiftr_spec by lia. apply Hlow. lia.
  - assert (c < 32) as Hc.
    { destruct (Z.lt_ge_cases c 32); [done |]. exfalso. apply N0. zbits. rewrite Z.bits_0.
      destruct (Z.ltb_spec i 32); [| done]. cbn [andb]. apply Hlow. lia. }
    rewrite (ctzsi2_lowest _ c); [lia | done | | done]. split; [done |]. split.
    + rewrite testbit_wrap, Hb by lia. by replace (c <? 32) with true by lia.
    + intros i Hi. rewrite testbit_wrap, Hlow by lia. apply andb_false_r.
Qed.

(** Zero counts by binary search.  For every non-zero word [x], [__clzsi2] and
    [__ctzsi2] count the zeros above the highest and below the lowest set bit; for every
    non-zero 64-bit number (given as a signed number, a 32-bit half at a time) so do
    [__clzdi2] and [__ctzdi2]. *)
Theorem zero_counts_correct :
  (forall x c, 0 < x < 2 ^ 32 -> lowest_bit x c -> __clzsi2 x = 31 - Z.log2 x /\ __ctzsi2 x = c) /\
  (forall a c, in_srange 64 a -> a <> 0 -> lowest_bit a c -> __clzdi2 a = 63 - Z.log2 (u64 a) /\ __ctzdi2 a = c).
Proof.
  split.
  - intros x c Hx Hc. split; [by apply clzsi2_log2 |]. assert (in_range 32 x) by (unfold in_range; lia).
    apply ctzsi2_lowest; try done. by apply (lowest_bit_lt 32 x).
  - intros a c Ha Ha0 Hc. split; [by apply clzdi2_log2, u64_nonzero | by apply ctzdi2_lowest, lowest_bit_u64].
Qed.

(** ** Examples the theorems apply to *)

Lemma udivmoddi4_correct_witness :
  0x8234567812345678 <> 0 /\
  __udivmoddi4 0xfedcba9876543210 0x8234567812345678 = Ok (1, 0x7ca86420641fdb98).
Proof.
  split; [lia |].
  apply (udivmoddi4_correct 0xfedcba9876543210 0x8234567812345678); [split; reflexivity || lia.. | lia].
Defined.

Lemma signed_division_correct_witness :
  ~ (-7000000000000 = - 2 ^ 63 /\ 3000 = -1) /\
  __divdi3 (-7000000000000) 3000 = Ok (-2333333333) /\ __moddi3 (-7000000000000) 3000 = Ok (-1000) /\
  __divmoddi4 (-7000000000000) 3000 = Ok (-2333333333, -1000).
Proof.
  split; [lia |].
  apply (signed_division_correct (-7000000000000) 3000); [split; cbn; lia.. | lia | lia].
Defined.

Lemma zero_counts_correct_witness :
  lowest_bit 0x00a00000 21 /\ __clzsi2 0x00a00000 = 8 /\ __ctzsi2 0x00a00000 = 21 /\
  __clzdi2 (- 2 ^ 40) = 0 /\ __ctzdi2 (- 2 ^ 40) = 40.
Proof.
  assert (lowest_bit 0x00a00000 21) as H1.
  { split; [lia |]. split; [reflexivity |]. intros i Hi. change 0x00a00000 with (5 * 2 ^ 21).
    apply Z.mul_pow2_bits_low. lia. }
  assert (lowest_bit (- 2 ^ 40) 40) as H2.
  { split; [lia |]. split; [reflexivity |]. intros i Hi. change (- 2 ^ 40) with (-1 * 2 ^ 40).
    apply Z.mul_pow2_bits_low. lia. }
  split; [exact H1 |].
  destruct (proj1 zero_counts_correct 0x00a00000 21) as [E1 E2]; [lia | exact H1 |].
  destruct (proj2 zero_counts_correct (- 2 ^ 40) 40) as [E3 E4]; [split; cbn; lia | lia | exact H2 |].
  exact (conj E1 (conj E2 (conj E3 E4))).
Defined.
