(* ===== verification/KString.v ===== *)
(** The freestanding C library's string, memory and allocation functions
    (abstract-machine/klib/src/string.c and stdlib.c).

    Memory is byte-addressed, [char] is unsigned (the RISC-V ABI) and [size_t] has 32 bits.
    Objects do not wrap around the address space, so pointers are plain integers.  A loop
    whose length depends on memory takes fuel and reports [FFuel] when it runs out. *)

From S2P Require Import Prelude.

(** ** Strings *)

Fixpoint strlen_loop (fuel : nat) (m : mem) (s n : Z) : res Z :=
  match fuel with
  | O => Fault FFuel
  | S fuel => if negb (m s =? 0) then strlen_loop fuel m (s + 1) (u32 (n + 1)) else Ok n
  end.

Definition strlen (fuel : nat) (m : mem) (s : Z) : res Z := strlen_loop fuel m s 0.

(** [while ( *src) *pd++ = *src++; *pd = 0;] *)
Fixpoint copy_string (fuel : nat) (m : mem) (pd src : Z) : res mem :=
  match fuel with
  | O => Fault FFuel
  | S fuel =>
      if negb (m src =? 0) then copy_string fuel (mwrite m pd (m src)) (pd + 1) (src + 1)
      else Ok (mwrite m pd 0)
  end.

Definition strcpy (fuel : nat) (m : mem) (dst src : Z) : res (Z * mem) :=
  m ← copy_string fuel m dst src;
  Ok (dst, m).

(** [while ( *pd) pd++;] *)
Fixpoint find_end (fuel : nat) (m : mem) (pd : Z) : res Z :=
  match fuel with
  | O => Fault FFuel
  | S fuel => if negb (m pd =? 0) then find_end fuel m (pd + 1) else Ok pd
  end.

Definition strcat (fuel : nat) (m : mem) (dst src : Z) : res (Z * mem) :=
  pd ← find_end fuel m dst;
  m ← copy_string fuel m pd src;
  Ok (dst, m).

Fixpoint strcmp (fuel : nat) (m : mem) (s1 s2 : Z) : res Z :=
  match fuel with
  | O => Fault FFuel
  | S fuel =>
      if negb (m s1 =? 0) && negb (m s2 =? 0) then
        let tmp := m s1 - m s2 in
        if negb (tmp =? 0) then Ok tmp else strcmp fuel m (s1 + 1) (s2 + 1)
      else Ok (m s1 - m s2)
  end.

(** [n] is [size_t]: the decrement of the condition wraps. *)
Fixpoint strncmp_loop (fuel : nat) (m : mem) (s1 s2 n : Z) : res Z :=
  match fuel with
  | O => Fault FFuel
  | S fuel =>
      let go := (1 <? n) && negb (m s1 =? 0) && negb (m s2 =? 0) && (m s1 =? m s2) in
      let n := u32 (n - 1) in
      if go then strncmp_loop fuel m (s1 + 1) (s2 + 1) n else Ok (m s1 - m s2)
  end.

Definition strncmp (fuel : nat) (m : mem) (s1 s2 n : Z) : res Z :=
  if n =? 0 then Ok 0 else strncmp_loop fuel m s1 s2 n.

(** ** Blocks of memory *)

Fixpoint zero_words (fuel : nat) (m : mem) (bs es : Z) : res mem :=
  match fuel with
  | O => Fault FFuel
  | S fuel => if negb (bs =? es) then zero_words fuel (le_write 4 m bs 0) (bs + 4) es else Ok m
  end.

Fixpoint set_bytes (fuel : nat) (m : mem) (bs es c : Z) : res mem :=
  match fuel with
  | O => Fault FFuel
  | S fuel => if negb (bs =? es) then set_bytes fuel (mwrite m bs (u8 c)) (bs + 1) es c else Ok m
  end.

Definition _no_asan_kmemzero (fuel : nat) (m : mem) (s n : Z) : res (Z * mem) :=
  if n mod 4 =? 0 then m ← zero_words fuel m s (s + 4 * (n / 4)); Ok (s, m)
  else m ← set_bytes fuel m s (s + n) 0; Ok (s, m).

Definition kmemset (fuel : nat) (m : mem) (s c n : Z) : res (Z * mem) :=
  m ← set_bytes fuel m s (s + n) c;
  Ok (s, m).

Fixpoint copy_bytes (fuel : nat) (m : mem) (obeg ibeg iend : Z) : res mem :=
  match fuel with
  | O => Fault FFuel
  | S fuel =>
      if negb (ibeg =? iend) then copy_bytes fuel (mwrite m obeg (m ibeg)) (obeg + 1) (ibeg + 1) iend
      else Ok m
  end.

Definition kmemcpy (fuel : nat) (m : mem) (out in_ n : Z) : res (Z * mem) :=
  m ← copy_bytes fuel m out in_ (in_ + n);
  Ok (out, m).

Definition memset (fuel : nat) (m : mem) (s c n : Z) : res (Z * mem) := kmemset fuel m s c n.
Definition memcpy (fuel : nat) (m : mem) (out in_ n : Z) : res (Z * mem) := kmemcpy fuel m out in_ n.

Fixpoint memcmp_loop (fuel : nat) (m : mem) (bs1 bs2 es1 : Z) : res Z :=
  match fuel with
  | O => Fault FFuel
  | S fuel =>
      if negb (bs1 =? es1) then
        let tmp := m bs1 - m bs2 in
        if negb (tmp =? 0) then Ok tmp else memcmp_loop fuel m (bs1 + 1) (bs2 + 1) es1
      else Ok 0
  end.

Definition memcmp (fuel : nat) (m : mem) (s1 s2 n : Z) : res Z := memcmp_loop fuel m s1 s2 (s1 + n).

(** ** The allocator and the functions that use it *)

(** The global [heap] and the allocator's static pointer (0 before the first call). *)
Record allocator := Allocator { heap_start : Z; heap_end : Z; alloc_addr : Z }.

Definition kmalloc (size : Z) (a : allocator) : res (Z * allocator) :=
  let addr := if alloc_addr a =? 0 then heap_start a else alloc_addr a in
  c_assert (addr + size <? heap_end a);;
  Ok (addr, Allocator (heap_start a) (heap_end a) (addr + size)).

Definition kfree (ptr : Z) (a : allocator) : allocator := a.

Definition memmove (fuel : nat) (m : mem) (a : allocator) (dst src n : Z) : res (Z * mem * allocator) :=
  '(tmp, a) ← kmalloc n a;
  '(_, m) ← kmemcpy fuel m tmp src n;
  '(_, m) ← kmemcpy fuel m dst tmp n;
  Ok (dst, m, a).

(** ** Numbers *)

(** [unsigned long] has [w] bits: 32 on RV32, 64 on RV64. *)
Definition rand (w next : Z) : Z * Z :=
  let next := wrap w (next * 1103515245 + 12345) in
  (u32 (next / 65536) mod 32768, next).

Definition srand (seed : Z) : Z := u32 seed.

(** Overflow in [abs] and [atoi] is undefined in C; the model wraps. *)
Definition abs (x : Z) : Z := if x <? 0 then s32 (- x) else x.

Fixpoint skip_spaces (fuel : nat) (m : mem) (p : Z) : res Z :=
  match fuel with
  | O => Fault FFuel
  | S fuel => if m p =? 32 then skip_spaces fuel m (p + 1) else Ok p
  end.

Fixpoint atoi_loop (fuel : nat) (m : mem) (p x : Z) : res Z :=
  match fuel with
  | O => Fault FFuel
  | S fuel =>
      if (48 <=? m p) && (m p <=? 57) then atoi_loop fuel m (p + 1) (s32 (x * 10 + m p - 48)) else Ok x
  end.

Definition atoi (fuel : nat) (m : mem) (nptr : Z) : res Z :=
  nptr ← skip_spaces fuel m nptr;
  atoi_loop fuel m nptr 0.

(** ** Specifications *)

(** The bytes of [l] are stored from [p] on. *)
Definition bytes_at (m : mem) (p : Z) (l : list Z) : Prop :=
  forall i x, l !! i = Some x -> m (p + Z.of_nat i) = x.

(** A terminated string. *)
Definition cstr (m : mem) (p : Z) (s : list Z) : Prop :=
  bytes_at m p (s ++ [0]) /\ Forall (fun c => 0 < c < 256) s.

(** The [n] bytes from [p] on. *)
Definition block (m : mem) (p : Z) (n : nat) : list Z := (fun i => m (p + Z.of_nat i)) <$> seq 0 n.

(** Memory [m] with the bytes of [l] stored from [p] on. *)
Definition blit (p : Z) (l : list Z) (m : mem) : mem :=
  fun x => if (p <=? x) && (x <? p + Z.of_nat (length l)) then nth (Z.to_nat (x - p)) l 0 else m x.

(** The difference of the first two bytes that differ. *)
Fixpoint first_diff (l1 l2 : list Z) : Z :=
  match l1, l2 with
  | x :: l1, y :: l2 => if x - y =? 0 then first_diff l1 l2 else x - y
  | _, _ => 0
  end.

(** [a, a+n) and [b, b+k) have no common address. *)
Definition disjoint (a n b k : Z) : Prop := a + n <= b \/ b + k <= a.

Lemma bytes_at_nil m p : bytes_at m p [].
Proof. intros i x E. by rewrite lookup_nil in E. Qed.

Lemma bytes_at_cons m p c l : bytes_at m p (c :: l) <-> m p = c /\ bytes_at m (p + 1) l.
Proof.
  split.
  - intros H. split.
    + rewrite <- (H 0%nat c) by done. f_equal. lia.
    + intros i x E. rewrite <- (H (S i) x) by done. f_equal. lia.
  - intros [H0 H] [|i] x E; cbn in E.
    + injection E as <-. rewrite <- H0. f_equal. lia.
    + rewrite <- (H i x E). f_equal. lia.
Qed.

Lemma bytes_at_write m p l a v :
  ~ p <= a < p + Z.of_nat (length l) -> bytes_at m p l -> bytes_at (mwrite m a v) p l.
Proof.
  intros Ha H i x E. unfold mwrite. pose proof (lookup_lt_Some _ _ _ E).
  rewrite (proj2 (Z.eqb_neq _ _)) by lia. by apply H.
Qed.

Lemma bytes_at_block m p n : bytes_at m p (block m p n).
Proof.
  intros i x. unfold block. rewrite list_lookup_fmap. intros E.
  apply fmap_Some in E as (j & Ej & ->). by apply lookup_seq in Ej as [-> _].
Qed.

Lemma block_bytes_at m p l : bytes_at m p l -> block m p (length l) = l.
Proof.
  intros H. apply list_eq_same_length with (length l); [done | unfold block; by rewrite length_fmap, length_seq |].
  intros i x y Hi E1 E2. unfold block in E1. rewrite list_lookup_fmap, lookup_seq_lt in E1 by done.
  cbn in E1. injection E1 as <-. by apply H.
Qed.

Lemma length_block m p n : length (block m p n) = n.
Proof. unfold block. by rewrite length_fmap, length_seq. Qed.

Lemma block_S m p n : block m p (S n) = m p :: block m (p + 1) n.
Proof.
  unfold block. cbn [seq fmap list_fmap]. f_equal; [f_equal; lia |].
  rewrite <- fmap_S_seq, <- list_fmap_compose. apply list_fmap_ext. intros i j _. cbn. f_equal. lia.
Qed.

Lemma cstr_nil m p : cstr m p [] <-> m p = 0.
Proof.
  unfold cstr. cbn [app]. rewrite bytes_at_cons. split; [tauto |]. intros E. split; [| done].
  split; [done | apply bytes_at_nil].
Qed.

Lemma cstr_cons m p c s : cstr m p (c :: s) <-> m p = c /\ 0 < c < 256 /\ cstr m (p + 1) s.
Proof. unfold cstr. cbn [app]. rewrite bytes_at_cons, Forall_cons. tauto. Qed.

Lemma cstr_write m p s a v :
  ~ p <= a < p + Z.of_nat (length s) + 1 -> cstr m p s -> cstr (mwrite m a v) p s.
Proof.
  intros Ha [H1 H2]. split; [| done]. apply bytes_at_write; [| done].
  rewrite length_app. cbn. lia.
Qed.

Lemma blit_cons p c l m x : blit p (c :: l) m x = blit (p + 1) l (mwrite m p c) x.
Proof.
  unfold blit, mwrite. cbn [length].
  destruct (Z.eqb_spec x p) as [-> |].
  - rewrite Z.sub_diag. cbn [Z.to_nat nth].
    destruct (Z.leb_spec (p + 1) p); [lia |]. cbn [andb].
    by rewrite Z.leb_refl, (proj2 (Z.ltb_lt _ _)) by lia.
  - destruct (Z.leb_spec p x), (Z.leb_spec (p + 1) x); try lia; cbn [andb]; [| done].
    replace (Z.to_nat (x - p)) with (S (Z.to_nat (x - (p + 1)))) by lia. cbn [nth].
    destruct (Z.ltb_spec x (p + Z.of_nat (S (length l)))), (Z.ltb_spec x (p + 1 + Z.of_nat (length l))); lia || done.
Qed.

Lemma blit_ext p l m m' x : m x = m' x -> blit p l m x = blit p l m' x.
Proof. intros E. unfold blit. by rewrite E. Qed.

Lemma blit_out p l m x : ~ p <= x < p + Z.of_nat (length l) -> blit p l m x = m x.
Proof.
  intros H. unfold blit. destruct (Z.leb_spec p x), (Z.ltb_spec x (p + Z.of_nat (length l))); cbn; lia || done.
Qed.

Lemma blit_nil p m x : blit p [] m x = m x.
Proof. apply blit_out. cbn. lia. Qed.

Lemma blit_bytes_at p l m : bytes_at (blit p l m) p l.
Proof.
  intros i x E. unfold blit. pose proof (lookup_lt_Some _ _ _ E).
  rewrite (proj2 (Z.leb_le _ _)), (proj2 (Z.ltb_lt _ _)) by lia. cbn [andb].
  replace (Z.to_nat (p + Z.of_nat i - p)) with i by lia. by apply nth_lookup_Some.
Qed.

(** ** Reading functions *)

Lemma first_diff_zero l1 l2 : length l1 = length l2 -> (first_diff l1 l2 = 0 <-> l1 = l2).
Proof.
  revert l2. induction l1 as [|x l1 IH]; intros [|y l2] H; cbn in *; try done.
  destruct (Z.eqb_spec (x - y) 0) as [E |].
  - rewrite IH by lia. split; [intros ->; f_equal; lia | by intros [= _ ->]].
  - split; [done | intros [= -> _]; lia].
Qed.

Lemma first_diff_strings s1 s2 :
  Forall (fun c => 0 < c < 256) s1 -> Forall (fun c => 0 < c < 256) s2 ->
  (first_diff (s1 ++ [0]) (s2 ++ [0]) = 0 <-> s1 = s2).
Proof.
  intros H1. revert s2. induction H1 as [|x s1 Hx H1 IH]; intros s2 H2; destruct H2 as [|y s2 Hy H2]; cbn.
  - done.
  - destruct (Z.eqb_spec (0 - y) 0); [lia |]. split; [lia | done].
  - destruct (Z.eqb_spec (x - 0) 0); [lia |]. split; [lia | done].
  - destruct (Z.eqb_spec (x - y) 0) as [E |].
    + rewrite IH by done. split; [intros ->; f_equal; lia | by intros [= _ ->]].
    + split; [done | intros [= -> _]; lia].
Qed.

Lemma strlen_loop_correct m s p n fuel :
  cstr m p s -> (length s < fuel)%nat -> 0 <= n -> n + Z.of_nat (length s) < 2 ^ 32 ->
  strlen_loop fuel m p n = Ok (n + Z.of_nat (length s)).
Proof.
  revert p n fuel. induction s as [|c s IH]; intros p n [|fuel] Hs Hf Hn Hl; cbn [length] in *; try lia; cbn [strlen_loop].
  - apply cstr_nil in Hs. rewrite Hs. cbn. f_equal. lia.
  - apply cstr_cons in Hs as (E & Hc & Hs). rewrite E, (proj2 (Z.eqb_neq c 0)) by lia. cbn [negb].
    rewrite wrap_small by (unfold in_range; lia). rewrite IH by (done || lia). f_equal. lia.
Qed.

Lemma strcmp_correct m s1 s2 p q fuel :
  cstr m p s1 -> cstr m q s2 -> (length s1 < fuel)%nat ->
  strcmp fuel m p q = Ok (first_diff (s1 ++ [0]) (s2 ++ [0])).
Proof.
  revert s2 p q fuel. induction s1 as [|x s1 IH]; intros s2 p q [|fuel] H1 H2 Hf; cbn [length] in *; try lia; cbn [strcmp].
  - apply cstr_nil in H1. rewrite H1. cbn [Z.eqb negb andb app first_diff]. destruct s2 as [|y s2].
    + apply cstr_nil in H2. by rewrite H2.
    + apply cstr_cons in H2 as (-> & Hy & _). cbn [app]. by rewrite (proj2 (Z.eqb_neq (0 - y) 0)) by lia.
  - apply cstr_cons in H1 as (E & Hx & H1). rewrite E, (proj2 (Z.eqb_neq x 0)) by lia. destruct s2 as [|y s2].
    + apply cstr_nil in H2. rewrite H2. cbn [Z.eqb negb andb app first_diff].
      by rewrite (proj2 (Z.eqb_neq (x - 0) 0)) by lia.
    + apply cstr_cons in H2 as (E2 & Hy & H2). rewrite E2, (proj2 (Z.eqb_neq y 0)) by lia.
      cbn [negb andb app first_diff]. destruct (Z.eqb_spec (x - y) 0); [| done]. cbn [negb].
      apply IH; done || lia.
Qed.

Lemma strncmp_loop_correct m s1 s2 p q n fuel :
  cstr m p s1 -> cstr m q s2 -> (length s1 < fuel)%nat -> 0 < n < 2 ^ 32 ->
  strncmp_loop fuel m p q n = Ok (first_diff (take (Z.to_nat n) (s1 ++ [0])) (take (Z.to_nat n) (s2 ++ [0]))).
Proof.
  revert s2 p q n fuel.
  induction s1 as [|x s1 IH]; intros s2 p q n [|fuel] H1 H2 Hf Hn; cbn [length] in *; try lia; cbn [strncmp_loop];
    replace (Z.to_nat n) with (S (Z.to_nat (n - 1))) by lia.
  - apply cstr_nil in H1. rewrite H1, andb_false_r. cbn [andb app take first_diff].
    destruct s2 as [|y s2].
    + apply cstr_nil in H2. rewrite H2. by rewrite !take_nil.
    + apply cstr_cons in H2 as (-> & Hy & _). cbn [app take]. by rewrite (proj2 (Z.eqb_neq (0 - y) 0)) by lia.
  - apply cstr_cons in H1 as (E & Hx & H1). rewrite E, (proj2 (Z.eqb_neq x 0)) by lia. destruct s2 as [|y s2].
    + apply cstr_nil in H2. rewrite H2, !andb_false_r. cbn [andb app take first_diff].
      by rewrite (proj2 (Z.eqb_neq (x - 0) 0)) by lia.
    + apply cstr_cons in H2 as (E2 & Hy & H2). rewrite E2, (proj2 (Z.eqb_neq y 0)), !andb_true_r by lia.
      cbn [negb andb app take first_diff].
      destruct (Z.eqb_spec (x - y) 0), (Z.eqb_spec x y); try lia; rewrite ?andb_false_r; [| done].
      destruct (Z.ltb_spec 1 n); cbn [andb].
      * rewrite wrap_small by (unfold in_range; lia). apply IH; done || lia.
      * replace (Z.to_nat (n - 1)) with 0%nat by lia. rewrite !take_0. cbn [first_diff]. by rewrite e.
Qed.

Lemma memcmp_loop_correct m p q n fuel :
  (n < fuel)%nat ->
  memcmp_loop fuel m p q (p + Z.of_nat n) = Ok (first_diff (block m p n) (block m q n)).
Proof.
  revert p q fuel. induction n as [|n IH]; intros p q [|fuel] Hf; try lia; cbn [memcmp_loop].
  - by rewrite Z.add_0_r, Z.eqb_refl.
  - rewrite (proj2 (Z.eqb_neq p _)), !block_S by lia. cbn [negb first_diff].
    destruct (Z.eqb_spec (m p - m q) 0); [| done]. cbn [negb].
    replace (p + Z.of_nat (S n)) with (p + 1 + Z.of_nat n) by lia. apply IH. lia.
Qed.

(** The comparing and measuring functions agree with their specification on byte lists:
    on terminated strings and blocks they terminate with the length, and with the difference of
    the first bytes that differ - among the first [n] of them for [strncmp] and [memcmp] - so a
    string comparison is zero exactly for equal strings and a block comparison exactly for
    equal blocks. *)
Theorem string_comparisons_correct m p q s1 s2 n fuel :
  cstr m p s1 -> cstr m q s2 -> Z.of_nat (length s1) < 2 ^ 32 -> 0 <= n < 2 ^ 32 ->
  (length s1 < fuel)%nat -> (Z.to_nat n < fuel)%nat ->
  strlen fuel m p = Ok (Z.of_nat (length s1)) /\
  strcmp fuel m p q = Ok (first_diff (s1 ++ [0]) (s2 ++ [0])) /\
  (first_diff (s1 ++ [0]) (s2 ++ [0]) = 0 <-> s1 = s2) /\
  strncmp fuel m p q n = Ok (first_diff (take (Z.to_nat n) (s1 ++ [0])) (take (Z.to_nat n) (s2 ++ [0]))) /\
  memcmp fuel m p q n = Ok (first_diff (block m p (Z.to_nat n)) (block m q (Z.to_nat n))) /\
  (first_diff (block m p (Z.to_nat n)) (block m q (Z.to_nat n)) = 0 <->
     block m p (Z.to_nat n) = block m q (Z.to_nat n)).
Proof.
  intros H1 H2 Hl Hn Hf Hfn. split_and!.
  - unfold strlen. by rewrite (strlen_loop_correct m s1) by (done || lia).
  - by apply strcmp_correct.
  - apply first_diff_strings; [apply H1 | apply H2].
  - unfold strncmp. destruct (Z.eqb_spec n 0) as [-> |]; [by cbn [Z.to_nat]; rewrite !take_0 |].
    apply strncmp_loop_correct; done || lia.
  - unfold memcmp. rewrite <- (Z2Nat.id n) at 1 by lia. by apply memcmp_loop_correct.
  - apply first_diff_zero. by rewrite !length_block.
Qed.

(** ** Writing functions *)

Lemma copy_string_correct s m pd src fuel :
  cstr m src s -> disjoint pd (Z.of_nat (length s) + 1) src (Z.of_nat (length s) + 1) ->
  (length s < fuel)%nat ->
  exists m', copy_string fuel m pd src = Ok m' /\ forall x, m' x = blit pd (s ++ [0]) m x.
Proof.
  revert m pd src fuel.
  induction s as [|c s IH]; intros m pd src [|fuel] Hs Hd Hf; cbn [length] in *; try lia; cbn [copy_string app].
  - apply cstr_nil in Hs. rewrite Hs. cbn [Z.eqb negb]. eexists. split; [done |]. intros x.
    by rewrite blit_cons, blit_nil.
  - apply cstr_cons in Hs as (E & Hc & Hs). rewrite E, (proj2 (Z.eqb_neq c 0)) by lia. cbn [negb].
    unfold disjoint in *. destruct (IH (mwrite m pd c) (pd + 1) (src + 1) fuel) as (m' & Em & Hm); [| lia | lia |].
    + apply cstr_write; [lia | done].
    + exists m'. split; [done |]. intros x. by rewrite Hm, blit_cons.
Qed.

Lemma find_end_correct m p s fuel :
  cstr m p s -> (length s < fuel)%nat -> find_end fuel m p = Ok (p + Z.of_nat (length s)).
Proof.
  revert p fuel. induction s as [|c s IH]; intros p [|fuel] Hs Hf; cbn [length] in *; try lia; cbn [find_end].
  - apply cstr_nil in Hs. rewrite Hs. cbn. f_equal. lia.
  - apply cstr_cons in Hs as (-> & Hc & Hs). rewrite (proj2 (Z.eqb_neq c 0)) by lia. cbn [negb].
    rewrite IH by (done || lia). f_equal. lia.
Qed.

(** A forward copy is right unless the target starts inside the source. *)
Lemma copy_bytes_correct n m o i fuel :
  o <= i \/ i + Z.of_nat n <= o -> (n < fuel)%nat ->
  exists m', copy_bytes fuel m o i (i + Z.of_nat n) = Ok m' /\ forall x, m' x = blit o (block m i n) m x.
Proof.
  revert m o i fuel. induction n as [|n IH]; intros m o i [|fuel] Hd Hf; try lia; cbn [copy_bytes].
  - rewrite Z.add_0_r, Z.eqb_refl. cbn [negb]. eexists. split; [done |]. intros x. symmetry. apply blit_nil.
  - rewrite (proj2 (Z.eqb_neq i _)) by lia. cbn [negb].
    destruct (IH (mwrite m o (m i)) (o + 1) (i + 1) fuel) as (m' & Em & Hm); [lia | lia |].
    replace (i + Z.of_nat (S n)) with (i + 1 + Z.of_nat n) by lia. exists m'. split; [done |].
    intros x. rewrite Hm, block_S, blit_cons. f_equal.
    apply list_fmap_ext. intros k j Ek. unfold mwrite. apply lookup_seq in Ek as [-> Hk].
    by rewrite (proj2 (Z.eqb_neq _ _)) by lia.
Qed.

Lemma set_bytes_correct n m s c fuel :
  (n < fuel)%nat ->
  exists m', set_bytes fuel m s (s + Z.of_nat n) c = Ok m' /\ forall x, m' x = blit s (replicate n (u8 c)) m x.
Proof.
  revert m s fuel. induction n as [|n IH]; intros m s [|fuel] Hf; try lia; cbn [set_bytes].
  - rewrite Z.add_0_r, Z.eqb_refl. cbn [negb]. eexists. split; [done |]. intros x. symmetry. apply blit_nil.
  - rewrite (proj2 (Z.eqb_neq s _)) by lia. cbn [negb].
    destruct (IH (mwrite m s (u8 c)) (s + 1) fuel) as (m' & Em & Hm); [lia |].
    replace (s + Z.of_nat (S n)) with (s + 1 + Z.of_nat n) by lia. exists m'. split; [done |].
    intros x. by rewrite Hm, <- blit_cons.
Qed.

Lemma zero_words_correct n m s fuel :
  (n < fuel)%nat ->
  exists m', zero_words fuel m s (s + 4 * Z.of_nat n) = Ok m' /\ forall x, m' x = blit s (replicate (4 * n) 0) m x.
Proof.
  revert m s fuel. induction n as [|n IH]; intros m s [|fuel] Hf; try lia; cbn [zero_words].
  - rewrite Z.add_0_r, Z.eqb_refl. cbn [negb]. eexists. split; [done |]. intros x. symmetry. apply blit_nil.
  - rewrite (proj2 (Z.eqb_neq s _)) by lia. cbn [negb].
    destruct (IH (le_write 4 m s 0) (s + 4) fuel) as (m' & Em & Hm); [lia |].
    replace (s + 4 * Z.of_nat (S n)) with (s + 4 + 4 * Z.of_nat n) by lia. exists m'. split; [done |].
    intros x. rewrite Hm. replace (4 * S n)%nat with (S (S (S (S (4 * n))))) by lia. cbn [replicate].
    rewrite !blit_cons. replace (s + 1 + 1 + 1 + 1) with (s + 4) by lia. apply blit_ext.
    rewrite le_write_lookup. unfold mwrite. rewrite Z.shiftr_0_l. zcmp.
Qed.

Lemma bytes_at_ext m m' p l :
  (forall x, p <= x < p + Z.of_nat (length l) -> m' x = m x) -> bytes_at m p l -> bytes_at m' p l.
Proof.
  intros Hx H i x E. pose proof (lookup_lt_Some _ _ _ E). rewrite Hx by lia. by apply H.
Qed.

Lemma bytes_at_app m p l1 l2 :
  bytes_at m p (l1 ++ l2) <-> bytes_at m p l1 /\ bytes_at m (p + Z.of_nat (length l1)) l2.
Proof.
  revert p. induction l1 as [|c l1 IH]; intros p; cbn [app length].
  - rewrite Z.add_0_r. split; [| tauto]. split; [apply bytes_at_nil | done].
  - rewrite !bytes_at_cons, IH. replace (p + 1 + Z.of_nat (length l1)) with (p + Z.of_nat (S (length l1))) by lia. tauto.
Qed.

(** The string functions leave the string they promise. *)
Lemma blit_cstr m m' p s1 s2 :
  cstr m p s1 -> Forall (fun c => 0 < c < 256) s2 ->
  (forall x, m' x = blit (p + Z.of_nat (length s1)) (s2 ++ [0]) m x) -> cstr m' p (s1 ++ s2).
Proof.
  intros [H1 F1] F2 Hm. split; [| by apply Forall_app]. rewrite <- app_assoc. apply bytes_at_app. split.
  - apply bytes_at_app in H1 as [H1 _]. apply (bytes_at_ext m); [| done]. intros x Hx. rewrite Hm.
    apply blit_out. lia.
  - apply (bytes_at_ext (blit (p + Z.of_nat (length s1)) (s2 ++ [0]) m)); [by intros; apply Hm | apply blit_bytes_at].
Qed.

(** The next free address. *)
Definition free_addr (a : allocator) : Z := if alloc_addr a =? 0 then heap_start a else alloc_addr a.

Lemma kmalloc_correct size a :
  free_addr a + size < heap_end a ->
  kmalloc size a = Ok (free_addr a, Allocator (heap_start a) (heap_end a) (free_addr a + size)).
Proof. intros H. unfold kmalloc. fold (free_addr a). by rewrite (proj2 (Z.ltb_lt _ _)). Qed.

Lemma memmove_correct m a dst src n fuel :
  free_addr a + Z.of_nat n < heap_end a ->
  disjoint (free_addr a) (Z.of_nat n) src (Z.of_nat n) -> disjoint (free_addr a) (Z.of_nat n) dst (Z.of_nat n) ->
  (n < fuel)%nat ->
  exists m', memmove fuel m a dst src (Z.of_nat n) =
      Ok (dst, m', Allocator (heap_start a) (heap_end a) (free_addr a + Z.of_nat n)) /\
    forall x, ~ free_addr a <= x < free_addr a + Z.of_nat n -> m' x = blit dst (block m src n) m x.
Proof.
  intros Hh Hs Hd Hf. unfold memmove, kmemcpy, disjoint in *. rewrite kmalloc_correct by done. cbn [mbind res_bind].
  set (t := free_addr a) in *.
  destruct (copy_bytes_correct n m t src fuel) as (m1 & E1 & H1); [lia | done |]. rewrite E1. cbn [mbind res_bind].
  destruct (copy_bytes_correct n m1 dst t fuel) as (m2 & E2 & H2); [lia | done |]. rewrite E2. cbn [mbind res_bind].
  exists m2. split; [done |]. intros x Hx. rewrite H2.
  assert (block m1 t n = block m src n) as ->.
  { rewrite <- (length_block m src n) at 1. apply block_bytes_at.
    apply (bytes_at_ext (blit t (block m src n) m)); [by intros; apply H1 | apply blit_bytes_at]. }
  apply blit_ext. rewrite H1, blit_out by (rewrite length_block; lia). done.
Qed.

(** C24. The functions that write memory store exactly what they promise and nothing else:
    [strcpy] and [strcat] leave the (concatenated) string at the target, [memset] and the
    word-wise or byte-wise zeroing fill the block, [memcpy] copies unless the target starts
    inside the source, and [memmove] copies correctly for every overlap, through a buffer it
    takes from the heap.  All of them terminate. *)
Theorem memory_functions_correct m fuel :
  (forall dst src s, cstr m src s ->
     disjoint dst (Z.of_nat (length s) + 1) src (Z.of_nat (length s) + 1) -> (length s < fuel)%nat ->
     exists m', strcpy fuel m dst src = Ok (dst, m') /\ forall x, m' x = blit dst (s ++ [0]) m x) /\
  (forall dst src s1 s2, cstr m dst s1 -> cstr m src s2 ->
     disjoint dst (Z.of_nat (length s1) + Z.of_nat (length s2) + 1) src (Z.of_nat (length s2) + 1) ->
     (length s1 < fuel)%nat -> (length s2 < fuel)%nat ->
     exists m', strcat fuel m dst src = Ok (dst, m') /\ cstr m' dst (s1 ++ s2) /\
       forall x, m' x = blit (dst + Z.of_nat (length s1)) (s2 ++ [0]) m x) /\
  (forall s c n, (n < fuel)%nat ->
     (exists m', memset fuel m s c (Z.of_nat n) = Ok (s, m') /\ forall x, m' x = blit s (replicate n (u8 c)) m x) /\
     (exists m', _no_asan_kmemzero fuel m s (Z.of_nat n) = Ok (s, m') /\ forall x, m' x = blit s (replicate n 0) m x)) /\
  (forall dst src n, dst <= src \/ src + Z.of_nat n <= dst -> (n < fuel)%nat ->
     exists m', memcpy fuel m dst src (Z.of_nat n) = Ok (dst, m') /\ forall x, m' x = blit dst (block m src n) m x) /\
  (forall a dst src n, free_addr a + Z.of_nat n < heap_end a ->
     disjoint (free_addr a) (Z.of_nat n) src (Z.of_nat n) -> disjoint (free_addr a) (Z.of_nat n) dst (Z.of_nat n) ->
     (n < fuel)%nat ->
     exists m', memmove fuel m a dst src (Z.of_nat n) =
         Ok (dst, m', Allocator (heap_start a) (heap_end a) (free_addr a + Z.of_nat n)) /\
       forall x, ~ free_addr a <= x < free_addr a + Z.of_nat n -> m' x = blit dst (block m src n) m x).
Proof.
  split_and!.
  - intros dst src s Hs Hd Hf. unfold strcpy.
    destruct (copy_string_correct s m dst src fuel Hs Hd Hf) as (m' & -> & Hm). by exists m'.
  - intros dst src s1 s2 H1 H2 Hd Hf1 Hf2. unfold strcat. rewrite (find_end_correct m dst s1) by done. cbn [mbind res_bind].
    destruct (copy_string_correct s2 m (dst + Z.of_nat (length s1)) src fuel H2) as (m' & -> & Hm);
      [unfold disjoint in *; lia | done |].
    exists m'. split_and!; [done | | done]. apply (blit_cstr m m'); [done | apply H2 | done].
  - intros s c n Hf. split.
    + unfold memset, kmemset. destruct (set_bytes_correct n m s c fuel Hf) as (m' & -> & Hm). by exists m'.
    + unfold _no_asan_kmemzero. destruct (Z.eqb_spec (Z.of_nat n mod 4) 0) as [E |].
      * pose proof (Z.div_mod (Z.of_nat n) 4).
        destruct (zero_words_correct (Z.to_nat (Z.of_nat n / 4)) m s fuel) as (m' & E' & Hm); [lia |].
        rewrite Z2Nat.id in E' by lia. rewrite E'. exists m'. split; [done |]. intros x. rewrite Hm.
        by replace (4 * Z.to_nat (Z.of_nat n / 4))%nat with n by lia.
      * destruct (set_bytes_correct n m s 0 fuel Hf) as (m' & -> & Hm). by exists m'.
  - intros dst src n Hd Hf. unfold memcpy, kmemcpy.
    destruct (copy_bytes_correct n m dst src fuel Hd Hf) as (m' & -> & Hm). by exists m'.
  - intros a dst src n. apply memmove_correct.
Qed.

(** The allocator does not align its blocks. *)
Example kmalloc_unaligned : (fst <$> ('(_, a) ← kmalloc 3 (Allocator 0x80100000 0x88000000 0); kmalloc 4 a)) = Ok 0x80100003.
Proof. reflexivity. Qed.

Example rand_sequence : rand 32 1 = (16838, 1103527590) /\ (rand 32 1103527590).1 = 5758 /\ abs (-5) = 5 /\ atoi 8 (mem_of 16 (bytes "  42 ")) 16 = Ok 42.
Proof. vm_compute. intuition. Qed.

(** ** Examples the theorems apply to *)

(** Two strings at 100 and 104 and a free area from 200 on. *)
Definition sample_strings : mem := mem_of 100 (bytes "abc" ++ [0] ++ bytes "abd" ++ [0]).

(** Decides [cstr] on a concrete memory. *)
Definition cstrb (m : mem) (p : Z) (s : list Z) : bool :=
  forallb (fun i => m (p + Z.of_nat i) =? nth i (s ++ [0]) 0) (seq 0 (S (length s))) &&
  forallb (fun c => (0 <? c) && (c <? 256)) s.

Lemma cstrb_true m p s : cstrb m p s = true -> cstr m p s.
Proof.
  intros [H1 H2]%andb_true_iff. split.
  - intros i x E. rewrite forallb_forall in H1. pose proof (lookup_lt_Some _ _ _ E) as Hi.
    rewrite length_app in Hi. cbn in Hi. specialize (H1 i). rewrite in_seq in H1.
    specialize (H1 ltac:(lia)). apply Z.eqb_eq in H1. rewrite H1. by apply nth_lookup_Some.
  - rewrite forallb_forall in H2. apply Forall_forall. intros x Hx. apply list_elem_of_In in Hx.
    specialize (H2 x Hx). apply andb_true_iff in H2 as [?%Z.ltb_lt ?%Z.ltb_lt]. lia.
Qed.

Lemma string_comparisons_correct_witness :
  cstr sample_strings 100 (bytes "abc") /\ cstr sample_strings 104 (bytes "abd") /\
  strlen 9 sample_strings 100 = Ok 3 /\ strcmp 9 sample_strings 100 104 = Ok (-1) /\
  strncmp 9 sample_strings 100 104 2 = Ok 0 /\ memcmp 9 sample_strings 100 104 2 = Ok 0.
Proof.
  assert (cstr sample_strings 100 (bytes "abc")) as H1 by (apply cstrb_true; reflexivity).
  assert (cstr sample_strings 104 (bytes "abd")) as H2 by (apply cstrb_true; reflexivity).
  split; [exact H1 |]. split; [exact H2 |].
  destruct (string_comparisons_correct sample_strings 100 104 (bytes "abc") (bytes "abd") 2 9 H1 H2)
    as (E1 & E2 & _ & E3 & E4 & _); [vm_compute; reflexivity | lia | vm_compute; lia | lia |].
  exact (conj E1 (conj E2 (conj E3 E4))).
Defined.

Lemma memory_functions_correct_witness :
  disjoint 200 8 100 8 /\
  (exists m', strcpy 9 sample_strings 200 100 = Ok (200, m') /\ m' 202 = 99) /\
  (exists m', memmove 9 sample_strings (Allocator 300 400 0) 101 100 5 = Ok (101, m', Allocator 300 400 305) /\ m' 104 = 0).
Proof.
  split; [right; lia |].
  destruct (memory_functions_correct sample_strings 9) as (H1 & _ & _ & _ & H2).
  split.
  - destruct (H1 200 100 (bytes "abc")) as (m' & E & Hm).
    + apply cstrb_true. reflexivity.
    + right. vm_compute. discriminate.
    + vm_compute. lia.
    + exists m'. split; [exact E |]. rewrite Hm. reflexivity.
  - destruct (H2 (Allocator 300 400 0) 101 100 5%nat) as (m' & E & Hm); [vm_compute; reflexivity | right; vm_compute; discriminate.. | lia |].
    exists m'. split; [exact E |]. rewrite Hm; [reflexivity |]. unfold free_addr. cbn. lia.
Defined.
