(* ===== verification/KPrintf.v ===== *)
(** Formatted output of the freestanding C library (abstract-machine/klib/src/stdio.c and
    my_putnum.c): decimal, hexadecimal and binary number printing, format parsing and the
    printf family.

    A sink (the source's [putch_func] with its [exinfo]) is a function on a state that
    contains the memory, because [sprintf] writes the memory the format and the string
    arguments are read from.  A character pointer is a reading function and an offset, so
    that it can point into memory or into the local buffer a number is converted in. *)

From S2P Require Import Prelude KString.

(** ** my_putnum.c *)

(** The console: the characters written so far. *)
Definition console := list Z.
Definition putch (ch : Z) (out : console) : console := out ++ [u8 ch].

(** [for (; idx >= 0; idx--) putch(buf[idx])], called with the number of digits. *)
Fixpoint put_rev (idx : nat) (buf : list Z) (out : console) : console :=
  match idx with
  | O => out
  | S idx => put_rev idx buf (putch (nth idx buf 0) out)
  end.

(** The digit loop: at most ten decimal digits, so 16 rounds are enough. *)
Fixpoint putnum_loop (fuel : nat) (x : Z) (buf : list Z) (idx : Z) : res (list Z * Z) :=
  match fuel with
  | O => Fault FFuel
  | S fuel =>
      if 0 <? x then
        if idx <? 16 then putnum_loop fuel (x / 10) (aset buf idx (u8 (x mod 10 + 48))) (idx + 1)
        else Fault FUndef
      else Ok (buf, idx)
  end.

Definition putnum (x : Z) (out : console) : res console :=
  let buf := replicate 16 0 in
  let '(buf, idx) := if x =? 0 then (aset buf 0 48, 1) else (buf, 0) in
  '(buf, idx) ← putnum_loop 17 x buf idx;
  Ok (put_rev (Z.to_nat idx) buf out).

(** [for (m = 1 << 7; m; m >>= 1) putch((x & m) ? '1' : '0')] *)
Fixpoint putnumb2_loop (fuel : nat) (x m : Z) (out : console) : res console :=
  match fuel with
  | O => Fault FFuel
  | S fuel =>
      if negb (m =? 0) then
        putnumb2_loop fuel x (m >>> 1) (putch (if negb ((x &&& m) =? 0) then 49 else 48) out)
      else Ok out
  end.

Definition _putnumb2 (x : Z) (out : console) : res console := putnumb2_loop 9 (u8 x) (1 <<< 7) out.

Definition UNDERSCORE : Z := 95.

(** [if (x >> k) { _putnumb2(x >> k); putch('_'); }] *)
Definition put_group (x k : Z) (out : console) : res console :=
  if negb ((x >>> k) =? 0) then
    out ← _putnumb2 (x >>> k) out;
    Ok (putch UNDERSCORE out)
  else Ok out.

Definition putnum_base2 (x : Z) (out : console) : res console :=
  out ← put_group x 24 out;
  out ← put_group x 16 out;
  out ← put_group x 8 out;
  _putnumb2 x out.

Fixpoint putnum16_loop (fuel : nat) (x : Z) (buf : list Z) (idx : Z) : res (list Z * Z) :=
  match fuel with
  | O => Fault FFuel
  | S fuel =>
      if negb (x =? 0) then
        let t := x &&& 0xf in
        if idx <? 8 then
          putnum16_loop fuel (x >>> 4) (aset buf idx (u8 (if t <? 10 then t + 48 else t - 10 + 65))) (idx + 1)
        else Fault FUndef
      else Ok (buf, idx)
  end.

Definition putnum_base16 (x : Z) (out : console) : res console :=
  let buf := replicate 8 0 in
  let '(buf, idx) := if x =? 0 then (aset buf 0 48, 1) else (buf, 0) in
  '(buf, idx) ← putnum16_loop 9 x buf idx;
  Ok (put_rev (Z.to_nat idx) buf out).

(** ** stdio.c: formats *)

Definition isdigit (c : Z) : bool := (48 <=? c) && (c <=? 57).

Inductive LengthModifier := LM_None | LM_l | LM_ll.
#[export] Instance LengthModifier_eq_dec : EqDecision LengthModifier.
Proof. solve_decision. Defined.

Record format_info := FormatInfo {
  zero_pad : bool;
  width : Z;
  precision : Z;
  len : LengthModifier;
  conversion : Z }.

(** A variadic argument. *)
Inductive arg := VInt (v : Z) | VLong (v : Z) | VLongLong (v : Z) | VPtr (p : Z).

(** Reads the number; returns the end pointer. *)
Fixpoint parse_dec_num (fuel : nat) (m : mem) (beg out : Z) : res (Z * Z) :=
  match fuel with
  | O => Fault FFuel
  | S fuel =>
      if isdigit (m beg) then parse_dec_num fuel m (beg + 1) (u64 (out * 10 + m beg - 48))
      else Ok (beg, out)
  end.

Definition parse_format (fuel : nat) (m : mem) (fmt : Z) : res (Z * format_info) :=
  c_assert (m fmt =? 37);;
  let fmt := fmt + 1 in
  let '(zero, fmt) := if m fmt =? 48 then (true, fmt + 1) else (false, fmt) in
  '(fmt, w) ← (if isdigit (m fmt) then
                 '(fmt, w) ← parse_dec_num fuel m fmt 0; Ok (fmt, s32 w)
               else Ok (fmt, 0));
  let '(lm, fmt) :=
    if m fmt =? 108 then
      if m (fmt + 1) =? 108 then (LM_ll, fmt + 2) else (LM_l, fmt + 1)
    else (LM_None, fmt) in
  Ok (fmt + 1, FormatInfo zero w 0 lm (m fmt)).

(** ** stdio.c: output *)

Section printf.
  Context {X : Type} (long_bits : Z).
  (** [f_putch]: the answer and the state after it. *)
  Variable f_putch : Z -> mem * X -> bool * (mem * X).

  (** A character pointer: how it is read, and the offset. *)
  Abbreviation reader := (mem -> Z -> Z).

(** [while (len < width) { _putch(pad); width--; }]; the comparison is unsigned. *)
Fixpoint put_pad (fuel : nat) (pad l w : Z) (st : mem * X) : res (bool * (mem * X)) :=
  match fuel with
  | O => Fault FFuel
  | S fuel =>
      if l <? u32 w then
        let '(ok, st) := f_putch pad st in
        if ok then put_pad fuel pad l (s32 (w - 1)) st else Ok (false, st)
      else Ok (true, st)
  end.

Fixpoint put_chars (fuel : nat) (rd : reader) (s send : Z) (st : mem * X) : res (bool * (mem * X)) :=
  match fuel with
  | O => Fault FFuel
  | S fuel =>
      if negb (s =? send) then
        let '(ok, st') := f_putch (rd (fst st) s) st in
        if ok then put_chars fuel rd (s + 1) send st' else Ok (false, st')
      else Ok (true, st)
  end.

(** The counter is not an argument: the source increments its copy of the pointer to it. *)
Definition put_withpad (fuel : nat) (fi : format_info) (rd : reader) (s l : Z) (st : mem * X)
    : res (bool * (mem * X)) :=
  let pad := if zero_pad fi then 48 else 32 in
  let send := s + l in
  '(ok, st) ← put_pad fuel pad l (width fi) st;
  if (ok : bool) then put_chars fuel rd s send st else Ok (false, st).

Definition in_buf (buf : list Z) : reader := fun _ i => aget 0 buf i.

(** The digits are stored downwards from the end of the buffer. *)
Fixpoint snum_loop (fuel : nat) (d : Z) (buf : list Z) (p : Z) : res (list Z * Z) :=
  match fuel with
  | O => Fault FFuel
  | S fuel =>
      let p := p - 1 in
      let tmp := Z.rem d 10 in
      let tmp := if tmp <? 0 then - tmp else tmp in
      if p <? 0 then Fault FUndef
      else
        let buf := aset buf p (u8 (48 + tmp)) in
        let d := Z.quot d 10 in
        if negb (d =? 0) then snum_loop fuel d buf p else Ok (buf, p)
  end.

Definition put_snum (fuel : nat) (fi : format_info) (d : Z) (st : mem * X) : res (bool * (mem * X)) :=
  let '(ok, st) := if d <? 0 then f_putch 45 st else (true, st) in
  if (ok : bool) then
    '(buf, p) ← snum_loop 64 d (replicate 64 0) 64;
    put_withpad fuel fi (in_buf buf) p (64 - p) st
  else Ok (false, st).

Definition table_low : list Z := bytes "0123456789abcdef".
Definition table_up : list Z := bytes "0123456789ABCDEF".

Fixpoint unum_loop (fuel : nat) (table : list Z) (base u : Z) (buf : list Z) (p : Z) : res (list Z * Z) :=
  match fuel with
  | O => Fault FFuel
  | S fuel =>
      let p := p - 1 in
      if p <? 0 then Fault FUndef
      else
        let buf := aset buf p (aget 0 table (u mod base)) in
        let u := u / base in
        if negb (u =? 0) then unum_loop fuel table base u buf p else Ok (buf, p)
  end.

Definition put_unum (fuel : nat) (fi : format_info) (u base : Z) (upper : bool) (st : mem * X)
    : res (bool * (mem * X)) :=
  let table := if upper then table_up else table_low in
  '(buf, p) ← unum_loop 64 table base u (replicate 64 0) 64;
  put_withpad fuel fi (in_buf buf) p (64 - p) st.

(** [va_arg] at the type a length modifier selects; another type is undefined. *)
Definition load_signed (lm : LengthModifier) (ap : list arg) : res (Z * list arg) :=
  match lm, ap with
  | LM_None, VInt v :: ap => Ok (s32 v, ap)
  | LM_l, VLong v :: ap => Ok (sext long_bits v, ap)
  | LM_ll, VLongLong v :: ap => Ok (s64 v, ap)
  | _, _ => Fault FUndef
  end.

Definition load_unsigned (lm : LengthModifier) (ap : list arg) : res (Z * list arg) :=
  match lm, ap with
  | LM_None, VInt v :: ap => Ok (u32 v, ap)
  | LM_l, VLong v :: ap => Ok (wrap long_bits v, ap)
  | LM_ll, VLongLong v :: ap => Ok (u64 v, ap)
  | _, _ => Fault FUndef
  end.

(** The [switch] on the conversion character: the sink's answer, the state and the
    remaining arguments.  An unknown conversion stops with a message. *)
Definition convert (fuel : nat) (fi : format_info) (st : mem * X) (ap : list arg)
    : res (bool * (mem * X) * list arg) :=
  let c := conversion fi in
  if c =? 99 then
    match ap with
    | VInt v :: ap =>
        r ← put_withpad fuel fi (fun _ _ => u8 v) 0 1 st;
        Ok (r, ap)
    | _ => Fault FUndef
    end
  else if c =? 115 then
    match ap with
    | VPtr str :: ap =>
        l ← strlen fuel (fst st) str;
        r ← put_withpad fuel fi (fun m a => m a) str l st;
        Ok (r, ap)
    | _ => Fault FUndef
    end
  else if c =? 100 then
    '(d, ap) ← load_signed (len fi) ap;
    r ← put_snum fuel fi d st;
    Ok (r, ap)
  else if (c =? 111) || (c =? 117) || (c =? 120) || (c =? 88) then
    '(u, ap) ← load_unsigned (len fi) ap;
    let base := if c =? 117 then 10 else if c =? 111 then 8 else 16 in
    r ← put_unum fuel fi u base (c =? 88) st;
    Ok (r, ap)
  else Fault FPanic.

(** The loop over the format; [fuel2] is the fuel of the loops inside. *)
Fixpoint meta_printf_loop (fuel fuel2 : nat) (cnt fmt : Z) (ap : list arg) (st : mem * X)
    : res (Z * (mem * X)) :=
  match fuel with
  | O => Fault FFuel
  | S fuel =>
      let c := fst st fmt in
      if negb (c =? 0) then
        if c =? 37 then
          '(fmt, fi) ← parse_format fuel2 (fst st) fmt;
          '(ok, st, ap) ← convert fuel2 fi st ap;
          if (ok : bool) then meta_printf_loop fuel fuel2 cnt fmt ap st else Ok (cnt, st)
        else
          let '(ok, st) := f_putch c st in
          if ok then meta_printf_loop fuel fuel2 (s32 (cnt + 1)) (fmt + 1) ap st else Ok (0, st)
      else Ok (cnt, st)
  end.

Definition meta_printf (fuel : nat) (fmt : Z) (ap : list arg) (st : mem * X) : res (Z * (mem * X)) :=
  meta_printf_loop fuel fuel 0 fmt ap st.
End printf.

Definition printf_putch (ch : Z) (st : mem * console) : bool * (mem * console) :=
  (true, (fst st, putch ch (snd st))).

Definition printf (long_bits : Z) (fuel : nat) (fmt : Z) (ap : list arg) (st : mem * console)
    : res (Z * (mem * console)) :=
  meta_printf long_bits printf_putch fuel fmt ap st.

(** The extra information is the output pointer. *)
Definition sprintf_putch_to_str (c : Z) (st : mem * Z) : bool * (mem * Z) :=
  (true, (mwrite (fst st) (snd st) (u8 c), snd st + 1)).

Definition vsprintf (long_bits : Z) (fuel : nat) (out fmt : Z) (ap : list arg) (m : mem) : res (Z * mem) :=
  '(cnt, st) ← meta_printf long_bits sprintf_putch_to_str fuel fmt ap (m, out);
  let '(_, (m, _)) := sprintf_putch_to_str 0 st in
  Ok (cnt, m).

Definition sprintf (long_bits : Z) (fuel : nat) (out fmt : Z) (ap : list arg) (m : mem) : res (Z * mem) :=
  vsprintf long_bits fuel out fmt ap m.

(** Runs [printf] on a format stored at 16 and a string stored at 96. *)
Definition printf_sample (fmt : String.string) (ap : list arg) : res (Z * list Z) :=
  '(n, st) ← printf 32 99 16 ap
     (fun a => if a <? 96 then mem_of 16 (bytes fmt) a else mem_of 96 (bytes "nemu") a, []);
  Ok (n, snd st).

Example printf_outputs :
  printf_sample "a=%d b=%5u c=%08x s=%6s %c;" [VInt (-12); VInt 7; VInt 0xbeef; VPtr 96; VInt 33] =
    Ok (13, bytes "a=-12 b=    7 c=0000beef s=  nemu !;") /\
  printf_sample "%lld %X %o" [VLongLong (- 2 ^ 63); VInt 255; VInt 8] =
    Ok (2, bytes "-9223372036854775808 FF 10") /\
  printf_sample "%05d" [VInt (-42)] = Ok (0, bytes "-00042") /\
  printf_sample "100%%" [] = Fault FPanic /\
  putnum 4294967295 [] = Ok (bytes "4294967295") /\ putnum_base16 0xdeadbeef [] = Ok (bytes "DEADBEEF") /\
  putnum_base2 0x105 [] = Ok (bytes "00000001_00000101").
Proof. vm_compute. intuition. Qed.

(** ** Numerals *)

(** The digits of [u], least significant first, at most [n] of them. *)
Fixpoint rdigits (n : nat) (base u : Z) : list Z :=
  match n with
  | O => []
  | S n => u mod base :: (if u / base =? 0 then [] else rdigits n base (u / base))
  end.

(** Positional notation of a 64-bit number. *)
Definition digits (base u : Z) : list Z := rev (rdigits 64 base u).

(** The number a list of digits denotes. *)
Definition horner (base : Z) (ds : list Z) : Z := foldl (fun a d => a * base + d) 0 ds.

Definition digit_char (d : Z) : Z := 48 + d.
Definition hex_char (d : Z) : Z := if d <? 10 then d + 48 else d - 10 + 65.

Lemma div_fits base u n : 2 <= base -> 0 <= u < base ^ Z.of_nat (S n) -> 0 <= u / base < base ^ Z.of_nat n.
Proof.
  intros Hb Hu. split; [apply Z.div_pos; lia |]. apply Z.div_lt_upper_bound; [lia |].
  rewrite Nat2Z.inj_succ, Z.pow_succ_r in Hu by lia. lia.
Qed.

Lemma fits_zero base u n : 2 <= base -> 0 <= u < base ^ Z.of_nat n -> u <> 0 -> (0 < n)%nat.
Proof. intros Hb Hu H0. destruct n; [cbn in Hu; lia | lia]. Qed.

(** More rounds than the number has digits change nothing. *)
Lemma rdigits_more n k base u :
  2 <= base -> 0 <= u < base ^ Z.of_nat n -> (0 < n <= k)%nat -> rdigits n base u = rdigits k base u.
Proof.
  revert k u. induction n as [|n IH]; intros [|k] u Hb Hu Hn; try lia. cbn [rdigits]. f_equal.
  pose proof (div_fits base u n Hb Hu) as Hd. destruct (Z.eqb_spec (u / base) 0) as [| H0]; [done |].
  pose proof (fits_zero base (u / base) n Hb Hd H0). apply IH; done || lia.
Qed.

Lemma rdigits_digit n base u : 2 <= base -> Forall (fun d => 0 <= d < base) (rdigits n base u).
Proof.
  intros Hb. revert u. induction n as [|n IH]; intros u; cbn [rdigits]; [done |].
  constructor; [apply Z.mod_pos_bound; lia |]. by destruct (u / base =? 0).
Qed.

Lemma horner_snoc base ds d : horner base (ds ++ [d]) = horner base ds * base + d.
Proof. unfold horner. by rewrite foldl_app. Qed.

Lemma rdigits_value n base u :
  2 <= base -> 0 <= u < base ^ Z.of_nat n -> (0 < n)%nat -> horner base (rev (rdigits n base u)) = u.
Proof.
  intros Hb. revert u. induction n as [|n IH]; intros u Hu Hn; [lia |]. cbn [rdigits rev]. rewrite horner_snoc.
  pose proof (div_fits base u n Hb Hu) as Hd. pose proof (Z.div_mod u base).
  destruct (Z.eqb_spec (u / base) 0) as [E | H0]; [cbn; lia |].
  rewrite IH by (done || by apply (fits_zero base (u / base) n)). lia.
Qed.

Lemma rdigits_length n base u : (length (rdigits n base u) <= n)%nat.
Proof.
  revert u. induction n as [|n IH]; intros u; cbn [rdigits length]; [lia |].
  destruct (u / base =? 0); cbn; [lia |]. specialize (IH (u / base)). lia.
Qed.

(** No leading zero. *)
Lemma rdigits_last n base u :
  2 <= base -> 0 < u < base ^ Z.of_nat n -> exists l d, rdigits n base u = l ++ [d] /\ d <> 0.
Proof.
  intros Hb. revert u. induction n as [|n IH]; intros u Hu; [cbn in Hu; lia |]. cbn [rdigits].
  pose proof (div_fits base u n Hb ltac:(lia)) as Hd. pose proof (Z.div_mod u base).
  destruct (Z.eqb_spec (u / base) 0) as [E | H0]; [exists [], (u mod base); split; [done | lia] |].
  destruct (IH (u / base)) as (l & d & -> & Hn); [lia |]. by exists (u mod base :: l), d.
Qed.

Lemma fits64 base u : 2 <= base -> in_range 64 u -> 0 <= u < base ^ Z.of_nat 64.
Proof.
  intros Hb [H0 H1]. split; [done |]. apply (Z.lt_le_trans _ _ _ H1). apply Z.pow_le_mono_l. lia.
Qed.

Lemma digits_value base u : 2 <= base -> in_range 64 u -> horner base (digits base u) = u.
Proof. intros Hb Hu. apply rdigits_value; [done | by apply fits64 | lia]. Qed.

Lemma digits_digit base u : 2 <= base -> Forall (fun d => 0 <= d < base) (digits base u).
Proof. intros Hb. apply Forall_rev, rdigits_digit, Hb. Qed.

Lemma digits_zero base : 2 <= base -> digits base 0 = [0].
Proof.
  intros Hb. unfold digits. change 64%nat with (S 63). cbn [rdigits].
  rewrite Z.div_0_l, Z.mod_0_l by lia. reflexivity.
Qed.

Lemma digits_head base u :
  2 <= base -> in_range 64 u -> u <> 0 -> exists d ds, digits base u = d :: ds /\ d <> 0.
Proof.
  intros Hb Hu H0. pose proof (fits64 base u Hb Hu). unfold digits.
  destruct (rdigits_last 64 base u Hb) as (l & d & -> & Hd); [lia |].
  exists d, (rev l). by rewrite rev_app_distr.
Qed.

(** ** Number printing *)

(** The digit loops of putnum and putnum_base16, for a base and a digit table. *)
Fixpoint fill_loop (f : Z -> Z) (base lim : Z) (fuel : nat) (x : Z) (buf : list Z) (idx : Z) : res (list Z * Z) :=
  match fuel with
  | O => Fault FFuel
  | S fuel =>
      if x =? 0 then Ok (buf, idx)
      else if idx <? lim then fill_loop f base lim fuel (x / base) (aset buf idx (f (x mod base))) (idx + 1)
      else Fault FUndef
  end.

Lemma putnum_loop_fill fuel x buf idx :
  0 <= x -> putnum_loop fuel x buf idx = fill_loop (fun d => u8 (d + 48)) 10 16 fuel x buf idx.
Proof.
  revert x buf idx. induction fuel as [|fuel IH]; intros x buf idx Hx; [done |]. cbn [putnum_loop fill_loop].
  destruct (Z.ltb_spec 0 x), (Z.eqb_spec x 0); try lia; [| done].
  destruct (idx <? 16); [| done]. apply IH, Z.div_pos; lia.
Qed.

Lemma putnum16_loop_fill fuel x buf idx :
  0 <= x -> putnum16_loop fuel x buf idx = fill_loop (fun d => u8 (hex_char d)) 16 8 fuel x buf idx.
Proof.
  revert x buf idx. induction fuel as [|fuel IH]; intros x buf idx Hx; [done |]. cbn [putnum16_loop fill_loop].
  destruct (Z.eqb_spec x 0); [done |]. cbn [negb].
  change 0xf with (Z.ones 4). rewrite Z.land_ones, Z.shiftr_div_pow2 by lia. change (2 ^ 4) with 16.
  destruct (idx <? 8); [| done]. apply IH, Z.div_pos; lia.
Qed.

Lemma take_aset {A} (l : list A) i v :
  0 <= i < Z.of_nat (length l) -> take (S (Z.to_nat i)) (aset l i v) = take (Z.to_nat i) l ++ [v].
Proof.
  intros Hi. unfold aset. rewrite (take_S_r _ _ v) by (apply list_lookup_insert_eq; lia).
  by rewrite take_insert_ge by lia.
Qed.

Lemma fill_loop_correct f base lim n fuel x buf idx :
  2 <= base -> 0 < x < base ^ Z.of_nat n -> (n < fuel)%nat -> 0 <= idx ->
  idx + Z.of_nat (length (rdigits n base x)) <= lim -> lim <= Z.of_nat (length buf) ->
  exists buf', fill_loop f base lim fuel x buf idx = Ok (buf', idx + Z.of_nat (length (rdigits n base x))) /\
    take (Z.to_nat (idx + Z.of_nat (length (rdigits n base x)))) buf' =
      take (Z.to_nat idx) buf ++ (f <$> rdigits n base x).
Proof.
  intros Hb. revert fuel x buf idx. induction n as [|n IH]; intros [|fuel] x buf idx Hx Hf Hi Hl Hlim; try lia.
  cbn [fill_loop rdigits] in *. rewrite (proj2 (Z.eqb_neq x 0)) by lia.
  pose proof (div_fits base x n Hb ltac:(lia)) as Hd.
  destruct (Z.eqb_spec (x / base) 0) as [E | H0]; cbn [length] in *; rewrite (proj2 (Z.ltb_lt idx lim)) by lia.
  - destruct fuel as [|fuel]; [pose proof (fits_zero base x n); destruct n; lia |]. rewrite E. cbn [fill_loop Z.eqb].
    eexists. split; [done |]. replace (Z.to_nat (idx + Z.of_nat 1)) with (S (Z.to_nat idx)) by lia.
    rewrite take_aset by lia. done.
  - destruct (IH fuel (x / base) (aset buf idx (f (x mod base))) (idx + 1)) as (buf' & E1 & E2);
      [lia | lia | lia | lia | rewrite length_aset; lia |].
    exists buf'. replace (idx + Z.of_nat (S (length (rdigits n base (x / base)))))
      with (idx + 1 + Z.of_nat (length (rdigits n base (x / base)))) by lia.
    split; [done |]. rewrite E2. replace (Z.to_nat (idx + 1)) with (S (Z.to_nat idx)) by lia.
    rewrite take_aset by lia. by rewrite <- app_assoc.
Qed.

Lemma put_rev_correct n buf out :
  (n <= length buf)%nat -> put_rev n buf out = out ++ (u8 <$> rev (take n buf)).
Proof.
  revert out. induction n as [|n IH]; intros out Hn; cbn [put_rev]; [by rewrite take_0, app_nil_r |].
  rewrite IH by lia. unfold putch. rewrite <- app_assoc. f_equal.
  destruct (lookup_lt_is_Some_2 buf n) as [v Ev]; [lia |].
  rewrite (take_S_r _ _ _ Ev), rev_app_distr. cbn. by rewrite (nth_lookup_Some _ _ _ _ Ev).
Qed.

Lemma fmap_rev {A B} (f : A -> B) l : rev (f <$> l) = f <$> rev l.
Proof. symmetry. apply (map_rev f). Qed.

(** What putnum and putnum_base16 have in common. *)
Lemma print_number f base lim n fuel x out :
  2 <= base -> 0 <= x < base ^ Z.of_nat n -> (0 < n < fuel)%nat -> (n <= 64)%nat -> Z.of_nat n <= lim ->
  (forall d, in_range 8 (f d)) ->
  ('(buf, idx) ←
     (let '(buf, idx) := if x =? 0 then (aset (replicate (Z.to_nat lim) 0) 0 (f 0), 1)
                         else (replicate (Z.to_nat lim) 0, 0) in
      fill_loop f base lim fuel x buf idx);
   Ok (put_rev (Z.to_nat idx) buf out)) = Ok (out ++ (f <$> digits base x)).
Proof.
  intros Hb Hx Hn H64 Hl Hr. destruct fuel as [|fuel]; [lia |]. destruct (Z.eqb_spec x 0) as [-> | H0].
  - cbn [fill_loop Z.eqb mbind res_bind]. rewrite digits_zero by done.
    change (Z.to_nat 1) with (S (Z.to_nat 0)).
    rewrite put_rev_correct by (rewrite length_aset, length_replicate; cbn; lia).
    rewrite take_aset by (rewrite length_replicate; lia).
    change (Ok (out ++ [u8 (f 0)]) = Ok (out ++ [f 0])). by rewrite wrap_small by apply Hr.
  - destruct (fill_loop_correct f base lim n (S fuel) x (replicate (Z.to_nat lim) 0) 0) as (buf' & E1 & E2);
      [done | split; [lia | apply Hx] | lia | lia | pose proof (rdigits_length n base x); lia | rewrite length_replicate; lia |].
    rewrite E1. cbn [mbind res_bind]. f_equal. rewrite Z.add_0_l, Nat2Z.id in E2 |- *.
    change (Z.to_nat 0) with 0%nat in E2. rewrite take_0 in E2. cbn [app] in E2. rewrite put_rev_correct.
    + rewrite E2. f_equal. unfold digits. rewrite (rdigits_more n 64 base x) by (done || lia).
      rewrite (fmap_rev f), <- list_fmap_compose.
      apply list_fmap_ext. intros i d _. by apply wrap_small.
    + assert (length (take (length (rdigits n base x)) buf') = length (rdigits n base x)) as E by (rewrite E2; apply length_fmap).
      rewrite length_take in E. lia.
Qed.

Lemma putnum_correct x out : in_range 32 x -> putnum x out = Ok (out ++ (digit_char <$> digits 10 x)).
Proof.
  intros Hx. unfold in_range in Hx.
  transitivity (Ok (out ++ ((fun d => u8 (d + 48)) <$> digits 10 x))).
  - rewrite <- (print_number (fun d => u8 (d + 48)) 10 16 10 17 x out); auto with cint; [| lia..].
    unfold putnum. destruct (x =? 0); cbn [mbind res_bind]; by rewrite putnum_loop_fill by lia.
  - do 2 f_equal. apply list_fmap_ext. intros i d Ed. pose proof (digits_digit 10 x ltac:(lia)) as Hd.
    apply (Forall_lookup_1 _ _ _ _ Hd) in Ed. unfold digit_char. rewrite wrap_small by (unfold in_range; lia). lia.
Qed.

Lemma putnum_base16_correct x out : in_range 32 x -> putnum_base16 x out = Ok (out ++ (hex_char <$> digits 16 x)).
Proof.
  intros Hx. unfold in_range in Hx.
  transitivity (Ok (out ++ ((fun d => u8 (hex_char d)) <$> digits 16 x))).
  - rewrite <- (print_number (fun d => u8 (hex_char d)) 16 8 8 9 x out); auto with cint; [| lia..].
    unfold putnum_base16. destruct (x =? 0); cbn [mbind res_bind]; by rewrite putnum16_loop_fill by lia.
  - do 2 f_equal. apply list_fmap_ext. intros i d Ed. pose proof (digits_digit 16 x ltac:(lia)) as Hd.
    apply (Forall_lookup_1 _ _ _ _ Hd) in Ed. apply wrap_small. unfold hex_char, in_range. zcmp.
Qed.

Lemma land_pow2_test x k : 0 <= k -> ((x &&& 2 ^ k) =? 0) = negb (Z.testbit x k).
Proof.
  intros Hk. destruct (Z.testbit x k) eqn:E; cbn [negb].
  - apply Z.eqb_neq. intros H0. assert (Z.testbit (x &&& 2 ^ k) k = true) as Ht.
    + by rewrite Z.land_spec, E, Z.pow2_bits_true by lia.
    + by rewrite H0, Z.bits_0 in Ht.
  - apply Z.eqb_eq. zbits. rewrite Z.bits_0. destruct (decide (i = k)) as [-> | Hne]; [by rewrite E |].
    rewrite Z.pow2_bits_false by lia. apply andb_false_r.
Qed.

(** The bits [k], ..., 0. *)
Fixpoint bits_from (k : nat) (x : Z) : list Z :=
  b2z (Z.testbit x (Z.of_nat k)) :: match k with O => [] | S k => bits_from k x end.

Lemma putnumb2_loop_correct k x out :
  putnumb2_loop (S (S k)) x (2 ^ Z.of_nat k) out = Ok (out ++ (digit_char <$> bits_from k x)).
Proof.
  revert out. induction k as [|k IH]; intros out; cbn [putnumb2_loop bits_from];
    rewrite land_pow2_test, negb_involutive, (proj2 (Z.eqb_neq (2 ^ _) 0)) by (try apply Z.pow_nonzero; lia); cbn [negb].
  - change (2 ^ Z.of_nat 0 >>> 1) with 0. by destruct (Z.testbit x _).
  - rewrite Nat2Z.inj_succ, Z.shiftr_div_pow2, Z.pow_succ_r, Z.pow_1_r by lia.
    rewrite (Z.mul_comm 2), Z.div_mul by lia. cbn [putnumb2_loop] in IH. rewrite IH. f_equal. unfold putch.
    rewrite <- app_assoc. f_equal. cbn [fmap list_fmap app]. f_equal. by destruct (Z.testbit x _).
Qed.

Lemma bits_from_wrap k x w : Z.of_nat k < w -> bits_from k (wrap w x) = bits_from k x.
Proof.
  induction k as [|k IH]; intros Hw; cbn [bits_from]; rewrite testbit_wrap, (proj2 (Z.ltb_lt _ w)) by lia;
    cbn [andb]; f_equal. apply IH. lia.
Qed.

Lemma putnumb2_correct x out : _putnumb2 x out = Ok (out ++ (digit_char <$> bits_from 7 x)).
Proof. unfold _putnumb2. rewrite <- (bits_from_wrap 7 x 8) by lia. apply putnumb2_loop_correct. Qed.

(** Reads a binary number with separators. *)
Definition read_base2 (text : list Z) : Z :=
  foldl (fun a c => if c =? UNDERSCORE then a else 2 * a + (c - 48)) 0 text.

Lemma wrap_top w x : 0 <= w -> wrap (w + 1) x = b2z (Z.testbit x w) * 2 ^ w + wrap w x.
Proof.
  intros Hw. unfold wrap, b2z. rewrite Z.testbit_spec', Z.pow_add_r by lia.
  pose proof (Z.pow_pos_nonneg 2 w). rewrite Z.rem_mul_r by lia. change (2 ^ 1) with 2. lia.
Qed.

Lemma read_bits a k x :
  foldl (fun a c => if c =? UNDERSCORE then a else 2 * a + (c - 48)) a (digit_char <$> bits_from k x) =
  a * 2 ^ (Z.of_nat k + 1) + wrap (Z.of_nat k + 1) x.
Proof.
  assert (forall b, (digit_char (b2z b) =? UNDERSCORE) = false /\ digit_char (b2z b) - 48 = b2z b) as Hd by (by intros []).
  revert a. induction k as [|k IH]; intros a; cbn [bits_from fmap list_fmap foldl].
  - destruct (Hd (Z.testbit x (Z.of_nat 0))) as [-> ->]. rewrite wrap_top by lia.
    change (Z.of_nat 0) with 0. unfold wrap. rewrite Z.mod_1_r. lia.
  - destruct (Hd (Z.testbit x (Z.of_nat (S k)))) as [-> ->].
    change (list_fmap Z Z digit_char (bits_from k x)) with (digit_char <$> bits_from k x).
    rewrite IH, (wrap_top (Z.of_nat (S k))) by lia.
    replace (Z.of_nat (S k)) with (Z.of_nat k + 1) by lia. rewrite (Z.pow_add_r 2 (Z.of_nat k + 1) 1) by lia. lia.
Qed.

Lemma put_group_correct x k out :
  put_group x k out =
  Ok (out ++ (if (x >>> k) =? 0 then [] else (digit_char <$> bits_from 7 (x >>> k)) ++ [UNDERSCORE])).
Proof.
  unfold put_group. destruct (_ =? 0); cbn [negb]; [by rewrite app_nil_r |].
  rewrite putnumb2_correct. cbn [mbind res_bind]. unfold putch. by rewrite <- app_assoc.
Qed.

(** Reading on through one group: the number read so far is the part above the group. *)
Lemma read_group x k :
  in_range 32 x -> 0 <= k ->
  foldl (fun a c => if c =? UNDERSCORE then a else 2 * a + (c - 48)) (x >>> (k + 8))
    (if (x >>> k) =? 0 then [] else (digit_char <$> bits_from 7 (x >>> k)) ++ [UNDERSCORE]) = x >>> k.
Proof.
  intros Hx Hk. rewrite <- Z.shiftr_shiftr by lia. destruct (Z.eqb_spec (x >>> k) 0) as [-> |]; [done |].
  rewrite foldl_app, read_bits. cbn. rewrite Z.shiftr_div_pow2 by lia.
  pose proof (Z.div_mod (x >>> k) (2 ^ 8)). unfold wrap. change (2 ^ (Z.of_nat 7 + 1)) with 256. change (2 ^ 8) with 256 in *. lia.
Qed.

Lemma putnum_base2_reads x out :
  in_range 32 x -> exists text, putnum_base2 x out = Ok (out ++ text) /\ read_base2 text = x.
Proof.
  intros Hx. unfold putnum_base2. rewrite !put_group_correct. cbn [mbind res_bind].
  rewrite put_group_correct. cbn [mbind res_bind]. rewrite put_group_correct. cbn [mbind res_bind].
  rewrite putnumb2_correct, <- !app_assoc. eexists. split; [done |]. unfold read_base2. rewrite !foldl_app.
  assert (x >>> (24 + 8) = 0) as E0 by (rewrite Z.shiftr_div_pow2 by lia; apply Z.div_small, Hx).
  pose proof (read_group x 24 Hx ltac:(lia)) as E24. rewrite E0 in E24. rewrite E24.
  pose proof (read_group x 16 Hx ltac:(lia)) as E16. change (16 + 8) with 24 in E16. rewrite E16.
  pose proof (read_group x 8 Hx ltac:(lia)) as E8. change (8 + 8) with 16 in E8. rewrite E8, read_bits.
  rewrite Z.shiftr_div_pow2 by lia. pose proof (Z.div_mod x (2 ^ 8)). unfold wrap. change (2 ^ (Z.of_nat 7 + 1)) with 256. change (2 ^ 8) with 256 in *. lia.
Qed.

(** ** Reading a number back *)

Lemma foldl_horner_ge base a ds :
  1 <= base -> 0 <= a -> Forall (fun d => 0 <= d < base) ds -> a <= foldl (fun a d => a * base + d) a ds.
Proof.
  intros Hb Ha Hd. revert a Ha. induction Hd as [|d ds Hd _ IH]; intros a Ha; cbn [foldl]; [lia |].
  specialize (IH (a * base + d)). nia.
Qed.

Lemma atoi_loop_correct m p ds a fuel :
  cstr m p (digit_char <$> ds) -> Forall (fun d => 0 <= d < 10) ds -> 0 <= a ->
  foldl (fun a d => a * 10 + d) a ds < 2 ^ 31 -> (length ds < fuel)%nat ->
  atoi_loop fuel m p a = Ok (foldl (fun a d => a * 10 + d) a ds).
Proof.
  intros Hs Hd. revert p a fuel Hs. induction Hd as [|d ds Hd Hds IH]; intros p a [|fuel] Hs Ha Hl Hf;
    cbn [length foldl fmap list_fmap] in *; try lia; cbn [atoi_loop].
  - apply cstr_nil in Hs. by rewrite Hs.
  - apply cstr_cons in Hs as (-> & _ & Hs). unfold digit_char at 1 2 3.
    rewrite (proj2 (Z.leb_le 48 _)), (proj2 (Z.leb_le _ 57)) by lia. cbn [andb].
    pose proof (foldl_horner_ge 10 (a * 10 + d) ds ltac:(lia) ltac:(lia) Hds) as Hge.
    replace (a * 10 + (48 + d) - 48) with (a * 10 + d) by lia.
    rewrite sext_small by (try split; lia). apply IH; done || lia.
Qed.

Lemma atoi_digits m p x fuel :
  cstr m p (digit_char <$> digits 10 x) -> 0 <= x < 2 ^ 31 -> (length (digits 10 x) < fuel)%nat -> atoi fuel m p = Ok x.
Proof.
  intros Hs Hx Hf. pose proof (digits_digit 10 x ltac:(lia)) as Hd.
  assert (in_range 64 x) as H64 by (unfold in_range; lia). pose proof (digits_value 10 x ltac:(lia) H64) as Ev.
  unfold horner in Ev. unfold atoi.
  assert (skip_spaces fuel m p = Ok p) as ->.
  { destruct fuel as [|fuel]; [lia |]. cbn [skip_spaces].
    destruct (digits 10 x) as [|d ds]; cbn [fmap list_fmap] in Hs.
    - apply cstr_nil in Hs. by rewrite Hs.
    - apply cstr_cons in Hs as (-> & _ & _). apply Forall_cons in Hd as [Hd _]. unfold digit_char.
      by rewrite (proj2 (Z.eqb_neq _ 32)) by lia. }
  cbn [mbind res_bind]. rewrite (atoi_loop_correct m p (digits 10 x)); try done; [by rewrite Ev | lia].
Qed.

(** The digit a character of putnum_base16 stands for. *)
Definition hex_value (c : Z) : Z := if c <? 65 then c - 48 else c - 55.

Lemma fmap_cancel (f g : Z -> Z) l : Forall (fun d => g (f d) = d) l -> g <$> (f <$> l) = l.
Proof. intros H. rewrite <- list_fmap_compose. induction H as [|d l E _ IH]; [done |]. cbn. by rewrite E, IH. Qed.

(** C25. Printing a number and reading it back gives the number.  Every 32-bit number is
    printed by [putnum] as its decimal digits (without leading zeros, most significant
    first), and [atoi] on that text returns the number if it is an [int]; the hexadecimal
    text of [putnum_base16] and the grouped binary text of [putnum_base2] denote it too.  The
    digit loops stay inside their buffers and terminate. *)
Theorem number_printing_roundtrip x out :
  in_range 32 x ->
  (putnum x out = Ok (out ++ (digit_char <$> digits 10 x)) /\
   (x <> 0 -> exists d ds, digits 10 x = d :: ds /\ d <> 0) /\
   forall m p fuel, cstr m p (digit_char <$> digits 10 x) -> x < 2 ^ 31 ->
     (length (digits 10 x) < fuel)%nat -> atoi fuel m p = Ok x) /\
  (exists text, putnum_base16 x out = Ok (out ++ text) /\ horner 16 (hex_value <$> text) = x) /\
  (exists text, putnum_base2 x out = Ok (out ++ text) /\ read_base2 text = x).
Proof.
  intros Hx. assert (in_range 64 x) as H64 by (unfold in_range in *; lia). split_and!.
  - by apply putnum_correct.
  - intros H0. by apply digits_head.
  - intros m p fuel Hs Hlt Hf. apply atoi_digits; try done. unfold in_range in Hx. lia.
  - exists (hex_char <$> digits 16 x). split; [by apply putnum_base16_correct |].
    rewrite fmap_cancel; [by apply digits_value |]. apply (Forall_impl _ _ _ (digits_digit 16 x ltac:(lia))).
    intros d Hd. unfold hex_value, hex_char. zcmp.
  - by apply putnum_base2_reads.
Qed.

(** ** The printf family against a reference rendering *)

Lemma unum_loop_correct n table base u buf p :
  2 <= base -> 0 <= u < base ^ Z.of_nat n -> (0 < n)%nat -> Z.of_nat n <= p <= Z.of_nat (length buf) ->
  exists buf', unum_loop n table base u buf p = Ok (buf', p - Z.of_nat (length (rdigits n base u))) /\
    length buf' = length buf /\ (forall i, p <= i -> aget 0 buf' i = aget 0 buf i) /\
    forall i d, rdigits n base u !! i = Some d -> aget 0 buf' (p - 1 - Z.of_nat i) = aget 0 table d.
Proof.
  intros Hb. revert u buf p. induction n as [|n IH]; intros u buf p Hu Hn Hp; [lia |]. cbn [unum_loop rdigits].
  rewrite (proj2 (Z.ltb_ge (p - 1) 0)) by lia. pose proof (div_fits base u n Hb Hu) as Hd.
  set (buf1 := aset buf (p - 1) (aget 0 table (u mod base))).
  assert (length buf1 = length buf) as Hl1 by apply length_aset.
  assert (aget 0 buf1 (p - 1) = aget 0 table (u mod base)) as E1 by (apply aget_aset_eq; lia).
  assert (forall i, p <= i -> aget 0 buf1 i = aget 0 buf i) as E2 by (intros i Hi; apply aget_aset_ne; lia).
  destruct (Z.eqb_spec (u / base) 0) as [E0 | H0]; cbn [negb length].
  - exists buf1. split_and!; try done. intros [|i] d Ed; cbn in Ed; [| done].
    injection Ed as <-. by rewrite Z.sub_0_r.
  - destruct (IH (u / base) buf1 (p - 1)) as (buf' & -> & Hl & Ho & Hds); [done | by apply (fits_zero base (u / base)) | lia |].
    exists buf'. split_and!; [do 2 f_equal; lia | lia | intros i Hi; rewrite Ho by lia; by apply E2 |].
    intros [|i] d Ed; cbn in Ed.
    + injection Ed as <-. rewrite Ho by lia. by rewrite Z.sub_0_r.
    + rewrite <- (Hds i d Ed). f_equal. lia.
Qed.

(** A signed number is converted like its absolute value. *)
Lemma snum_loop_unum n d buf p : snum_loop n d buf p = unum_loop n table_low 10 (Z.abs d) buf p.
Proof.
  revert d buf p. induction n as [|n IH]; intros d buf p; [done |]. cbn [snum_loop unum_loop].
  destruct (p - 1 <? 0); [done |].
  assert (Z.abs (Z.rem d 10) = Z.abs d mod 10) as Er by (rewrite <- Z.rem_abs by lia; apply Z.rem_mod_nonneg; lia).
  assert (Z.abs (Z.quot d 10) = Z.abs d / 10) as Eq by (rewrite <- Z.quot_abs by lia; apply Z.quot_div_nonneg; lia).
  replace (if Z.rem d 10 <? 0 then - Z.rem d 10 else Z.rem d 10) with (Z.abs d mod 10) by (zcmp).
  assert (aget 0 table_low (Z.abs d mod 10) = u8 (48 + Z.abs d mod 10)) as ->.
  { pose proof (Z.mod_pos_bound (Z.abs d) 10 ltac:(lia)). set (t := Z.abs d mod 10) in *. clearbody t.
    assert (t = 0 \/ t = 1 \/ t = 2 \/ t = 3 \/ t = 4 \/ t = 5 \/ t = 6 \/ t = 7 \/ t = 8 \/ t = 9) as Hc by lia.
    repeat (destruct Hc as [-> | Hc]; [reflexivity |]). rewrite Hc. reflexivity. }
  rewrite <- Eq. destruct (Z.eqb_spec (Z.quot d 10) 0), (Z.eqb_spec (Z.abs (Z.quot d 10)) 0); lia || done || apply IH.
Qed.

(** What the formatter relies on of a sink: with [out] already emitted, at most [cap]
    characters in all, it accepts the next character, and the memory it was given ([m0])
    stays readable at the addresses [keep]. *)
Class Sink {X} (f : Z -> mem * X -> bool * (mem * X)) (m0 : mem) (keep : Z -> Prop) (cap : nat)
    (inv : list Z -> mem * X -> Prop) : Prop := {
  sink_put out c st : inv out st -> (length out < cap)%nat ->
    exists st', f c st = (true, st') /\ inv (out ++ [u8 c]) st';
  sink_keep out st x : inv out st -> keep x -> fst st x = m0 x }.

#[export] Instance printf_sink m0 con0 cap :
  Sink printf_putch m0 (fun _ => True) cap (fun out st => st = (m0, con0 ++ out)).
Proof.
  split.
  - intros out c st -> _. eexists. split; [reflexivity |]. cbn. unfold putch. by rewrite <- app_assoc.
  - by intros out st x -> _.
Qed.

Lemma blit_snoc p l c m x : blit p (l ++ [c]) m x = mwrite (blit p l m) (p + Z.of_nat (length l)) c x.
Proof.
  unfold mwrite. destruct (Z.eqb_spec x (p + Z.of_nat (length l))) as [-> |].
  - apply (blit_bytes_at p (l ++ [c]) m (length l) c). by rewrite lookup_app_r, Nat.sub_diag by lia.
  - unfold blit. rewrite length_app. cbn [length].
    destruct (Z.leb_spec p x), (Z.ltb_spec x (p + Z.of_nat (length l + 1))), (Z.ltb_spec x (p + Z.of_nat (length l)));
      cbn [andb]; try lia; try done. rewrite app_nth1 by lia. done.
Qed.

#[export] Instance sprintf_sink m0 o cap :
  Sink sprintf_putch_to_str m0 (fun x => ~ o <= x < o + Z.of_nat cap) cap
    (fun out st => snd st = o + Z.of_nat (length out) /\ (length out <= cap)%nat /\ forall x, fst st x = blit o out m0 x).
Proof.
  split.
  - intros out c [m cur] (Hc & Hl & Hm) Hlt. cbn in Hc. subst cur. eexists. split; [reflexivity |]. cbn [fst snd] in *.
    rewrite length_app. cbn [length]. split_and!; [lia | lia |]. intros x. rewrite blit_snoc. unfold mwrite. by rewrite Hm.
  - intros out [m cur] x (Hc & Hl & Hm) Hk. cbn [fst] in *. rewrite Hm. apply blit_out. lia.
Qed.

(** Padding on the left to the width of the conversion. *)
Definition padded (fi : format_info) (t : list Z) : list Z :=
  replicate (Z.to_nat (width fi) - length t) (if zero_pad fi then 48 else 32) ++ t.

(** The digits of a number in a digit table. *)
Definition numeral (table : list Z) (base u : Z) : list Z := aget 0 table <$> digits base u.

Lemma rev_lookup {A} (l : list A) i : (i < length l)%nat -> rev l !! i = l !! (length l - S i)%nat.
Proof. intros Hi. rewrite rev_alt. by apply reverse_lookup. Qed.

Lemma table_bytes table d : table = table_low \/ table = table_up -> in_range 8 (aget 0 table d).
Proof.
  intros Ht. apply aget_Forall; [done |]. destruct Ht as [-> | ->]; repeat (constructor; [done |]); constructor.
Qed.

Lemma numeral_bytes table base u : table = table_low \/ table = table_up -> Forall (in_range 8) (numeral table base u).
Proof. intros Ht. apply Forall_fmap, Forall_true. intros d. by apply table_bytes. Qed.

(** The text of one conversion, and the arguments left.  String arguments are strings of
    [m0] at addresses the output does not overwrite. *)
Inductive conv_text (long_bits : Z) (m0 : mem) (keep : Z -> Prop) (fi : format_info) : list arg -> list Z -> list arg -> Prop :=
| conv_c v ap : conversion fi = 99 -> conv_text long_bits m0 keep fi (VInt v :: ap) (padded fi [u8 v]) ap
| conv_s p s ap : conversion fi = 115 -> cstr m0 p s -> Z.of_nat (length s) < 2 ^ 32 ->
    (forall x, p <= x <= p + Z.of_nat (length s) -> keep x) ->
    conv_text long_bits m0 keep fi (VPtr p :: ap) (padded fi s) ap
| conv_d d ap ap' : conversion fi = 100 -> load_signed long_bits (len fi) ap = Ok (d, ap') ->
    conv_text long_bits m0 keep fi ap
      ((if d <? 0 then [45] else []) ++ padded fi (numeral table_low 10 (Z.abs d))) ap'
| conv_u base table u ap ap' :
    (conversion fi, base, table) ∈
      [(117, 10, table_low); (111, 8, table_low); (120, 16, table_low); (88, 16, table_up)] ->
    load_unsigned long_bits (len fi) ap = Ok (u, ap') ->
    conv_text long_bits m0 keep fi ap (padded fi (numeral table base u)) ap'.

(** A format as a sequence of characters and conversions, and its text as a C string. *)
Inductive item := ILit (c : Z) | IConv (fi : format_info).

Definition encode_len (lm : LengthModifier) : list Z :=
  match lm with LM_None => [] | LM_l => [108] | LM_ll => [108; 108] end.

Definition encode_item (it : item) : list Z :=
  match it with
  | ILit c => [c]
  | IConv fi =>
      [37] ++ (if zero_pad fi then [48] else []) ++
      (if width fi =? 0 then [] else digit_char <$> digits 10 (width fi)) ++
      encode_len (len fi) ++ [conversion fi]
  end.

Definition encode (its : list item) : list Z := its ≫= encode_item.

(** Well-formed items; only the conversions listed have a text. *)
Definition item_ok (it : item) : Prop :=
  match it with
  | ILit c => 0 < c < 256 /\ c <> 37
  | IConv fi => 0 <= width fi < 2 ^ 31 /\ precision fi = 0 /\ conversion fi ∈ [99; 115; 100; 117; 111; 120; 88]
  end.

(** The text of a format. *)
Inductive items_text (long_bits : Z) (m0 : mem) (keep : Z -> Prop) : list item -> list arg -> list Z -> Prop :=
| text_nil ap : items_text long_bits m0 keep [] ap []
| text_lit c its ap t :
    items_text long_bits m0 keep its ap t -> items_text long_bits m0 keep (ILit c :: its) ap (c :: t)
| text_conv fi its ap ap' t1 t2 :
    conv_text long_bits m0 keep fi ap t1 ap' -> items_text long_bits m0 keep its ap' t2 ->
    items_text long_bits m0 keep (IConv fi :: its) ap (t1 ++ t2).

(** The number of ordinary characters of a format. *)
Definition literals (its : list item) : Z :=
  Z.of_nat (length (List.filter (fun it => if it is ILit _ then true else false) its)).

(** Reading a format back gives the conversion it was written from. *)
Lemma parse_dec_num_correct m p ds a fuel :
  bytes_at m p (digit_char <$> ds) -> isdigit (m (p + Z.of_nat (length ds))) = false ->
  Forall (fun d => 0 <= d < 10) ds -> 0 <= a -> foldl (fun a d => a * 10 + d) a ds < 2 ^ 64 -> (length ds < fuel)%nat ->
  parse_dec_num fuel m p a = Ok (p + Z.of_nat (length ds), foldl (fun a d => a * 10 + d) a ds).
Proof.
  intros Hs He Hd. revert p a fuel Hs He. induction Hd as [|d ds Hd Hds IH]; intros p a [|fuel] Hs He Ha Hl Hf;
    cbn [length foldl fmap list_fmap] in *; try lia; cbn [parse_dec_num].
  - rewrite Z.add_0_r in *. by rewrite He.
  - apply bytes_at_cons in Hs as (-> & Hs). unfold digit_char at 1 2, isdigit at 1.
    rewrite (proj2 (Z.leb_le 48 _)), (proj2 (Z.leb_le _ 57)) by lia. cbn [andb].
    pose proof (foldl_horner_ge 10 (a * 10 + d) ds ltac:(lia) ltac:(lia) Hds) as Hge.
    replace (a * 10 + (48 + d) - 48) with (a * 10 + d) by lia.
    rewrite wrap_small by (unfold in_range; lia).
    rewrite IH; [do 2 f_equal; lia | done | | lia | done | lia].
    rewrite <- He. do 2 f_equal. lia.
Qed.

Lemma parse_len m p lm c :
  c <> 108 -> bytes_at m p (encode_len lm ++ [c]) ->
  (if m p =? 108 then if m (p + 1) =? 108 then (LM_ll, p + 2) else (LM_l, p + 1) else (LM_None, p)) =
    (lm, p + Z.of_nat (length (encode_len lm))) /\ m (p + Z.of_nat (length (encode_len lm))) = c.
Proof.
  intros Hc H. destruct lm; cbn [encode_len app length] in *; rewrite !bytes_at_cons in H.
  - destruct H as [E _]. rewrite !Z.add_0_r, E. by rewrite (proj2 (Z.eqb_neq c 108)).
  - destruct H as (-> & E & _). change (Z.of_nat 1) with 1. by rewrite E, (proj2 (Z.eqb_neq c 108)).
  - destruct H as (-> & E & E2 & _). rewrite E. split; [done |]. rewrite <- E2. f_equal. cbn. lia.
Qed.

(** The characters a conversion ends in are neither digits nor [l]. *)
Lemma conversion_chars c :
  c ∈ [99; 115; 100; 117; 111; 120; 88] -> isdigit c = false /\ c <> 108 /\ 0 < c < 256.
Proof.
  intros H. apply list_elem_of_In in H. cbn [In] in H.
  destruct H as [<- | [<- | [<- | [<- | [<- | [<- | [<- | []]]]]]]]; split; [done | lia | done | lia | done | lia |
    done | lia | done | lia | done | lia | done | lia].
Qed.

Lemma parse_format_correct m p fi fuel :
  item_ok (IConv fi) -> bytes_at m p (encode_item (IConv fi)) -> (length (encode_item (IConv fi)) < fuel)%nat ->
  parse_format fuel m p = Ok (p + Z.of_nat (length (encode_item (IConv fi))), fi).
Proof.
  intros (Hw & Hp & Hc) H Hf. apply conversion_chars in Hc as (Hd & Hl & _).
  destruct fi as [zp w pr lm c]. cbn [encode_item zero_pad width precision len conversion] in *. subst pr.
  apply bytes_at_app in H as [H37 H]. apply bytes_at_cons in H37 as [E37 _].
  change (p + Z.of_nat (length [37])) with (p + 1) in H.
  unfold parse_format. rewrite E37. cbn [c_assert Z.eqb Pos.eqb mbind res_bind].
  set (z := if zp then [48] else []) in *. set (q := p + 1 + Z.of_nat (length z)).
  apply bytes_at_app in H as [Hz H]. fold q in H. apply bytes_at_app in H as [Hds H].
  set (ds := if w =? 0 then [] else digit_char <$> digits 10 w) in *. set (r := q + Z.of_nat (length ds)).
  fold r in H. destruct (parse_len m r lm c Hl H) as [Elm Ec].
  assert (isdigit (m r) = false) as Hr.
  { destruct lm; cbn [encode_len app] in H; apply bytes_at_cons in H as [-> _]; done. }
  assert (0 < w -> exists d ds', digits 10 w = d :: ds' /\ d <> 0 /\ 0 <= d < 10 /\ ds = digit_char <$> digits 10 w) as Hhead.
  { intros H0. destruct (digits_head 10 w ltac:(lia)) as (d & ds' & E & Hnz); [unfold in_range; lia | lia |].
    pose proof (digits_digit 10 w ltac:(lia)) as Hall. rewrite E in Hall. apply Forall_cons in Hall as [Hdd _].
    exists d, ds'. unfold ds. by rewrite (proj2 (Z.eqb_neq w 0)) by lia. }
  assert ((if m (p + 1) =? 48 then (true, p + 1 + 1) else (false, p + 1)) = (zp, q)) as ->.
  { destruct zp.
    - assert (q = p + 1 + 1) as -> by (unfold q, z; cbn; lia).
      unfold z in Hz. by apply bytes_at_cons in Hz as [-> _].
    - assert (q = p + 1) as Eq by (unfold q, z; cbn; lia). rewrite <- Eq.
      rewrite (proj2 (Z.eqb_neq _ _)); [done |].
      destruct (decide (w = 0)) as [E0 | H0].
      + unfold r, ds in Hr. rewrite E0 in Hr. cbn [Z.eqb length] in Hr. intros E. rewrite Z.add_0_r in Hr. by rewrite E in Hr.
      + destruct Hhead as (d & ds' & E & Hnz & Hdd & Eds); [lia |]. rewrite Eds, E in Hds.
        apply bytes_at_cons in Hds as [-> _]. unfold digit_char. lia. }
  assert ((if isdigit (m q) then '(fmt, w) ← parse_dec_num fuel m q 0; Ok (fmt, s32 w) else Ok (q, 0)) = Ok (r, w)) as ->.
  { destruct (decide (w = 0)) as [E0 | H0].
    - unfold r, ds in *. rewrite E0 in *. cbn [Z.eqb length] in *. rewrite Z.add_0_r in *. by rewrite Hr.
    - destruct Hhead as (d & ds' & E & Hnz & Hdd & Eds); [lia |].
      assert (isdigit (m q) = true) as ->.
      { rewrite Eds, E in Hds. apply bytes_at_cons in Hds as [-> _]. unfold isdigit, digit_char. zcmp. }
      assert (length ds = length (digits 10 w)) as Elen by (rewrite Eds; apply length_fmap).
      pose proof (digits_value 10 w ltac:(lia) ltac:(unfold in_range; lia)) as Ev. unfold horner in Ev.
      rewrite (parse_dec_num_correct m q (digits 10 w) 0 fuel).
      + cbn [mbind res_bind]. rewrite Ev, sext_small by (unfold in_srange; cbn; lia). unfold r. by rewrite Elen.
      + by rewrite <- Eds.
      + unfold r in Hr. by rewrite Elen in Hr.
      + apply digits_digit. lia.
      + lia.
      + rewrite Ev. lia.
      + rewrite <- Elen. rewrite !length_app in Hf. lia. }
  cbn [mbind res_bind]. rewrite Elm, Ec. do 2 f_equal. rewrite !length_app. cbn [length]. unfold r, q. lia.
Qed.

Section render.
  Context {X : Type} (long_bits : Z) (f : Z -> mem * X -> bool * (mem * X)) (m0 : mem) (keep : Z -> Prop) (cap : nat)
    (inv : list Z -> mem * X -> Prop) `{!Sink f m0 keep cap inv}.

Lemma put_pad_correct k fuel pad l w out st :
  inv out st -> 0 <= l -> 0 <= w < 2 ^ 31 -> k = Z.to_nat (w - l) -> (length out + k <= cap)%nat -> (k < fuel)%nat ->
  exists st', put_pad f fuel pad l w st = Ok (true, st') /\ inv (out ++ replicate k (u8 pad)) st'.
Proof using Type*.
  revert fuel w out st. induction k as [|k IH]; intros [|fuel] w out st Hi Hl Hw Hk Hc Hf; try lia; cbn [put_pad];
    rewrite (wrap_small 32 w) by (unfold in_range; lia).
  - rewrite (proj2 (Z.ltb_ge l w)) by lia. exists st. split; [done |]. by rewrite app_nil_r.
  - rewrite (proj2 (Z.ltb_lt l w)) by lia.
    destruct (sink_put out pad st Hi) as (st1 & -> & Hi1); [lia |].
    rewrite (sext_small 32 (w - 1)) by (unfold in_srange; cbn; lia).
    destruct (IH fuel (w - 1) (out ++ [u8 pad]) st1) as (st' & -> & Hi'); try done; try lia.
    { rewrite length_app. cbn. lia. }
    exists st'. split; [done |]. by rewrite <- app_assoc in Hi'.
Qed.

Lemma put_chars_correct t fuel rd s out st :
  inv out st -> (forall out st i c, inv out st -> t !! i = Some c -> rd (fst st) (s + Z.of_nat i) = c) ->
  Forall (in_range 8) t -> (length out + length t <= cap)%nat -> (length t < fuel)%nat ->
  exists st', put_chars f fuel rd s (s + Z.of_nat (length t)) st = Ok (true, st') /\ inv (out ++ t) st'.
Proof using Type*.
  intros Hi Hr Ht. revert fuel s out st Hi Hr.
  induction Ht as [|c t Hc Ht IH]; intros [|fuel] s out st Hi Hr Hcap Hf; cbn [length] in *; try lia; cbn [put_chars].
  - rewrite Z.add_0_r, Z.eqb_refl. exists st. split; [done |]. by rewrite app_nil_r.
  - rewrite (proj2 (Z.eqb_neq s _)) by lia. cbn [negb].
    pose proof (Hr out st 0%nat c Hi eq_refl) as E. rewrite Z.add_0_r in E. rewrite E.
    destruct (sink_put out c st Hi) as (st1 & -> & Hi1); [lia |]. rewrite wrap_small in Hi1 by done.
    destruct (IH fuel (s + 1) (out ++ [c]) st1 Hi1) as (st' & E' & Hi'); [| rewrite length_app; cbn; lia | lia |].
    { intros out2 st2 i c2 H2 Ei. rewrite <- (Hr out2 st2 (S i) c2 H2 Ei). f_equal. lia. }
    exists st'. replace (s + Z.of_nat (S (length t))) with (s + 1 + Z.of_nat (length t)) by lia.
    split; [done |]. by rewrite <- app_assoc in Hi'.
Qed.

Lemma put_withpad_correct t fuel fi rd s out st :
  inv out st -> (forall out st i c, inv out st -> t !! i = Some c -> rd (fst st) (s + Z.of_nat i) = c) ->
  Forall (in_range 8) t -> 0 <= width fi < 2 ^ 31 ->
  (length out + length (padded fi t) <= cap)%nat -> (length (padded fi t) < fuel)%nat ->
  exists st', put_withpad f fuel fi rd s (Z.of_nat (length t)) st = Ok (true, st') /\ inv (out ++ padded fi t) st'.
Proof using Type*.
  intros Hi Hr Ht Hw Hc Hf. unfold padded in *. rewrite length_app, length_replicate in *. unfold put_withpad.
  set (pad := if zero_pad fi then 48 else 32) in *.
  destruct (put_pad_correct (Z.to_nat (width fi) - length t) fuel pad (Z.of_nat (length t)) (width fi) out st)
    as (st1 & -> & Hi1); try done; try lia. cbn [mbind res_bind].
  assert (u8 pad = pad) as Ep by (unfold pad; by destruct (zero_pad fi)). rewrite Ep in Hi1.
  destruct (put_chars_correct t fuel rd s _ st1 Hi1 Hr Ht) as (st' & -> & Hi');
    [rewrite length_app, length_replicate; lia | lia |].
  exists st'. split; [done |]. by rewrite <- app_assoc in Hi'.
Qed.

(** The digits of a number, out of the local buffer. *)
Lemma put_number_correct table base u fuel fi out st :
  table = table_low \/ table = table_up -> 2 <= base -> in_range 64 u -> inv out st -> 0 <= width fi < 2 ^ 31 ->
  (length out + length (padded fi (numeral table base u)) <= cap)%nat ->
  (length (padded fi (numeral table base u)) < fuel)%nat ->
  exists st', ('(buf, p) ← unum_loop 64 table base u (replicate 64 0) 64;
               put_withpad f fuel fi (in_buf buf) p (64 - p) st) = Ok (true, st') /\
    inv (out ++ padded fi (numeral table base u)) st'.
Proof using Type*.
  intros Ht Hb Hu Hi Hw Hc Hf.
  destruct (unum_loop_correct 64 table base u (replicate 64 0) 64) as (buf & -> & _ & _ & Hds);
    [done | by apply fits64 | lia | cbn; lia |]. cbn [mbind res_bind].
  set (ds := rdigits 64 base u) in *.
  assert (length (numeral table base u) = length ds) as El by (unfold numeral, digits; by rewrite length_fmap, length_rev).
  replace (64 - (64 - Z.of_nat (length ds))) with (Z.of_nat (length (numeral table base u))) by lia.
  apply put_withpad_correct; try done.
  - intros _ st2 i c _ Ei. unfold in_buf. unfold numeral, digits in Ei. rewrite list_lookup_fmap in Ei.
    apply fmap_Some in Ei as (d & Ed & ->). fold ds in Ed.
    pose proof (lookup_lt_Some _ _ _ Ed) as Hlt. rewrite length_rev in Hlt. rewrite rev_lookup in Ed by done.
    rewrite <- (Hds _ _ Ed). f_equal. lia.
  - by apply numeral_bytes.
Qed.

Lemma load_unsigned_range lm ap u ap' : 0 <= long_bits <= 64 -> load_unsigned long_bits lm ap = Ok (u, ap') -> in_range 64 u.
Proof using Type.
  clear Sink0. intros Hl E. assert (forall w v, 0 <= w <= 64 -> in_range 64 (wrap w v)) as Hr.
  { intros w v Hw. destruct (wrap_range w v ltac:(lia)) as [H0 H1]. split; [done |].
    apply (Z.lt_le_trans _ _ _ H1). apply Z.pow_le_mono_r; lia. }
  destruct lm, ap as [|[] ap]; cbn in E; try done; injection E as <- <-; apply Hr; lia.
Qed.

Lemma load_signed_range lm ap d ap' : 0 < long_bits <= 64 -> load_signed long_bits lm ap = Ok (d, ap') -> in_range 64 (Z.abs d).
Proof using Type.
  clear Sink0. intros Hl E. assert (forall w v, 0 < w <= 64 -> in_range 64 (Z.abs (sext w v))) as Hr.
  { intros w v Hw. destruct (sext_range w v ltac:(lia)) as [H0 H1].
    assert (2 ^ (w - 1) <= 2 ^ 63) by (apply Z.pow_le_mono_r; lia). unfold in_range. lia. }
  destruct lm, ap as [|[] ap]; cbn in E; try done; injection E as <- <-; apply Hr; lia.
Qed.

Lemma convert_correct fuel fi ap t ap' out st :
  0 < long_bits <= 64 -> conv_text long_bits m0 keep fi ap t ap' -> inv out st -> 0 <= width fi < 2 ^ 31 ->
  (length out + length t <= cap)%nat -> (length t < fuel)%nat ->
  exists st', convert long_bits f fuel fi st ap = Ok (true, st', ap') /\ inv (out ++ t) st'.
Proof using Type*.
  intros Hlb Ht Hi Hw Hc Hf. unfold convert.
  destruct Ht as [v ap E | p s ap E Hs Hl Hk | d ap ap' E Ed | base table u ap ap' Ein Eu]; cbn zeta.
  - rewrite E. cbn [Z.eqb Pos.eqb].
    destruct (put_withpad_correct [u8 v] fuel fi (fun _ _ => u8 v) 0 out st) as (st' & Ep & Hi'); try done.
    + intros _ _ [|i] c _ Ei; cbn in Ei; [by injection Ei as <- | done].
    + repeat constructor; apply wrap_range; lia.
    + cbn [length] in Ep. change (Z.of_nat 1) with 1 in Ep. rewrite Ep. by exists st'.
  - rewrite E. cbn [Z.eqb Pos.eqb].
    assert (forall out st, inv out st -> cstr (fst st) p s) as Hst.
    { intros out2 st2 H2. destruct Hs as [Hb Hr]. split; [| done]. apply (bytes_at_ext m0); [| done].
      intros x Hx. rewrite length_app in Hx. cbn in Hx. apply (sink_keep out2 st2 x H2), Hk. lia. }
    unfold padded in Hf, Hc. rewrite length_app in Hf, Hc.
    unfold strlen. rewrite (strlen_loop_correct (fst st) s) by (eauto || lia). rewrite Z.add_0_l. cbn [mbind res_bind].
    destruct (put_withpad_correct s fuel fi (fun m a => m a) p out st) as (st' & Ep & Hi');
      try done; unfold padded; rewrite ?length_app; try lia.
    + intros out2 st2 i c H2 Ei. destruct (Hst out2 st2 H2) as [Hb _]. apply Hb. by apply lookup_app_l_Some.
    + destruct Hs as [_ Hr]. apply (Forall_impl _ _ _ Hr). intros c Hcc. unfold in_range. lia.
    + rewrite Ep. by exists st'.
  - rewrite E. cbn [Z.eqb Pos.eqb]. rewrite Ed. cbn [mbind res_bind]. unfold put_snum.
    pose proof (load_signed_range _ _ _ _ Hlb Ed) as Hr. rewrite length_app in Hf, Hc.
    destruct (d <? 0).
    + cbn [length] in Hf, Hc. destruct (sink_put out 45 st Hi) as (st1 & -> & Hi1); [lia |].
      destruct (put_number_correct table_low 10 (Z.abs d) fuel fi (out ++ [u8 45]) st1) as (st' & Ep & Hi');
        auto; try lia; [rewrite length_app; cbn [length]; lia |].
      rewrite snum_loop_unum, Ep. exists st'. split; [done |]. by rewrite <- app_assoc in Hi'.
    + cbn [length Nat.add] in Hf, Hc.
      destruct (put_number_correct table_low 10 (Z.abs d) fuel fi out st) as (st' & Ep & Hi'); auto; try lia.
      rewrite snum_loop_unum, Ep. by exists st'.
  - apply list_elem_of_In in Ein. cbn [In] in Ein.
    assert ((table = table_low \/ table = table_up) /\ 2 <= base) as [Htab Hb]
      by (destruct Ein as [E | [E | [E | [E | []]]]]; injection E as _ <- <-; split; auto; lia).
    pose proof (load_unsigned_range _ _ _ _ ltac:(lia) Eu) as Hr.
    destruct (put_number_correct table base u fuel fi out st) as (st' & Ep & Hi'); auto.
    exists st'. split; [| done].
    destruct Ein as [E | [E | [E | [E | []]]]]; injection E as <- <- <-; cbn [Z.eqb Pos.eqb orb];
      rewrite Eu; cbn [mbind res_bind]; unfold put_unum; by rewrite Ep.
Qed.

Lemma sink_bytes out st p l :
  inv out st -> bytes_at m0 p l -> (forall x, p <= x < p + Z.of_nat (length l) -> keep x) -> bytes_at (fst st) p l.
Proof using Type*.
  intros Hi Hb Hk. apply (bytes_at_ext m0); [| done]. intros x Hx. by apply (sink_keep out st x Hi), Hk.
Qed.

Lemma meta_printf_loop_correct its ap t fuel fuel2 cnt p out st :
  0 < long_bits <= 64 -> items_text long_bits m0 keep its ap t -> Forall item_ok its ->
  bytes_at m0 p (encode its ++ [0]) -> (forall x, p <= x <= p + Z.of_nat (length (encode its)) -> keep x) ->
  inv out st -> (length out + length t <= cap)%nat -> (length its < fuel)%nat ->
  (length (encode its) < fuel2)%nat -> (length t < fuel2)%nat -> 0 <= cnt -> cnt + literals its < 2 ^ 31 ->
  exists st', meta_printf_loop long_bits f fuel fuel2 cnt p ap st = Ok (cnt + literals its, st') /\ inv (out ++ t) st'.
Proof using Type*.
  intros Hlb Ht. revert fuel cnt p out st. unfold literals.
  induction Ht as [ap | c its ap t Ht IH | fi its ap ap' t1 t2 Hc Ht IH];
    intros [|fuel] cnt p out st Hok Hb Hk Hi Hcap Hf Hf2 Hf2' Hc0 Hcnt; cbn [length List.filter] in *; try lia;
    cbn [meta_printf_loop].
  - apply (sink_bytes out st) in Hb; [| done | intros x Hx; apply Hk; cbn in *; lia].
    apply bytes_at_cons in Hb as [-> _]. exists st. split; [do 2 f_equal; cbn; lia | by rewrite app_nil_r].
  - apply Forall_cons in Hok as [(Hc & H37) Hok]. change (encode (ILit c :: its)) with (c :: encode its) in *. cbn [app length] in *.
    pose proof Hb as Hb'. apply bytes_at_cons in Hb as [_ Hb].
    apply (sink_bytes out st) in Hb'; [| done | intros x Hx; apply Hk; cbn [length] in Hx; rewrite length_app in Hx; cbn in Hx; lia].
    apply bytes_at_cons in Hb' as [-> _]. rewrite (proj2 (Z.eqb_neq c 0)), (proj2 (Z.eqb_neq c 37)) by lia. cbn [negb].
    destruct (sink_put out c st Hi) as (st1 & -> & Hi1); [lia |]. rewrite wrap_small in Hi1 by (unfold in_range; lia).
    rewrite sext_small by (unfold in_srange; cbn; lia).
    destruct (IH fuel (cnt + 1) (p + 1) (out ++ [c]) st1) as (st' & -> & Hi'); try done; try lia.
    + intros x Hx. apply Hk. lia.
    + rewrite length_app. cbn. lia.
    + exists st'. split; [do 2 f_equal; lia |]. by rewrite <- app_assoc in Hi'.
  - apply Forall_cons in Hok as [Hfi Hok].
    change (encode (IConv fi :: its)) with (encode_item (IConv fi) ++ encode its) in *.
    rewrite <- app_assoc in Hb. rewrite !length_app in *.
    apply bytes_at_app in Hb as [Hb1 Hb]. pose proof Hb1 as Hb1'.
    apply (sink_bytes out st) in Hb1; [| done | intros x Hx; apply Hk; lia].
    assert (fst st p = 37) as E37 by (cbn [encode_item app] in Hb1; by apply bytes_at_cons in Hb1 as [-> _]).
    rewrite E37. cbn [Z.eqb Pos.eqb negb].
    rewrite (parse_format_correct (fst st) p fi fuel2 Hfi Hb1) by lia. cbn [mbind res_bind].
    destruct (convert_correct fuel2 fi ap t1 ap' out st Hlb Hc Hi (proj1 Hfi)) as (st1 & -> & Hi1); [lia | lia |].
    cbn [mbind res_bind].
    destruct (IH fuel cnt (p + Z.of_nat (length (encode_item (IConv fi)))) (out ++ t1) st1) as (st' & -> & Hi');
      try done; try lia.
    + intros x Hx. apply Hk. lia.
    + rewrite length_app. lia.
    + exists st'. split; [done |]. by rewrite <- app_assoc in Hi'.
Qed.
End render.

(** C13. [printf] and [sprintf] print what the format says.  For every format made of ordinary
    characters and the conversions c, s, d, u, o, x and X with optional zero flag, width and
    length modifier, and arguments of the types it asks for, both terminate; [printf] appends
    exactly the rendered text to the console, and [sprintf] stores it with a terminating
    zero - nothing else - provided the output does not overlap the format or the string
    arguments.  The value returned is the number of ordinary characters of the format, not
    of the characters written. *)
Theorem printf_renders long_bits its ap t m p fuel :
  0 < long_bits <= 64 -> Forall item_ok its -> cstr m p (encode its) -> literals its < 2 ^ 31 ->
  (length its < fuel)%nat -> (length (encode its) < fuel)%nat -> (length t < fuel)%nat ->
  (items_text long_bits m (fun _ => True) its ap t ->
     forall con, printf long_bits fuel p ap (m, con) = Ok (literals its, (m, con ++ t))) /\
  (forall o, let keep := fun x => ~ o <= x < o + Z.of_nat (length t + 1) in
     items_text long_bits m keep its ap t -> (forall x, p <= x <= p + Z.of_nat (length (encode its)) -> keep x) ->
     exists m', sprintf long_bits fuel o p ap m = Ok (literals its, m') /\ forall x, m' x = blit o (t ++ [0]) m x).
Proof.
  intros Hlb Hok [Hb _] Hlit Hf1 Hf2 Hf3. split.
  - intros Ht con. unfold printf, meta_printf.
    destruct (meta_printf_loop_correct long_bits printf_putch m (fun _ => True) (length t) _ (Sink0 := printf_sink m con (length t))
                its ap t fuel fuel 0 p [] (m, con)) as (st' & -> & ->); try done; try lia.
    by rewrite app_nil_r.
  - intros o keep Ht Hk. unfold sprintf, vsprintf, meta_printf.
    destruct (meta_printf_loop_correct long_bits sprintf_putch_to_str m keep (length t + 1) _ (Sink0 := sprintf_sink m o (length t + 1))
                its ap t fuel fuel 0 p [] (m, o)) as ([m1 cur] & -> & (Ecur & Hl & Hm)); try done; try (cbn; lia).
    + cbn. split_and!; [lia | lia |]. intros x. by rewrite blit_nil.
    + cbn in Ecur, Hm. cbn [mbind res_bind]. unfold sprintf_putch_to_str. cbn [fst snd].
      eexists. split; [done |]. intros x. rewrite blit_snoc, Ecur. unfold mwrite. by rewrite Hm.
Qed.

(** ** Examples the theorems apply to *)

Lemma number_printing_roundtrip_witness :
  in_range 32 4096 /\ putnum 4096 [] = Ok (bytes "4096") /\
  atoi 9 (mem_of 16 (bytes "4096")) 16 = Ok 4096.
Proof.
  assert (in_range 32 4096) as Hx by (split; [lia | reflexivity]).
  split; [exact Hx |]. destruct (number_printing_roundtrip 4096 [] Hx) as ((E & _ & H) & _).
  split; [exact E |]. apply H; [apply cstrb_true; reflexivity | reflexivity | vm_compute; lia].
Defined.

(** The format [n=%5d] with the argument -7, and its output buffer at 64. *)
Definition sample_items : list item := [ILit 110; ILit 61; IConv (FormatInfo false 5 0 LM_None 100)].

Lemma sample_text keep m : items_text 32 m keep sample_items [VInt (-7)] (bytes "n=-    7").
Proof.
  refine (text_lit 32 m keep 110 _ _ _ (text_lit 32 m keep 61 _ _ _ _)).
  refine (text_conv 32 m keep _ _ _ [] (bytes "-    7") [] _ (text_nil 32 m keep [])).
  exact (conv_d 32 m keep (FormatInfo false 5 0 LM_None 100) (-7) [VInt (-7)] [] eq_refl eq_refl).
Qed.

Lemma printf_renders_witness :
  (printf 32 20 16 [VInt (-7)] (mem_of 16 (bytes "n=%5d"), []) = Ok (2, (mem_of 16 (bytes "n=%5d"), bytes "n=-    7"))) /\
  exists m', sprintf 32 20 64 16 [VInt (-7)] (mem_of 16 (bytes "n=%5d")) = Ok (2, m') /\ m' 71 = 55 /\ m' 72 = 0.
Proof.
  destruct (printf_renders 32 sample_items [VInt (-7)] (bytes "n=-    7") (mem_of 16 (bytes "n=%5d")) 16 20) as [H1 H2].
  - lia.
  - repeat constructor; cbn; lia.
  - apply cstrb_true. reflexivity.
  - reflexivity.
  - vm_compute. lia.
  - vm_compute. lia.
  - vm_compute. lia.
  - split; [exact (H1 (sample_text _ _) []) |].
    destruct (H2 64) as (m' & E & Hm); [apply sample_text | intros x Hx; change (16 <= x <= 16 + 5) in Hx; change (~ 64 <= x < 64 + 9); lia |].
    exists m'. split; [exact E |]. rewrite !Hm. split; reflexivity.
Defined.
