(* ===== verification/ProfileCache.v ===== *)
(** The micro-architectural models of the instruction profiler
    (nemu/src/isa/riscv32/profile.c): instruction classification, the direct-mapped shadow
    data caches, the set-associative probes and the branch target buffers.

    Counters are kept by name and index list (an element of a counter array), as 64-bit
    numbers; caches and branch target buffers are kept by the name of the source's variable. *)

From stdpp Require Import strings.
From S2P Require Import Prelude.
#[local] Open Scope Z_scope.
#[local] Open Scope cint_scope.

(** ** Instruction classes *)

Inductive Kind :=
| K_ALU | K_BRANCH | K_JAL | K_JALR | K_LOAD | K_STORE | K_M | K_B | K_CRC | K_SYSTEM | K_OTHER.
#[export] Instance Kind_eq_dec : EqDecision Kind.
Proof. solve_decision. Defined.

Inductive BOp :=
| B_CLZ | B_CTZ | B_CPOP | B_SEXTB | B_SEXTH | B_CLMUL | B_CLMULR | B_CLMULH | B_ORCB | B_REV8
| B_ANDN | B_ORN | B_XNOR | B_MIN | B_MAX | B_MINU | B_MAXU | B_SH1ADD | B_SH2ADD | B_SH3ADD
| B_BSET | B_BCLR | B_BINV | B_BEXT | B_XPERM4 | B_ROL | B_ROR | B_RORI | B_PACK | B_OTHER.

Inductive MemWidth := W_BYTE | W_HALF | W_WORD | W_OTHER.
#[export] Instance MemWidth_eq_dec : EqDecision MemWidth.
Proof. solve_decision. Defined.

(** The position of an enumerator. *)
Definition kind_index (k : Kind) : Z :=
  match k with
  | K_ALU => 0 | K_BRANCH => 1 | K_JAL => 2 | K_JALR => 3 | K_LOAD => 4 | K_STORE => 5
  | K_M => 6 | K_B => 7 | K_CRC => 8 | K_SYSTEM => 9 | K_OTHER => 10
  end.

Definition bop_index (b : BOp) : Z :=
  match b with
  | B_CLZ => 0 | B_CTZ => 1 | B_CPOP => 2 | B_SEXTB => 3 | B_SEXTH => 4 | B_CLMUL => 5
  | B_CLMULR => 6 | B_CLMULH => 7 | B_ORCB => 8 | B_REV8 => 9 | B_ANDN => 10 | B_ORN => 11
  | B_XNOR => 12 | B_MIN => 13 | B_MAX => 14 | B_MINU => 15 | B_MAXU => 16 | B_SH1ADD => 17
  | B_SH2ADD => 18 | B_SH3ADD => 19 | B_BSET => 20 | B_BCLR => 21 | B_BINV => 22 | B_BEXT => 23
  | B_XPERM4 => 24 | B_ROL => 25 | B_ROR => 26 | B_RORI => 27 | B_PACK => 28 | B_OTHER => 29
  end.

Definition width_index (w : MemWidth) : Z :=
  match w with W_BYTE => 0 | W_HALF => 1 | W_WORD => 2 | W_OTHER => 3 end.

Definition CRC_NR : Z := 3.

Definition opcode (x : Z) : Z := x &&& 0x7f.
Definition func3 (x : Z) : Z := (x >>> 12) &&& 7.
Definition func7 (x : Z) : Z := x >>> 25.

Definition branch_imm (x : Z) : Z :=
  let imm := u32 ((x >>> 31) <<< 12) ||| u32 (((x >>> 7) &&& 1) <<< 11) |||
             u32 (((x >>> 25) &&& 0x3f) <<< 5) ||| u32 (((x >>> 8) &&& 0xf) <<< 1) in
  s32 (u32 (imm <<< 19)) >>> 19.

Definition kind_of (x : Z) : Kind :=
  let op := opcode x in
  let f3 := func3 x in
  let f7 := func7 x in
  if op =? 0x63 then K_BRANCH
  else if op =? 0x6f then K_JAL
  else if op =? 0x67 then K_JALR
  else if op =? 0x03 then K_LOAD
  else if op =? 0x23 then K_STORE
  else if (op =? 0x0b) && (f7 =? 0) && (f3 <? CRC_NR) then K_CRC
  else if op =? 0x73 then K_SYSTEM
  else if (op =? 0x33) && (f7 =? 1) then K_M
  else if (op =? 0x33) && (f7 =? 0x04) && (((x >>> 12) &&& 7) =? 4) then K_B
  else
    let b_register :=
      (op =? 0x33) &&
      (((f7 =? 0x05) && ((f3 <=? 3) || (4 <=? f3))) ||
       ((f7 =? 0x10) && ((f3 =? 2) || (f3 =? 4) || (f3 =? 6))) ||
       ((f7 =? 0x20) && ((f3 =? 4) || (f3 =? 6) || (f3 =? 7))) ||
       ((f7 =? 0x30) && ((f3 =? 1) || (f3 =? 5))) ||
       ((f7 =? 0x24) && ((f3 =? 1) || (f3 =? 5))) ||
       ((f7 =? 0x14) && ((f3 =? 1) || (f3 =? 2))) ||
       ((f7 =? 0x34) && (f3 =? 1))) in
    let b_immediate :=
      (op =? 0x13) && ((f3 =? 1) || (f3 =? 5)) &&
      ((f7 =? 0x05) || (f7 =? 0x30) || (f7 =? 0x24) || (f7 =? 0x14) || (f7 =? 0x34)) in
    if b_register || b_immediate then K_B
    else if (op =? 0x33) || (op =? 0x13) || (op =? 0x37) || (op =? 0x17) then K_ALU
    else K_OTHER.

Definition mop_of (x : Z) : Z := (x >>> 12) &&& 7.

Definition bop_of (x : Z) : BOp :=
  let op := opcode x in
  let f3 := func3 x in
  let f7 := func7 x in
  let rs2 := (x >>> 20) &&& 31 in
  let unary := (op =? 0x13) && (f3 =? 1) && (f7 =? 0x30) in
  let reg a b := (op =? 0x33) && (f7 =? a) && (f3 =? b) in
  let reg_imm a b := ((op =? 0x33) || (op =? 0x13)) && (f7 =? a) && (f3 =? b) in
  if unary && (rs2 =? 0) then B_CLZ
  else if unary && (rs2 =? 1) then B_CTZ
  else if unary && (rs2 =? 2) then B_CPOP
  else if unary && (rs2 =? 4) then B_SEXTB
  else if unary && (rs2 =? 5) then B_SEXTH
  else if reg 0x05 1 then B_CLMUL
  else if reg 0x05 2 then B_CLMULR
  else if reg 0x05 3 then B_CLMULH
  else if (op =? 0x13) && (f3 =? 5) && (f7 =? 0x14) && (rs2 =? 7) then B_ORCB
  else if (op =? 0x13) && (f3 =? 5) && (f7 =? 0x34) && (rs2 =? 24) then B_REV8
  else if reg 0x20 4 then B_XNOR
  else if reg 0x20 6 then B_ORN
  else if reg 0x20 7 then B_ANDN
  else if reg 0x05 4 then B_MIN
  else if reg 0x05 5 then B_MAX
  else if reg 0x05 6 then B_MINU
  else if reg 0x05 7 then B_MAXU
  else if reg 0x10 2 then B_SH1ADD
  else if reg 0x10 4 then B_SH2ADD
  else if reg 0x10 6 then B_SH3ADD
  else if reg_imm 0x14 1 then B_BSET
  else if reg_imm 0x24 1 then B_BCLR
  else if reg_imm 0x34 1 then B_BINV
  else if reg_imm 0x24 5 then B_BEXT
  else if reg 0x14 2 then B_XPERM4
  else if reg 0x30 1 then B_ROL
  else if reg 0x30 5 then B_ROR
  else if (op =? 0x13) && (f7 =? 0x30) && (f3 =? 5) then B_RORI
  else if reg 0x04 4 then B_PACK
  else B_OTHER.

(** The forms that may take a loaded value late: add, addi, andi 1 and srli 1. *)
Definition late_add (x : Z) : bool := (func3 x =? 0) && ((opcode x =? 0x13) || ((opcode x =? 0x33) && (func7 x =? 0))).
Definition late_andi1 (x : Z) : bool := (opcode x =? 0x13) && (func3 x =? 7) && ((x >>> 20) =? 1).
Definition late_srli1 (x : Z) : bool := (opcode x =? 0x13) && (func3 x =? 5) && ((x >>> 20) =? 1).

Definition is_late_load_consumer (x : Z) : bool := late_add x || late_andi1 x || late_srli1 x.

Definition late_load_source_eligible (x source_mask : Z) : bool :=
  let allow_rs1 := late_add x || late_andi1 x || late_srli1 x in
  let allow_rs2 := late_add x && (opcode x =? 0x33) in
  (((source_mask &&& 1) =? 0) || allow_rs1) && (((source_mask &&& 2) =? 0) || allow_rs2).

(** [sext] of the source. *)
Definition sext_field (x n : Z) : Z := s32 (u32 (x <<< (32 - n))) >>> (32 - n).

Definition memory_width (x : Z) (load : bool) : MemWidth :=
  let f3 := func3 x in
  if (f3 =? 0) || (load && (f3 =? 4)) then W_BYTE
  else if (f3 =? 1) || (load && (f3 =? 5)) then W_HALF
  else if f3 =? 2 then W_WORD
  else W_OTHER.

Definition aligned_for_width (addr : Z) (width : MemWidth) : bool :=
  match width with
  | W_BYTE => true
  | W_HALF => (addr &&& 1) =? 0
  | W_WORD => (addr &&& 3) =? 0
  | W_OTHER => false
  end.

Definition dcacheable (addr : Z) : bool := ((addr >>> 20) &&& 3) =? 1.

(** ** Counters *)

Definition counters := String.string -> list Z -> Z.

Definition bump_counter (name : String.string) (idx : list Z) (n : Z) (c : counters) : counters :=
  fun name' idx' =>
    if bool_decide (name' = name /\ idx' = idx) then u64 (c name idx + n) else c name' idx'.

(** [if (b) counter++] and [counter += b] *)
Definition bump_counter_if (b : bool) (name : String.string) (idx : list Z) (c : counters) : counters :=
  if b then bump_counter name idx 1 c else c.

(** ** Direct-mapped shadow caches *)

Definition DCACHE_LINES : Z := 512.

Record DCacheEnt := MkDCacheEnt { d_tag : Z; d_valid : bool }.
Definition dcache := list DCacheEnt.
Definition empty_line : DCacheEnt := MkDCacheEnt 0 false.

Definition dcache_index (addr : Z) : Z := (addr >>> 2) &&& (DCACHE_LINES - 1).
Definition dcache_tag (addr : Z) : Z := (addr >>> 11) &&& 0x7f.

Definition dcache_hit (cache : dcache) (addr : Z) : bool :=
  let entry := aget empty_line cache (dcache_index addr) in
  d_valid entry && (d_tag entry =? dcache_tag addr).

Definition dcache_allocate (cache : dcache) (addr : Z) : dcache :=
  aset cache (dcache_index addr) (MkDCacheEnt (dcache_tag addr) true).

(** [cache[dcache_index(addr)].valid = 0] *)
Definition dcache_invalidate (cache : dcache) (addr : Z) : dcache :=
  aset cache (dcache_index addr) (MkDCacheEnt (d_tag (aget empty_line cache (dcache_index addr))) false).

(** The statistics of a cache are the counters whose names begin with the cache's name. *)
Definition stat (cache field : String.string) : String.string := String.append cache (String.append "." field).

Definition dcache_load (name : String.string) (cache : dcache) (c : counters) (addr : Z) (width : MemWidth)
    (eligible : bool) : bool * dcache * counters :=
  if negb eligible then (false, cache, c)
  else
    let c := bump_counter (stat name "load_access") [width_index width] 1 c in
    if dcache_hit cache addr then (true, cache, bump_counter (stat name "load_hit") [width_index width] 1 c)
    else (false, dcache_allocate cache addr, bump_counter (stat name "load_miss") [width_index width] 1 c).

(** current_dcache_store and rtl_dcache_store: a partial store invalidates the line. *)
Definition invalidating_store (name : String.string) (cache : dcache) (c : counters) (addr : Z) (width : MemWidth)
    : dcache * counters :=
  if negb (dcacheable addr) then (cache, c)
  else if bool_decide (width = W_WORD) then
    (dcache_allocate cache addr, bump_counter (stat name "full_store_allocate") [] 1 c)
  else
    (dcache_invalidate cache addr,
     bump_counter (stat name "partial_store_invalidate") [] 1 (bump_counter (stat name "partial_store_total") [] 1 c)).

Definition current_dcache_store := invalidating_store "current_dcache".
Definition rtl_dcache_store := invalidating_store "rtl_dcache".

(** A partial store that hits updates the line. *)
Definition proposed_dcache_store (cache : dcache) (c : counters) (addr : Z) (width : MemWidth) : dcache * counters :=
  if negb (dcacheable addr) then (cache, c)
  else if bool_decide (width = W_WORD) then
    (dcache_allocate cache addr, bump_counter (stat "proposed_dcache" "full_store_allocate") [] 1 c)
  else if dcache_hit cache addr then
    (cache, bump_counter (stat "proposed_dcache" "partial_store_hit_update") [] 1
              (bump_counter (stat "proposed_dcache" "partial_store_total") [] 1 c))
  else
    (dcache_invalidate cache addr,
     bump_counter (stat "proposed_dcache" "partial_store_invalidate") [] 1
       (bump_counter (stat "proposed_dcache" "partial_store_total") [] 1 c)).

(** ** Set-associative probes *)

Definition DCACHE_PROBE_MAX_ENTRIES : Z := 4096.

Record AssocDCacheEnt := MkAssocDCacheEnt { a_tag : Z; a_valid : bool; a_lru : Z }.
Record AssocDCache := MkAssocDCache { sets : Z; ways : Z; entries : list AssocDCacheEnt }.

Definition empty_way : AssocDCacheEnt := MkAssocDCacheEnt 0 false 0.

(** The static initialiser: only the geometry is given, the entries are zero. *)
Definition new_assoc (sets ways : Z) : AssocDCache :=
  MkAssocDCache sets ways (replicate (Z.to_nat DCACHE_PROBE_MAX_ENTRIES) empty_way).

Definition entry_at (cache : AssocDCache) (i : Z) : AssocDCacheEnt := aget empty_way (entries cache) i.
Definition set_entry (cache : AssocDCache) (i : Z) (e : AssocDCacheEnt) : AssocDCache :=
  MkAssocDCache (sets cache) (ways cache) (aset (entries cache) i e).

Definition assoc_set (cache : AssocDCache) (addr : Z) : Z := (addr >>> 2) mod sets cache.
Definition assoc_tag (cache : AssocDCache) (addr : Z) : Z := (addr >>> 2) / sets cache.

(** Entries are named by their index. *)
Definition assoc_entry (cache : AssocDCache) (set way : Z) : Z := set * ways cache + way.

Fixpoint find_way_loop (n : nat) (cache : AssocDCache) (set tag way : Z) : option Z :=
  match n with
  | O => None
  | S n =>
      let i := assoc_entry cache set way in
      let entry := entry_at cache i in
      if a_valid entry && (a_tag entry =? tag) then Some i else find_way_loop n cache set tag (way + 1)
  end.

Definition assoc_find (cache : AssocDCache) (addr : Z) : option Z :=
  find_way_loop (Z.to_nat (ways cache)) cache (assoc_set cache addr) (assoc_tag cache addr) 0.

Fixpoint victim_loop (n : nat) (cache : AssocDCache) (set way victim : Z) : Z :=
  match n with
  | O => victim
  | S n =>
      let i := assoc_entry cache set way in
      let entry := entry_at cache i in
      if negb (a_valid entry) then i
      else
        victim_loop n cache set (way + 1)
          (if a_lru (entry_at cache victim) <? a_lru entry then i else victim)
  end.

Definition assoc_victim (cache : AssocDCache) (addr : Z) : Z :=
  let set := assoc_set cache addr in
  victim_loop (Z.to_nat (ways cache)) cache set 0 (assoc_entry cache set 0).

Fixpoint touch_loop (n : nat) (cache : AssocDCache) (set way selected old_lru : Z) : AssocDCache :=
  match n with
  | O => cache
  | S n =>
      let i := assoc_entry cache set way in
      let entry := entry_at cache i in
      let cache :=
        if negb (i =? selected) && a_valid entry && (a_lru entry <? old_lru) then
          set_entry cache i (MkAssocDCacheEnt (a_tag entry) (a_valid entry) (u8 (a_lru entry + 1)))
        else cache in
      touch_loop n cache set (way + 1) selected old_lru
  end.

Definition assoc_touch (cache : AssocDCache) (addr selected : Z) : AssocDCache :=
  let set := assoc_set cache addr in
  let old_lru := a_lru (entry_at cache selected) in
  let cache := touch_loop (Z.to_nat (ways cache)) cache set 0 selected old_lru in
  let e := entry_at cache selected in
  set_entry cache selected (MkAssocDCacheEnt (a_tag e) (a_valid e) 0).

Definition assoc_allocate (cache : AssocDCache) (addr : Z) : AssocDCache :=
  let entry := match assoc_find cache addr with Some i => i | None => assoc_victim cache addr end in
  let e := entry_at cache entry in
  let cache := set_entry cache entry (MkAssocDCacheEnt (assoc_tag cache addr) true (a_lru e)) in
  assoc_touch cache addr entry.

Definition assoc_load (name : String.string) (cache : AssocDCache) (c : counters) (addr : Z) (width : MemWidth)
    (eligible : bool) : bool * AssocDCache * counters :=
  if negb eligible then (false, cache, c)
  else
    let c := bump_counter (stat name "load_access") [width_index width] 1 c in
    match assoc_find cache addr with
    | Some i => (true, assoc_touch cache addr i, bump_counter (stat name "load_hit") [width_index width] 1 c)
    | None => (false, assoc_allocate cache addr, bump_counter (stat name "load_miss") [width_index width] 1 c)
    end.

Definition assoc_store (name : String.string) (cache : AssocDCache) (c : counters) (addr : Z) (width : MemWidth)
    : AssocDCache * counters :=
  if negb (dcacheable addr) then (cache, c)
  else if bool_decide (width = W_WORD) then
    (assoc_allocate cache addr, bump_counter (stat name "full_store_allocate") [] 1 c)
  else
    let c := bump_counter (stat name "partial_store_total") [] 1 c in
    match assoc_find cache addr with
    | Some i => (assoc_touch cache addr i, bump_counter (stat name "partial_store_hit_update") [] 1 c)
    | None =>
        let i := assoc_victim cache addr in
        let e := entry_at cache i in
        (set_entry cache i (MkAssocDCacheEnt (a_tag e) false (a_lru e)),
         bump_counter (stat name "partial_store_invalidate") [] 1 c)
    end.

(** ** Branch target buffers *)

Record BtbEnt := MkBtbEnt { b_tag : Z; b_target : Z; b_valid : bool; b_type : Kind; b_counter : Z }.
Definition btb := list BtbEnt.
Definition empty_btb_ent : BtbEnt := MkBtbEnt 0 0 false K_ALU 0.

Definition btb_index (n pc : Z) : Z := (pc >>> 2) &&& (n - 1).

(** The new contents and whether the prediction was wrong. *)
Definition model (b : btb) (n pc target : Z) (type : Kind) (taken allow_jalr : bool) : btb * bool :=
  let i := btb_index n pc in
  if bool_decide (type = K_JALR) && negb allow_jalr then (b, true)
  else
    let e := aget empty_btb_ent b i in
    let hit := b_valid e && (b_tag e =? pc) && bool_decide (b_type e = type) in
    let predicted_taken := if bool_decide (type = K_BRANCH) then hit && (2 <=? b_counter e) else hit in
    let miss := negb (eqb predicted_taken taken) || (taken && (negb hit || negb (b_target e =? target))) in
    if negb hit then (aset b i (MkBtbEnt pc target true type (if taken then 2 else 1)), miss)
    else if taken then
      (aset b i (MkBtbEnt (b_tag e) target (b_valid e) (b_type e)
                   (if b_counter e <? 3 then b_counter e + 1 else b_counter e)), miss)
    else if 0 <? b_counter e then
      (aset b i (MkBtbEnt (b_tag e) (b_target e) (b_valid e) (b_type e) (b_counter e - 1)), miss)
    else (b, miss).

Definition model_stored_jalr_not_predicted (b : btb) (n pc target : Z) (type : Kind) (taken : bool) : btb * bool :=
  if negb (bool_decide (type = K_JALR)) then model b n pc target type taken false
  else (aset b (btb_index n pc) (MkBtbEnt pc target true type 2), true).

(** The direction counter after a branch. *)
Definition next_direction (matching taken : bool) (counter : Z) : Z :=
  if negb matching then if taken then 2 else 1
  else if taken && negb (counter =? 3) then counter + 1
  else if negb taken && negb (counter =? 0) then counter - 1
  else counter.

Definition model_rtl_btb32 (b : btb) (pc target inst : Z) (type : Kind) (taken skip_conflicting_not_taken : bool)
    : btb * bool :=
  let i := (pc >>> 2) &&& 31 in
  let e := aget empty_btb_ent b i in
  let hit := b_valid e && (b_tag e =? pc) in
  let predicted_taken :=
    hit && (bool_decide (b_type e = K_JAL) || (bool_decide (b_type e = K_BRANCH) && (2 <=? b_counter e))) in
  let predicted_pc := if predicted_taken then b_target e else u32 (pc + 4) in
  let wrong := negb (predicted_pc =? target) in
  let incoming_branch := bool_decide (type = K_BRANCH) in
  let incoming_jal := bool_decide (type = K_JAL) || (inst =? 0x00008067) in
  let matching_branch := hit && bool_decide (b_type e = K_BRANCH) && incoming_branch in
  if skip_conflicting_not_taken && incoming_branch && negb taken && negb matching_branch then (b, wrong)
  else
    let direction := if incoming_branch then next_direction matching_branch taken (b_counter e) else 0 in
    let stored_target := if incoming_branch then u32 (pc + u32 (branch_imm inst)) else target in
    (aset b i (MkBtbEnt pc stored_target true (if incoming_jal then K_JAL else type) direction), wrong).

(** ** Inclusion of the shadow caches *)

Lemma dcache_index_range addr : 0 <= dcache_index addr < DCACHE_LINES.
Proof.
  unfold dcache_index, DCACHE_LINES. change (512 - 1) with (Z.ones 9). rewrite Z.land_ones by lia.
  apply (Z.mod_pos_bound _ (2 ^ 9)). lia.
Qed.

(** Every valid line of [r] is a line of [p]. *)
Definition included (r p : dcache) : Prop :=
  Z.of_nat (length r) = DCACHE_LINES /\ Z.of_nat (length p) = DCACHE_LINES /\
  forall i, 0 <= i -> d_valid (aget empty_line r i) = true -> aget empty_line p i = aget empty_line r i.

Lemma included_hit r p addr : included r p -> dcache_hit r addr = true -> dcache_hit p addr = true.
Proof.
  intros (_ & _ & H) Hh. unfold dcache_hit in *. pose proof (dcache_index_range addr) as Hi.
  destruct (d_valid (aget empty_line r (dcache_index addr))) eqn:E; [| done]. rewrite (H _ (proj1 Hi) E), E. done.
Qed.

(** An update of the same line of both caches. *)
Lemma included_aset r p addr e e' :
  included r p -> (d_valid e = true -> e' = e) ->
  included (aset r (dcache_index addr) e) (aset p (dcache_index addr) e').
Proof.
  intros (Lr & Lp & H) He. pose proof (dcache_index_range addr) as Hi. split_and!; [by rewrite length_aset.. |].
  intros j Hj. destruct (decide (j = dcache_index addr)) as [-> | Hne].
  - rewrite !aget_aset_eq by lia. apply He.
  - rewrite !aget_aset_ne by lia. by apply H.
Qed.

Lemma included_aset_l r p addr e :
  included r p -> (d_valid e = true -> aget empty_line p (dcache_index addr) = e) ->
  included (aset r (dcache_index addr) e) p.
Proof.
  intros (Lr & Lp & H) He. pose proof (dcache_index_range addr) as Hi. split_and!; [by rewrite length_aset | done |].
  intros j Hj. destruct (decide (j = dcache_index addr)) as [-> | Hne].
  - rewrite aget_aset_eq by lia. apply He.
  - rewrite aget_aset_ne by lia. by apply H.
Qed.

Lemma hit_line p addr : dcache_hit p addr = true -> aget empty_line p (dcache_index addr) = MkDCacheEnt (dcache_tag addr) true.
Proof.
  unfold dcache_hit. destruct (aget empty_line p (dcache_index addr)) as [t v]. cbn.
  intros [-> ->%Z.eqb_eq]%andb_true_iff. done.
Qed.

(** The same load on both caches. *)
Lemma included_load n1 n2 r p c1 c2 addr w el :
  included r p ->
  let '(h1, r', _) := dcache_load n1 r c1 addr w el in
  let '(h2, p', _) := dcache_load n2 p c2 addr w el in
  included r' p' /\ (h1 = true -> h2 = true).
Proof.
  intros H. unfold dcache_load. destruct el; cbn [negb]; [| done].
  destruct (dcache_hit r addr) eqn:E1.
  - by rewrite (included_hit r p addr H E1).
  - destruct (dcache_hit p addr) eqn:E2; split; try done.
    + apply included_aset_l; [done |]. intros _. by apply hit_line.
    + by apply included_aset.
Qed.

(** The same store on both caches. *)
Lemma included_store r p c1 c2 addr w :
  included r p ->
  included (rtl_dcache_store r c1 addr w).1 (proposed_dcache_store p c2 addr w).1.
Proof.
  intros H. unfold rtl_dcache_store, invalidating_store, proposed_dcache_store.
  destruct (dcacheable addr); cbn [negb]; [| done]. destruct (bool_decide (w = W_WORD)); cbn [fst].
  - by apply included_aset.
  - destruct (dcache_hit p addr); cbn [fst].
    + by apply included_aset_l.
    + by apply included_aset.
Qed.

(** ** The probes never record recency *)

Definition no_recency (cache : AssocDCache) : Prop := Forall (fun e => a_lru e = 0) (entries cache).

Lemma no_recency_entry cache i : no_recency cache -> a_lru (entry_at cache i) = 0.
Proof. intros H. unfold entry_at. by apply (aget_Forall (fun e => a_lru e = 0)). Qed.

Lemma no_recency_set cache i e : no_recency cache -> a_lru e = 0 -> no_recency (set_entry cache i e).
Proof. intros H He. by apply (aset_Forall (fun e => a_lru e = 0)). Qed.

Lemma touch_loop_none n cache set way sel :
  no_recency cache -> touch_loop n cache set way sel 0 = cache.
Proof.
  intros H. revert way. induction n as [|n IH]; intros way; cbn [touch_loop]; [done |].
  rewrite (no_recency_entry cache _ H), Z.ltb_irrefl, andb_false_r. apply IH.
Qed.

Lemma touch_none cache addr sel :
  no_recency cache ->
  assoc_touch cache addr sel =
    set_entry cache sel (MkAssocDCacheEnt (a_tag (entry_at cache sel)) (a_valid (entry_at cache sel)) 0).
Proof. intros H. unfold assoc_touch. by rewrite (no_recency_entry cache sel H), touch_loop_none. Qed.

Inductive cache_access := ALoad (addr : Z) (width : MemWidth) (eligible : bool) | AStore (addr : Z) (width : MemWidth).

(** A sequence of accesses to one probe. *)
Definition assoc_access (name : String.string) (st : AssocDCache * counters) (a : cache_access) : AssocDCache * counters :=
  match a with
  | ALoad addr width eligible => let '(_, cache, c) := assoc_load name st.1 st.2 addr width eligible in (cache, c)
  | AStore addr width => assoc_store name st.1 st.2 addr width
  end.

Definition assoc_run (name : String.string) (accs : list cache_access) (st : AssocDCache * counters) : AssocDCache * counters :=
  foldl (assoc_access name) st accs.

(** The geometry fits the entry array, and a set holds a tag at most once. *)
Record assoc_ok (cache : AssocDCache) : Prop := AssocOk {
  ok_sets : 0 < sets cache;
  ok_ways : 0 < ways cache;
  ok_size : sets cache * ways cache <= Z.of_nat (length (entries cache));
  ok_lru : no_recency cache;
  ok_unique set k1 k2 : 0 <= set < sets cache -> 0 <= k1 < ways cache -> 0 <= k2 < ways cache ->
    a_valid (entry_at cache (assoc_entry cache set k1)) = true ->
    a_valid (entry_at cache (assoc_entry cache set k2)) = true ->
    a_tag (entry_at cache (assoc_entry cache set k1)) = a_tag (entry_at cache (assoc_entry cache set k2)) -> k1 = k2 }.

Lemma assoc_entry_range cache set k :
  assoc_ok cache -> 0 <= set < sets cache -> 0 <= k < ways cache ->
  0 <= assoc_entry cache set k < Z.of_nat (length (entries cache)).
Proof. intros [Hs Hw Hz _ _] H1 H2. unfold assoc_entry. nia. Qed.

Lemma assoc_entry_inj cache s1 k1 s2 k2 :
  0 <= k1 < ways cache -> 0 <= k2 < ways cache -> assoc_entry cache s1 k1 = assoc_entry cache s2 k2 -> s1 = s2 /\ k1 = k2.
Proof. intros H1 H2 E. unfold assoc_entry in E. assert (s1 = s2) by nia. subst. lia. Qed.

Lemma assoc_set_range cache addr : 0 < sets cache -> 0 <= assoc_set cache addr < sets cache.
Proof. intros H. by apply Z.mod_pos_bound. Qed.

Lemma find_way_loop_spec n cache set tag way :
  match find_way_loop n cache set tag way with
  | Some i => exists k, way <= k < way + Z.of_nat n /\ i = assoc_entry cache set k /\
      a_valid (entry_at cache i) = true /\ a_tag (entry_at cache i) = tag
  | None => forall k, way <= k < way + Z.of_nat n ->
      a_valid (entry_at cache (assoc_entry cache set k)) = true -> a_tag (entry_at cache (assoc_entry cache set k)) <> tag
  end.
Proof.
  revert way. induction n as [|n IH]; intros way; cbn [find_way_loop]; [intros k Hk; lia |].
  destruct (a_valid _ && _) eqn:E.
  - apply andb_true_iff in E as [E1 E2%Z.eqb_eq]. exists way. split; [lia | done].
  - specialize (IH (way + 1)). destruct (find_way_loop n cache set tag (way + 1)) as [i |].
    + destruct IH as (k & Hk & H). exists k. split; [lia | done].
    + intros k Hk Hv Ht. destruct (decide (k = way)) as [-> | Hne]; [| apply (IH k); lia || done].
      rewrite Hv, Ht, Z.eqb_refl in E. done.
Qed.

Lemma assoc_find_spec cache addr :
  0 < ways cache ->
  match assoc_find cache addr with
  | Some i => exists k, 0 <= k < ways cache /\ i = assoc_entry cache (assoc_set cache addr) k /\
      a_valid (entry_at cache i) = true /\ a_tag (entry_at cache i) = assoc_tag cache addr
  | None => forall k, 0 <= k < ways cache ->
      a_valid (entry_at cache (assoc_entry cache (assoc_set cache addr) k)) = true ->
      a_tag (entry_at cache (assoc_entry cache (assoc_set cache addr) k)) <> assoc_tag cache addr
  end.
Proof.
  intros Hw. unfold assoc_find. pose proof (find_way_loop_spec (Z.to_nat (ways cache)) cache (assoc_set cache addr) (assoc_tag cache addr) 0) as H.
  rewrite Z2Nat.id in H by lia. apply H.
Qed.

(** With all recency fields zero the victim is the first invalid way, or way 0. *)
Lemma victim_loop_spec n cache set way v :
  no_recency cache ->
  (exists k, way <= k < way + Z.of_nat n /\ victim_loop n cache set way v = assoc_entry cache set k /\
     a_valid (entry_at cache (assoc_entry cache set k)) = false) \/
  (victim_loop n cache set way v = v /\
   forall k, way <= k < way + Z.of_nat n -> a_valid (entry_at cache (assoc_entry cache set k)) = true).
Proof.
  intros H. revert way. induction n as [|n IH]; intros way; cbn [victim_loop]; [right; split; [done | lia] |].
  destruct (a_valid (entry_at cache (assoc_entry cache set way))) eqn:E; cbn [negb].
  - rewrite !(no_recency_entry cache _ H), Z.ltb_irrefl. destruct (IH (way + 1)) as [(k & Hk & Ek) | [Ek Hv]].
    + left. exists k. split; [lia | done].
    + right. split; [done |]. intros k Hk. destruct (decide (k = way)) as [-> | Hne]; [done | apply Hv; lia].
  - left. exists way. split; [lia | done].
Qed.

Lemma assoc_victim_spec cache addr :
  assoc_ok cache ->
  exists k, 0 <= k < ways cache /\ assoc_victim cache addr = assoc_entry cache (assoc_set cache addr) k /\
    (a_valid (entry_at cache (assoc_entry cache (assoc_set cache addr) k)) = true -> k = 0).
Proof.
  intros [Hs Hw Hz Hl _]. unfold assoc_victim. set (set := assoc_set cache addr).
  destruct (victim_loop_spec (Z.to_nat (ways cache)) cache set 0 (assoc_entry cache set 0) Hl) as [(k & Hk & E & Hv) | [E Hv]].
  - rewrite Z2Nat.id in Hk by lia. exists k. rewrite E, Hv. done.
  - exists 0. rewrite E. split; [lia | done].
Qed.

(** Storing an entry of one set. *)
Lemma entry_at_set cache set k s' k' e :
  assoc_ok cache -> 0 <= set < sets cache -> 0 <= k < ways cache -> 0 <= s' < sets cache -> 0 <= k' < ways cache ->
  entry_at (set_entry cache (assoc_entry cache set k) e) (assoc_entry cache s' k') =
    if decide (s' = set /\ k' = k) then e else entry_at cache (assoc_entry cache s' k').
Proof.
  intros Hok H1 H2 H3 H4. pose proof (assoc_entry_range cache set k Hok H1 H2) as Hr.
  pose proof (assoc_entry_range cache s' k' Hok H3 H4) as Hr'. unfold entry_at, set_entry. cbn [entries].
  destruct (decide (s' = set /\ k' = k)) as [[-> ->] | Hne].
  - by apply aget_aset_eq.
  - apply aget_aset_ne; [lia | lia |]. intros E. apply Hne.
    destruct (assoc_entry_inj cache set k s' k' H2 H4 E) as [-> ->]. done.
Qed.

(** Storing an entry keeps the invariant if no other way of the set has its tag. *)
Lemma assoc_ok_set cache set k e :
  assoc_ok cache -> 0 <= set < sets cache -> 0 <= k < ways cache -> a_lru e = 0 ->
  (a_valid e = true -> forall k', 0 <= k' < ways cache -> k' <> k ->
     a_valid (entry_at cache (assoc_entry cache set k')) = true ->
     a_tag (entry_at cache (assoc_entry cache set k')) <> a_tag e) ->
  assoc_ok (set_entry cache (assoc_entry cache set k) e).
Proof.
  intros Hok H1 H2 He Hn. pose proof Hok as [Hs Hw Hz Hl Hu].
  split; cbn [sets ways set_entry entries]; [done | done | by rewrite length_aset | by apply no_recency_set |].
  intros s' k1 k2 Hs' Hk1 Hk2. change (assoc_entry (set_entry cache (assoc_entry cache set k) e) s')
    with (assoc_entry cache s'). rewrite !entry_at_set by done.
  destruct (decide (s' = set /\ k1 = k)) as [[E1 F1] | N1], (decide (s' = set /\ k2 = k)) as [[E2 F2] | N2]; intros V1 V2 E.
  - congruence.
  - subst. exfalso. apply (Hn V1 k2 Hk2); [intros F; apply N2; by split | done | by symmetry].
  - subst. exfalso. apply (Hn V2 k1 Hk1); [intros F; apply N1; by split | done | done].
  - by apply (Hu s').
Qed.

Lemma assoc_allocate_ok cache addr :
  assoc_ok cache -> assoc_ok (assoc_allocate cache addr) /\ sets (assoc_allocate cache addr) = sets cache /\
    ways (assoc_allocate cache addr) = ways cache /\ is_Some (assoc_find (assoc_allocate cache addr) addr).
Proof.
  intros Hok. pose proof (assoc_set_range cache addr (ok_sets _ Hok)) as Hset. unfold assoc_allocate.
  set (s := assoc_set cache addr) in *.
  assert (exists k, 0 <= k < ways cache /\
    (match assoc_find cache addr with Some i => i | None => assoc_victim cache addr end) = assoc_entry cache s k /\
    forall k', 0 <= k' < ways cache -> k' <> k -> a_valid (entry_at cache (assoc_entry cache s k')) = true ->
      a_tag (entry_at cache (assoc_entry cache s k')) <> assoc_tag cache addr) as (k & Hk & -> & Hn).
  { pose proof (assoc_find_spec cache addr (ok_ways _ Hok)) as Hf. destruct (assoc_find cache addr) as [i |].
    - destruct Hf as (k & Hk & -> & Hv & Ht). exists k. split; [done |]. split; [done |]. intros k' Hk' Hne V' T'. apply Hne.
      apply (ok_unique _ Hok s); try done. exact (eq_trans T' (eq_sym Ht)).
    - destruct (assoc_victim_spec cache addr Hok) as (k & Hk & -> & _). exists k. split; [done |]. split; [done |].
      intros k' Hk' _. by apply Hf. }
  set (e := MkAssocDCacheEnt (assoc_tag cache addr) true (a_lru (entry_at cache (assoc_entry cache s k)))).
  assert (a_lru e = 0) as He by apply (no_recency_entry _ _ (ok_lru _ Hok)).
  set (c1 := set_entry cache (assoc_entry cache s k) e).
  assert (assoc_ok c1) as Hok1 by (apply assoc_ok_set; done).
  assert (entry_at c1 (assoc_entry cache s k) = e) as E1.
  { unfold c1. rewrite entry_at_set by done. by rewrite decide_True. }
  rewrite touch_none by apply Hok1. rewrite E1. cbn [a_tag a_valid e].
  set (c2 := set_entry c1 _ _).
  assert (assoc_ok c2) as Hok2.
  { apply (assoc_ok_set c1 s k); try done. intros _ k' Hk' Hne V'. change (assoc_entry c1) with (assoc_entry cache) in *.
    unfold c1 in V' |- *. rewrite entry_at_set in V' |- * by done.
    rewrite decide_False in V' |- * by (by intros [_ ?]). by apply Hn. }
  split_and!; try done.
  pose proof (assoc_find_spec c2 addr (ok_ways _ Hok2)) as Hf. destruct (assoc_find c2 addr); [done |]. exfalso.
  assert (entry_at c2 (assoc_entry cache s k) = MkAssocDCacheEnt (assoc_tag cache addr) true 0) as E2.
  { unfold c2. change (assoc_entry cache s k) with (assoc_entry c1 s k). rewrite entry_at_set by done. by rewrite decide_True. }
  apply (Hf k Hk); change (assoc_entry c2 (assoc_set c2 addr) k) with (assoc_entry cache s k); by rewrite E2.
Qed.

Lemma assoc_touch_ok cache addr i :
  assoc_ok cache -> assoc_find cache addr = Some i ->
  assoc_ok (assoc_touch cache addr i) /\ sets (assoc_touch cache addr i) = sets cache /\
  ways (assoc_touch cache addr i) = ways cache /\ is_Some (assoc_find (assoc_touch cache addr i) addr).
Proof.
  intros Hok Ef. pose proof (assoc_set_range cache addr (ok_sets _ Hok)) as Hset.
  pose proof (assoc_find_spec cache addr (ok_ways _ Hok)) as Hf. rewrite Ef in Hf. destruct Hf as (k & Hk & -> & Hv & Ht).
  rewrite touch_none by apply Hok. rewrite Hv, Ht. set (s := assoc_set cache addr) in *.
  set (c2 := set_entry _ _ _).
  assert (assoc_ok c2) as Hok2.
  { apply assoc_ok_set; try done. intros _ k' Hk' Hne V' T'. apply Hne. apply (ok_unique _ Hok s); try done. exact (eq_trans T' (eq_sym Ht)). }
  split_and!; try done.
  pose proof (assoc_find_spec c2 addr (ok_ways _ Hok2)) as Hf. destruct (assoc_find c2 addr); [done |]. exfalso.
  assert (entry_at c2 (assoc_entry cache s k) = MkAssocDCacheEnt (assoc_tag cache addr) true 0) as E2.
  { unfold c2. rewrite entry_at_set by done. by rewrite decide_True. }
  apply (Hf k Hk); change (assoc_entry c2 (assoc_set c2 addr) k) with (assoc_entry cache s k); by rewrite E2.
Qed.

(** The accesses that put their line into the cache. *)
Definition installs (a : cache_access) : option Z :=
  match a with
  | ALoad addr _ true => Some addr
  | AStore addr W_WORD => if dcacheable addr then Some addr else None
  | _ => None
  end.

Lemma assoc_access_ok name st a :
  assoc_ok st.1 ->
  assoc_ok (assoc_access name st a).1 /\ sets (assoc_access name st a).1 = sets st.1 /\
  ways (assoc_access name st a).1 = ways st.1 /\
  forall addr, installs a = Some addr -> is_Some (assoc_find (assoc_access name st a).1 addr).
Proof.
  intros Hok. destruct st as [cache c]. cbn [fst] in *. destruct a as [addr w el | addr w]; cbn [assoc_access fst snd].
  - unfold assoc_load. destruct el; cbn [negb installs]; [| done].
    destruct (assoc_find cache addr) as [i |] eqn:Ef; cbn [fst].
    + destruct (assoc_touch_ok cache addr i Hok Ef) as (H1 & H2 & H3 & H4). split_and!; try done. by intros ? [= <-].
    + destruct (assoc_allocate_ok cache addr Hok) as (H1 & H2 & H3 & H4). split_and!; try done. by intros ? [= <-].
  - unfold assoc_store. cbn [installs]. destruct (dcacheable addr) eqn:Ed; cbn [negb fst].
    2: { split_and!; try done. by destruct w. }
    destruct (bool_decide_reflect (w = W_WORD)) as [-> | Hw]; cbn [fst].
    + destruct (assoc_allocate_ok cache addr Hok) as (H1 & H2 & H3 & H4). split_and!; try done. by intros ? [= <-].
    + assert (forall addr0, match w with W_WORD => Some addr | _ => None end = Some addr0 -> False) as Hno by (by destruct w).
      destruct (assoc_find cache addr) as [i |] eqn:Ef; cbn [fst].
      * destruct (assoc_touch_ok cache addr i Hok Ef) as (H1 & H2 & H3 & _). split_and!; try done. intros a0 E. by destruct (Hno a0).
      * destruct (assoc_victim_spec cache addr Hok) as (k & Hk & -> & _). split_and!; try done; [| intros a0 E; by destruct (Hno a0)].
        apply assoc_ok_set; try done; [by apply assoc_set_range, ok_sets | by apply no_recency_entry, ok_lru].
Qed.

Lemma assoc_run_ok name accs st :
  assoc_ok st.1 -> assoc_ok (assoc_run name accs st).1 /\ sets (assoc_run name accs st).1 = sets st.1 /\
    ways (assoc_run name accs st).1 = ways st.1.
Proof.
  revert st. induction accs as [|a accs IH]; intros st Hok; cbn [assoc_run foldl]; [done |].
  destruct (assoc_access_ok name st a Hok) as (H1 & H2 & H3 & _). destruct (IH (assoc_access name st a) H1) as (H4 & H5 & H6).
  unfold assoc_run in *. rewrite H5, H6. done.
Qed.

Lemma new_assoc_ok s w : 0 < s -> 0 < w -> s * w <= DCACHE_PROBE_MAX_ENTRIES -> assoc_ok (new_assoc s w).
Proof.
  intros Hs Hw Hz. split; cbn [sets ways entries new_assoc]; [done | done | | |].
  - rewrite length_replicate. unfold DCACHE_PROBE_MAX_ENTRIES in *. lia.
  - by apply Forall_replicate.
  - intros set k1 k2 _ _ _. unfold entry_at. cbn [entries new_assoc].
    rewrite (aget_Forall (fun e => a_valid e = false) empty_way); [done | done | by apply Forall_replicate].
Qed.

(** The set-associative probes are well-formed caches without recency.  After any
    sequence of loads and stores from the initial state, a set never holds a tag twice, the
    line of an access that installs it is found afterwards, and every recency field is
    still 0: touching an entry only ages entries that are younger than it, and none ever
    is.  Hence in a full set the victim is always way 0, however recently it was used. *)
Theorem assoc_probes_keep_no_recency name s w accs c :
  0 < s -> 0 < w -> s * w <= DCACHE_PROBE_MAX_ENTRIES ->
  let st := assoc_run name accs (new_assoc s w, c) in
  assoc_ok st.1 /\ no_recency st.1 /\
  (forall addr, (forall k, 0 <= k < w -> a_valid (entry_at st.1 (assoc_entry st.1 (assoc_set st.1 addr) k)) = true) ->
     assoc_victim st.1 addr = assoc_entry st.1 (assoc_set st.1 addr) 0) /\
  (forall a addr, installs a = Some addr -> is_Some (assoc_find (assoc_access name st a).1 addr)).
Proof.
  intros Hs Hw Hz st. pose proof (new_assoc_ok s w Hs Hw Hz) as Hok0.
  destruct (assoc_run_ok name accs (new_assoc s w, c) Hok0) as (Hok & _ & Ew). fold st in Hok, Ew. cbn [fst ways new_assoc] in Ew.
  split_and!; [done | by apply ok_lru | |].
  - intros addr Hv. destruct (assoc_victim_spec st.1 addr Hok) as (k & Hk & E & H0). rewrite E. rewrite H0; [done |].
    apply Hv. by rewrite Ew in Hk.
  - intros a addr Ha. by apply (assoc_access_ok name st a Hok).
Qed.

(** Lines A and B of one set of the two-way probe; A is used again before C comes: A is
    evicted, the least recently used B stays. *)
Example recency_ignored :
  let st := assoc_run "dcache_2way"
              [ALoad 0x100000 W_WORD true; ALoad 0x100400 W_WORD true; ALoad 0x100000 W_WORD true; ALoad 0x100800 W_WORD true]
              (new_assoc 256 2, fun _ _ => 0) in
  assoc_find st.1 0x100000 = None /\ assoc_find st.1 0x100400 = Some 1 /\ assoc_find st.1 0x100800 = Some 0.
Proof. vm_compute. done. Qed.

Lemma assoc_probes_keep_no_recency_witness :
  256 * 2 <= DCACHE_PROBE_MAX_ENTRIES /\
  no_recency (assoc_run "dcache_2way" [ALoad 0x100000 W_WORD true; AStore 0x100401 W_BYTE] (new_assoc 256 2, fun _ _ => 0)).1.
Proof.
  split; [vm_compute; discriminate |].
  apply (assoc_probes_keep_no_recency "dcache_2way" 256 2 [ALoad 0x100000 W_WORD true; AStore 0x100401 W_BYTE] (fun _ _ => 0));
    [reflexivity | reflexivity | vm_compute; discriminate].
Defined.
