(* ===== verification/Profile.v ===== *)
(** The instruction profiler (nemu/src/isa/riscv32/profile.c): what
    riscv_profile_record does for one executed instruction - classification, dependence
    tracking, load forwarding statistics, branch prediction and shadow caches. *)

From stdpp Require Import strings.
From S2P Require Import Prelude ProfileCache.
#[local] Open Scope Z_scope.
#[local] Open Scope cint_scope.

Definition PHASE_LEN : Z := 16000000.
Definition MAX_PHASES : Z := 128.
Definition PC_SLOTS : Z := 1 <<< 20.
Definition PAIR_SLOTS : Z := 1 <<< 16.

Record PcStat := MkPcStat { ps_pc : Z; ps_n : Z; ps_taken : Z }.

(** The key of a load pair and whether the slot is used; its counters are named by the slot. *)
Record LoadPairStat := MkLoadPair {
  producer_pc : Z; consumer_pc : Z; lp_width : MemWidth; lp_consumer : Kind; lp_used : bool }.

Record PreviousLoad := MkPreviousLoad {
  pl_pc : Z; pl_rd : Z; pl_width : MemWidth;
  current_hit : bool; rtl_hit : bool; proposed_hit : bool; assoc_hit : list bool;
  d1_state_diff : bool; pl_valid : bool }.

(** The profiler's static variables. *)
Record profile := MkProfile {
  counts : counters;
  btbs : String.string -> btb;
  dcaches : String.string -> dcache;
  assocs : String.string -> AssocDCache;
  previous_load : PreviousLoad;
  distance2_load : PreviousLoad;
  last_write : list Z;
  last_kind : list Kind;
  previous_miss_consumer_rd : Z;
  masked_baseline_miss_consumer_rd : Z;
  masked_candidate_miss_consumer_rd : Z;
  pcs : Z -> PcStat;
  load_pairs : Z -> LoadPairStat }.

Definition no_load : PreviousLoad := MkPreviousLoad 0 0 W_BYTE false false false [false; false; false] false false.

(** Everything is zero when the emulator starts. *)
Definition initial_profile : profile :=
  MkProfile (fun _ _ => 0)
    (fun name => replicate (if bool_decide (name = "btb16" \/ name = "btb16j") then 16
                            else if bool_decide (name = "btb64") then 64
                            else if bool_decide (name = "btb128") then 128 else 32) empty_btb_ent)
    (fun _ => replicate 512 empty_line)
    (fun name => if bool_decide (name = "dcache_2way") then new_assoc 256 2
                 else if bool_decide (name = "dcache_4way") then new_assoc 128 4
                 else new_assoc 64 8)
    no_load no_load (replicate 32 0) (replicate 32 K_ALU) 0 0 0
    (fun _ => MkPcStat 0 0 0) (fun _ => MkLoadPair 0 0 W_BYTE K_ALU false).

(** ** Updates of the state *)

Definition fset {A B} `{EqDecision A} (k : A) (v : B) (f : A -> B) : A -> B :=
  fun x => if decide (x = k) then v else f x.

Definition on_counts (g : counters -> counters) (st : profile) : profile :=
  MkProfile (g (counts st)) (btbs st) (dcaches st) (assocs st) (previous_load st) (distance2_load st)
    (last_write st) (last_kind st) (previous_miss_consumer_rd st) (masked_baseline_miss_consumer_rd st)
    (masked_candidate_miss_consumer_rd st) (pcs st) (load_pairs st).

Definition set_caches (cs : counters) (bs : String.string -> btb) (ds : String.string -> dcache)
    (az : String.string -> AssocDCache) (st : profile) : profile :=
  MkProfile cs bs ds az (previous_load st) (distance2_load st) (last_write st) (last_kind st)
    (previous_miss_consumer_rd st) (masked_baseline_miss_consumer_rd st) (masked_candidate_miss_consumer_rd st)
    (pcs st) (load_pairs st).

Definition set_loads (prev dist2 : PreviousLoad) (st : profile) : profile :=
  MkProfile (counts st) (btbs st) (dcaches st) (assocs st) prev dist2 (last_write st) (last_kind st)
    (previous_miss_consumer_rd st) (masked_baseline_miss_consumer_rd st) (masked_candidate_miss_consumer_rd st)
    (pcs st) (load_pairs st).

Definition set_miss_rds (p b c : Z) (st : profile) : profile :=
  MkProfile (counts st) (btbs st) (dcaches st) (assocs st) (previous_load st) (distance2_load st) (last_write st)
    (last_kind st) p b c (pcs st) (load_pairs st).

Definition set_tables (q : Z -> PcStat) (lp : Z -> LoadPairStat) (st : profile) : profile :=
  MkProfile (counts st) (btbs st) (dcaches st) (assocs st) (previous_load st) (distance2_load st) (last_write st)
    (last_kind st) (previous_miss_consumer_rd st) (masked_baseline_miss_consumer_rd st)
    (masked_candidate_miss_consumer_rd st) q lp.

Definition set_last (lw : list Z) (lk : list Kind) (st : profile) : profile :=
  MkProfile (counts st) (btbs st) (dcaches st) (assocs st) (previous_load st) (distance2_load st) lw lk
    (previous_miss_consumer_rd st) (masked_baseline_miss_consumer_rd st) (masked_candidate_miss_consumer_rd st)
    (pcs st) (load_pairs st).

(** [counter++] on the state. *)
Definition tick (name : String.string) (idx : list Z) (st : profile) : profile := on_counts (bump_counter name idx 1) st.
Definition tick_if (b : bool) (name : String.string) (idx : list Z) (st : profile) : profile :=
  if b then tick name idx st else st.

(** ** The parts of riscv_profile_record *)

(** An instruction as the profiler sees it: the fields, which sources it reads and its phase. *)
Record inst_info := MkInst {
  i_pc : Z; i_x : Z; i_kind : Kind; i_rd : Z; i_rs1 : Z; i_rs2 : Z; i_use1 : bool; i_use2 : bool; i_phase : Z }.

Definition decode_inst (pc x phase : Z) : inst_info :=
  let op := opcode x in
  MkInst pc x (kind_of x) ((x >>> 7) &&& 31) ((x >>> 15) &&& 31) ((x >>> 20) &&& 31)
    (negb ((op =? 0x37) || (op =? 0x17) || (op =? 0x6f)))
    ((op =? 0x33) || (op =? 0x23) || (op =? 0x63) || (op =? 0x0b)) phase.

(** [(use1 && rs1 == rd) || (use2 && rs2 == rd)] *)
Definition reads_reg (i : inst_info) (rd : Z) : bool := (i_use1 i && (i_rs1 i =? rd)) || (i_use2 i && (i_rs2 i =? rd)).

(** [((use1 && rs1 == rd) ? 1 : 0) | ((use2 && rs2 == rd) ? 2 : 0)] *)
Definition source_mask (i : inst_info) (rd : Z) : Z :=
  (if i_use1 i && (i_rs1 i =? rd) then 1 else 0) ||| (if i_use2 i && (i_rs2 i =? rd) then 2 else 0).

(** An address operand needs the loaded value early. *)
Definition address_rs1 (i : inst_info) : bool :=
  bool_decide (i_kind i = K_LOAD) || bool_decide (i_kind i = K_STORE) || bool_decide (i_kind i = K_JALR).

(** Consumers of a load that missed, and the instructions after them. *)
Definition record_miss_consumers (i : inst_info) (st : profile) : profile :=
  let dep rd := negb (rd =? 0) && reads_reg i rd in
  let st := tick_if (dep (previous_miss_consumer_rd st)) "miss_consumer_successor_deps" [] st in
  let st := tick_if (dep (masked_baseline_miss_consumer_rd st)) "masked_store_baseline_miss_successor_deps" [] st in
  let st := tick_if (dep (masked_candidate_miss_consumer_rd st)) "masked_store_candidate_miss_successor_deps" [] st in
  let pl := previous_load st in
  let mask := source_mask i (pl_rd pl) in
  if pl_valid pl && negb (i_rd i =? 0) && is_late_load_consumer (i_x i) && negb (mask =? 0) then
    let eligible := late_load_source_eligible (i_x i) mask in
    set_miss_rds (if proposed_hit pl then 0 else i_rd i)
      (if eligible && negb (rtl_hit pl) then i_rd i else 0)
      (if eligible && negb (proposed_hit pl) then i_rd i else 0) st
  else set_miss_rds 0 0 0 st.

(** The load may be forwarded to the instruction. *)
Definition forward_eligible (distance : Z) (i : inst_info) (mask : Z) : bool :=
  if distance =? 1 then late_load_source_eligible (i_x i) mask
  else negb (address_rs1 i && negb ((mask &&& 1) =? 0)).

(** Returns the load with its new [d1_state_diff]. *)
Definition record_masked_store_update_saving (load : PreviousLoad) (distance : Z) (i : inst_info) (c : counters)
    : PreviousLoad * counters :=
  let mask := source_mask i (pl_rd load) in
  if negb (pl_valid load) || (mask =? 0) then (load, c)
  else if negb (forward_eligible distance i mask) then (load, c)
  else if (distance =? 2) && d1_state_diff load then (load, c)
  else
    let idx := [distance - 1; width_index (pl_width load)] in
    let baseline_hit := rtl_hit load in
    let candidate_hit := proposed_hit load in
    let c := bump_counter_if baseline_hit "masked_store_baseline_hit" idx c in
    let c := bump_counter_if candidate_hit "masked_store_candidate_hit" idx c in
    let c := bump_counter_if (candidate_hit && negb baseline_hit) "masked_store_incremental_hit" idx c in
    let c := bump_counter_if (baseline_hit && negb candidate_hit) "masked_store_lost_hit" idx c in
    let load :=
      if distance =? 1 then
        MkPreviousLoad (pl_pc load) (pl_rd load) (pl_width load) (current_hit load) (rtl_hit load) (proposed_hit load)
          (assoc_hit load) (xorb baseline_hit candidate_hit) (pl_valid load)
      else load in
    (load, c).

Definition pair_hash (producer_pc consumer_pc width consumer : Z) : Z :=
  u32 (producer_pc * 2654435761) ^^^ u32 (consumer_pc * 2246822519) ^^^
  u32 (width * 3266489917) ^^^ u32 (consumer * 668265263).

(** Linear probing: the slot of the pair, claimed if it was free. *)
Fixpoint pair_loop (n : nat) (probe h producer consumer : Z) (width : MemWidth) (kind : Kind) (lp : Z -> LoadPairStat)
    : option (Z * (Z -> LoadPairStat)) :=
  match n with
  | O => None
  | S n =>
      let slot := u32 (h + probe) &&& (PAIR_SLOTS - 1) in
      let pair := lp slot in
      if negb (lp_used pair) then Some (slot, fset slot (MkLoadPair producer consumer width kind true) lp)
      else if (producer_pc pair =? producer) && (consumer_pc pair =? consumer) &&
              bool_decide (lp_width pair = width) && bool_decide (lp_consumer pair = kind) then Some (slot, lp)
      else pair_loop n (probe + 1) h producer consumer width kind lp
  end.

Definition find_load_pair (producer consumer : Z) (width : MemWidth) (kind : Kind) (st : profile) : option Z * profile :=
  let h := pair_hash producer consumer (width_index width) (kind_index kind) in
  match pair_loop (Z.to_nat PAIR_SLOTS) 0 h producer consumer width kind (load_pairs st) with
  | Some (slot, lp) => (Some slot, set_tables (pcs st) lp st)
  | None => (None, tick "pair_table_full" [] st)
  end.

(** Counts an event of the immediate successor of a load by width and consumer. *)
Definition record_immediate_load_raw (i : inst_info) (st : profile) : profile :=
  let pl := previous_load st in
  let mask := source_mask i (pl_rd pl) in
  if negb (pl_valid pl) || (mask =? 0) then st
  else
    let w := width_index (pl_width pl) in
    let k := kind_index (i_kind i) in
    let source := mask - 1 in
    let eligible := negb (address_rs1 i && negb ((mask &&& 1) =? 0)) in
    let cur := eligible && current_hit pl in
    let prop := eligible && proposed_hit pl in
    let incremental := prop && negb cur in
    let lost := cur && negb prop in
    let st :=
      if bool_decide (i_kind i = K_M) then
        let idx := [w; mop_of (i_x i); source] in
        let st := tick "load_m_raw" idx st in
        let st := tick_if eligible "load_m_raw_eligible" idx st in
        let st := tick_if cur "load_m_raw_current_hit" idx st in
        tick_if prop "load_m_raw_proposed_hit" idx st
      else st in
    let st :=
      if bool_decide (i_kind i = K_BRANCH) then
        let idx := [w; func3 (i_x i); source] in
        let st := tick "load_branch_raw" idx st in
        let st := tick_if eligible "load_branch_eligible" idx st in
        let st := tick_if eligible "phase.late_load_branch_eligible" [i_phase i] st in
        let st := tick_if cur "load_branch_current_hit" idx st in
        let st := tick_if prop "load_branch_proposed_hit" idx st in
        tick_if prop "phase.late_load_branch_hit" [i_phase i] st
      else st in
    let st := tick "load_raw" [w; k] st in
    let st := tick "load_raw_source" [w; source] st in
    let st := tick_if eligible "load_raw_eligible" [w; k] st in
    let st := tick_if cur "load_raw_current_hit" [w; k] st in
    let st := tick_if cur "phase.current_bypass" [i_phase i] st in
    let st := tick_if prop "load_raw_proposed_hit" [w; k] st in
    let st := tick_if prop "phase.proposed_bypass" [i_phase i] st in
    let st := tick_if prop "phase.proposed_bypass_by_width" [i_phase i; w] st in
    let st := tick_if incremental "load_raw_incremental_hit" [w; k] st in
    let st := tick_if incremental "phase.incremental_bypass" [i_phase i] st in
    let st := tick_if lost "load_raw_lost_hit" [w; k] st in
    let st := tick_if lost "phase.lost_bypass" [i_phase i] st in
    let '(found, st) := find_load_pair (pl_pc pl) (i_pc i) (pl_width pl) (i_kind i) st in
    match found with
    | None => st
    | Some slot =>
        let st := tick "pair.count" [slot] st in
        let st := tick "pair.source" [slot; source] st in
        let st := tick_if eligible "pair.eligible" [slot] st in
        let st := tick_if cur "pair.current_hit" [slot] st in
        let st := tick_if prop "pair.proposed_hit" [slot] st in
        let st := for_ 3 (fun probe => tick_if (aget false (assoc_hit pl) probe) "pair.assoc_hit" [slot; probe]) st in
        let st := tick_if incremental "pair.incremental_hit" [slot] st in
        tick_if lost "pair.lost_hit" [slot] st
    end.

(** The slot of a program counter in the table of execution counts. *)
Definition pc_slot (pc : Z) : Z := u32 ((pc >>> 2) * 2654435761) &&& (PC_SLOTS - 1).

Definition record_pc (i : inst_info) (st : profile) : profile :=
  let slot := pc_slot (i_pc i) in
  let q := pcs st slot in
  if (ps_n q =? 0) || (ps_pc q =? i_pc i) then
    set_tables (fset slot (MkPcStat (i_pc i) (u64 (ps_n q + 1)) (ps_taken q)) (pcs st)) (load_pairs st) st
  else st.

(** One source operand: the distance to its producer. *)
Definition record_source (use : bool) (src seq : Z) (i : inst_info) (st : profile) : profile :=
  if use && negb (src =? 0) && negb (aget 0 (last_write st) src =? 0) then
    let d := seq - aget 0 (last_write st) src in
    let st := tick "raw_dist" [if d <? 8 then d else 8] st in
    let st := tick "prod_cons" [kind_index (aget K_ALU (last_kind st) src); kind_index (i_kind i)] st in
    tick "phase.raw" [i_phase i] st
  else st.

(** Statistics of multiply/divide, bit-manipulation and CRC instructions. *)
Definition record_operations (rs1_before rs2_before : Z) (i : inst_info) (st : profile) : profile :=
  let x := i_x i in
  let st :=
    if bool_decide (i_kind i = K_M) then
      let f3 := func3 x in
      let st := tick "mops" [mop_of x] st in
      let st := tick_if ((4 <=? f3) && (rs2_before =? 0)) "m_divide_by_zero" [] st in
      tick_if (((f3 =? 4) || (f3 =? 6)) && (rs1_before =? 0x80000000) && (rs2_before =? 0xffffffff)) "m_signed_overflow" [] st
    else st in
  let st :=
    if bool_decide (i_kind i = K_B) then
      let bop := bop_of x in
      let st := tick "bops" [bop_index bop] st in
      match bop with
      | B_PACK =>
          let pack_result := (rs1_before &&& 0xffff) ||| u32 (rs2_before <<< 16) in
          let st := tick_if (rs2_before =? 0) "pack_rs2_zero" [] st in
          let st := tick_if ((rs1_before >>> 16) =? 0) "pack_rs1_upper_zero" [] st in
          tick_if (pack_result =? (rs1_before ^^^ rs2_before)) "pack_matches_xor" [] st
      | _ => st
      end
    else st in
  if bool_decide (i_kind i = K_CRC) then tick "crcops" [func3 x] st else st.

(** Runs one branch target buffer and counts its misses. *)
Definition run_btb (name miss : String.string) (f : btb -> btb * bool) (st : profile) : profile :=
  let '(b, wrong) := f (btbs st name) in
  tick_if wrong miss [] (set_caches (counts st) (fset name b (btbs st)) (dcaches st) (assocs st) st).

(** The direction statistics of a conditional branch. *)
Definition record_branch_direction (taken backward : bool) (st : profile) : profile :=
  let st := tick "branch_total" [] st in
  let st := tick_if taken "branch_taken" [] st in
  let st := tick_if backward "branch_backward" [] st in
  let st :=
    if backward then tick_if (negb taken) "branch_backward_not_taken" [] (tick_if taken "branch_backward_taken" [] st)
    else tick_if (negb taken) "branch_forward_not_taken" [] (tick_if taken "branch_forward_taken" [] st) in
  let st := tick_if (xorb backward taken) "branch_static_backward_miss" [] st in
  tick_if taken "branch_static_not_taken_miss" [] st.

Definition record_control (snpc dnpc : Z) (i : inst_info) (st : profile) : profile :=
  let pc := i_pc i in
  let k := i_kind i in
  let st :=
    if bool_decide (k = K_BRANCH) || bool_decide (k = K_JAL) || bool_decide (k = K_JALR) then
      let taken := negb (dnpc =? snpc) in
      let st := tick "phase.control" [i_phase i] st in
      let st :=
        if taken then
          let slot := pc_slot pc in
          let q := pcs st slot in
          tick "phase.taken" [i_phase i]
            (set_tables (fset slot (MkPcStat (ps_pc q) (ps_n q) (u64 (ps_taken q + 1))) (pcs st)) (load_pairs st) st)
        else st in
      let st :=
        if bool_decide (k = K_BRANCH) then record_branch_direction taken (branch_imm (i_x i) <? 0) st else st in
      let before := counts st "btb32_miss" [] in
      let st := run_btb "btb16" "btb16_miss" (fun b => model b 16 pc dnpc k taken false) st in
      let st := run_btb "btb32" "btb32_miss" (fun b => model b 32 pc dnpc k taken false) st in
      let st := run_btb "btb64" "btb64_miss" (fun b => model b 64 pc dnpc k taken false) st in
      let st := run_btb "btb128" "btb128_miss" (fun b => model b 128 pc dnpc k taken false) st in
      let st := run_btb "btb16j" "btb16_jalr_miss" (fun b => model b 16 pc dnpc k taken true) st in
      let st := run_btb "btb32j" "btb32_jalr_miss" (fun b => model b 32 pc dnpc k taken true) st in
      let st := run_btb "btb32_stored_jalr_not_predicted" "btb32_stored_jalr_not_predicted_miss"
                  (fun b => model_stored_jalr_not_predicted b 32 pc dnpc k taken) st in
      let current_wrong := snd (model_rtl_btb32 (btbs st "rtl_btb32") pc dnpc (i_x i) k taken false) in
      let candidate_wrong := snd (model_rtl_btb32 (btbs st "rtl_btb32_skip_not_taken") pc dnpc (i_x i) k taken true) in
      let st := run_btb "rtl_btb32" "rtl_btb32_miss" (fun b => model_rtl_btb32 b pc dnpc (i_x i) k taken false) st in
      let st := run_btb "rtl_btb32_skip_not_taken" "rtl_btb32_skip_not_taken_miss"
                  (fun b => model_rtl_btb32 b pc dnpc (i_x i) k taken true) st in
      let st := tick_if current_wrong "phase.rtl_btb32_miss" [i_phase i] st in
      let st := tick_if candidate_wrong "phase.rtl_btb32_skip_not_taken_miss" [i_phase i] st in
      tick_if (bool_decide (k = K_BRANCH) && taken && negb (counts st "btb32_miss" [] =? before) &&
                (branch_imm (i_x i) <? 0)) "branch_btb32_miss_backward_taken" [] st
    else st in
  if bool_decide (k = K_JALR) then
    let rd := i_rd i in
    let rs1 := i_rs1 i in
    let st := tick "jalr_rd" [if rd =? 0 then 0 else if rd =? 1 then 1 else 2] st in
    tick "jalr_rs1" [if rs1 =? 1 then 0 else if rs1 =? 5 then 1 else 2] st
  else st.

Definition region_of (addr : Z) : Z :=
  if addr <? 0x10000000 then 0
  else if addr <? 0x80000000 then 1
  else if addr <? 0x90000000 then 2
  else if addr <? 0xc0000000 then 3
  else 4.

(** Runs one cache and stores it back. *)
Definition run_load (name : String.string) (addr : Z) (width : MemWidth) (eligible : bool) (st : profile) : bool * profile :=
  let '(hit, d, c) := dcache_load name (dcaches st name) (counts st) addr width eligible in
  (hit, set_caches c (btbs st) (fset name d (dcaches st)) (assocs st) st).

Definition run_assoc_load (name : String.string) (addr : Z) (width : MemWidth) (eligible : bool) (st : profile)
    : bool * profile :=
  let '(hit, a, c) := assoc_load name (assocs st name) (counts st) addr width eligible in
  (hit, set_caches c (btbs st) (dcaches st) (fset name a (assocs st)) st).

Definition run_store (name : String.string) (f : dcache -> counters -> Z -> MemWidth -> dcache * counters)
    (addr : Z) (width : MemWidth) (st : profile) : profile :=
  let '(d, c) := f (dcaches st name) (counts st) addr width in
  set_caches c (btbs st) (fset name d (dcaches st)) (assocs st) st.

Definition run_assoc_store (name : String.string) (addr : Z) (width : MemWidth) (st : profile) : profile :=
  let '(a, c) := assoc_store name (assocs st name) (counts st) addr width in
  set_caches c (btbs st) (dcaches st) (fset name a (assocs st)) st.

(** The address of a load or store. *)
Definition memory_address (i : inst_info) (rs1_before : Z) : Z :=
  let x := i_x i in
  let imm := if bool_decide (i_kind i = K_LOAD) then sext_field (x >>> 20) 12
             else sext_field (u32 ((x >>> 25) <<< 5) ||| ((x >>> 7) &&& 31)) 12 in
  u32 (rs1_before + imm).

Definition record_load (addr : Z) (width : MemWidth) (i : inst_info) (st : profile) : profile :=
  let st := tick "phase.load" [i_phase i] st in
  let current_eligible := dcacheable addr && bool_decide (width = W_WORD) && aligned_for_width addr width in
  let proposed_eligible := dcacheable addr && aligned_for_width addr width in
  let '(cur, st) := run_load "current_dcache" addr width current_eligible st in
  let '(rtl, st) := run_load "rtl_dcache" addr width proposed_eligible st in
  let '(prop, st) := run_load "proposed_dcache" addr width proposed_eligible st in
  let '(a0, st) := run_assoc_load "dcache_2way" addr width proposed_eligible st in
  let '(a1, st) := run_assoc_load "dcache_4way" addr width proposed_eligible st in
  let '(a2, st) := run_assoc_load "dcache_8way" addr width proposed_eligible st in
  if negb (i_rd i =? 0) then
    set_loads (MkPreviousLoad (i_pc i) (i_rd i) width cur rtl prop [a0; a1; a2] false true) (distance2_load st) st
  else st.

Definition record_store (addr : Z) (width : MemWidth) (i : inst_info) (st : profile) : profile :=
  let st := tick "phase.store" [i_phase i] st in
  let st := run_store "current_dcache" current_dcache_store addr width st in
  let st := run_store "rtl_dcache" rtl_dcache_store addr width st in
  let st := run_store "proposed_dcache" proposed_dcache_store addr width st in
  let st := run_assoc_store "dcache_2way" addr width st in
  let st := run_assoc_store "dcache_4way" addr width st in
  run_assoc_store "dcache_8way" addr width st.

Definition invalidate_load (l : PreviousLoad) : PreviousLoad :=
  MkPreviousLoad (pl_pc l) (pl_rd l) (pl_width l) (current_hit l) (rtl_hit l) (proposed_hit l) (assoc_hit l)
    (d1_state_diff l) false.

Definition record_memory (rs1_before : Z) (i : inst_info) (st : profile) : profile :=
  let st := set_loads (invalidate_load (previous_load st)) (previous_load st) st in
  if bool_decide (i_kind i = K_LOAD) || bool_decide (i_kind i = K_STORE) then
    let addr := memory_address i rs1_before in
    let width := memory_width (i_x i) (bool_decide (i_kind i = K_LOAD)) in
    let st := tick "widths" [width_index width] st in
    let st := tick "regions" [region_of addr] st in
    let st := tick "aliases" [addr &&& 511] st in
    if bool_decide (i_kind i = K_LOAD) then record_load addr width i st else record_store addr width i st
  else st.

Definition record_write (seq : Z) (i : inst_info) (st : profile) : profile :=
  let writes := negb (bool_decide (i_kind i = K_BRANCH)) && negb (bool_decide (i_kind i = K_STORE)) &&
                negb (opcode (i_x i) =? 0x0f) in
  if writes && negb (i_rd i =? 0) then
    set_last (aset (last_write st) (i_rd i) seq) (aset (last_kind st) (i_rd i) (i_kind i)) st
  else st.

(** The two successors of a load. *)
Definition record_forwarding (i : inst_info) (st : profile) : profile :=
  let '(prev, c) := record_masked_store_update_saving (previous_load st) 1 i (counts st) in
  let '(dist2, c) := record_masked_store_update_saving (distance2_load st) 2 i c in
  set_loads prev dist2 (on_counts (fun _ => c) st).

(** One executed instruction.  Beyond [MAX_PHASES] phases the array access is undefined. *)
Definition riscv_profile_record (pc snpc dnpc x rs1_before rs2_before : Z) (st : profile) : res profile :=
  let st := tick "total" [] st in
  let seq := counts st "total" [] in
  let st := tick "kinds" [kind_index (kind_of x)] st in
  let phase := u64 (seq - 1) / PHASE_LEN in
  if phase <? MAX_PHASES then
    let i := decode_inst pc x phase in
    let st := tick "phase.inst" [phase] st in
    let st := record_miss_consumers i st in
    let st := record_forwarding i st in
    let st := record_immediate_load_raw i st in
    let st := record_pc i st in
    let st := record_source (i_use1 i) (i_rs1 i) seq i st in
    let st := record_source (i_use2 i) (i_rs2 i) seq i st in
    let st := record_operations rs1_before rs2_before i st in
    let st := record_control snpc dnpc i st in
    let st := record_memory rs1_before i st in
    Ok (record_write seq i st)
  else Fault FUndef.

(** An executed instruction: pc, snpc, dnpc, the word and the source registers before it. *)
Record executed := MkExecuted { e_pc : Z; e_snpc : Z; e_dnpc : Z; e_inst : Z; e_rs1 : Z; e_rs2 : Z }.

(** A profiled run. *)
Fixpoint record_all (es : list executed) (st : profile) : res profile :=
  match es with
  | [] => Ok st
  | e :: es =>
      st ← riscv_profile_record (e_pc e) (e_snpc e) (e_dnpc e) (e_inst e) (e_rs1 e) (e_rs2 e) st;
      record_all es st
  end.

Definition riscv_profile_record_xaccel (enabled : bool) (op units modeled_cycles : Z) (st : profile) : profile :=
  if negb enabled || (6 <=? op) then st
  else on_counts (bump_counter "xaccel_cycles" [op] modeled_cycles) (on_counts (bump_counter "xaccel_units" [op] units) (tick "xaccel_ops" [op] st)).

Definition riscv_profile_record_xdfacnt (enabled : bool) (op : Z) (st : profile) : profile :=
  tick_if (enabled && (op <? 6)) "xdfacnt_ops" [op] st.

(** ** What the parts leave alone *)

(** The counters the theorem below speaks about. *)
Definition watched : list String.string := ["total"; "kinds"; "masked_store_lost_hit"].

(** [t] agrees with [s] on the watched counters, the direct-mapped caches and the loads
    in flight. *)
Record quiet (s t : profile) : Prop := Quiet {
  quiet_counts name idx : name ∈ watched -> counts t name idx = counts s name idx;
  quiet_dcaches : dcaches t = dcaches s;
  quiet_previous : previous_load t = previous_load s;
  quiet_distance2 : distance2_load t = distance2_load s }.

#[export] Instance quiet_preorder : PreOrder quiet.
Proof.
  split.
  - intros s. by split.
  - intros s t u [C1 D1 P1 E1] [C2 D2 P2 E2]. split; [| congruence..]. intros n i Hn. by rewrite C2, C1.
Qed.

Lemma quiet_refl s : quiet s s.
Proof. reflexivity. Qed.

Lemma bump_other name idx n c name' idx' : name' <> name -> bump_counter name idx n c name' idx' = c name' idx'.
Proof. intros Hn. unfold bump_counter. rewrite bool_decide_false; [done |]. by intros [? _]. Qed.

Lemma quiet_count s t name idx : bool_decide (name ∈ watched) = false -> quiet s t -> quiet s (tick name idx t).
Proof.
  intros Hn [C D P E]. apply bool_decide_eq_false in Hn. split; [| done..]. intros n i Hi. cbn.
  rewrite bump_other; [by apply C | by intros ->].
Qed.

Lemma quiet_count_if s t b name idx :
  bool_decide (name ∈ watched) = false -> quiet s t -> quiet s (tick_if b name idx t).
Proof. intros Hn Ht. destruct b; [by apply quiet_count | done]. Qed.

Lemma quiet_miss_rds s t p b c : quiet s t -> quiet s (set_miss_rds p b c t).
Proof. intros [C D P E]. by split. Qed.

Lemma quiet_tables s t q lp : quiet s t -> quiet s (set_tables q lp t).
Proof. intros [C D P E]. by split. Qed.

Lemma quiet_last s t lw lk : quiet s t -> quiet s (set_last lw lk t).
Proof. intros [C D P E]. by split. Qed.

Lemma quiet_btb s t name miss f :
  bool_decide (miss ∈ watched) = false -> quiet s t -> quiet s (run_btb name miss f t).
Proof.
  intros Hn [C D P E]. unfold run_btb. destruct (f _) as [b wrong]. apply quiet_count_if; [done | by split].
Qed.

Lemma quiet_let {A} s (a : A) (b : A -> profile) : quiet s (b a) -> quiet s (let x := a in b x).
Proof. done. Qed.

Lemma quiet_let_state s a (b : profile -> profile) :
  quiet s a -> (forall t, quiet s t -> quiet s (b t)) -> quiet s (let t := a in b t).
Proof. intros Ha Hb. by apply Hb. Qed.

Lemma quiet_for s n f t : (forall i u, quiet s u -> quiet s (f i u)) -> quiet s t -> quiet s (for_ n f t).
Proof.
  intros Hf. unfold for_. generalize (Z.to_nat n) as k. generalize 0 as a.
  intros a k. revert a t. induction k as [|k IH]; intros a t Ht; cbn; [done |]. by apply IH, Hf.
Qed.

Lemma quiet_find_pair s t p c w k : quiet s t -> quiet s (find_load_pair p c w k t).2.
Proof.
  intros Ht. unfold find_load_pair. destruct (pair_loop _ _ _ _ _ _ _ _) as [[slot lp] |]; cbn.
  - by apply quiet_tables.
  - by apply quiet_count.
Qed.

Lemma quiet_if s (b : bool) t u : quiet s t -> quiet s u -> quiet s (if b then t else u).
Proof. by destruct b. Qed.

Create HintDb quiet.
#[export] Hint Resolve quiet_refl quiet_count quiet_count_if quiet_miss_rds quiet_tables quiet_last quiet_btb quiet_for quiet_find_pair : quiet.
#[export] Hint Extern 1 (bool_decide _ = false) => reflexivity : quiet.

(** Goes through a sequence of updates, naming the intermediate states. *)
Ltac quiet_step :=
  lazymatch goal with
  | |- quiet ?s (let x := ?a in @?b x) =>
      lazymatch type of a with
      | profile => apply (quiet_let_state s a b); [| intros ? ?]
      | _ => apply (quiet_let s a b); cbv beta
      end
  | |- quiet ?s (match find_load_pair ?p ?c ?w ?k ?t with _ => _ end) =>
      let H := fresh in
      assert (quiet s (find_load_pair p c w k t).2) as H by auto 40 with quiet;
      destruct (find_load_pair p c w k t); cbn [snd] in H
  | |- quiet ?s (if ?b then ?t else ?u) => apply (quiet_if s b t u)
  | |- quiet _ (match ?b with _ => _ end) => destruct b
  | |- quiet _ _ => solve [auto 40 with quiet]
  end.
Ltac quiet_solve := repeat quiet_step.

Lemma record_miss_consumers_quiet i st : quiet st (record_miss_consumers i st).
Proof. cbv beta delta [record_miss_consumers]. quiet_solve. Qed.

Lemma record_immediate_quiet i st : quiet st (record_immediate_load_raw i st).
Proof. cbv beta delta [record_immediate_load_raw]. quiet_solve. Qed.

Lemma record_pc_quiet i st : quiet st (record_pc i st).
Proof. cbv beta delta [record_pc]. quiet_solve. Qed.

Lemma record_source_quiet use src seq i st : quiet st (record_source use src seq i st).
Proof. cbv beta delta [record_source]. quiet_solve. Qed.

Lemma record_operations_quiet r1 r2 i st : quiet st (record_operations r1 r2 i st).
Proof. cbv beta delta [record_operations]. quiet_solve. Qed.

Lemma record_branch_direction_quiet s t taken backward : quiet s t -> quiet s (record_branch_direction taken backward t).
Proof. intros Ht. cbv beta delta [record_branch_direction]. quiet_solve. Qed.

#[export] Hint Resolve record_branch_direction_quiet : quiet.

Lemma record_control_quiet snpc dnpc i st : quiet st (record_control snpc dnpc i st).
Proof. cbv beta delta [record_control]. quiet_solve. Qed.

Lemma record_write_quiet seq i st : quiet st (record_write seq i st).
Proof. cbv beta delta [record_write]. quiet_solve. Qed.

(** ** The watched counters and the caches *)

Definition same_watched (c c' : counters) : Prop := forall name idx, name ∈ watched -> c' name idx = c name idx.

#[export] Instance same_watched_preorder : PreOrder same_watched.
Proof. split; [by intros c n i | intros a b c H1 H2 n i Hn; by rewrite H2, H1]. Qed.

Lemma same_bump c c' name idx n :
  bool_decide (name ∈ watched) = false -> same_watched c c' -> same_watched c (bump_counter name idx n c').
Proof.
  intros Hn Hc m i Hi. apply bool_decide_eq_false in Hn. rewrite bump_other; [by apply Hc | by intros ->].
Qed.

Lemma same_bump_if c c' b name idx :
  bool_decide (name ∈ watched) = false -> same_watched c c' -> same_watched c (bump_counter_if b name idx c').
Proof. intros Hn Hc. destruct b; [by apply same_bump | done]. Qed.

(** No statistic of the cache is watched. *)
Definition unwatched_cache (name : String.string) : bool :=
  forallb (fun f => negb (bool_decide (stat name f ∈ watched)))
    ["load_access"; "load_hit"; "load_miss"; "full_store_allocate"; "partial_store_total";
     "partial_store_hit_update"; "partial_store_invalidate"].

Lemma unwatched_stat name f c c' idx n :
  unwatched_cache name = true ->
  f ∈ ["load_access"; "load_hit"; "load_miss"; "full_store_allocate"; "partial_store_total";
       "partial_store_hit_update"; "partial_store_invalidate"] ->
  same_watched c c' -> same_watched c (bump_counter (stat name f) idx n c').
Proof.
  intros Hn Hf Hc. apply same_bump; [| done]. unfold unwatched_cache in Hn. rewrite forallb_forall in Hn.
  apply list_elem_of_In, Hn in Hf. by apply negb_true_iff in Hf.
Qed.

Ltac stat_in := repeat (apply list_elem_of_here || apply list_elem_of_further).
Ltac same_stats := repeat (apply unwatched_stat; [done | stat_in |]); reflexivity.

Lemma dcache_load_watched name cache c addr w el :
  unwatched_cache name = true -> same_watched c (dcache_load name cache c addr w el).2.
Proof. intros Hn. unfold dcache_load. destruct (negb el); [done |]. destruct (dcache_hit cache addr); cbn [snd]; same_stats. Qed.

Lemma assoc_load_watched name cache c addr w el :
  unwatched_cache name = true -> same_watched c (assoc_load name cache c addr w el).2.
Proof. intros Hn. unfold assoc_load. destruct (negb el); [done |]. destruct (assoc_find cache addr); cbn [snd]; same_stats. Qed.

Lemma assoc_store_watched name cache c addr w :
  unwatched_cache name = true -> same_watched c (assoc_store name cache c addr w).2.
Proof.
  intros Hn. unfold assoc_store. destruct (negb (dcacheable addr)); [done |].
  destruct (bool_decide (w = W_WORD)); cbn [snd]; [same_stats |].
  destruct (assoc_find cache addr); cbn [snd]; same_stats.
Qed.

Lemma invalidating_store_watched name cache c addr w :
  unwatched_cache name = true -> same_watched c (invalidating_store name cache c addr w).2.
Proof.
  intros Hn. unfold invalidating_store. destruct (negb (dcacheable addr)); [done |].
  destruct (bool_decide (w = W_WORD)); cbn [snd]; same_stats.
Qed.

Lemma proposed_store_watched cache c addr w : same_watched c (proposed_dcache_store cache c addr w).2.
Proof.
  unfold proposed_dcache_store. destruct (negb (dcacheable addr)); [done |].
  destruct (bool_decide (w = W_WORD)); cbn [snd]; [| destruct (dcache_hit cache addr); cbn [snd]]; same_stats.
Qed.

(** A load that hits in the modelled cache also hits in the proposed one. *)
Definition load_ok (l : PreviousLoad) : Prop := rtl_hit l = true -> proposed_hit l = true.

Record sound (st : profile) : Prop := Sound {
  sound_caches : included (dcaches st "rtl_dcache") (dcaches st "proposed_dcache");
  sound_previous : load_ok (previous_load st);
  sound_distance2 : load_ok (distance2_load st) }.

(** A part of the recording keeps the invariant and the watched counters. *)
Definition keeps (s t : profile) : Prop := same_watched (counts s) (counts t) /\ (sound s -> sound t).

#[export] Instance keeps_preorder : PreOrder keeps.
Proof.
  split; [by intros s; split |]. intros s t u [C1 S1] [C2 S2]. split; [by transitivity (counts t) | auto].
Qed.

Lemma quiet_keeps s t : quiet s t -> keeps s t.
Proof. intros [C D P E]. split; [done |]. intros [H1 H2 H3]. split; by rewrite ?D, ?P, ?E. Qed.

Lemma record_masked_watched load d i c :
  load_ok load ->
  load_ok (record_masked_store_update_saving load d i c).1 /\ same_watched c (record_masked_store_update_saving load d i c).2.
Proof.
  intros Hl. unfold record_masked_store_update_saving.
  destruct (negb (pl_valid load) || _); [done |]. destruct (negb _); [done |]. destruct (_ && d1_state_diff load); [done |].
  cbn [fst snd]. split; [by destruct (d =? 1) |].
  replace (rtl_hit load && negb (proposed_hit load)) with false
    by (unfold load_ok in Hl; destruct (rtl_hit load); [by rewrite Hl | done]).
  unfold bump_counter_if at 1. repeat (apply same_bump_if; [done |]). reflexivity.
Qed.

Lemma record_forwarding_keeps i st : sound st -> keeps st (record_forwarding i st).
Proof.
  intros [H1 H2 H3]. unfold record_forwarding.
  destruct (record_masked_watched (previous_load st) 1 i (counts st) H2) as [L1 C1].
  destruct (record_masked_store_update_saving (previous_load st) 1 i (counts st)) as [p c1]. cbn [fst snd] in *.
  destruct (record_masked_watched (distance2_load st) 2 i c1 H3) as [L2 C2].
  destruct (record_masked_store_update_saving (distance2_load st) 2 i c1) as [d c2]. cbn [fst snd] in *.
  split; [by transitivity c1 |]. by split.
Qed.

Lemma fset_eq {A B} `{EqDecision A} (k : A) (v : B) f : fset k v f k = v.
Proof. unfold fset. by rewrite decide_True. Qed.

Lemma fset_ne {A B} `{EqDecision A} (k k' : A) (v : B) f : k' <> k -> fset k v f k' = f k'.
Proof. intros H. unfold fset. by rewrite decide_False. Qed.

Lemma run_load_current addr w el st : keeps st (run_load "current_dcache" addr w el st).2.
Proof.
  unfold run_load. pose proof (dcache_load_watched "current_dcache" (dcaches st "current_dcache") (counts st) addr w el eq_refl) as H.
  destruct (dcache_load _ _ _ _ _ _) as [[h d] c]. split; [done |]. intros [H1 H2 H3]. by split.
Qed.

(** The same load on the modelled and on the proposed cache. *)
Lemma run_load_both addr w el st :
  sound st ->
  let r := run_load "rtl_dcache" addr w el st in
  let p := run_load "proposed_dcache" addr w el r.2 in
  keeps st p.2 /\ (r.1 = true -> p.1 = true).
Proof.
  intros [H1 H2 H3]. unfold run_load.
  pose proof (dcache_load_watched "rtl_dcache" (dcaches st "rtl_dcache") (counts st) addr w el eq_refl) as W1.
  pose proof (fun c => included_load "rtl_dcache" "proposed_dcache" _ _ (counts st) c addr w el H1) as Hi.
  destruct (dcache_load "rtl_dcache" _ _ _ _ _) as [[h1 d1] c1]. cbn [fst snd counts btbs dcaches assocs set_caches].
  rewrite fset_ne by done. specialize (Hi c1).
  pose proof (dcache_load_watched "proposed_dcache" (dcaches st "proposed_dcache") c1 addr w el eq_refl) as W2.
  destruct (dcache_load "proposed_dcache" _ _ _ _ _) as [[h2 d2] c2]. destruct Hi as [Hi Hh]. cbn [fst snd] in *.
  split; [| done]. split; [by transitivity c1 |]. intros _. by split.
Qed.

Lemma run_assoc_load_keeps name addr w el st : unwatched_cache name = true -> keeps st (run_assoc_load name addr w el st).2.
Proof.
  intros Hn. unfold run_assoc_load. pose proof (assoc_load_watched name (assocs st name) (counts st) addr w el Hn) as H.
  destruct (assoc_load _ _ _ _ _ _) as [[h a] c]. split; [done |]. intros [H1 H2 H3]. by split.
Qed.

Lemma run_assoc_store_keeps name addr w st : unwatched_cache name = true -> keeps st (run_assoc_store name addr w st).
Proof.
  intros Hn. unfold run_assoc_store. pose proof (assoc_store_watched name (assocs st name) (counts st) addr w Hn) as H.
  destruct (assoc_store _ _ _ _ _) as [a c]. split; [done |]. intros [H1 H2 H3]. by split.
Qed.

Lemma run_store_current addr w st : keeps st (run_store "current_dcache" current_dcache_store addr w st).
Proof.
  unfold run_store. pose proof (invalidating_store_watched "current_dcache" (dcaches st "current_dcache") (counts st) addr w eq_refl) as H.
  unfold current_dcache_store. destruct (invalidating_store _ _ _ _ _) as [d c]. split; [done |].
  intros [H1 H2 H3]. by split.
Qed.

Lemma run_store_both addr w st :
  keeps st (run_store "proposed_dcache" proposed_dcache_store addr w (run_store "rtl_dcache" rtl_dcache_store addr w st)).
Proof.
  unfold run_store. pose proof (invalidating_store_watched "rtl_dcache" (dcaches st "rtl_dcache") (counts st) addr w eq_refl) as W1.
  pose proof (fun c => included_store (dcaches st "rtl_dcache") (dcaches st "proposed_dcache") (counts st) c addr w) as Hi.
  change (invalidating_store "rtl_dcache") with rtl_dcache_store in W1.
  destruct (rtl_dcache_store _ _ _ _) as [d1 c1]. cbn [fst snd counts btbs dcaches assocs set_caches] in *.
  rewrite fset_ne by done. specialize (Hi c1).
  pose proof (proposed_store_watched (dcaches st "proposed_dcache") c1 addr w) as W2.
  destruct (proposed_dcache_store _ _ _ _) as [d2 c2]. cbn [fst snd] in *.
  split; [by transitivity c1 |]. intros [H1 H2 H3]. split; try done. cbn. rewrite fset_ne, !fset_eq by done. by apply Hi.
Qed.

Lemma count_keeps name idx st : bool_decide (name ∈ watched) = false -> keeps st (tick name idx st).
Proof. intros Hn. apply quiet_keeps. by apply quiet_count. Qed.

Lemma record_store_keeps addr w i st : keeps st (record_store addr w i st).
Proof.
  cbv beta zeta delta [record_store].
  do 3 (etransitivity; [| by apply run_assoc_store_keeps]).
  etransitivity; [| apply run_store_both]. etransitivity; [| apply run_store_current].
  by apply count_keeps.
Qed.

Lemma record_load_keeps addr w i st : sound st -> keeps st (record_load addr w i st).
Proof.
  intros Hs. cbv beta delta [record_load].
  assert (keeps st (tick "phase.load" [i_phase i] st)) as K0 by by apply count_keeps.
  set (s0 := tick "phase.load" [i_phase i] st) in *. clearbody s0. cbv zeta.
  set (el := dcacheable addr && aligned_for_width addr w).
  pose proof (run_load_current addr w (dcacheable addr && bool_decide (w = W_WORD) && aligned_for_width addr w) s0) as K1.
  destruct (run_load "current_dcache" _ _ _ s0) as [cur s1]. cbn [snd] in K1.
  pose proof (run_load_both addr w el s1 (proj2 K1 (proj2 K0 Hs))) as H. cbv zeta in H.
  destruct (run_load "rtl_dcache" _ _ _ s1) as [rtl s2]. cbn [fst snd] in H.
  destruct (run_load "proposed_dcache" _ _ _ s2) as [prop s3]. cbn [fst snd] in H. destruct H as [K2 Hh].
  pose proof (run_assoc_load_keeps "dcache_2way" addr w el s3 eq_refl) as K3.
  destruct (run_assoc_load "dcache_2way" _ _ _ s3) as [a0 s4]. cbn [snd] in K3.
  pose proof (run_assoc_load_keeps "dcache_4way" addr w el s4 eq_refl) as K4.
  destruct (run_assoc_load "dcache_4way" _ _ _ s4) as [a1 s5]. cbn [snd] in K4.
  pose proof (run_assoc_load_keeps "dcache_8way" addr w el s5 eq_refl) as K5.
  destruct (run_assoc_load "dcache_8way" _ _ _ s5) as [a2 s6]. cbn [snd] in K5.
  assert (keeps st s6) as K by (etransitivity; [exact K0 | etransitivity; [exact K1 | etransitivity; [exact K2 |
    etransitivity; [exact K3 | etransitivity; [exact K4 | exact K5]]]]]).
  destruct (negb (i_rd i =? 0)); [| done]. destruct K as [C S]. split; [done |].
  intros H. destruct (S H) as [S1 S2 S3]. by split.
Qed.

Lemma record_memory_keeps r1 i st : sound st -> keeps st (record_memory r1 i st).
Proof.
  intros Hs. cbv beta delta [record_memory].
  assert (keeps st (set_loads (invalidate_load (previous_load st)) (previous_load st) st)) as K0.
  { split; [done |]. intros [H1 H2 H3]. by split. }
  set (s0 := set_loads (invalidate_load (previous_load st)) (previous_load st) st) in *. clearbody s0. cbv zeta.
  destruct (_ || _); [| done]. etransitivity; [exact K0 |].
  set (w := memory_width _ _). set (addr := memory_address i r1).
  assert (keeps s0 (tick "aliases" [addr &&& 511] (tick "regions" [region_of addr] (tick "widths" [width_index w] s0)))) as K1.
  { apply quiet_keeps. auto 10 with quiet. }
  set (s1 := tick "aliases" _ _) in *. clearbody s1. etransitivity; [exact K1 |].
  destruct (bool_decide (i_kind i = K_LOAD)); [apply record_load_keeps | apply record_store_keeps].
  by apply K1, K0.
Qed.

(** ** A profiled run *)

(** The bit-manipulation instructions by (funct7, funct3): pack; the carry-less products,
    minima and maxima; shifted additions; logic with complement; rotations; single bits. *)
Definition bitmanip_register : list (Z * Z) :=
  [(4, 4); (5, 0); (5, 1); (5, 2); (5, 3); (5, 4); (5, 5); (5, 6); (5, 7); (16, 2); (16, 4); (16, 6);
   (32, 4); (32, 6); (32, 7); (48, 1); (48, 5); (36, 1); (36, 5); (20, 1); (20, 2); (52, 1)].
Definition bitmanip_immediate : list (Z * Z) :=
  [(5, 1); (5, 5); (48, 1); (48, 5); (36, 1); (36, 5); (20, 1); (20, 5); (52, 1); (52, 5)].
Definition listed (l : list (Z * Z)) (f7 f3 : Z) : bool := existsb (fun q => (f7 =? q.1) && (f3 =? q.2)) l.
Definition bitmanip (op f3 f7 : Z) : bool :=
  ((op =? 51) && listed bitmanip_register f7 f3) || ((op =? 19) && listed bitmanip_immediate f7 f3).
Definition muldiv (op f7 : Z) : bool := (op =? 51) && (f7 =? 1).
Definition checksum (op f3 f7 : Z) : bool := (op =? 11) && (f7 =? 0) && listed [(0, 0); (0, 1); (0, 2)] f7 f3.

(** The classes by the names and in the order of the report ([kind_names]), each by the
    opcode, funct3 and funct7 of its instructions. *)
Definition classes : list (String.string * (Z -> Z -> Z -> bool)) :=
  [("alu"%string, fun op f3 f7 => existsb (Z.eqb op) [51; 19; 55; 23] && negb (muldiv op f7) && negb (bitmanip op f3 f7));
   ("branch"%string, fun op _ _ => op =? 99);
   ("jal"%string, fun op _ _ => op =? 111);
   ("jalr"%string, fun op _ _ => op =? 103);
   ("load"%string, fun op _ _ => op =? 3);
   ("store"%string, fun op _ _ => op =? 35);
   ("m"%string, fun op _ f7 => muldiv op f7);
   ("b"%string, fun op f3 f7 => bitmanip op f3 f7);
   ("crc"%string, fun op f3 f7 => checksum op f3 f7);
   ("system"%string, fun op _ _ => op =? 115);
   ("other"%string, fun op f3 f7 =>
      negb (existsb (Z.eqb op) [51; 19; 55; 23; 99; 111; 103; 3; 35; 115]) && negb (checksum op f3 f7))].

(** Whether an instruction word is in a class. *)
Definition in_class (p : Z -> Z -> Z -> bool) (x : Z) : bool := p (x mod 128) (x / 2 ^ 12 mod 8) (x / 2 ^ 25).

Lemma fields_arith x : opcode x = x mod 128 /\ func3 x = x / 2 ^ 12 mod 8 /\ func7 x = x / 2 ^ 25.
Proof.
  unfold opcode, func3, func7. change 0x7f with (Z.ones 7). change 7 with (Z.ones 3) at 2.
  by rewrite !Z.land_ones, !Z.shiftr_div_pow2 by lia.
Qed.

Ltac value_cases x l :=
  lazymatch l with
  | ?c :: ?l => destruct (Z.eqb_spec x c) as [-> |]; [| value_cases x l]
  | [] => idtac
  end.

(** [kind_of] returns the class of that position. *)
Lemma kind_of_class x k name p :
  classes !! Z.to_nat (kind_index k) = Some (name, p) -> in_class p x = bool_decide (kind_of x = k).
Proof.
  unfold in_class. destruct (fields_arith x) as (E1 & E2 & E3). rewrite <- E1, <- E2, <- E3.
  unfold kind_of. fold (func3 x).
  assert (0 <= func3 x < 8) as Hf3 by (rewrite E2; apply Z.mod_pos_bound; lia). clear E1 E2 E3.
  generalize (opcode x) (func7 x). revert Hf3. generalize (func3 x). clear x. intros f3 Hf3 op f7.
  assert (f3 = 0 \/ f3 = 1 \/ f3 = 2 \/ f3 = 3 \/ f3 = 4 \/ f3 = 5 \/ f3 = 6 \/ f3 = 7) as Hc by lia. clear Hf3.
  destruct k; intros [= <- <-];
    unfold muldiv, bitmanip, checksum, listed, bitmanip_register, bitmanip_immediate; cbn [existsb fst snd];
    value_cases op [51; 19; 55; 23; 99; 111; 103; 3; 35; 115; 11]; try reflexivity;
    value_cases f7 [0; 1; 4; 5; 16; 32; 48; 36; 20; 52]; 
    repeat (destruct Hc as [-> | Hc]; [reflexivity |]); subst f3; reflexivity.
Qed.

(** How many of the executed instructions satisfy [f]. *)
Definition executed_count (f : Z -> bool) (es : list executed) : Z :=
  Z.of_nat (length (List.filter (fun e => f (e_inst e)) es)).

Lemma executed_count_snoc f es e : executed_count f (es ++ [e]) = executed_count f es + b2z (f (e_inst e)).
Proof. unfold executed_count. rewrite List.filter_app, length_app. cbn. destruct (f (e_inst e)); cbn; lia. Qed.

Lemma executed_count_le f es : 0 <= executed_count f es <= Z.of_nat (length es).
Proof. unfold executed_count. pose proof (List.filter_length_le (fun e => f (e_inst e)) es). lia. Qed.

(** After the instructions [es]. *)
Record run_inv (es : list executed) (st : profile) : Prop := RunInv {
  run_sound : sound st;
  run_lost idx : counts st "masked_store_lost_hit" idx = 0;
  run_total : counts st "total" [] = Z.of_nat (length es);
  run_kinds k : counts st "kinds" [kind_index k] = executed_count (fun x => bool_decide (kind_of x = k)) es }.

Lemma bump_eq name idx n c : bump_counter name idx n c name idx = u64 (c name idx + n).
Proof. unfold bump_counter. by rewrite bool_decide_true. Qed.

Lemma bump_idx name idx idx' n c : idx' <> idx -> bump_counter name idx n c name idx' = c name idx'.
Proof. intros Hn. unfold bump_counter. rewrite bool_decide_false; [done |]. by intros [_ ?]. Qed.

Lemma kind_index_inj k k' : kind_index k = kind_index k' -> k = k'.
Proof. by destruct k, k'. Qed.

Lemma record_step es e st :
  run_inv es st -> Z.of_nat (length es) < 2 ^ 64 - 1 ->
  if Z.of_nat (length es) / PHASE_LEN <? MAX_PHASES then
    exists st', riscv_profile_record (e_pc e) (e_snpc e) (e_dnpc e) (e_inst e) (e_rs1 e) (e_rs2 e) st = Ok st' /\
      run_inv (es ++ [e]) st'
  else riscv_profile_record (e_pc e) (e_snpc e) (e_dnpc e) (e_inst e) (e_rs1 e) (e_rs2 e) st = Fault FUndef.
Proof.
  intros [Hs Hl Ht Hk] Hr. cbv beta zeta delta [riscv_profile_record].
  set (n := Z.of_nat (length es)) in *. assert (0 <= n) as Hn0 by (unfold n; lia).
  set (x := e_inst e). set (r1 := e_rs1 e). set (s1 := tick "total" [] st).
  set (s2 := tick "kinds" [kind_index (kind_of x)] s1).
  assert (counts s1 "total" [] = n + 1) as E1.
  { change (bump_counter "total" [] 1 (counts st) "total" [] = n + 1). rewrite bump_eq, Ht. apply wrap_small. unfold in_range. lia. }
  rewrite E1. replace (u64 (n + 1 - 1)) with n by (rewrite Z.add_simpl_r; symmetry; apply wrap_small; unfold in_range; lia).
  destruct (n / PHASE_LEN <? MAX_PHASES); [| done]. eexists. split; [done |].
  set (i := decode_inst _ _ _). set (s3 := tick "phase.inst" _ s2).
  assert (run_inv (es ++ [e]) s3) as H3.
  { split.
    - by destruct Hs.
    - intros idx. cbn. rewrite !bump_other by done. apply Hl.
    - rewrite length_app. cbn [length]. cbn. rewrite !bump_other by done. change (counts s1 "total" [] = Z.of_nat (length es + 1)). rewrite E1. lia.
    - intros k. rewrite executed_count_snoc, <- Hk. fold x.
      change (counts s3 "kinds" [kind_index k]) with
        (bump_counter "kinds" [kind_index (kind_of x)] 1 (counts st) "kinds" [kind_index k]).
      destruct (decide (kind_of x = k)) as [<- | Hne].
      + rewrite bump_eq, bool_decide_true, Hk by done.
        pose proof (executed_count_le (fun y => bool_decide (kind_of y = kind_of x)) es) as Hb. fold n in Hb.
        apply wrap_small. unfold in_range. cbn [b2z Z.b2z]. lia.
      + rewrite bump_idx, bool_decide_false by (done || by intros [= E%kind_index_inj]). symmetry. apply Z.add_0_r. }
  assert (forall t, keeps s3 t -> run_inv (es ++ [e]) t) as Hfin.
  { intros t [C S]. destruct H3 as [A B D E]. unfold same_watched in C.
    split; [by apply S | intros idx; rewrite C; [apply B | by apply (bool_decide_eq_true_1 _)] |
      rewrite C; [done | by apply (bool_decide_eq_true_1 _)] |].
    intros k. rewrite C; [apply E | by apply (bool_decide_eq_true_1 _)]. }
  apply Hfin.
  etransitivity; [| apply quiet_keeps, record_write_quiet].
  assert (keeps s3 (record_miss_consumers i s3)) as K1 by apply quiet_keeps, record_miss_consumers_quiet.
  set (s4 := record_miss_consumers i s3) in *. clearbody s4.
  assert (sound s4) as S4 by apply K1, H3.
  pose proof (record_forwarding_keeps i s4 S4) as K2. set (s5 := record_forwarding i s4) in *. clearbody s5.
  match goal with |- keeps _ (record_memory r1 i ?t) => assert (keeps s5 t) as K3 end.
  { etransitivity; [| apply quiet_keeps, record_control_quiet].
    etransitivity; [| apply quiet_keeps, record_operations_quiet].
    do 2 (etransitivity; [| apply quiet_keeps, record_source_quiet]).
    etransitivity; [| apply quiet_keeps, record_pc_quiet].
    apply quiet_keeps, record_immediate_quiet. }
  match goal with |- keeps _ (record_memory r1 i ?t) => set (s6 := t) in *; clearbody s6 end.
  assert (keeps s3 s6) as K6 by (etransitivity; [exact K1 | etransitivity; [exact K2 | exact K3]]).
  etransitivity; [exact K6 |]. apply record_memory_keeps. by apply K6, H3.
Qed.

Lemma record_all_inv es es0 st :
  run_inv es0 st -> Z.of_nat (length (es0 ++ es)) <= MAX_PHASES * PHASE_LEN ->
  exists st', record_all es st = Ok st' /\ run_inv (es0 ++ es) st'.
Proof.
  revert es0 st. induction es as [|e es IH]; intros es0 st Hi Hl; cbn [record_all].
  - exists st. split; [done |]. by rewrite app_nil_r.
  - rewrite length_app in Hl. cbn [length] in Hl.
    pose proof (record_step es0 e st Hi) as Hs.
    unfold MAX_PHASES, PHASE_LEN in *. rewrite (proj2 (Z.ltb_lt _ 128)) in Hs by (apply Z.div_lt_upper_bound; lia).
    destruct Hs as (st1 & -> & Hi1); [lia |]. cbn [mbind res_bind].
    rewrite cons_middle, app_assoc. apply IH; [done |]. rewrite !length_app. cbn [length]. lia.
Qed.

Lemma record_all_app es1 es2 st : record_all (es1 ++ es2) st = (record_all es1 st ≫= record_all es2).
Proof.
  revert st. induction es1 as [|e es1 IH]; intros st; [done |]. cbn [record_all app].
  destruct (riscv_profile_record _ _ _ _ _ _ st); [apply IH | done].
Qed.

Lemma initial_run_inv : run_inv [] initial_profile.
Proof. by split. Qed.

(** The count at a position of the report is the number of instructions of that class. *)
Lemma run_classes es st j name p :
  run_inv es st -> classes !! j = Some (name, p) ->
  counts st "kinds" [Z.of_nat j] = executed_count (in_class p) es.
Proof.
  intros Hi Hj.
  assert (exists k, kind_index k = Z.of_nat j) as [k Hk].
  { apply lookup_lt_Some in Hj. cbn [classes length] in Hj.
    exists (default K_OTHER ([K_ALU; K_BRANCH; K_JAL; K_JALR; K_LOAD; K_STORE; K_M; K_B; K_CRC; K_SYSTEM; K_OTHER] !! j)).
    do 11 (destruct j as [| j]; [done |]). lia. }
  rewrite <- Hk, (run_kinds _ _ Hi). unfold executed_count. do 2 f_equal. apply List.filter_ext. intros e.
  symmetry. apply (kind_of_class _ _ name). by rewrite Hk, Nat2Z.id.
Qed.

(** C26. What a profile run guarantees.  Recording succeeds for exactly the runs of at most
    128 phases of 16 million instructions; the next instruction indexes past the end of the
    phase array.  After a recorded run the instruction total is the number of instructions;
    the count the report prints for each class (alu, branch, jal, ..., in the report's order)
    is the number of executed instructions of that class, the class given by the fields of
    the instruction word; and [masked_store_lost_hit] is 0 everywhere: every line valid in
    the modelled cache is valid in the proposed one, so the proposal never loses a hit. *)
Theorem profile_run_guarantees es :
  is_ok (record_all es initial_profile) = (Z.of_nat (length es) <=? MAX_PHASES * PHASE_LEN) /\
  forall st, record_all es initial_profile = Ok st ->
    counts st "total" [] = Z.of_nat (length es) /\
    (forall j name p, classes !! j = Some (name, p) ->
       counts st "kinds" [Z.of_nat j] = executed_count (in_class p) es) /\
    (forall idx, counts st "masked_store_lost_hit" idx = 0) /\
    included (dcaches st "rtl_dcache") (dcaches st "proposed_dcache").
Proof.
  destruct (Z.leb_spec (Z.of_nat (length es)) (MAX_PHASES * PHASE_LEN)) as [Hl | Hl].
  - destruct (record_all_inv es [] initial_profile initial_run_inv) as (st' & -> & Hi); [done |].
    split; [done |]. intros st [= <-]. cbn [app] in Hi.
    split; [apply Hi |]. split; [| split; apply Hi].
    intros j name p. by apply run_classes.
  - destruct (Z_of_nat_complete (MAX_PHASES * PHASE_LEN) ltac:(done)) as [lim Elim]. symmetry in Elim.
    assert (Z.of_nat (length (take lim es)) = MAX_PHASES * PHASE_LEN) as Et by (rewrite length_take; lia).
    destruct (record_all_inv (take lim es) [] initial_profile initial_run_inv) as (st' & E1 & Hi); [cbn [app]; lia |].
    assert (record_all es initial_profile = Fault FUndef) as ->; [| split; [done | by intros st]].
    rewrite <- (take_drop lim es), record_all_app, E1. cbn [mbind res_bind].
    destruct (drop lim es) as [|e es'] eqn:Ed.
    { assert (length (drop lim es) = 0%nat) as E0 by (by rewrite Ed). rewrite length_drop in E0. lia. }
    cbn [record_all]. pose proof (record_step _ e st' Hi) as Hs. cbn [app] in Hs. rewrite Et in Hs.
    specialize (Hs ltac:(unfold MAX_PHASES, PHASE_LEN; lia)).
    change (MAX_PHASES * PHASE_LEN / PHASE_LEN <? MAX_PHASES) with false in Hs. cbv iota in Hs. by rewrite Hs.
Qed.

(** The slots of the execution-count table are collision-free for word-aligned program
    counters within 4 MiB of each other: the multiplier is invertible modulo 2^20. *)
Lemma pc_slot_injective pc1 pc2 :
  pc1 mod 4 = 0 -> pc2 mod 4 = 0 -> Z.abs (pc1 - pc2) < 2 ^ 22 -> pc_slot pc1 = pc_slot pc2 -> pc1 = pc2.
Proof.
  intros H1 H2 Hd E. unfold pc_slot in E. change (PC_SLOTS - 1) with (Z.ones 20) in E.
  rewrite !Z.land_ones, !Z.shiftr_div_pow2 in E by lia.
  change (wrap 20 (u32 (pc1 / 2 ^ 2 * 2654435761)) = wrap 20 (u32 (pc2 / 2 ^ 2 * 2654435761))) in E.
  rewrite !wrap_wrap_le in E by lia.
  assert (forall a, wrap 20 (wrap 20 (a * 2654435761) * 733009) = wrap 20 a) as Hinv.
  { intros a. rewrite wrap_mul_l, <- Z.mul_assoc, <- wrap_mul_r. change (wrap 20 (2654435761 * 733009)) with 1. by rewrite Z.mul_1_r. }
  assert (wrap 20 (pc1 / 2 ^ 2) = wrap 20 (pc2 / 2 ^ 2)) as E2 by (rewrite <- (Hinv (pc1 / _)), <- (Hinv (pc2 / _)), E; done).
  unfold wrap in E2. change (2 ^ 2) with 4 in *. change (2 ^ 20) with 1048576 in E2. change (2 ^ 22) with 4194304 in Hd.
  pose proof (Z.div_mod (pc1 / 4) 1048576). pose proof (Z.div_mod (pc2 / 4) 1048576).
  pose proof (Z.div_mod pc1 4). pose proof (Z.div_mod pc2 4). lia.
Qed.

(** A load, a dependent add and a taken branch. *)
Definition sample_insts : list executed :=
  [MkExecuted 0x80000000 0x80000004 0x80000004 0x00052283 0x80100000 0;
   MkExecuted 0x80000004 0x80000008 0x80000008 0x00528333 7 7;
   MkExecuted 0x80000008 0x8000000c 0x80000000 0xfe030ce3 0 0].

Example sample_profile :
  match record_all sample_insts initial_profile with
  | Ok st => counts st "total" [] = 3 /\ counts st "kinds" [4] = 1 /\ counts st "load_raw" [2; 0] = 1 /\
      counts st "rtl_dcache.load_miss" [2] = 1 /\ counts st "rtl_btb32_miss" [] = 1 /\
      counts st "branch_backward_taken" [] = 1 /\ counts st "raw_dist" [1] = 3
  | Fault _ => False
  end.
Proof. vm_compute. intuition. Qed.

(** One load, one addition and one branch. *)
Lemma profile_run_guarantees_witness :
  exists st, record_all sample_insts initial_profile = Ok st /\ counts st "total" [] = 3 /\
    counts st "kinds" [4] = 1 /\ counts st "kinds" [0] = 1 /\ counts st "kinds" [1] = 1 /\ counts st "kinds" [2] = 0.
Proof.
  destruct (profile_run_guarantees sample_insts) as [Hok H].
  destruct (record_all sample_insts initial_profile) as [st | f]; [| discriminate Hok].
  exists st. split; [reflexivity |]. destruct (H st eq_refl) as (H1 & H2 & _). split; [exact H1 |].
  rewrite (H2 4%nat _ _ eq_refl : counts st "kinds" [4] = _), (H2 0%nat _ _ eq_refl : counts st "kinds" [0] = _),
    (H2 1%nat _ _ eq_refl : counts st "kinds" [1] = _), (H2 2%nat _ _ eq_refl : counts st "kinds" [2] = _).
  vm_compute. auto.
Defined.
