(* ===== verification/TracePack.v ===== *)
(** The two trace file formats that connect the emulator with the offline simulators: the
    branch trace (branchsim/public/btrace_pack.cc) and the instruction-address trace
    (cachesim/public/src/itrace_pack.cc), with branchsim's [open_trace] and [shell_quote].

    A FILE is its bytes and a position.  Writes succeed; a read past the end fails the
    assertion of the reading macro.  size_t is 64 bits wide and both formats are
    little-endian, as on the hosts they are used on. *)

From S2P Require Import Prelude.

#[local] Open Scope cint_scope.

(** ** Files *)

Record FILE := File { data : list Z; pos : nat }.

Definition fwrite (bs : list Z) (f : FILE) : FILE :=
  File (take (pos f) (data f) ++ bs ++ drop (pos f + length bs) (data f)) (pos f + length bs).

(** [None] when fewer than [n] bytes are left. *)
Definition fread (n : nat) (f : FILE) : option (list Z * FILE) :=
  if decide (pos f + n <= length (data f))%nat
  then Some (take n (drop (pos f) (data f)), File (data f) (pos f + n)) else None.

Definition fseek (p : nat) (f : FILE) : FILE := File (data f) p.

Definition fopen_wb : FILE := File [] 0.
Definition fopen_rb (bs : list Z) : FILE := File bs 0.

(** The bytes of an [n]-byte integer. *)
Fixpoint le_bytes (n : nat) (v : Z) : list Z :=
  match n with O => [] | S n => u8 v :: le_bytes n (v >>> 8) end.

Fixpoint le_val (bs : list Z) : Z :=
  match bs with [] => 0 | b :: bs => b ||| (le_val bs <<< 8) end.

Lemma length_le_bytes n v : length (le_bytes n v) = n.
Proof. revert v. induction n as [|n IH]; intros v; [done |]. cbn. by rewrite IH. Qed.

Lemma le_val_bytes n v : le_val (le_bytes n v) = wrap (8 * Z.of_nat n) v.
Proof.
  revert v. induction n as [|n IH]; intros v; cbn [le_bytes le_val].
  { unfold wrap. by rewrite Z.mod_1_r. }
  rewrite IH. replace (8 * Z.of_nat (S n)) with (8 * Z.of_nat n + 8) by lia. by rewrite wrap_split8 by lia.
Qed.

(** Writing at the end of a file, and over its first bytes. *)
Lemma fwrite_end bs f : pos f = length (data f) -> fwrite bs f = File (data f ++ bs) (length (data f ++ bs)).
Proof.
  intros H. unfold fwrite. rewrite H, take_ge, drop_ge, app_nil_r, length_app by lia. done.
Qed.

Lemma fwrite_start bs f old rest :
  data f = old ++ rest -> length bs = length old -> fwrite bs (fseek 0 f) = File (bs ++ rest) (length bs).
Proof.
  intros E H. unfold fwrite, fseek. cbn [pos data]. rewrite take_0, Nat.add_0_l, E, H. cbn. by rewrite drop_app_length.
Qed.

(** Reading what is there. *)
Lemma fread_here n f bs rest :
  drop (pos f) (data f) = bs ++ rest -> length bs = n -> (pos f <= length (data f))%nat ->
  exists f', fread n f = Some (bs, f') /\ drop (pos f') (data f') = rest /\ (pos f' <= length (data f'))%nat.
Proof.
  intros E Hn Hp. assert (length (drop (pos f) (data f)) = length (bs ++ rest)) as HL by (by rewrite E).
  rewrite length_drop, length_app in HL. unfold fread. rewrite decide_True by lia. eexists. split; [rewrite E, take_app_length' by done; done |].
  cbn. split; [by rewrite <- drop_drop, E, drop_app_length' | lia].
Qed.

(** ** Branch traces *)

Record btrace_record_t := BRecord { r_pc : Z; r_code : Z; r_nxt_pc : Z }.

Definition record_bytes (r : btrace_record_t) : list Z :=
  le_bytes 4 (r_pc r) ++ le_bytes 4 (r_code r) ++ le_bytes 4 (r_nxt_pc r).

Definition record_of (bs : list Z) : btrace_record_t :=
  BRecord (le_val (take 4 bs)) (le_val (take 4 (drop 4 bs))) (le_val (drop 8 bs)).

Record btrace_pack_imp := BPack { b_is_create : bool; b_fp : FILE; b_use_pclose : bool; b_count : Z }.

Definition btrace_pack_open_impl (fp : option FILE) (use_pclose : bool) : option btrace_pack_imp :=
  fp ← fp;
  '(bs, fp) ← fread 4 fp;
  Some (BPack false fp use_pclose (le_val bs)).

Definition btrace_pack_create : btrace_pack_imp := BPack true (fwrite (le_bytes 4 0) fopen_wb) false 0.

Definition btrace_pack_open (file : option (list Z)) : option btrace_pack_imp :=
  btrace_pack_open_impl (fopen_rb <$> file) false.

Definition btrace_pack_open_fp (fp : option FILE) (use_pclose : Z) : option btrace_pack_imp :=
  btrace_pack_open_impl fp (negb (use_pclose =? 0)).

Definition btrace_pack_add (pack : btrace_pack_imp) (record : btrace_record_t) : btrace_pack_imp :=
  BPack (b_is_create pack) (fwrite (record_bytes record) (b_fp pack)) (b_use_pclose pack) (u32 (b_count pack + 1)).

(** [None]: no record is left. *)
Definition btrace_pack_pick (pack : btrace_pack_imp) : res (option (btrace_record_t * btrace_pack_imp)) :=
  if b_count pack =? 0 then Ok None
  else
    match fread 12 (b_fp pack) with
    | None => Fault FAssert
    | Some (bs, fp) =>
        Ok (Some (record_of bs, BPack (b_is_create pack) fp (b_use_pclose pack) (u32 (b_count pack - 1))))
    end.

(** The bytes of the file that is left behind. *)
Definition btrace_pack_close (pack : btrace_pack_imp) : list Z :=
  data (if b_is_create pack then fwrite (le_bytes 4 (b_count pack)) (fseek 0 (b_fp pack)) else b_fp pack).

(** [while (btrace_pack_pick(pack, &record) != 0)], the body applied to every record. *)
Fixpoint pick_loop {A} (body : btrace_record_t -> A -> res A) (fuel : nat) (pack : btrace_pack_imp) (st : A) : res A :=
  match fuel with
  | O => Fault FFuel
  | S fuel =>
      r ← btrace_pack_pick pack;
      match r with
      | None => Ok st
      | Some (record, pack) => st ← body record st; pick_loop body fuel pack st
      end
  end.

(** The count bounds the number of iterations. *)
Definition picks (pack : btrace_pack_imp) : nat := S (Z.to_nat (b_count pack)).

(** ** Opening a trace in branchsim *)

(** Single quotes around the value, the quotes in it closed, escaped and opened again. *)
Definition QUOTE : Z := 39.
Definition BACKSLASH : Z := 92.
Definition shell_quote (value : list Z) : list Z :=
  [QUOTE] ++ flat_map (fun ch => if ch =? QUOTE then [QUOTE; BACKSLASH; QUOTE; QUOTE] else [ch]) value ++ [QUOTE].

Definition ends_with (suffix s : list Z) : bool :=
  bool_decide (drop (length s - length suffix) s = suffix) && (length suffix <=? length s)%nat.

(** The file system and the decompressing shell command are the host's: [file path] is the
    content of a file, [popen command] the output of a command. *)
Section open_trace.
  Context (file : list Z -> option (list Z)) (popen : list Z -> option (list Z)).

Definition sizeof_btrace_record : Z := 12.

Definition open_trace (path : list Z) : option btrace_pack_imp :=
  if negb (ends_with (bytes ".bz2") path) then
    bs ← file path;
    '(hd, _) ← fread 4 (fopen_rb bs);
    let expected := 4 + le_val hd * sizeof_btrace_record in
    if negb (Z.of_nat (length bs) =? expected) then None
    else btrace_pack_open (file path)
  else
    out ← popen (bytes "bzip2 -dc -- " ++ shell_quote path);
    btrace_pack_open_fp (Some (fopen_rb out)) 1.
End open_trace.

(** ** Instruction-address traces *)

Record pc_record := PcRecord { pr_pc : Z; pr_count : Z }.
Record PackHeader := Header { h_size : Z; h_nRecords : Z }.
Record itrace_pack_imp := IPack { isCreate : bool; header : PackHeader; i_fp : FILE; current : pc_record }.

Definition ONE_PC_STEP : Z := 4.

Definition header_bytes (h : PackHeader) : list Z := le_bytes 8 (h_size h) ++ le_bytes 8 (h_nRecords h).

Definition itrace_pack_create : itrace_pack_imp :=
  IPack true (Header 0 0) (fwrite (header_bytes (Header 0 0)) fopen_wb) (PcRecord 0 0).

Definition load_one_record (pack : itrace_pack_imp) : res itrace_pack_imp :=
  _ ← c_assert (negb (isCreate pack));
  match fread 4 (i_fp pack) with
  | None => Fault FAssert
  | Some (pc, fp) =>
      match fread 1 fp with
      | None => Fault FAssert
      | Some (count, fp) => Ok (IPack (isCreate pack) (header pack) fp (PcRecord (le_val pc) (le_val count)))
      end
  end.

Definition save_one_record (pack : itrace_pack_imp) : res itrace_pack_imp :=
  _ ← c_assert (isCreate pack);
  let fp := fwrite (le_bytes 4 (pr_pc (current pack))) (i_fp pack) in
  let fp := fwrite (le_bytes 1 (pr_count (current pack))) fp in
  let h := header pack in
  Ok (IPack (isCreate pack) (Header (h_size h) (u64 (h_nRecords h + 1))) fp (current pack)).

Definition init_from_file (pack : itrace_pack_imp) : res itrace_pack_imp :=
  match fread 16 (i_fp pack) with
  | None => Fault FAssert
  | Some (bs, fp) =>
      let h := Header (le_val (take 8 bs)) (le_val (drop 8 bs)) in
      let pack := IPack (isCreate pack) h fp (current pack) in
      if 0 <? h_nRecords h then load_one_record pack else Ok pack
  end.

Definition itrace_pack_openfp (fp : option FILE) : res itrace_pack_imp :=
  match fp with
  | None => Fault FAssert
  | Some fp => init_from_file (IPack false (Header 0 0) fp (PcRecord 0 0))
  end.

Definition itrace_pack_open (file : option (list Z)) : res itrace_pack_imp :=
  itrace_pack_openfp (fopen_rb <$> file).

(** The bytes of the file that is left behind. *)
Definition itrace_pack_close (pack : itrace_pack_imp) : res (list Z) :=
  if isCreate pack then
    pack ← (if negb (pr_pc (current pack) =? 0) then save_one_record pack else Ok pack);
    Ok (data (fwrite (header_bytes (header pack)) (fseek 0 (i_fp pack))))
  else Ok (data (i_fp pack)).

Definition itrace_pack_size (pack : itrace_pack_imp) : Z := h_size (header pack).
Definition itrace_pack_nrecords (pack : itrace_pack_imp) : Z := h_nRecords (header pack).

Definition with_current (c : pc_record) (pack : itrace_pack_imp) : itrace_pack_imp :=
  IPack (isCreate pack) (header pack) (i_fp pack) c.
Definition with_size (n : Z) (pack : itrace_pack_imp) : itrace_pack_imp :=
  IPack (isCreate pack) (Header n (h_nRecords (header pack))) (i_fp pack) (current pack).

Definition itrace_pack_add (pack : itrace_pack_imp) (pc : Z) : res itrace_pack_imp :=
  let c := current pack in
  pack ←
    (if u32 (pr_pc c + pr_count c + ONE_PC_STEP) =? pc then
       _ ← c_assert (negb (pr_count c =? 0xff));
       Ok (with_current (PcRecord (pr_pc c) (u8 (pr_count c + 1))) pack)
     else
       pack ← (if negb (pr_pc c =? 0) then save_one_record pack else Ok pack);
       Ok (with_current (PcRecord pc 0) pack));
  Ok (with_size (u64 (h_size (header pack) + 1)) pack).

Definition itrace_pack_pickone (pack : itrace_pack_imp) : res (Z * itrace_pack_imp) :=
  let n := h_size (header pack) in
  if n =? 0 then Ok (0, pack)
  else
    let c := current pack in
    let pc := u32 (pr_pc c + pr_count c * ONE_PC_STEP) in
    pack ←
      (if pr_count c =? 0 then (if 1 <? n then load_one_record pack else Ok pack)
       else Ok (with_current (PcRecord (pr_pc c) (u8 (pr_count c - 1))) pack));
    Ok (pc, with_size (u64 (n - 1)) pack).

(** [do { pc = pickone; if (pc != 0) access(pc) } while (pc != 0)] *)
Fixpoint pickone_loop {A} (body : Z -> A -> A) (fuel : nat) (pack : itrace_pack_imp) (st : A) : res A :=
  match fuel with
  | O => Fault FFuel
  | S fuel =>
      '(pc, pack) ← itrace_pack_pickone pack;
      if pc =? 0 then Ok st else pickone_loop body fuel pack (body pc st)
  end.

(** ** Branch traces: correctness *)

Definition record_ok (r : btrace_record_t) : Prop := in_range 32 (r_pc r) /\ in_range 32 (r_code r) /\ in_range 32 (r_nxt_pc r).

Lemma length_record_bytes r : length (record_bytes r) = 12%nat.
Proof. unfold record_bytes. by rewrite !length_app, !length_le_bytes. Qed.

Lemma record_of_bytes r : record_ok r -> record_of (record_bytes r) = r.
Proof.
  intros (H1 & H2 & H3). unfold record_of, record_bytes.
  rewrite take_app_length' by (by rewrite length_le_bytes).
  rewrite (drop_app_length' _ _ 4), take_app_length' by (by rewrite length_le_bytes).
  rewrite app_assoc, (drop_app_length' _ _ 8) by (by rewrite length_app, !length_le_bytes).
  rewrite !le_val_bytes, !(wrap_small 32) by done. by destruct r.
Qed.

Definition records_bytes (l : list btrace_record_t) : list Z := concat (record_bytes <$> l).

Lemma length_records_bytes l : length (records_bytes l) = (12 * length l)%nat.
Proof.
  unfold records_bytes. induction l as [|r l IH]; [done |]. cbn [fmap list_fmap concat length].
  rewrite length_app, length_record_bytes, IH. lia.
Qed.

(** The file a list of records is stored in. *)
Definition trace_file (l : list btrace_record_t) : list Z :=
  le_bytes 4 (Z.of_nat (length l)) ++ records_bytes l.

Lemma add_all_records l : forall k hd bs,
  k = Z.of_nat (length bs) -> length hd = 4%nat ->
  foldl btrace_pack_add (BPack true (File (hd ++ records_bytes bs) (length (hd ++ records_bytes bs))) false (u32 k)) l =
    BPack true (File (hd ++ records_bytes (bs ++ l)) (length (hd ++ records_bytes (bs ++ l)))) false
      (u32 (Z.of_nat (length (bs ++ l)))).
Proof.
  induction l as [|r l IH]; intros k hd bs -> Hd; cbn [foldl].
  { by rewrite app_nil_r. }
  unfold btrace_pack_add at 2. cbn [b_is_create b_fp b_use_pclose b_count].
  rewrite fwrite_end, wrap_add_l by done. cbn [data]. rewrite <- !app_assoc.
  assert (records_bytes bs ++ record_bytes r = records_bytes (bs ++ [r])) as ->.
  { unfold records_bytes. rewrite fmap_app, concat_app. cbn [fmap list_fmap concat]. by rewrite app_nil_r. }
  rewrite (IH (Z.of_nat (length bs) + 1) hd (bs ++ [r])) by (done || (rewrite length_app; cbn; lia)). by rewrite <- app_assoc.
Qed.

(** Recording a list of branches leaves [trace_file] behind. *)
Lemma record_trace l :
  btrace_pack_close (foldl btrace_pack_add btrace_pack_create l) =
    le_bytes 4 (u32 (Z.of_nat (length l))) ++ records_bytes l.
Proof.
  change btrace_pack_create with (BPack true (File (le_bytes 4 0 ++ records_bytes []) (length (le_bytes 4 0 ++ records_bytes []))) false (u32 0)).
  rewrite add_all_records by done. unfold btrace_pack_close. cbn [b_is_create b_fp b_count].
  by erewrite fwrite_start by first [reflexivity | by rewrite !length_le_bytes].
Qed.

(** The reading loop visits the records in order. *)
Lemma pick_loop_records {A} (body : btrace_record_t -> A -> res A) l : forall fuel pack st rest,
  drop (pos (b_fp pack)) (data (b_fp pack)) = records_bytes l ++ rest ->
  (pos (b_fp pack) <= length (data (b_fp pack)))%nat ->
  b_count pack = Z.of_nat (length l) -> Z.of_nat (length l) < 2 ^ 32 -> (length l < fuel)%nat -> Forall record_ok l ->
  pick_loop body fuel pack st = foldl (fun st r => st ← st; body r st) (Ok st) l.
Proof.
  induction l as [|r l IH]; intros fuel pack st rest Hd Hp Hc Hn Hf Hl; destruct fuel as [|fuel]; cbn [length] in *; try lia.
  { cbn [pick_loop]. unfold btrace_pack_pick. rewrite Hc. done. }
  apply Forall_cons_1 in Hl as [Hr Hl]. cbn [pick_loop]. unfold btrace_pack_pick. rewrite Hc.
  rewrite (proj2 (Z.eqb_neq _ 0)) by lia. unfold records_bytes in Hd. cbn [fmap list_fmap concat] in Hd.
  rewrite <- app_assoc in Hd. destruct (fread_here 12 (b_fp pack) _ _ Hd (length_record_bytes r) Hp) as (f' & -> & Hd' & Hp').
  cbn [mbind res_bind foldl]. rewrite record_of_bytes by done. destruct (body r st) as [st' | e]; cbn [mbind res_bind].
  - rewrite (IH fuel _ st' rest); cbn [b_fp b_count]; try done; try lia.
    rewrite wrap_small by (unfold in_range; lia). lia.
  - clear. induction l as [|r' l IH]; [done |]. exact IH.
Qed.

Lemma open_trace_file l rest use_pclose :
  Z.of_nat (length l) < 2 ^ 32 ->
  exists pack fp, fread 4 (fopen_rb (trace_file l ++ rest)) = Some (le_bytes 4 (Z.of_nat (length l)), fp) /\
    btrace_pack_open_impl (Some (fopen_rb (trace_file l ++ rest))) use_pclose = Some pack /\
    drop (pos (b_fp pack)) (data (b_fp pack)) = records_bytes l ++ rest /\
    (pos (b_fp pack) <= length (data (b_fp pack)))%nat /\ b_count pack = Z.of_nat (length l).
Proof.
  intros Hn. unfold trace_file.
  destruct (fread_here 4 (fopen_rb ((le_bytes 4 (Z.of_nat (length l)) ++ records_bytes l) ++ rest))
    (le_bytes 4 (Z.of_nat (length l))) (records_bytes l ++ rest)) as (f' & E & Hd & Hp).
  { cbn [fopen_rb pos data]. by rewrite drop_0, <- app_assoc. } { apply length_le_bytes. } { cbn [fopen_rb pos]. lia. }
  unfold btrace_pack_open_impl. cbn [mbind option_bind]. rewrite E. cbn [mbind option_bind].
  eexists _, _. split; [done |]. split; [done |]. cbn [b_fp b_count]. rewrite le_val_bytes, (wrap_small 32) by (unfold in_range; lia). done.
Qed.

(** ** Commands passed to the shell

    How a POSIX shell splits a simple command into words: spaces separate words, single
    quotes keep everything up to the next one, a backslash keeps the next character.
    Characters that may be special to the shell are not accepted outside quotes. *)

Definition plain_char (c : Z) : bool :=
  ((48 <=? c) && (c <=? 57)) || ((65 <=? c) && (c <=? 90)) || ((97 <=? c) && (c <=? 122)) || existsb (Z.eqb c) (bytes "-./_").

Definition emit (w : option (list Z)) (ws : list (list Z)) : list (list Z) := match w with None => ws | Some w => w :: ws end.

Fixpoint sh_words (quoted : bool) (w : option (list Z)) (s : list Z) : option (list (list Z)) :=
  match s with
  | [] => if quoted then None else Some (emit w [])
  | c :: s =>
      if quoted then (if c =? QUOTE then sh_words false w s else sh_words true (Some (default [] w ++ [c])) s)
      else if c =? QUOTE then sh_words true (Some (default [] w)) s
      else if c =? BACKSLASH then
        match s with [] => None | c :: s => sh_words false (Some (default [] w ++ [c])) s end
      else if c =? 32 then emit w <$> sh_words false None s
      else if plain_char c then sh_words false (Some (default [] w ++ [c])) s
      else None
  end.

Lemma sh_words_value v : forall w s,
  sh_words true (Some w) (flat_map (fun ch => if ch =? QUOTE then [QUOTE; BACKSLASH; QUOTE; QUOTE] else [ch]) v ++ s) =
  sh_words true (Some (w ++ v)) s.
Proof.
  induction v as [|c v IH]; intros w s; [by rewrite app_nil_r |]. cbn [flat_map]. rewrite <- app_assoc.
  destruct (Z.eqb_spec c QUOTE) as [-> | Hc].
  - cbn [app sh_words]. change (QUOTE =? QUOTE) with true. change (BACKSLASH =? QUOTE) with false.
    change (BACKSLASH =? BACKSLASH) with true. unfold default, from_option, id. by rewrite IH, <- app_assoc.
  - cbn [app sh_words]. rewrite (proj2 (Z.eqb_neq _ _) Hc). unfold default, from_option, id. by rewrite IH, <- app_assoc.
Qed.

(** A quoted value is one word of the command, whatever characters it has. *)
Lemma sh_words_quote v : sh_words false None (shell_quote v) = Some [v].
Proof. unfold shell_quote. cbn [app sh_words default]. change (QUOTE =? QUOTE) with true. cbn. by rewrite sh_words_value. Qed.

Lemma plain_char_facts c : plain_char c = true -> (c =? QUOTE) = false /\ (c =? BACKSLASH) = false /\ (c =? 32) = false.
Proof.
  intros H. split_and!; apply Z.eqb_neq; intros ->; vm_compute in H; discriminate.
Qed.

Lemma sh_words_plain l : forall w s,
  forallb plain_char l = true -> sh_words false (Some w) (l ++ 32 :: s) = ((w ++ l) ::.) <$> sh_words false None s.
Proof.
  induction l as [|c l IH]; intros w s H.
  { by rewrite app_nil_r. }
  cbn [forallb] in H. apply andb_prop in H as [Hc H]. destruct (plain_char_facts c Hc) as (E1 & E2 & E3).
  cbn [app sh_words]. rewrite E1, E2, E3, Hc. unfold default, from_option, id. by rewrite IH, <- app_assoc.
Qed.

Lemma sh_words_word c l s :
  forallb plain_char (c :: l) = true -> sh_words false None ((c :: l) ++ 32 :: s) = ((c :: l) ::.) <$> sh_words false None s.
Proof.
  intros H. cbn [forallb] in H. apply andb_prop in H as [Hc H]. destruct (plain_char_facts c Hc) as (E1 & E2 & E3).
  cbn [app sh_words]. rewrite E1, E2, E3, Hc. cbn [default from_option app]. by rewrite (sh_words_plain l [c] s H).
Qed.

Lemma sh_words_bzip2 v : sh_words false None (bytes "bzip2 -dc -- " ++ shell_quote v) = Some [bytes "bzip2"; bytes "-dc"; bytes "--"; v].
Proof.
  change (bytes "bzip2 -dc -- " ++ shell_quote v) with
    (bytes "bzip2" ++ 32 :: bytes "-dc" ++ 32 :: bytes "--" ++ 32 :: shell_quote v).
  unfold bytes at 1 2 3. cbn [String.list_ascii_of_string fmap list_fmap].
  rewrite !sh_words_word, sh_words_quote by done. done.
Qed.

Section open_trace_correct.
  Context (file popen : list Z -> option (list Z)) (bunzip2 : list Z -> option (list Z)).
  (** [popen] hands the command to a shell, which runs bzip2. *)
  Context (Hpopen : forall cmd p bs out, sh_words false None cmd = Some [bytes "bzip2"; bytes "-dc"; bytes "--"; p] ->
    file p = Some bs -> bunzip2 bs = Some out -> popen cmd = Some out).

(** The file holds the records [l], as they are or compressed. *)
Definition holds_trace (path : list Z) (l : list btrace_record_t) : Prop :=
  Forall record_ok l /\ Z.of_nat (length l) < 2 ^ 32 /\
  exists bs, file path = Some bs /\
    let recorded := btrace_pack_close (foldl btrace_pack_add btrace_pack_create l) in
    if ends_with (bytes ".bz2") path then bunzip2 bs = Some recorded else bs = recorded.

Lemma recorded_file l :
  Z.of_nat (length l) < 2 ^ 32 -> btrace_pack_close (foldl btrace_pack_add btrace_pack_create l) = trace_file l ++ [].
Proof. intros Hn. unfold trace_file. by rewrite record_trace, app_nil_r, (wrap_small 32) by (unfold in_range; lia). Qed.

Lemma length_trace_file l : Z.of_nat (length (trace_file l ++ [])) = 4 + Z.of_nat (length l) * 12.
Proof. rewrite app_nil_r. unfold trace_file. rewrite length_app, length_le_bytes, length_records_bytes. lia. Qed.

(** Opening such a file and looping over it visits the records in order. *)
Lemma open_and_pick {A} (body : btrace_record_t -> A -> res A) (st : A) l path :
  holds_trace path l ->
  exists pack, open_trace file popen path = Some pack /\
    pick_loop body (picks pack) pack st = foldl (fun st r => st ← st; body r st) (Ok st) l.
Proof.
  intros (Hl & Hn & bs & Hf & Hb). cbv zeta in Hb. rewrite recorded_file in Hb by done.
  unfold open_trace. destruct (ends_with _ path) eqn:Ee; cbn [negb].
  - destruct (open_trace_file l [] true Hn) as (pack & fp & _ & E & Hd & Hp & Hc). exists pack.
    rewrite (Hpopen _ path bs _ (sh_words_bzip2 path) Hf Hb). split; [done |].
    by apply (pick_loop_records body l _ _ _ []); unfold picks; rewrite ?Hc; try lia.
  - destruct (open_trace_file l [] false Hn) as (pack & fp & Eh & E & Hd & Hp & Hc). exists pack.
    rewrite Hf, Hb. cbn [mbind option_bind]. rewrite Eh. cbn [mbind option_bind]. rewrite le_val_bytes, (wrap_small 32) by (unfold in_range; lia).
    unfold sizeof_btrace_record. rewrite (proj2 (Z.eqb_eq _ _) (length_trace_file l)). split; [done |].
    by apply (pick_loop_records body l _ _ _ []); unfold picks; rewrite ?Hc; try lia.
Qed.

(** C30. A recorded branch trace is read back exactly.  Whatever branches the emulator adds
    to a trace of fewer than 2^32 records, branchsim opens the closed file - as it is, or
    compressed, under any path, quotes and spaces included - and its loop visits exactly
    those records in their order; a plain file that was cut short is refused. *)
Theorem branch_trace_roundtrip {A} (body : btrace_record_t -> A -> res A) (st : A) l path :
  holds_trace path l ->
  (exists pack, open_trace file popen path = Some pack /\
    pick_loop body (picks pack) pack st = foldl (fun st r => st ← st; body r st) (Ok st) l) /\
  (forall k path', ends_with (bytes ".bz2") path' = false ->
    let recorded := btrace_pack_close (foldl btrace_pack_add btrace_pack_create l) in
    file path' = Some (take k recorded) -> (k < length recorded)%nat -> open_trace file popen path' = None).
Proof.
  intros H. split; [by apply open_and_pick |]. destruct H as (_ & Hn & _). intros k path' Ee recorded Hk Hlt.
  pose proof (recorded_file l Hn) as Er. fold recorded in Er. clearbody recorded.
  unfold open_trace. rewrite Ee, Hk. cbn [negb mbind option_bind].
  destruct (fread 4 (fopen_rb (take k recorded))) as [[hd fp] |] eqn:Efr; [| done]. cbn [mbind option_bind].
  assert (le_val hd = Z.of_nat (length l)) as ->.
  { unfold fread in Efr. cbn [fopen_rb pos data] in Efr. case_decide as Hd; [| done]. injection Efr as <- _.
    rewrite length_take in Hd. rewrite drop_0, take_take, Nat.min_l by lia. rewrite Er. unfold trace_file.
    rewrite <- app_assoc, take_app_length' by (by rewrite length_le_bytes). rewrite le_val_bytes, wrap_small; [done | unfold in_range; lia]. }
  pose proof (length_trace_file l) as HL. rewrite <- Er in HL.
  unfold sizeof_btrace_record. rewrite (proj2 (Z.eqb_neq _ _)); [done |]. rewrite length_take. lia.
Qed.
End open_trace_correct.

(** ** Instruction-address traces: correctness *)

(** An address the emulator records: aligned and not null. *)
Definition trace_pc (a : Z) : Prop := 0 < a < 2 ^ 32 /\ a mod 4 = 0.

(** How [itrace_pack_add] groups addresses: the records saved and the current one.  An
    address extends a record only when the record holds a single address. *)
Fixpoint group (c : pc_record) (l : list Z) : list pc_record * pc_record :=
  match l with
  | [] => ([], c)
  | a :: l =>
      if (pr_count c =? 0) && (a =? pr_pc c + 4) then group (PcRecord (pr_pc c) 1) l
      else let '(rs, last) := group (PcRecord a 0) l in (c :: rs, last)
  end.

(** The order in which addresses come back: a record is unpacked from its end. *)
Definition unpack (c : pc_record) : list Z := if pr_count c =? 0 then [pr_pc c] else [pr_pc c + 4; pr_pc c].

Fixpoint picked (l : list Z) : list Z :=
  match l with
  | [] => []
  | a :: t => match t with [] => [a] | b :: l => if b =? a + 4 then b :: a :: picked l else a :: picked t end
  end.

Definition rec_ok (c : pc_record) : Prop :=
  trace_pc (pr_pc c) /\ (pr_count c = 0 \/ pr_count c = 1 /\ pr_pc c + 4 < 2 ^ 32).

Definition rec_bytes (c : pc_record) : list Z := le_bytes 4 (pr_pc c) ++ le_bytes 1 (pr_count c).
Definition recs_bytes (rs : list pc_record) : list Z := concat (rec_bytes <$> rs).

Lemma recs_bytes_snoc rs c : recs_bytes (rs ++ [c]) = recs_bytes rs ++ rec_bytes c.
Proof. unfold recs_bytes. rewrite fmap_app, concat_app. cbn [fmap list_fmap concat]. by rewrite app_nil_r. Qed.

(** Whether an address extends the current record. *)
Lemma extends_spec c a :
  rec_ok c -> trace_pc a ->
  (u32 (pr_pc c + pr_count c + ONE_PC_STEP) =? a) = (pr_count c =? 0) && (a =? pr_pc c + 4).
Proof.
  intros [[Hp Hm] Hc] [Ha Hma]. unfold ONE_PC_STEP.
  destruct Hc as [-> | [-> Hl]]; cbn [Z.eqb andb].
  - rewrite Z.add_0_r. destruct (decide (pr_pc c + 4 < 2 ^ 32)).
    + rewrite wrap_small by (unfold in_range; lia). apply Z.eqb_sym.
    + unfold wrap. transitivity false; [| symmetry]; apply Z.eqb_neq.
      * Z.to_euclidean_division_equations. lia.
      * lia.
  - apply Z.eqb_neq. unfold wrap. Z.to_euclidean_division_equations. lia.
Qed.

Lemma group_ok l : forall c, rec_ok c -> Forall trace_pc l ->
  Forall rec_ok (group c l).1 /\ rec_ok (group c l).2.
Proof.
  induction l as [|a l IH]; intros c Hc Hl; [done |]. apply Forall_cons_1 in Hl as [Ha Hl]. cbn [group].
  destruct (Z.eqb_spec (pr_count c) 0) as [E |]; destruct (Z.eqb_spec a (pr_pc c + 4)) as [-> |]; cbn [andb].
  1: { apply IH; [| done]. split; [apply Hc |]. right. destruct Ha. cbn. lia. }
  all: match type of Ha with trace_pc ?b => assert (rec_ok (PcRecord b 0)) as Hn by (by split; [done | left]) end.
  all: specialize (IH _ Hn Hl); destruct (group _ l) as [rs last]; cbn [fst snd] in *; split; [by constructor; [| apply IH] | apply IH].
Qed.

(** Grouping and unpacking is [picked]. *)
Lemma unpack_group l : forall c, rec_ok c -> Forall trace_pc l ->
  concat (unpack <$> (group c l).1 ++ [(group c l).2]) =
    if pr_count c =? 0 then picked (pr_pc c :: l) else pr_pc c + 4 :: pr_pc c :: picked l.
Proof.
  induction l as [|a l IH]; intros c Hc Hl.
  { cbn. rewrite app_nil_r. unfold unpack. by destruct (_ =? _). }
  apply Forall_cons_1 in Hl as [Ha Hl]. cbn [group].
  assert (rec_ok (PcRecord a 0)) as Hn by (by split; [done | left]).
  destruct (Z.eqb_spec (pr_count c) 0) as [E |]; cbn [andb].
  - cbn [picked]. destruct (Z.eqb_spec a (pr_pc c + 4)) as [-> |].
    + rewrite IH; [done | | done]. split; [apply Hc |]. right. destruct Ha. cbn. lia.
    + specialize (IH _ Hn Hl). destruct (group _ l) as [rs last]. cbn [fst snd app fmap list_fmap concat] in *.
      rewrite IH. unfold unpack. by rewrite E.
  - specialize (IH _ Hn Hl). destruct (group _ l) as [rs last]. cbn [fst snd app fmap list_fmap concat] in *.
    rewrite IH. unfold unpack. by rewrite (proj2 (Z.eqb_neq _ _)).
Qed.

Lemma picked_perm l : picked l ≡ₚ l.
Proof.
  assert (forall n l, (length l <= n)%nat -> picked l ≡ₚ l) as H; [| by apply (H (length l))].
  clear l. induction n as [|n IH]; intros l Hn; [by destruct l; cbn in *; [| lia] |].
  destruct l as [|a [|b l]]; [done | done |]. cbn [picked length] in *. destruct (b =? a + 4).
  - rewrite IH by lia. apply perm_swap.
  - by rewrite (IH (b :: l)) by (cbn; lia).
Qed.

(** The addresses come back in order exactly when none is followed by its successor. *)
Lemma picked_id l : picked l = l <-> forall i a, l !! i = Some a -> l !! S i <> Some (a + 4).
Proof.
  induction l as [|a l IH]; [by split; [intros _ i a |] |]. destruct l as [|b l].
  { cbn. split; [| done]. intros _ [|i] c; [by intros [= <-] | done]. }
  cbn [picked]. destruct (Z.eqb_spec b (a + 4)) as [-> | Hb].
  - split; [intros [= H1 H2]; lia |]. intros H. by destruct (H 0%nat a).
  - split.
    + intros [= H1] [|i] c; [by intros [= <-] [= ?] |]. by apply IH.
    + intros H. f_equal. apply IH. intros i c. apply (H (S i)).
Qed.

(** A pack being written: header, saved records, current record. *)
Definition writing (n k : Z) (hd : list Z) (rs : list pc_record) (c : pc_record) : itrace_pack_imp :=
  IPack true (Header n k) (File (hd ++ recs_bytes rs) (length (hd ++ recs_bytes rs))) c.

Lemma save_writing n k hd rs c :
  save_one_record (writing n k hd rs c) = Ok (writing n (u64 (k + 1)) hd (rs ++ [c]) c).
Proof.
  unfold save_one_record, writing. cbn [isCreate c_assert mbind res_bind current header h_size h_nRecords i_fp].
  rewrite (fwrite_end _ (File (hd ++ recs_bytes rs) _)) by done. cbn [data]. rewrite fwrite_end by done. cbn [data].
  rewrite recs_bytes_snoc. unfold rec_bytes. by rewrite <- !app_assoc.
Qed.

Lemma add_writing l : forall n k hd rs c,
  rec_ok c -> Forall trace_pc l ->
  foldl (fun p a => p ← p; itrace_pack_add p a) (Ok (writing (u64 n) (u64 k) hd rs c)) l =
    Ok (writing (u64 (n + Z.of_nat (length l))) (u64 (k + Z.of_nat (length (group c l).1))) hd (rs ++ (group c l).1) (group c l).2).
Proof.
  induction l as [|a l IH]; intros n k hd rs c Hc Hl.
  { cbn. by rewrite !Z.add_0_r, app_nil_r. }
  apply Forall_cons_1 in Hl as [Ha Hl]. cbn [foldl mbind res_bind group].
  unfold itrace_pack_add at 2. change (current (writing _ _ hd rs c)) with c. rewrite extends_spec by done.
  pose proof Hc as [[Hp _] Hcnt]. destruct ((pr_count c =? 0) && (a =? pr_pc c + 4)) eqn:E.
  - apply andb_prop in E as [Ec Ea]. apply Z.eqb_eq in Ec, Ea. rewrite Ec. cbn [Z.eqb negb c_assert mbind res_bind].
    change (with_size _ _) with (writing (u64 (u64 n + 1)) (u64 k) hd rs (PcRecord (pr_pc c) 1)). rewrite wrap_add_l.
    rewrite IH; [| split; [apply Hc | right; destruct Ha; cbn; lia] | done]. by replace (n + 1 + Z.of_nat (length l)) with (n + Z.of_nat (length (a :: l))) by (cbn [length]; lia).
  - rewrite (proj2 (Z.eqb_neq (pr_pc c) 0)) by lia. cbn [negb]. rewrite save_writing. cbn [mbind res_bind].
    change (with_size _ _) with (writing (u64 (u64 n + 1)) (u64 (u64 k + 1)) hd (rs ++ [c]) (PcRecord a 0)). rewrite !wrap_add_l.
    rewrite IH by (done || (split; [done | by left])). destruct (group (PcRecord a 0) l) as [rs' last]. cbn [fst snd length].
    rewrite <- app_assoc. do 2 f_equal; f_equal; lia.
Qed.

Lemma close_writing n k hd rs c :
  rec_ok c -> length hd = 16%nat ->
  itrace_pack_close (writing n k hd rs c) = Ok (header_bytes (Header n (u64 (k + 1))) ++ recs_bytes (rs ++ [c])).
Proof.
  intros [[Hp _] _] Hd. unfold itrace_pack_close. cbn [writing isCreate current].
  rewrite (proj2 (Z.eqb_neq (pr_pc c) 0)) by lia. cbn [negb]. fold (writing n k hd rs c). rewrite save_writing. cbn [mbind res_bind].
  unfold writing. cbn [header i_fp]. erewrite fwrite_start; [done | reflexivity |].
  unfold header_bytes. by rewrite length_app, !length_le_bytes.
Qed.

Definition item_count (rs : list pc_record) : Z := Z.of_nat (length (concat (unpack <$> rs))).

Lemma length_unpack c : rec_ok c -> Z.of_nat (length (unpack c)) = pr_count c + 1.
Proof. intros [_ [E | [E _]]]; unfold unpack; rewrite E; done. Qed.

Lemma load_record fp c rest h old :
  rec_ok c -> drop (pos fp) (data fp) = rec_bytes c ++ rest -> (pos fp <= length (data fp))%nat ->
  exists fp', load_one_record (IPack false h fp old) = Ok (IPack false h fp' c) /\
    drop (pos fp') (data fp') = rest /\ (pos fp' <= length (data fp'))%nat.
Proof.
  intros [[Hp _] Hc] Hd Hl. unfold rec_bytes in Hd. rewrite <- app_assoc in Hd.
  destruct (fread_here 4 fp _ _ Hd (length_le_bytes _ _) Hl) as (f1 & E1 & Hd1 & Hl1).
  destruct (fread_here 1 f1 _ _ Hd1 (length_le_bytes _ _) Hl1) as (f2 & E2 & Hd2 & Hl2).
  exists f2. split; [| done]. unfold load_one_record. cbn [isCreate negb c_assert mbind res_bind i_fp header].
  rewrite E1, E2, !le_val_bytes, (wrap_small 32), (wrap_small 8); unfold in_range; [by destruct c | lia | lia].
Qed.

(** Unpacking the current record and the [rs] that follow it in the file. *)
Lemma pickone_records {A} (body : Z -> A -> A) fuel : forall rs n k fp c st rest,
  Forall rec_ok rs -> rec_ok c -> drop (pos fp) (data fp) = recs_bytes rs ++ rest -> (pos fp <= length (data fp))%nat ->
  n = item_count (c :: rs) -> n < 2 ^ 64 -> n < Z.of_nat fuel ->
  pickone_loop body fuel (IPack false (Header n k) fp c) st = Ok (foldl (fun st a => body a st) st (concat (unpack <$> c :: rs))).
Proof.
  induction fuel as [|fuel IH]; intros rs n k fp c st rest Hrs Hc Hd Hl Hn Hmax Hf; [unfold item_count in Hn; lia |].
  assert (n = pr_count c + 1 + item_count rs) as Hn'.
  { rewrite Hn. unfold item_count. cbn [fmap list_fmap concat]. rewrite length_app, Nat2Z.inj_add, length_unpack; done. }
  assert (0 <= item_count rs) by (unfold item_count; lia).
  pose proof Hc as [[Hp _] Hcnt]. cbn [pickone_loop]. unfold itrace_pack_pickone. cbn [header h_size current].
  rewrite (proj2 (Z.eqb_neq n 0)) by lia. unfold ONE_PC_STEP.
  destruct Hcnt as [E | [E Hlt]]; rewrite E, (wrap_small 32) by (unfold in_range; lia).
  - cbn [Z.eqb]. replace (pr_pc c + 0 * 4) with (pr_pc c) by lia. cbn [fmap list_fmap concat]. unfold unpack at 1. rewrite E.
    cbn [Z.eqb app foldl]. rewrite E in Hn'. destruct rs as [|c' rs].
    + change (item_count []) with 0 in Hn'. assert (n = 1) as -> by lia. change (1 <? 1) with false. cbn [mbind res_bind].
      rewrite (proj2 (Z.eqb_neq (pr_pc c) 0)) by lia.
      destruct fuel as [|fuel]; [lia |]. done.
    + apply Forall_cons_1 in Hrs as [Hc' Hrs]. assert (0 <= item_count rs) by (unfold item_count; lia).
      assert (item_count (c' :: rs) = pr_count c' + 1 + item_count rs) as Hi.
      { unfold item_count. cbn [fmap list_fmap concat]. rewrite length_app, Nat2Z.inj_add, length_unpack; done. }
      pose proof Hc' as [_ Hcnt']. rewrite (proj2 (Z.ltb_lt 1 n)) by lia. unfold recs_bytes in Hd. cbn [fmap list_fmap concat] in Hd. rewrite <- app_assoc in Hd.
      destruct (load_record fp c' (recs_bytes rs ++ rest) (Header n k) c Hc' Hd Hl) as (fp' & -> & Hd' & Hl'). cbn [mbind res_bind].
      rewrite (proj2 (Z.eqb_neq (pr_pc c) 0)) by lia. unfold with_size. cbn [isCreate header h_nRecords i_fp current].
      rewrite (wrap_small 64) by (unfold in_range; lia). apply (IH rs _ _ _ _ _ rest); try done; lia.
  - cbn [Z.eqb mbind res_bind]. rewrite (proj2 (Z.eqb_neq (pr_pc c + 1 * 4) 0)) by lia. unfold with_size, with_current. cbn [isCreate header h_nRecords i_fp current].
    rewrite (wrap_small 64) by (unfold in_range; lia). change (u8 (1 - 1)) with 0.
    assert (rec_ok (PcRecord (pr_pc c) 0)) as Hc0 by (split; [apply Hc | by left]).
    rewrite (IH rs _ _ _ _ _ rest); try done; try lia.
    + cbn [fmap list_fmap concat]. unfold unpack at 1 3. rewrite E. done.
    + unfold item_count. cbn [fmap list_fmap concat]. rewrite length_app. unfold item_count in Hn'. cbn [unpack pr_count Z.eqb length]. lia.
Qed.

Lemma open_records n k c rs :
  Forall rec_ok rs -> rec_ok c -> in_range 64 n -> in_range 64 k -> 0 < k ->
  exists fp, itrace_pack_open (Some (header_bytes (Header n k) ++ recs_bytes (c :: rs))) = Ok (IPack false (Header n k) fp c) /\
    drop (pos fp) (data fp) = recs_bytes rs ++ [] /\ (pos fp <= length (data fp))%nat.
Proof.
  intros Hrs Hc Hn Hk Hpos. set (file := header_bytes (Header n k) ++ recs_bytes (c :: rs)).
  destruct (fread_here 16 (fopen_rb file) (header_bytes (Header n k)) (recs_bytes (c :: rs))) as (f1 & E1 & Hd1 & Hl1).
  { done. } { unfold header_bytes. by rewrite length_app, !length_le_bytes. } { cbn [fopen_rb pos]. lia. }
  unfold itrace_pack_open. cbn [fmap option_fmap option_map]. unfold itrace_pack_openfp, init_from_file. cbn [i_fp isCreate current]. rewrite E1.
  unfold header_bytes. cbn [h_size h_nRecords]. rewrite take_app_length', drop_app_length' by (by rewrite length_le_bytes).
  rewrite !le_val_bytes, !(wrap_small 64) by done. rewrite (proj2 (Z.ltb_lt 0 k)) by done.
  unfold recs_bytes in Hd1. cbn [fmap list_fmap concat] in Hd1.
  destruct (load_record f1 c (recs_bytes rs) (Header n k) (PcRecord 0 0) Hc Hd1 Hl1) as (f2 & -> & Hd2 & Hl2).
  exists f2. by rewrite app_nil_r.
Qed.

Lemma add_first a :
  trace_pc a -> a <> 4 ->
  itrace_pack_add itrace_pack_create a = Ok (writing (u64 1) (u64 0) (header_bytes (Header 0 0)) [] (PcRecord a 0)).
Proof. intros [Ha _] H4. unfold itrace_pack_add. cbn [itrace_pack_create current pr_pc pr_count]. change (u32 (0 + 0 + ONE_PC_STEP)) with 4.
  rewrite (proj2 (Z.eqb_neq 4 a)) by lia. done. Qed.

(** The file of a recorded address trace, and the simulator's loop over it. *)
Lemma address_trace_ok {A} (body : Z -> A -> A) (st : A) l :
  Forall trace_pc l -> head l <> Some 4 -> Z.of_nat (length l) < 2 ^ 64 ->
  exists bs p, (p ← foldl (fun p a => p ← p; itrace_pack_add p a) (Ok itrace_pack_create) l; itrace_pack_close p) = Ok bs /\
    itrace_pack_open (Some bs) = Ok p /\ itrace_pack_size p = Z.of_nat (length l) /\
    pickone_loop body (S (length l)) p st = Ok (foldl (fun st a => body a st) st (picked l)).
Proof.
  intros Hl H4 Hn. pose proof (picked_perm l) as Hperm.  destruct l as [|a l].
  { by eexists _, _. }
  apply Forall_cons_1 in Hl as [Ha Hl]. cbn [foldl mbind res_bind]. rewrite add_first by (done || (by intros ->)).
  assert (rec_ok (PcRecord a 0)) as Hc by (by split; [done | left]).
  rewrite (add_writing l 1 0) by done. cbn [mbind res_bind app].
  destruct (group_ok l _ Hc Hl) as [Hrs Hlast]. pose proof (unpack_group l _ Hc Hl) as Hpick. cbn [pr_count pr_pc Z.eqb] in Hpick.
  destruct (group (PcRecord a 0) l) as [rs last] eqn:Eg. cbn [fst snd] in *.
  rewrite close_writing by (done || (unfold header_bytes; by rewrite length_app, !length_le_bytes)).
  assert (Z.of_nat (length rs) <= Z.of_nat (length l)) as Hrl.
  { apply Permutation_length in Hperm. rewrite <- Hpick, fmap_app, concat_app, length_app in Hperm. cbn [length] in Hperm.
    assert (length rs <= length (concat (unpack <$> rs)))%nat.
    { clear. induction rs as [|r rs IH]; [done |]. cbn [fmap list_fmap concat length]. rewrite length_app. unfold unpack at 1. destruct (_ =? _); cbn [length]; lia. }
    cbn [fmap list_fmap concat] in Hperm. rewrite app_nil_r in Hperm. unfold unpack at 2 in Hperm. destruct (_ =? _); cbn [length] in Hperm; lia. }
  rewrite wrap_add_l, !(wrap_small 64) by (unfold in_range; cbn [length] in Hn; lia).
  destruct (rs ++ [last]) as [|c rs'] eqn:Ers; [by destruct rs |].
  assert (rec_ok c /\ Forall rec_ok rs') as [Hc' Hrs'].
  { apply Forall_cons_1. rewrite <- Ers. apply Forall_app. by split; [| constructor]. }
  cbn [length] in Hn.
  destruct (open_records (1 + Z.of_nat (length l)) (0 + Z.of_nat (length rs) + 1) c rs') as (fp & Eo & Hd & Hp); [done | done | unfold in_range; lia | unfold in_range; lia | lia |].
  eexists _, _. split; [done |]. split; [exact Eo |]. split; [cbn; lia |].
  rewrite (pickone_records body _ rs' _ _ _ _ _ []); [by rewrite Hpick | done | done | done | done | | lia | cbn [length]; lia].
  unfold item_count. rewrite Hpick, (Permutation_length Hperm). cbn [length]. lia.
Qed.

(** What becomes of a recorded address trace.  Aligned addresses of instructions are
    written and read back without failing an assertion, and the simulator's loop visits
    each recorded address once; but the order is [picked]: an address directly followed by
    its successor comes back after it.  So the trace is reproduced exactly only if it has
    no two sequential addresses. *)
Theorem address_trace_order {A} (body : Z -> A -> A) (st : A) l :
  Forall trace_pc l -> head l <> Some 4 -> Z.of_nat (length l) < 2 ^ 64 ->
  exists bs p, (p ← foldl (fun p a => p ← p; itrace_pack_add p a) (Ok itrace_pack_create) l; itrace_pack_close p) = Ok bs /\
    itrace_pack_open (Some bs) = Ok p /\ itrace_pack_size p = Z.of_nat (length l) /\
    pickone_loop body (S (length l)) p st = Ok (foldl (fun st a => body a st) st (picked l)) /\
    picked l ≡ₚ l /\ (picked l = l <-> forall i a, l !! i = Some a -> l !! S i <> Some (a + 4)).
Proof.
  intros Hl H4 Hn. destruct (address_trace_ok body st l Hl H4 Hn) as (bs & p & H). exists bs, p. destruct H as (? & ? & ? & ?).
  split_and!; try done; [apply picked_perm | apply picked_id..].
Qed.

(** The first address 4 is taken for the successor of the empty record, and is lost. *)
Example first_address_four :
  (p ← foldl (fun p a => p ← p; itrace_pack_add p a) (Ok itrace_pack_create) [4]; itrace_pack_close p) =
    Ok (header_bytes (Header 1 0)).
Proof. vm_compute. reflexivity. Qed.

(** ** Concrete traces *)

Lemma branch_trace_witness :
  let l := [BRecord 0x80000000 0xfe000ee3 0x7ffffffc; BRecord 0x80000010 0x00008067 0x80000020] in
  let bs := btrace_pack_close (foldl btrace_pack_add btrace_pack_create l) in
  let file p := if bool_decide (p = bytes "it's.bin") then Some bs else if bool_decide (p = bytes "it's.bin.bz2") then Some (66 :: bs) else None in
  let bunzip2 bs := match bs with 66 :: bs => Some bs | _ => None end in
  let popen cmd := match sh_words false None cmd with Some [_; _; _; p] => x ← file p; bunzip2 x | _ => None end in
  exists pack, open_trace file popen (bytes "it's.bin.bz2") = Some pack /\
    pick_loop (fun r st => Ok (r :: st)) (picks pack) pack [] = Ok (reverse l).
Proof.
  intros l bs file bunzip2 popen.
  apply (branch_trace_roundtrip file popen bunzip2) with (l := l).
  - intros cmd p bs' out E Ef Eb. unfold popen. rewrite E, Ef. exact Eb.
  - split; [by repeat constructor |]. split; [done |]. by exists (66 :: bs).
Defined.

Lemma address_trace_witness :
  picked [0x80000000; 0x80000004; 0x80000008; 0x80000100] = [0x80000004; 0x80000000; 0x80000008; 0x80000100] /\
  exists bs p, (p ← foldl (fun p a => p ← p; itrace_pack_add p a) (Ok itrace_pack_create)
      [0x80000000; 0x80000004; 0x80000008; 0x80000100]; itrace_pack_close p) = Ok bs /\
    itrace_pack_open (Some bs) = Ok p.
Proof.
  split; [reflexivity |].
  destruct (address_trace_order (fun a l => a :: l) [] [0x80000000; 0x80000004; 0x80000008; 0x80000100]) as (bs & p & E1 & E2 & _);
    [by repeat constructor | done | done |]. by exists bs, p.
Defined.
