(* ===== verification/BranchSim.v ===== *)
(** The offline branch-prediction simulator (branchsim/src/main.cc): decoding of control
    instructions, the branch target buffer, the counter-based direction predictors, the
    prediction algorithms with their runners, the models of the hardware predictor with
    their allocation policies, and the main loop over a trace.

    The classes are records, their methods functions.  An algorithm's closures share one
    predictor; it is a field of the runner.  An access outside a vector is undefined
    behaviour, [Fault FUndef]; a failed assertion is [Fault FAssert].  The command line and
    the printed reports are not modelled. *)

From stdpp Require Import pretty.
From S2P Require Import Prelude TracePack.

#[local] Open Scope cint_scope.

(** ** Decoding *)

Definition sign_extend (value bits : Z) : Z :=
  let sign_bit := u32 (1 <<< (bits - 1)) in
  u32 ((value ^^^ sign_bit) - sign_bit).

Definition get_b_imm (code : Z) : Z :=
  let imm12 := (code >>> 31) &&& 0x1 in
  let imm11 := (code >>> 7) &&& 0x1 in
  let imm10_5 := (code >>> 25) &&& 0x3f in
  let imm4_1 := (code >>> 8) &&& 0xf in
  let imm := (imm12 <<< 12) ||| (imm11 <<< 11) ||| (imm10_5 <<< 5) ||| (imm4_1 <<< 1) in
  sign_extend imm 13.

Definition get_j_imm (code : Z) : Z :=
  let imm20 := (code >>> 31) &&& 0x1 in
  let imm19_12 := (code >>> 12) &&& 0xff in
  let imm11 := (code >>> 20) &&& 0x1 in
  let imm10_1 := (code >>> 21) &&& 0x3ff in
  let imm := (imm20 <<< 20) ||| (imm19_12 <<< 12) ||| (imm11 <<< 11) ||| (imm10_1 <<< 1) in
  sign_extend imm 21.

Definition is_conditional_branch (code : Z) : bool := (code &&& 0x7f) =? 0x63.
Definition is_jal_code (code : Z) : bool := (code &&& 0x7f) =? 0x6f.
Definition is_jalr (code : Z) : bool := (code &&& 0x7f) =? 0x67.
Definition is_exact_ret (code : Z) : bool := code =? 0x00008067.

Inductive ControlKind := Branch | Jal | Ret | Jalr.
#[export] Instance ControlKind_eq_dec : EqDecision ControlKind.
Proof. solve_decision. Defined.

Definition control_index (k : ControlKind) : Z := match k with Branch => 0 | Jal => 1 | Ret => 2 | Jalr => 3 end.

Definition get_control_kind (code : Z) : res ControlKind :=
  if is_conditional_branch code then Ok Branch
  else if is_jal_code code then Ok Jal
  else if is_exact_ret code then Ok Ret
  else _ ← c_assert (is_jalr code); Ok Jalr.

Record BTBEntry := MkBTBEntry { t_tag : Z; t_target : Z; t_is_jal : bool; t_valid : bool }.
Record HistoryEntry := MkHistory { hs_valid : bool; hs_is_jal : bool; hs_target : Z }.
Record DecodedBranch := MkDecoded { is_conditional : bool; is_jal : bool; direct_target_valid : bool; direct_target : Z }.
Record PredictContext := MkContext { c_pc : Z; c_code : Z; entry : HistoryEntry; decoded : DecodedBranch }.

Definition decode_branch (pc code : Z) : DecodedBranch :=
  let cond := is_conditional_branch code in
  let jal := is_jal_code code in
  if cond then MkDecoded cond jal true (u32 (pc + get_b_imm code))
  else if jal then MkDecoded cond jal true (u32 (pc + get_j_imm code))
  else MkDecoded cond jal false 0.

(** ** Vectors *)

(** [v[i]] *)
Definition vget {A} (v : list A) (i : Z) : res A :=
  match v !! Z.to_nat i with Some x => Ok x | None => Fault FUndef end.
Definition vset {A} (v : list A) (i : Z) (x : A) : res (list A) :=
  if i <? Z.of_nat (length v) then Ok (aset v i x) else Fault FUndef.
(** [i % size] *)
Definition vmod (i size : Z) : res Z := if size =? 0 then Fault FUndef else Ok (i mod size).
Definition vsize {A} (v : list A) : Z := Z.of_nat (length v).

Definition has_single_bit (n : Z) : bool := (0 <? n) && ((n &&& (n - 1)) =? 0).
Definition countr_zero (n : Z) : Z := Z.log2 (n &&& - n).

(** ** The branch target buffer *)

Module BTB.
Definition init (size : Z) : res (list BTBEntry) :=
  _ ← c_assert (has_single_bit size);
  Ok (replicate (Z.to_nat size) (MkBTBEntry 0 0 false false)).

Definition get_index (entries : list BTBEntry) (pc : Z) : res Z := vmod (pc >>> 2) (vsize entries).
Definition get_tag (entries : list BTBEntry) (pc : Z) : Z := pc >>> (2 + countr_zero (vsize entries)).

Definition query (entries : list BTBEntry) (pc : Z) : res HistoryEntry :=
  i ← get_index entries pc;
  e ← vget entries i;
  Ok (if t_valid e && (t_tag e =? get_tag entries pc) then MkHistory true (t_is_jal e) (t_target e)
      else MkHistory false false 0).

Definition update (entries : list BTBEntry) (pc target : Z) (is_jal_branch : bool) : res (list BTBEntry) :=
  i ← get_index entries pc;
  vset entries i (MkBTBEntry (get_tag entries pc) target is_jal_branch true).
End BTB.

(** ** Direction predictors *)

Module CounterTable.
Definition init (size initial_value : Z) : res (list Z) :=
  _ ← c_assert (has_single_bit size);
  _ ← c_assert (initial_value <=? 3);
  Ok (replicate (Z.to_nat size) initial_value).

Definition prefer_high (counters : list Z) (index : Z) : res bool :=
  c ← vget counters index; Ok (2 <=? c).

Definition update (counters : list Z) (index : Z) (toward_high : bool) : res (list Z) :=
  c ← vget counters index;
  if toward_high then (if c <? 3 then vset counters index (c + 1) else Ok counters)
  else if 0 <? c then vset counters index (c - 1) else Ok counters.
End CounterTable.

Definition make_mask (bits : Z) : Z := if 32 <=? bits then not32 0 else u32 ((1 <<< bits) - 1).

(** [((h << 1) | taken) & mask] *)
Definition push_history (h : Z) (taken : bool) (mask : Z) : Z := (u32 (h <<< 1) ||| b2z taken) &&& mask.

Record GSharePredictor := MkGShare { g_pht : list Z; ghr_mask : Z; ghr : Z }.

Module GShare.
Definition init (pht_size ghr_bits : Z) : res GSharePredictor :=
  pht ← CounterTable.init pht_size 1;
  _ ← c_assert (0 <? ghr_bits);
  Ok (MkGShare pht (make_mask ghr_bits) 0).

Definition get_index (p : GSharePredictor) (pc : Z) : res Z :=
  vmod (((pc >>> 2) ^^^ ghr p) &&& ghr_mask p) (vsize (g_pht p)).

Definition predict_taken (p : GSharePredictor) (pc : Z) : res bool :=
  i ← get_index p pc; CounterTable.prefer_high (g_pht p) i.

Definition update (p : GSharePredictor) (pc : Z) (taken : bool) : res GSharePredictor :=
  i ← get_index p pc;
  pht ← CounterTable.update (g_pht p) i taken;
  Ok (MkGShare pht (ghr_mask p) (push_history (ghr p) taken (ghr_mask p))).
End GShare.

Record LocalPredictor := MkLocal { local_histories : list Z; history_mask : Z; l_pht : list Z }.

Module Local.
Definition init (lht_size history_bits pht_size : Z) : res LocalPredictor :=
  pht ← CounterTable.init pht_size 1;
  _ ← c_assert (0 <? history_bits);
  Ok (MkLocal (replicate (Z.to_nat lht_size) 0) (make_mask history_bits) pht).

Definition get_history_index (p : LocalPredictor) (pc : Z) : res Z := vmod (pc >>> 2) (vsize (local_histories p)).

Definition get_pht_index (p : LocalPredictor) (pc : Z) : res Z :=
  i ← get_history_index p pc;
  h ← vget (local_histories p) i;
  vmod h (vsize (l_pht p)).

Definition predict_taken (p : LocalPredictor) (pc : Z) : res bool :=
  i ← get_pht_index p pc; CounterTable.prefer_high (l_pht p) i.

Definition update (p : LocalPredictor) (pc : Z) (taken : bool) : res LocalPredictor :=
  i ← get_pht_index p pc;
  pht ← CounterTable.update (l_pht p) i taken;
  j ← get_history_index p pc;
  h ← vget (local_histories p) j;
  hs ← vset (local_histories p) j (push_history h taken (history_mask p));
  Ok (MkLocal hs (history_mask p) pht).
End Local.

Record LocalGlobalTournamentPredictor := MkTournament { local_ : LocalPredictor; gshare_ : GSharePredictor; chooser_ : list Z }.

Module Tournament.
Definition init (lht_size local_history_bits local_pht_size gshare_size chooser_size ghr_bits : Z)
    : res LocalGlobalTournamentPredictor :=
  l ← Local.init lht_size local_history_bits local_pht_size;
  g ← GShare.init gshare_size ghr_bits;
  c ← CounterTable.init chooser_size 2;
  Ok (MkTournament l g c).

Definition get_chooser_index (p : LocalGlobalTournamentPredictor) (pc : Z) : res Z := vmod (pc >>> 2) (vsize (chooser_ p)).

Definition predict_taken (p : LocalGlobalTournamentPredictor) (pc : Z) : res bool :=
  local_taken ← Local.predict_taken (local_ p) pc;
  gshare_taken ← GShare.predict_taken (gshare_ p) pc;
  i ← get_chooser_index p pc;
  high ← CounterTable.prefer_high (chooser_ p) i;
  Ok (if high : bool then gshare_taken else local_taken).

Definition update (p : LocalGlobalTournamentPredictor) (pc : Z) (taken : bool) : res LocalGlobalTournamentPredictor :=
  chooser_index ← get_chooser_index p pc;
  local_taken ← Local.predict_taken (local_ p) pc;
  gshare_taken ← GShare.predict_taken (gshare_ p) pc;
  chooser ←
    (if negb (eqb local_taken gshare_taken) then
       if eqb gshare_taken taken then CounterTable.update (chooser_ p) chooser_index true
       else if eqb local_taken taken then CounterTable.update (chooser_ p) chooser_index false
       else Ok (chooser_ p)
     else Ok (chooser_ p));
  l ← Local.update (local_ p) pc taken;
  g ← GShare.update (gshare_ p) pc taken;
  Ok (MkTournament l g chooser).
End Tournament.

(** ** Algorithms *)

(** The state the closures [predict_taken] and [update] of an algorithm share. *)
Inductive predictor :=
| Btfn
| TwoBit (bht : list Z)
| GShareP (direct_branch_target : bool) (p : GSharePredictor)
| LocalP (direct_branch_target : bool) (p : LocalPredictor)
| TournamentP (p : LocalGlobalTournamentPredictor).

Record AlgoConfig := MkAlgo {
  a_name : String.string; a_btb_size : Z; counter_table_size : Z; chooser_size : Z; a_ghr_bits : Z;
  local_history_bits : Z; local_history_table_size : Z;
  direct_branch_target : bool; direct_jal_target : bool; closures : predictor }.

Definition choose_target (algo : AlgoConfig) (ctx : PredictContext) (predict_taken_flag : bool) : Z :=
  if negb predict_taken_flag then u32 (c_pc ctx + 4)
  else if is_conditional (decoded ctx) && direct_branch_target algo && direct_target_valid (decoded ctx)
  then direct_target (decoded ctx)
  else if is_jal (decoded ctx) && direct_jal_target algo && direct_target_valid (decoded ctx)
  then direct_target (decoded ctx)
  else if hs_valid (entry ctx) then hs_target (entry ctx)
  else u32 (c_pc ctx + 4).

Definition default_update (ctx : PredictContext) (taken : bool) (nxt_pc : Z) (btb : list BTBEntry) : res (list BTBEntry) :=
  if taken then BTB.update btb (c_pc ctx) nxt_pc (is_jal (decoded ctx)) else Ok btb.

Definition predict_btfn (ctx : PredictContext) : bool :=
  hs_valid (entry ctx) && (hs_is_jal (entry ctx) || (hs_target (entry ctx) <? c_pc ctx)).

(** [a && b] where [b] is evaluated only if [a] holds *)
Definition and_then (a : bool) (b : res bool) : res bool := if a then b else Ok false.

(** The closures [predict_taken] *)
Definition predict_two_bit (bht : list Z) (ctx : PredictContext) : res bool :=
  if is_jal (decoded ctx) then Ok (hs_valid (entry ctx) && hs_is_jal (entry ctx))
  else if negb (hs_valid (entry ctx)) then Ok false
  else i ← vmod (c_pc ctx >>> 2) (vsize bht); CounterTable.prefer_high bht i.

Definition predict_gshare (direct : bool) (p : GSharePredictor) (ctx : PredictContext) : res bool :=
  if is_jal (decoded ctx) then Ok (direct || (hs_valid (entry ctx) && hs_is_jal (entry ctx)))
  else if is_conditional (decoded ctx) then
    if direct then GShare.predict_taken p (c_pc ctx)
    else and_then (hs_valid (entry ctx)) (GShare.predict_taken p (c_pc ctx))
  else and_then (hs_valid (entry ctx)) (GShare.predict_taken p (c_pc ctx)).

Definition predict_local (direct : bool) (p : LocalPredictor) (ctx : PredictContext) : res bool :=
  if is_jal (decoded ctx) then Ok (direct || (hs_valid (entry ctx) && hs_is_jal (entry ctx)))
  else if is_conditional (decoded ctx) then
    if direct then Local.predict_taken p (c_pc ctx)
    else and_then (hs_valid (entry ctx)) (Local.predict_taken p (c_pc ctx))
  else Ok (hs_valid (entry ctx)).

Definition predict_tournament (p : LocalGlobalTournamentPredictor) (ctx : PredictContext) : res bool :=
  if is_jal (decoded ctx) then Ok true
  else if is_conditional (decoded ctx) then Tournament.predict_taken p (c_pc ctx)
  else Ok (hs_valid (entry ctx)).

Definition predict_taken (c : predictor) (ctx : PredictContext) : res bool :=
  match c with
  | Btfn => Ok (predict_btfn ctx)
  | TwoBit bht => predict_two_bit bht ctx
  | GShareP direct p => predict_gshare direct p ctx
  | LocalP direct p => predict_local direct p ctx
  | TournamentP p => predict_tournament p ctx
  end.

(** The closures [update]: the predictor learns conditional branches, then
    [default_update]. *)
Definition learn (c : predictor) (pc : Z) (taken : bool) : res predictor :=
  match c with
  | Btfn => Ok Btfn
  | TwoBit bht => i ← vmod (pc >>> 2) (vsize bht); TwoBit <$> CounterTable.update bht i taken
  | GShareP direct p => GShareP direct <$> GShare.update p pc taken
  | LocalP direct p => LocalP direct <$> Local.update p pc taken
  | TournamentP p => TournamentP <$> Tournament.update p pc taken
  end.

Definition update (c : predictor) (ctx : PredictContext) (taken : bool) (nxt_pc : Z) (btb : list BTBEntry)
    : res (predictor * list BTBEntry) :=
  c ← (if is_conditional (decoded ctx) then learn c (c_pc ctx) taken else Ok c);
  btb ← default_update ctx taken nxt_pc btb;
  Ok (c, btb).

Definition make_btfn_algo (btb_size : Z) : AlgoConfig := MkAlgo "BTFN" btb_size 0 0 0 0 0 false false Btfn.

Definition make_two_bit_algo (btb_size bht_size : Z) : res AlgoConfig :=
  bht ← CounterTable.init bht_size 1;
  Ok (MkAlgo "2-bit saturating counter" btb_size bht_size 0 0 0 0 false false (TwoBit bht)).

Definition make_gshare_algo (btb_size pht_size ghr_bits : Z) (direct : bool) : res AlgoConfig :=
  p ← GShare.init pht_size ghr_bits;
  Ok (MkAlgo (if direct then "gshare + direct branch target" else "gshare") btb_size pht_size 0 ghr_bits 0 0
        direct direct (GShareP direct p)).

Definition make_local_algo (btb_size lht_size local_history_bits local_pht_size : Z) (direct : bool) : res AlgoConfig :=
  p ← Local.init lht_size local_history_bits local_pht_size;
  Ok (MkAlgo (if direct then "local + direct branch target" else "local") btb_size local_pht_size 0 0
        local_history_bits lht_size direct direct (LocalP direct p)).

Definition make_local_gshare_tournament_algo (btb_size lht_size local_history_bits local_pht_size chooser_size ghr_bits : Z)
    : res AlgoConfig :=
  p ← Tournament.init lht_size local_history_bits local_pht_size local_pht_size chooser_size ghr_bits;
  Ok (MkAlgo "local+gshare tournament + direct branch target" btb_size local_pht_size chooser_size ghr_bits
        local_history_bits lht_size true true (TournamentP p)).

Record AlgoRunner := MkRunner { algo : AlgoConfig; btb : list BTBEntry; total : Z; wrong : Z }.

Definition AlgoRunner_init (config : AlgoConfig) : res AlgoRunner :=
  b ← BTB.init (a_btb_size config); Ok (MkRunner config b 0 0).

Definition with_closures (c : predictor) (a : AlgoConfig) : AlgoConfig :=
  MkAlgo (a_name a) (a_btb_size a) (counter_table_size a) (chooser_size a) (a_ghr_bits a)
    (local_history_bits a) (local_history_table_size a) (direct_branch_target a) (direct_jal_target a) c.

(** [AlgoRunner::process] *)
Definition algo_process (record : btrace_record_t) (r : AlgoRunner) : res AlgoRunner :=
  h ← BTB.query (btb r) (r_pc record);
  let ctx := MkContext (r_pc record) (r_code record) h (decode_branch (r_pc record) (r_code record)) in
  predict_taken_flag ← predict_taken (closures (algo r)) ctx;
  let prediction := choose_target (algo r) ctx predict_taken_flag in
  let w := u64 (wrong r + b2z (negb (prediction =? r_nxt_pc record))) in
  let t := u64 (total r + 1) in
  '(c, b) ← update (closures (algo r)) ctx (negb (r_nxt_pc record =? u32 (r_pc record + 4))) (r_nxt_pc record) (btb r);
  Ok (MkRunner (with_closures c (algo r)) b t w).

(** ** Models of the hardware predictor *)

Inductive RtlAllocationPolicy := Always | SkipConflictingNotTaken | ProtectJalFromBranches | SecondChanceJal.
#[export] Instance RtlAllocationPolicy_eq_dec : EqDecision RtlAllocationPolicy.
Proof. solve_decision. Defined.

Record RtlBTBEntry := MkRtl {
  e_pc : Z; e_target : Z; direction_counter : Z; e_valid : bool; e_is_jal : bool; e_is_branch : bool; jal_protected : bool }.

Record RtlModelConfig := MkRtlConfig {
  rtl_name : String.string; btb_size : Z; allocation_policy : RtlAllocationPolicy; index_bits : list Z;
  direction_table_size : Z; ghr_bits : Z }.

Record RtlModelStats := MkStats {
  st_total : Z; st_wrong : Z; direction_wrong : Z; target_wrong : Z; no_prediction : Z;
  skipped_not_taken_allocations : Z; total_by_kind : list Z; wrong_by_kind : list Z }.

Definition zero_stats : RtlModelStats := MkStats 0 0 0 0 0 0 [0; 0; 0; 0] [0; 0; 0; 0].

Record RtlModelRunner := MkRtlRunner {
  config : RtlModelConfig; entries : list RtlBTBEntry; direction_counters : list Z; rtl_ghr : Z; stats : RtlModelStats }.

Definition empty_rtl : RtlBTBEntry := MkRtl 0 0 0 false false false false.

Definition RtlModelRunner_init (c : RtlModelConfig) : res RtlModelRunner :=
  _ ← c_assert (has_single_bit (btb_size c));
  Ok (MkRtlRunner c (replicate (Z.to_nat (btb_size c)) empty_rtl)
        (replicate (Z.to_nat (direction_table_size c)) 1) 0 zero_stats).

Definition get_direction_index (r : RtlModelRunner) (pc : Z) : res Z :=
  let history := if ghr_bits (config r) =? 0 then 0 else rtl_ghr r in
  vmod ((pc >>> 2) ^^^ history) (direction_table_size (config r)).

(** [for (i = 0; i < index_bits.size(); i++)] *)
Fixpoint index_loop (bits : list Z) (pc i result : Z) : Z :=
  match bits with
  | [] => result
  | b :: bits => index_loop bits pc (i + 1) (result ||| u32 (((pc >>> (2 + b)) &&& 1) <<< i))
  end.

Definition get_index (r : RtlModelRunner) (pc : Z) : Z :=
  match index_bits (config r) with
  | [] => (pc >>> 2) &&& (vsize (entries r) - 1)
  | bits => index_loop bits pc 0 0
  end.

(** A counter of two bits, moved one step. *)
Definition step_counter (counter : Z) (up : bool) : Z :=
  if up && negb (counter =? 3) then counter + 1
  else if negb up && negb (counter =? 0) then counter - 1
  else counter.

(** The prediction for [record]. *)
Record prediction := MkPrediction { p_hit : bool; p_taken : bool; p_pc : Z }.

Definition predict (r : RtlModelRunner) (old_entry : RtlBTBEntry) (record : btrace_record_t) : res prediction :=
  let hit := e_valid old_entry && (e_pc old_entry =? r_pc record) in
  branch_direction ←
    (if direction_table_size (config r) =? 0 then Ok (2 <=? direction_counter old_entry)
     else i ← get_direction_index r (r_pc record); c ← vget (direction_counters r) i; Ok (2 <=? c));
  let predicted_taken := hit && (e_is_jal old_entry || (e_is_branch old_entry && branch_direction)) in
  Ok (MkPrediction hit predicted_taken (if predicted_taken then e_target old_entry else u32 (r_pc record + 4))).

Definition bump (l : list Z) (i : Z) : list Z := aset l i (u64 (aget 0 l i + 1)).

Definition record_stats (kind : ControlKind) (p : prediction) (actual_taken is_wrong : bool) (s : RtlModelStats) : RtlModelStats :=
  let k := control_index kind in
  let t := u64 (st_total s + 1) in
  let tk := bump (total_by_kind s) k in
  if negb is_wrong then
    MkStats t (st_wrong s) (direction_wrong s) (target_wrong s) (no_prediction s) (skipped_not_taken_allocations s) tk (wrong_by_kind s)
  else
    let w := u64 (st_wrong s + 1) in
    let wk := bump (wrong_by_kind s) k in
    if negb (eqb (p_taken p) actual_taken) then
      MkStats t w (u64 (direction_wrong s + 1)) (target_wrong s) (no_prediction s) (skipped_not_taken_allocations s) tk wk
    else if p_taken p then
      MkStats t w (direction_wrong s) (u64 (target_wrong s + 1)) (no_prediction s) (skipped_not_taken_allocations s) tk wk
    else
      MkStats t w (direction_wrong s) (target_wrong s) (u64 (no_prediction s + 1)) (skipped_not_taken_allocations s) tk wk.

(** The separate direction table and the global history. *)
Definition train_direction (r : RtlModelRunner) (pc : Z) (incoming_is_branch actual_taken : bool) : res (list Z * Z) :=
  if incoming_is_branch && negb (direction_table_size (config r) =? 0) then
    i ← get_direction_index r pc;
    c ← vget (direction_counters r) i;
    counters ← vset (direction_counters r) i (step_counter c actual_taken);
    Ok (counters,
        if negb (ghr_bits (config r) =? 0) then push_history (rtl_ghr r) actual_taken (make_mask (ghr_bits (config r)))
        else rtl_ghr r)
  else Ok (direction_counters r, rtl_ghr r).

Definition count_skip (s : RtlModelStats) : RtlModelStats :=
  MkStats (st_total s) (st_wrong s) (direction_wrong s) (target_wrong s) (no_prediction s)
    (u64 (skipped_not_taken_allocations s + 1)) (total_by_kind s) (wrong_by_kind s).

Definition unprotect (e : RtlBTBEntry) : RtlBTBEntry :=
  MkRtl (e_pc e) (e_target e) (direction_counter e) (e_valid e) (e_is_jal e) (e_is_branch e) false.

(** The entry allocated for [record]. *)
Definition new_entry (old_entry : RtlBTBEntry) (record : btrace_record_t) (incoming_is_branch incoming_is_jal matching_branch actual_taken : bool)
    : res RtlBTBEntry :=
  let next_direction :=
    if incoming_is_branch then
      if negb matching_branch then (if actual_taken then 2 else 1) else step_counter (direction_counter old_entry) actual_taken
    else 0 in
  let d := decode_branch (r_pc record) (r_code record) in
  stored_target ←
    (if incoming_is_branch then _ ← c_assert (direct_target_valid d); Ok (direct_target d) else Ok (r_nxt_pc record));
  Ok (MkRtl (r_pc record) stored_target next_direction true incoming_is_jal incoming_is_branch incoming_is_jal).

(** [RtlModelRunner::process] *)
Definition rtl_process (record : btrace_record_t) (r : RtlModelRunner) : res RtlModelRunner :=
  kind ← get_control_kind (r_code record);
  let index := get_index r (r_pc record) in
  old_entry ← vget (entries r) index;
  p ← predict r old_entry record;
  let hit := p_hit p in
  let incoming_is_branch := bool_decide (kind = Branch) in
  let actual_taken := negb incoming_is_branch || negb (r_nxt_pc record =? u32 (r_pc record + 4)) in
  let is_wrong := negb (p_pc p =? r_nxt_pc record) in
  let s := record_stats kind p actual_taken is_wrong (stats r) in
  let incoming_is_jal := bool_decide (kind = Jal) || bool_decide (kind = Ret) in
  let matching_branch := hit && e_is_branch old_entry && incoming_is_branch in
  '(counters, h) ← train_direction r (r_pc record) incoming_is_branch actual_taken;
  let policy := allocation_policy (config r) in
  let skip_conflicting_not_taken :=
    negb (bool_decide (policy = Always)) && incoming_is_branch && negb actual_taken && negb matching_branch in
  let protect_jal :=
    bool_decide (policy = ProtectJalFromBranches) && incoming_is_branch && negb hit && e_valid old_entry && e_is_jal old_entry in
  let give_jal_second_chance :=
    bool_decide (policy = SecondChanceJal) && incoming_is_branch && negb hit && e_valid old_entry && e_is_jal old_entry &&
    jal_protected old_entry in
  let skip_allocation := skip_conflicting_not_taken || protect_jal || give_jal_second_chance in
  if skip_allocation then
    es ← (if give_jal_second_chance then vset (entries r) index (unprotect old_entry) else Ok (entries r));
    Ok (MkRtlRunner (config r) es counters h (count_skip s))
  else
    e ← new_entry old_entry record incoming_is_branch incoming_is_jal matching_branch actual_taken;
    es ← vset (entries r) index e;
    Ok (MkRtlRunner (config r) es counters h s).

(** ** The main program *)

Definition kDefaultBTBSize : Z := 16.
Definition kDefaultGHRBits : Z := 10.
Definition kDefaultLocalHistoryBits : Z := 4.

Fixpoint res_all {A} (l : list (res A)) : res (list A) :=
  match l with [] => Ok [] | x :: l => x ← x; l ← res_all l; Ok (x :: l) end.

(** The algorithms of one table size. *)
Definition algorithms_of (table_size : Z) : list (res AlgoConfig) :=
  [Ok (make_btfn_algo table_size);
   make_two_bit_algo table_size table_size;
   make_gshare_algo table_size table_size kDefaultGHRBits true;
   make_gshare_algo table_size table_size kDefaultGHRBits false;
   make_local_algo table_size table_size kDefaultLocalHistoryBits table_size true;
   make_local_algo table_size table_size kDefaultLocalHistoryBits table_size false;
   make_local_gshare_tournament_algo table_size table_size kDefaultLocalHistoryBits table_size table_size kDefaultGHRBits].

Definition algorithms (rtl_only : bool) : res (list AlgoConfig) :=
  if rtl_only then Ok [] else res_all (flat_map algorithms_of [kDefaultBTBSize; 32; 64; 128]).

Definition to_string (n : Z) : String.string := pretty n.
Infix "+:+" := String.app (at level 60, right associativity).

Definition fixed_rtl_configs : list RtlModelConfig :=
  [MkRtlConfig "rtl-current" 32 Always [] 0 0;
   MkRtlConfig "rtl-skip-conflicting-not-taken" 32 SkipConflictingNotTaken [] 0 0;
   MkRtlConfig "rtl-current-capacity-64" 64 Always [] 0 0;
   MkRtlConfig "rtl-skip-conflicting-not-taken-capacity-64" 64 SkipConflictingNotTaken [] 0 0;
   MkRtlConfig "rtl-protect-jal-from-branches-capacity-64" 64 ProtectJalFromBranches [] 0 0;
   MkRtlConfig "rtl-second-chance-jal-capacity-64" 64 SecondChanceJal [] 0 0] ++
  ((fun n => MkRtlConfig ("rtl-independent-bimodal-" +:+ to_string n +:+ "-capacity-64") 64 SkipConflictingNotTaken [] n 0)
    <$> [32; 64; 128; 256]) ++
  ((fun n => MkRtlConfig ("rtl-independent-gshare-" +:+ to_string n +:+ "-capacity-64") 64 SkipConflictingNotTaken [] n 10)
    <$> [32; 64; 128; 256]) ++
  [MkRtlConfig "rtl-current-capacity-128" 128 Always [] 0 0;
   MkRtlConfig "rtl-skip-conflicting-not-taken-capacity-128" 128 SkipConflictingNotTaken [] 0 0].

(** Sorting, lexicographically for vectors, and removing neighbours that are equal. *)
Fixpoint insert_sorted {A} (le : A -> A -> bool) (x : A) (l : list A) : list A :=
  match l with [] => [x] | y :: l => if le x y then x :: y :: l else y :: insert_sorted le x l end.
Definition sort {A} (le : A -> A -> bool) (l : list A) : list A := foldr (insert_sorted le) [] l.

Fixpoint lex_le (a b : list Z) : bool :=
  match a, b with
  | [], _ => true
  | _, [] => false
  | x :: a, y :: b => (x <? y) || ((x =? y) && lex_le a b)
  end.

Fixpoint unique (l : list (list Z)) : list (list Z) :=
  match l with
  | [] => []
  | x :: l => match l with y :: _ => if bool_decide (x = y) then unique l else x :: unique l | [] => [x] end
  end.

Definition mappings : list (list Z) :=
  unique (sort lex_le
    (flat_map (fun replaced => (fun high => sort Z.leb (aset [0; 1; 2; 3; 4] replaced high)) <$> seqZ 5 10) (seqZ 0 5) ++
     ((fun first => [first; first + 1; first + 2; first + 3; first + 4]) <$> seqZ 1 10))).

Definition suffix (bits : list Z) : String.string :=
  foldl (fun s bit => (if bool_decide (s = "") then s else s +:+ "_") +:+ to_string bit) "" bits.

Definition searched_rtl_configs : list RtlModelConfig :=
  flat_map (fun bits =>
    [MkRtlConfig ("rtl-index-" +:+ suffix bits) 32 Always bits 0 0;
     MkRtlConfig ("rtl-skip-not-taken-index-" +:+ suffix bits) 32 SkipConflictingNotTaken bits 0 0]) mappings.

Definition rtl_configs (rtl_index_search : bool) : list RtlModelConfig :=
  fixed_rtl_configs ++ (if rtl_index_search then searched_rtl_configs else []).

Definition runners := (list AlgoRunner * list RtlModelRunner)%type.

Definition make_runners (rtl_only rtl_index_search : bool) : res runners :=
  algos ← algorithms rtl_only;
  rs ← res_all (AlgoRunner_init <$> algos);
  rtls ← res_all (RtlModelRunner_init <$> rtl_configs rtl_index_search);
  Ok (rs, rtls).

(** The body of the loop over the trace. *)
Definition process_record (record : btrace_record_t) (st : runners) : res runners :=
  rs ← res_all (algo_process record <$> st.1);
  rtls ← res_all (rtl_process record <$> st.2);
  Ok (rs, rtls).

(** [main] after the command line, up to the reports; [None] when the trace cannot be opened. *)
Definition branchsim_main (file popen : list Z -> option (list Z)) (rtl_only rtl_index_search : bool) (trace_path : list Z)
    : res (option runners) :=
  st ← make_runners rtl_only rtl_index_search;
  match open_trace file popen trace_path with
  | None => Ok None
  | Some pack => Some <$> pick_loop process_record (picks pack) pack st
  end.

(** 59 of the 60 candidate mappings are different. *)
Example mappings_count : length mappings = 59%nat /\ Forall (fun bits => length bits = 5%nat) mappings.
Proof. vm_compute. split; [reflexivity | repeat constructor]. Qed.
