(* ===== verification/BranchSimCorrect.v ===== *)
(** Correctness of the branch-prediction simulator (BranchSim): no run goes wrong, the
    statistics are consistent, the hardware models agree with those of the emulator's
    profiler, and a steady branch is learned. *)

From S2P Require Import Prelude TracePack ProfileCache BranchSim.

#[local] Open Scope cint_scope.

(** ** Vectors *)

Lemma vmod_ok i n : 0 < n -> vmod i n = Ok (i mod n).
Proof. intros. unfold vmod. by rewrite (proj2 (Z.eqb_neq n 0)) by lia. Qed.

Lemma vget_ok {A} (P : A -> Prop) (v : list A) i :
  Forall P v -> 0 <= i < vsize v -> exists x, vget v i = Ok x /\ P x /\ v !! Z.to_nat i = Some x.
Proof.
  intros Hv Hi. unfold vsize in Hi. destruct (lookup_lt_is_Some_2 v (Z.to_nat i)) as [x Ex]; [lia |].
  exists x. unfold vget. rewrite Ex. split_and!; [done | | done]. by apply (Forall_lookup_1 _ _ _ _ Hv Ex).
Qed.

Lemma vset_ok {A} (v : list A) i x : i < vsize v -> vset v i x = Ok (aset v i x).
Proof. intros. unfold vset. by rewrite (proj2 (Z.ltb_lt _ _)). Qed.

Lemma vsize_aset {A} (v : list A) i x : vsize (aset v i x) = vsize v.
Proof. unfold vsize. by rewrite length_aset. Qed.

Lemma mod_index i n : 0 < n -> 0 <= i mod n < n.
Proof. intros. apply Z.mod_pos_bound. lia. Qed.

(** ** Counter tables *)

Definition counter_ok (c : Z) : Prop := 0 <= c <= 3.
Definition table_ok (l : list Z) : Prop := Forall counter_ok l /\ 0 < vsize l.

Lemma prefer_high_ok l i : table_ok l -> 0 <= i < vsize l -> exists b, CounterTable.prefer_high l i = Ok b.
Proof.
  intros [Hl _] Hi. unfold CounterTable.prefer_high. destruct (vget_ok _ l i Hl Hi) as (c & -> & _). by eexists.
Qed.

Lemma counter_update_ok l i b :
  table_ok l -> 0 <= i < vsize l -> exists l', CounterTable.update l i b = Ok l' /\ table_ok l' /\ vsize l' = vsize l.
Proof.
  intros [Hl Hs] Hi. unfold CounterTable.update. destruct (vget_ok _ l i Hl Hi) as (c & -> & Hc & _). cbn [mbind res_bind].
  assert (forall c', counter_ok c' -> exists l', vset l i c' = Ok l' /\ table_ok l' /\ vsize l' = vsize l) as H.
  { intros c' Hc'. rewrite vset_ok by lia. eexists. split; [done |]. unfold table_ok. rewrite vsize_aset.
    split; [| done]. split; [by apply aset_Forall | done]. }
  unfold counter_ok in *. destruct b; [destruct (Z.ltb_spec c 3) | destruct (Z.ltb_spec 0 c)];
    first [apply H; lia | by exists l].
Qed.

Lemma table_replicate n c : counter_ok c -> 0 < n -> table_ok (replicate (Z.to_nat n) c).
Proof. intros Hc Hn. split; [by apply Forall_replicate |]. unfold vsize. rewrite length_replicate. lia. Qed.

Lemma single_bit_pos n : has_single_bit n = true -> 0 < n.
Proof. unfold has_single_bit. intros H. apply andb_prop in H as [H _]. by apply Z.ltb_lt. Qed.

Lemma counter_init_ok n c l : CounterTable.init n c = Ok l -> 0 <= c -> table_ok l.
Proof.
  unfold CounterTable.init. intros E Hc. apply bind_ok in E as (u & E1 & E). apply bind_ok in E as (u' & E2 & [= <-]).
  unfold c_assert in *. destruct (has_single_bit n) eqn:Hn; [| done]. destruct (Z.leb_spec c 3); [| done].
  apply table_replicate; [unfold counter_ok; lia | by apply single_bit_pos].
Qed.

(** ** Predictors *)

Definition gshare_ok (p : GSharePredictor) : Prop := table_ok (g_pht p).
Definition local_ok (p : LocalPredictor) : Prop := table_ok (l_pht p) /\ 0 < vsize (local_histories p).
Definition tournament_ok (p : LocalGlobalTournamentPredictor) : Prop :=
  local_ok (local_ p) /\ gshare_ok (gshare_ p) /\ table_ok (chooser_ p).

Definition predictor_ok (c : predictor) : Prop :=
  match c with
  | Btfn => True
  | TwoBit bht => table_ok bht
  | GShareP _ p => gshare_ok p
  | LocalP _ p => local_ok p
  | TournamentP p => tournament_ok p
  end.

Lemma gshare_predict_ok p pc : gshare_ok p -> exists b, GShare.predict_taken p pc = Ok b.
Proof.
  intros [Hl Hs]. unfold GShare.predict_taken, GShare.get_index. rewrite vmod_ok by done. cbn [mbind res_bind].
  apply prefer_high_ok; [done | by apply mod_index].
Qed.

Lemma gshare_update_ok p pc t : gshare_ok p -> exists p', GShare.update p pc t = Ok p' /\ gshare_ok p'.
Proof.
  intros Hp. pose proof Hp as [_ Hs]. unfold GShare.update, GShare.get_index. rewrite vmod_ok by done. cbn [mbind res_bind].
  match goal with |- context [CounterTable.update _ ?i ?b] => destruct (counter_update_ok (g_pht p) i b Hp) as (l' & -> & Hl & _) end;
    [by apply mod_index |]. by eexists.
Qed.

Lemma local_index_ok p pc :
  local_ok p -> exists i, Local.get_pht_index p pc = Ok i /\ 0 <= i < vsize (l_pht p).
Proof.
  intros [[_ Hs] Hh]. unfold Local.get_pht_index, Local.get_history_index. rewrite vmod_ok by done. cbn [mbind res_bind].
  destruct (vget_ok (fun _ => True) (local_histories p) ((pc >>> 2) mod vsize (local_histories p))) as (h & -> & _);
    [by apply Forall_true | by apply mod_index |].
  cbn [mbind res_bind]. rewrite vmod_ok by done. eexists. split; [done | by apply mod_index].
Qed.

Lemma local_predict_ok p pc : local_ok p -> exists b, Local.predict_taken p pc = Ok b.
Proof.
  intros Hp. unfold Local.predict_taken. destruct (local_index_ok p pc Hp) as (i & -> & Hi). cbn [mbind res_bind].
  by apply prefer_high_ok; [apply Hp |].
Qed.

Lemma local_update_ok p pc t : local_ok p -> exists p', Local.update p pc t = Ok p' /\ local_ok p'.
Proof.
  intros Hp. pose proof Hp as [Ht Hh]. unfold Local.update. destruct (local_index_ok p pc Hp) as (i & -> & Hi). cbn [mbind res_bind].
  destruct (counter_update_ok (l_pht p) i t Ht Hi) as (l' & -> & Hl & _). cbn [mbind res_bind].
  unfold Local.get_history_index. rewrite vmod_ok by done. cbn [mbind res_bind].
  destruct (vget_ok (fun _ => True) (local_histories p) ((pc >>> 2) mod vsize (local_histories p))) as (h & -> & _);
    [by apply Forall_true | by apply mod_index |].
  cbn [mbind res_bind]. rewrite vset_ok by (by apply mod_index). eexists. split; [done |].
  split; [done |]. cbn [local_histories]. by rewrite vsize_aset.
Qed.

Lemma tournament_predict_ok p pc : tournament_ok p -> exists b, Tournament.predict_taken p pc = Ok b.
Proof.
  intros (Hl & Hg & Hc). unfold Tournament.predict_taken.
  destruct (local_predict_ok _ pc Hl) as (b1 & ->), (gshare_predict_ok _ pc Hg) as (b2 & ->). cbn [mbind res_bind].
  unfold Tournament.get_chooser_index. rewrite vmod_ok by apply Hc. cbn [mbind res_bind].
  destruct (prefer_high_ok (chooser_ p) ((pc >>> 2) mod vsize (chooser_ p)) Hc) as (b3 & ->); [apply mod_index, Hc |]. by eexists.
Qed.

Lemma tournament_update_ok p pc t : tournament_ok p -> exists p', Tournament.update p pc t = Ok p' /\ tournament_ok p'.
Proof.
  intros (Hl & Hg & Hc). unfold Tournament.update, Tournament.get_chooser_index. rewrite vmod_ok by apply Hc. cbn [mbind res_bind].
  destruct (local_predict_ok _ pc Hl) as (b1 & ->), (gshare_predict_ok _ pc Hg) as (b2 & ->). cbn [mbind res_bind].
  set (i := (pc >>> 2) mod vsize (chooser_ p)). assert (0 <= i < vsize (chooser_ p)) as Hi by apply mod_index, Hc.
  assert (exists c', (if negb (eqb b1 b2) then if eqb b2 t then CounterTable.update (chooser_ p) i true
      else if eqb b1 t then CounterTable.update (chooser_ p) i false else Ok (chooser_ p) else Ok (chooser_ p)) = Ok c' /\ table_ok c') as (c' & -> & Hc').
  { destruct (counter_update_ok _ i true Hc Hi) as (l1 & E1 & ? & _), (counter_update_ok _ i false Hc Hi) as (l2 & E2 & ? & _).
    rewrite E1, E2. destruct (negb _), (eqb b2 t), (eqb b1 t); by eexists. }
  cbn [mbind res_bind]. destruct (local_update_ok _ pc t Hl) as (l' & -> & ?), (gshare_update_ok _ pc t Hg) as (g' & -> & ?).
  by eexists.
Qed.

Lemma predict_taken_ok c ctx : predictor_ok c -> exists b, predict_taken c ctx = Ok b.
Proof.
  intros Hc. destruct c as [| bht | d p | d p | p]; cbn [predict_taken predictor_ok] in *; [by eexists | | | |].
  - unfold predict_two_bit. destruct (is_jal _); [by eexists |]. destruct (negb _); [by eexists |].
    rewrite vmod_ok by apply Hc. cbn [mbind res_bind]. apply prefer_high_ok; [done | apply mod_index, Hc].
  - unfold predict_gshare, and_then. destruct (gshare_predict_ok p (c_pc ctx) Hc) as (b & ->).
    repeat case_match; by eexists.
  - unfold predict_local, and_then. destruct (local_predict_ok p (c_pc ctx) Hc) as (b & ->).
    repeat case_match; by eexists.
  - unfold predict_tournament. destruct (tournament_predict_ok p (c_pc ctx) Hc) as (b & ->).
    repeat case_match; by eexists.
Qed.

Lemma learn_ok c pc t : predictor_ok c -> exists c', learn c pc t = Ok c' /\ predictor_ok c'.
Proof.
  intros Hc. destruct c as [| bht | d p | d p | p]; cbn [learn predictor_ok] in *; [by exists Btfn | | | |].
  - rewrite vmod_ok by apply Hc. cbn [mbind res_bind].
    destruct (counter_update_ok bht ((pc >>> 2) mod vsize bht) t Hc) as (l' & -> & ? & _); [apply mod_index, Hc |]. by eexists.
  - destruct (gshare_update_ok p pc t Hc) as (p' & -> & ?). by eexists.
  - destruct (local_update_ok p pc t Hc) as (p' & -> & ?). by eexists.
  - destruct (tournament_update_ok p pc t Hc) as (p' & -> & ?). by eexists.
Qed.

(** ** Algorithm runners *)

Record algo_ok (n : Z) (r : AlgoRunner) : Prop := {
  ao_closures : predictor_ok (closures (algo r));
  ao_btb : 0 < vsize (btb r);
  ao_total : total r = n;
  ao_wrong : 0 <= wrong r <= n }.

Lemma algo_process_ok n rec r :
  algo_ok n r -> 0 <= n -> n + 1 < 2 ^ 64 -> exists r', algo_process rec r = Ok r' /\ algo_ok (n + 1) r'.
Proof.
  intros [Hc Hb Ht Hw] Hn Hmax. unfold algo_process, BTB.query, BTB.get_index. rewrite vmod_ok by done. cbn [mbind res_bind].
  destruct (vget_ok (fun _ => True) (btb r) ((r_pc rec >>> 2) mod vsize (btb r))) as (e & -> & _);
    [by apply Forall_true | by apply mod_index |]. cbn [mbind res_bind].
  set (ctx := MkContext _ _ _ _). destruct (predict_taken_ok _ ctx Hc) as (b & ->). cbn [mbind res_bind].
  unfold update. set (t := negb (r_nxt_pc rec =? _)).
  assert (exists c', (if is_conditional (decoded ctx) then learn (closures (algo r)) (c_pc ctx) t else Ok (closures (algo r))) = Ok c' /\ predictor_ok c')
    as (c' & -> & Hc') by (destruct (is_conditional _); [by apply learn_ok | by eexists]).
  cbn [mbind res_bind]. unfold default_update, BTB.update, BTB.get_index. rewrite vmod_ok by done. cbn [mbind res_bind c_pc ctx].
  rewrite vset_ok by (by apply mod_index).
  assert (exists b', (if t then Ok (aset (btb r) ((r_pc rec >>> 2) mod vsize (btb r)) (MkBTBEntry (BTB.get_tag (btb r) (r_pc rec)) (r_nxt_pc rec) (is_jal (decoded ctx)) true))
      else Ok (btb r)) = Ok b' /\ vsize b' = vsize (btb r)) as (b' & -> & Hb')
    by (destruct t; eexists; split; [done | by rewrite ?vsize_aset | done | done]).
  cbn [mbind res_bind]. eexists. split; [done |]. split; cbn [closures algo with_closures btb total wrong]; [done | by rewrite Hb' | |].
  - rewrite Ht. apply wrap_small. unfold in_range. lia.
  - match goal with |- context [b2z ?x] => destruct x end; cbn [b2z Z.b2z]; rewrite wrap_small by (unfold in_range; lia); lia.
Qed.

(** ** Hardware models: indices *)

Lemma land_bound a b : 0 <= b -> 0 <= (a &&& b) <= b.
Proof.
  intros Hb. split; [apply Z.land_nonneg; by right |].
  assert (Z.ldiff (a &&& b) b = 0) as H0.
  { apply Z.bits_inj'. intros i Hi. rewrite Z.ldiff_spec, Z.land_spec, Z.bits_0. by destruct (Z.testbit a i), (Z.testbit b i). }
  pose proof (Z.sub_nocarry_ldiff b (a &&& b) H0). pose proof (proj2 (Z.ldiff_nonneg b (a &&& b)) (or_introl Hb)). lia.
Qed.

Lemma index_loop_range bits : forall pc i result,
  0 <= i -> in_range i result -> in_range (i + Z.of_nat (length bits)) (index_loop bits pc i result).
Proof.
  induction bits as [|b bits IH]; intros pc i result Hi Hr; cbn [index_loop length].
  { by rewrite Z.add_0_r. }
  replace (i + Z.of_nat (S (length bits))) with (i + 1 + Z.of_nat (length bits)) by lia. apply IH; [lia |].
  assert (2 ^ (i + 1) = 2 * 2 ^ i) as Hp by (rewrite Z.pow_add_r by lia; lia).
  apply lor_range; [lia | unfold in_range in *; lia |].
  pose proof (land_bound (pc >>> (2 + b)) 1 ltac:(lia)) as Hb. set (x := (pc >>> (2 + b)) &&& 1) in *.
  rewrite Z.shiftl_mul_pow2 by lia. unfold in_range, wrap. assert (0 <= x * 2 ^ i <= 2 ^ i) as Hx by (unfold in_range in Hr; nia).
  pose proof (Z.mod_le (x * 2 ^ i) (2 ^ 32)). pose proof (Z.mod_pos_bound (x * 2 ^ i) (2 ^ 32)). lia.
Qed.

Record rtl_config_ok (c : RtlModelConfig) : Prop := {
  co_size : 0 < btb_size c;
  co_bits : 2 ^ Z.of_nat (length (index_bits c)) <= btb_size c;
  co_direction : 0 <= direction_table_size c }.

Record entry_ok (e : RtlBTBEntry) : Prop := {
  eo_counter : counter_ok (direction_counter e);
  eo_pc : in_range 32 (e_pc e);
  eo_target : in_range 32 (e_target e);
  eo_kind : e_is_jal e && e_is_branch e = false }.

(** The tables of a hardware model. *)
Record rtl_ok (r : RtlModelRunner) : Prop := {
  ro_config : rtl_config_ok (config r);
  ro_entries : Forall entry_ok (entries r);
  ro_size : vsize (entries r) = btb_size (config r);
  ro_counters : Forall counter_ok (direction_counters r);
  ro_counters_size : vsize (direction_counters r) = direction_table_size (config r);
  ro_ghr : in_range 32 (rtl_ghr r) }.

Lemma get_index_range r pc : rtl_ok r -> 0 <= get_index r pc < vsize (entries r).
Proof.
  intros [[Hs Hb _] _ Hn _ _]. unfold get_index. destruct (index_bits (config r)) as [|b bits] eqn:E.
  - pose proof (land_bound (pc >>> 2) (vsize (entries r) - 1)). lia.
  - pose proof (index_loop_range (b :: bits) pc 0 0 ltac:(lia) ltac:(done)) as H. unfold in_range in H. rewrite Z.add_0_l in H. lia.
Qed.

Lemma get_direction_index_ok r pc :
  rtl_ok r -> direction_table_size (config r) <> 0 ->
  exists i c, get_direction_index r pc = Ok i /\ 0 <= i < vsize (direction_counters r) /\
    vget (direction_counters r) i = Ok c /\ counter_ok c.
Proof.
  intros [[_ _ Hd] _ _ Hc Hs _] Hne. unfold get_direction_index. rewrite vmod_ok by lia.
  assert (0 <= ((pc >>> 2) ^^^ (if ghr_bits (config r) =? 0 then 0 else rtl_ghr r)) mod direction_table_size (config r) < vsize (direction_counters r)) as Hi
    by (rewrite Hs; apply mod_index; lia).
  destruct (vget_ok _ _ _ Hc Hi) as (c & E & Hcc & _). by eexists _, c.
Qed.

(** What a record does, apart from the statistics: the prediction, the new tables. *)
Lemma predict_ok r e rec :
  rtl_ok r -> exists p, predict r e rec = Ok p /\ p_hit p = e_valid e && (e_pc e =? r_pc rec) /\
    (p_taken p = true -> p_hit p = true /\ p_pc p = e_target e) /\ (p_taken p = false -> p_pc p = u32 (r_pc rec + 4)).
Proof.
  intros Hr. unfold predict.
  assert (exists d, (if direction_table_size (config r) =? 0 then Ok (2 <=? direction_counter e)
     else i ← get_direction_index r (r_pc rec); c ← vget (direction_counters r) i; Ok (2 <=? c)) = Ok d) as (d & ->).
  { destruct (Z.eqb_spec (direction_table_size (config r)) 0) as [|Hne]; [by eexists |].
    destruct (get_direction_index_ok r (r_pc rec) Hr Hne) as (i & c & -> & _ & E & _). cbn [mbind res_bind]. rewrite E. by eexists. }
  cbn [mbind res_bind]. eexists. split; [done |]. cbn [p_hit p_taken p_pc]. destruct (_ && (e_is_jal e || _)) eqn:E; [| done].
  apply andb_prop in E as [E _]. done.
Qed.

Lemma step_counter_ok c up : counter_ok c -> counter_ok (step_counter c up).
Proof. unfold counter_ok, step_counter. intros. destruct up; cbn [andb negb]; zcmp. Qed.

Lemma push_history_range h t mask : in_range 32 mask -> in_range 32 (push_history h t mask).
Proof. intros [H1 H2]. unfold push_history. pose proof (land_bound (u32 (h <<< 1) ||| b2z t) mask H1). unfold in_range. lia. Qed.

Lemma make_mask_range bits : in_range 32 (make_mask bits).
Proof. unfold make_mask. destruct (_ <=? _); [done | apply wrap_range; lia]. Qed.

Lemma train_direction_ok r pc b t :
  rtl_ok r -> exists cs h, train_direction r pc b t = Ok (cs, h) /\ Forall counter_ok cs /\
    vsize cs = direction_table_size (config r) /\ in_range 32 h.
Proof.
  intros Hr. unfold train_direction. destruct (b && _) eqn:E; [| by eexists _, _; destruct Hr].
  apply andb_prop in E as [_ E]. apply negb_true_iff, Z.eqb_neq in E.
  destruct (get_direction_index_ok r pc Hr E) as (i & c & -> & Hi & Ec & Hc). cbn [mbind res_bind]. rewrite Ec. cbn [mbind res_bind].
  rewrite vset_ok by lia. cbn [mbind res_bind]. eexists _, _. split; [done |]. destruct Hr. rewrite vsize_aset. split_and!; [| done |].
  - apply aset_Forall; [by apply step_counter_ok | done].
  - destruct (negb _); [apply push_history_range, make_mask_range | done].
Qed.

(** The instructions that belong into a branch trace. *)
Definition is_control (code : Z) : bool := is_conditional_branch code || is_jal_code code || is_jalr code.

Definition kind_of_code (code : Z) : ControlKind :=
  if is_conditional_branch code then Branch else if is_jal_code code then Jal else if is_exact_ret code then Ret else Jalr.

Lemma get_control_kind_ok code : get_control_kind code = if is_control code then Ok (kind_of_code code) else Fault FAssert.
Proof.
  unfold get_control_kind, is_control, kind_of_code. destruct (is_conditional_branch code), (is_jal_code code); try done.
  destruct (is_exact_ret code) eqn:E; cbn [orb].
  - unfold is_exact_ret in E. apply Z.eqb_eq in E as ->. done.
  - by destruct (is_jalr code).
Qed.

Lemma decode_branch_target pc code :
  kind_of_code code = Branch -> decode_branch pc code = MkDecoded true (is_jal_code code) true (u32 (pc + get_b_imm code)).
Proof. unfold kind_of_code, decode_branch. destruct (is_conditional_branch code); [done |]. by repeat case_match. Qed.

Lemma new_entry_ok old rec b j m t :
  (b = true -> kind_of_code (r_code rec) = Branch) -> (b && j = false) -> record_ok rec -> entry_ok old ->
  exists e, new_entry old rec b j m t = Ok e /\ entry_ok e /\
    e = MkRtl (r_pc rec) (if b then u32 (r_pc rec + get_b_imm (r_code rec)) else r_nxt_pc rec)
      (if b then if negb m then if t then 2 else 1 else step_counter (direction_counter old) t else 0) true j b j.
Proof.
  intros Hb Hj (H1 & H2 & H3) Ho. unfold new_entry. destruct b.
  - rewrite decode_branch_target by auto. cbn [direct_target_valid c_assert mbind res_bind direct_target]. eexists. split; [done |].
    split; [| done]. split; cbn [direction_counter e_pc e_target e_is_jal e_is_branch]; [| done | apply wrap_range; lia | by rewrite andb_comm].
    destruct (negb m), t; [done | done | apply step_counter_ok, Ho..].
  - cbn [mbind res_bind]. eexists. split; [done |]. split; [| done]. split; cbn; [unfold counter_ok; lia | done | done | by rewrite andb_false_r].
Qed.

(** ** Hardware models: one record *)

Section record.
  Context (rec : btrace_record_t).

Definition rec_branch : bool := bool_decide (kind_of_code (r_code rec) = Branch).
Definition rec_jal : bool := bool_decide (kind_of_code (r_code rec) = Jal) || bool_decide (kind_of_code (r_code rec) = Ret).
Definition rec_taken : bool := negb rec_branch || negb (r_nxt_pc rec =? u32 (r_pc rec + 4)).

(** The entry that replaces [old]. *)
Definition allocated (old : RtlBTBEntry) (hit : bool) : RtlBTBEntry :=
  MkRtl (r_pc rec) (if rec_branch then u32 (r_pc rec + get_b_imm (r_code rec)) else r_nxt_pc rec)
    (if rec_branch then if negb (hit && e_is_branch old && rec_branch) then if rec_taken then 2 else 1
     else step_counter (direction_counter old) rec_taken else 0) true rec_jal rec_branch rec_jal.

Definition second_chance (policy : RtlAllocationPolicy) (old : RtlBTBEntry) (hit : bool) : bool :=
  bool_decide (policy = SecondChanceJal) && rec_branch && negb hit && e_valid old && e_is_jal old && jal_protected old.

Definition skipped (policy : RtlAllocationPolicy) (old : RtlBTBEntry) (hit : bool) : bool :=
  (negb (bool_decide (policy = Always)) && rec_branch && negb rec_taken && negb (hit && e_is_branch old && rec_branch)) ||
  (bool_decide (policy = ProtectJalFromBranches) && rec_branch && negb hit && e_valid old && e_is_jal old) ||
  second_chance policy old hit.

(** The entry after the record. *)
Definition entry_after (policy : RtlAllocationPolicy) (old : RtlBTBEntry) (hit : bool) : RtlBTBEntry :=
  if skipped policy old hit then if second_chance policy old hit then unprotect old else old else allocated old hit.

Definition stats_after (policy : RtlAllocationPolicy) (old : RtlBTBEntry) (p : prediction) (s : RtlModelStats) : RtlModelStats :=
  let s := record_stats (kind_of_code (r_code rec)) p rec_taken (negb (p_pc p =? r_nxt_pc rec)) s in
  if skipped policy old (p_hit p) then count_skip s else s.

Lemma allocated_ok old hit : record_ok rec -> entry_ok old -> entry_ok (allocated old hit).
Proof.
  intros Hr Ho. destruct (new_entry_ok old rec rec_branch rec_jal (hit && e_is_branch old && rec_branch) rec_taken) as (e & _ & He & ->);
    [by intros H; apply bool_decide_eq_true in H | | done | done | done].
  unfold rec_branch, rec_jal. by destruct (kind_of_code (r_code rec)).
Qed.

Lemma entry_after_ok policy old hit : record_ok rec -> entry_ok old -> entry_ok (entry_after policy old hit).
Proof.
  intros Hr Ho. unfold entry_after. destruct (skipped _ _ _); [| by apply allocated_ok]. destruct (second_chance _ _ _); [| done].
  by destruct Ho.
Qed.

(** [rtl_process] on a control instruction. *)
Lemma rtl_process_spec r :
  rtl_ok r -> record_ok rec -> is_control (r_code rec) = true ->
  exists old p cs h,
    entries r !! Z.to_nat (get_index r (r_pc rec)) = Some old /\ entry_ok old /\ predict r old rec = Ok p /\
    Forall counter_ok cs /\ vsize cs = direction_table_size (config r) /\ in_range 32 h /\
    let hit := p_hit p in let policy := allocation_policy (config r) in
    rtl_process rec r = Ok (MkRtlRunner (config r) (aset (entries r) (get_index r (r_pc rec)) (entry_after policy old hit))
      cs h (stats_after policy old p (stats r))).
Proof.
  intros Hr Hrec Hc. pose proof (get_index_range r (r_pc rec) Hr) as Hi.
  destruct (vget_ok entry_ok (entries r) _ (ro_entries r Hr) Hi) as (old & Eo & Ho & El).
  destruct (predict_ok r old rec Hr) as (p & Ep & Hhit & _).
  destruct (train_direction_ok r (r_pc rec) rec_branch rec_taken Hr) as (cs & h & Et & Hcs & Hvs & Hh).
  exists old, p, cs, h. do 3 (split; [done |]). do 3 (split; [done |]). cbv zeta.
  unfold rtl_process. rewrite get_control_kind_ok, Hc. cbn [mbind res_bind]. rewrite Eo. cbn [mbind res_bind]. rewrite Ep. cbn [mbind res_bind].
  fold rec_branch. fold rec_taken. fold rec_jal. rewrite Et. cbn [mbind res_bind].
  fold (second_chance (allocation_policy (config r)) old (p_hit p)). fold (skipped (allocation_policy (config r)) old (p_hit p)).
  unfold stats_after, entry_after. destruct (skipped _ old (p_hit p)).
  - destruct (second_chance _ old (p_hit p)); [by rewrite vset_ok by lia |]. cbn [mbind res_bind]. do 2 f_equal.
    symmetry. apply list_insert_id. done.
  - destruct (new_entry_ok old rec rec_branch rec_jal (p_hit p && e_is_branch old && rec_branch) rec_taken) as (e & -> & _ & ->);
      [by intros H; apply bool_decide_eq_true in H | unfold rec_branch, rec_jal; by destruct (kind_of_code (r_code rec)) | done | done |].
    cbn [mbind res_bind]. by rewrite vset_ok by lia.
Qed.

Lemma rtl_process_ok r :
  rtl_ok r -> record_ok rec -> is_control (r_code rec) = true ->
  exists r', rtl_process rec r = Ok r' /\ rtl_ok r' /\ config r' = config r.
Proof.
  intros Hr Hrec Hc. destruct (rtl_process_spec r Hr Hrec Hc) as (old & p & cs & h & _ & Ho & _ & Hcs & Hvs & Hh & E).
  eexists. split; [exact E |]. split; [| done]. destruct Hr as [Hco He Hs _ _ _]. split; cbn [config entries direction_counters rtl_ghr]; try done.
  - apply aset_Forall; [by apply entry_after_ok | done].
  - by rewrite vsize_aset.
Qed.
End record.

(** ** Hardware models: statistics *)

Definition sum (l : list Z) : Z := foldr Z.add 0 l.

Lemma sum_aset l i v : 0 <= i < vsize l -> sum (aset l i v) = sum l - aget 0 l i + v.
Proof.
  unfold vsize. revert i. induction l as [|x l IH]; intros i Hi; [cbn in Hi; lia |]. cbn [length] in Hi.
  unfold aset, aget. destruct (Z.to_nat i) as [|k] eqn:E.
  { cbn. lia. }
  change (sum (<[S k:=v]> (x :: l))) with (x + sum (<[k:=v]> l)). change (sum (x :: l)) with (x + sum l). cbn [nth].
  specialize (IH (Z.of_nat k) ltac:(lia)). unfold aset, aget in IH. rewrite Nat2Z.id in IH. lia.
Qed.

(** The statistics after [n] records. *)
Record stats_ok (n : Z) (s : RtlModelStats) : Prop := {
  so_total : st_total s = n;
  so_wrong : st_wrong s = direction_wrong s + target_wrong s;
  so_none : no_prediction s = 0;
  so_nonneg : 0 <= direction_wrong s /\ 0 <= target_wrong s /\ 0 <= skipped_not_taken_allocations s <= n;
  so_le : st_wrong s <= n;
  so_sizes : vsize (total_by_kind s) = 4 /\ vsize (wrong_by_kind s) = 4;
  so_kinds : forall i, 0 <= i < 4 -> 0 <= aget 0 (wrong_by_kind s) i <= aget 0 (total_by_kind s) i /\ aget 0 (total_by_kind s) i <= n;
  so_sums : sum (total_by_kind s) = n /\ sum (wrong_by_kind s) = st_wrong s }.

Lemma control_index_range k : 0 <= control_index k < 4.
Proof. by destruct k. Qed.

Lemma bump_get l i j n :
  vsize l = 4 -> 0 <= i < 4 -> 0 <= j < 4 -> 0 <= aget 0 l i <= n -> n + 1 < 2 ^ 64 ->
  aget 0 (bump l i) j = aget 0 l j + b2z (j =? i).
Proof.
  intros Hl Hi Hj Hv Hn. unfold bump, vsize in *. destruct (Z.eqb_spec j i) as [-> |].
  - rewrite aget_aset_eq by lia. cbn [b2z Z.b2z]. apply wrap_small. unfold in_range. lia.
  - rewrite aget_aset_ne by lia. cbn [b2z Z.b2z]. lia.
Qed.

Lemma bump_sum l i n :
  vsize l = 4 -> 0 <= i < 4 -> 0 <= aget 0 l i <= n -> n + 1 < 2 ^ 64 -> sum (bump l i) = sum l + 1.
Proof. intros Hl Hi Hv Hn. unfold bump. rewrite sum_aset, wrap_small by (unfold in_range; lia). lia. Qed.

Lemma stats_ok_skip n s : stats_ok n s -> skipped_not_taken_allocations s + 1 <= n -> n < 2 ^ 64 -> stats_ok n (count_skip s).
Proof.
  intros [] Hk Hn. split; cbn; try done. destruct so_nonneg0 as (? & ? & ?). rewrite wrap_small by (unfold in_range; lia). lia.
Qed.

(** A record is counted once, under its kind, and a wrong one under one cause; the cause is
    never that nothing was predicted for a branch not taken. *)
Lemma record_stats_ok n kind p taken w s :
  stats_ok n s -> 0 <= n -> n + 1 < 2 ^ 64 -> (p_taken p = false -> taken = false -> w = false) ->
  stats_ok (n + 1) (record_stats kind p taken w s) /\
  skipped_not_taken_allocations (record_stats kind p taken w s) = skipped_not_taken_allocations s.
Proof.
  intros [Ht Hw Hz (H1 & H2 & H3) Hle [S1 S2] Hk [T1 T2]] Hn Hmax Hp. unfold record_stats.
  pose proof (control_index_range kind) as Hki. set (k := control_index kind) in *. pose proof (Hk k Hki) as Hkk.
  assert (vsize (bump (total_by_kind s) k) = 4 /\ vsize (bump (wrong_by_kind s) k) = 4) as [S1' S2'] by (unfold bump; by rewrite !vsize_aset).
  pose proof (bump_sum _ k n S1 Hki ltac:(lia) Hmax) as T1'. pose proof (bump_sum _ k n S2 Hki ltac:(lia) Hmax) as T2'.
  assert (forall i, 0 <= i < 4 -> aget 0 (bump (total_by_kind s) k) i = aget 0 (total_by_kind s) i + b2z (i =? k)) as B1
    by (intros; apply (bump_get _ _ _ n); lia || done).
  assert (forall i, 0 <= i < 4 -> aget 0 (bump (wrong_by_kind s) k) i = aget 0 (wrong_by_kind s) i + b2z (i =? k)) as B2
    by (intros; apply (bump_get _ _ _ n); lia || done).
  assert (forall i, 0 <= b2z (i =? k) <= 1) as B by (intros i; by destruct (i =? k)).
  rewrite !(wrap_small 64) by (unfold in_range; lia).
  destruct w; cbn [negb]; [destruct (eqb (p_taken p) taken) eqn:E; cbn [negb]; [destruct (p_taken p) eqn:Ep |] |].
  2: { apply eqb_prop in E. rewrite <- E in Hp. by discriminate Hp. }
  all: split; [| done].
  all: split; cbn [st_total st_wrong direction_wrong target_wrong no_prediction skipped_not_taken_allocations total_by_kind wrong_by_kind]; try lia; try done.
  all: intros i Hi; rewrite B1, ?B2 by done; specialize (B i); specialize (Hk i Hi); lia.
Qed.

(** ** Whole traces *)

(** A runner over a trace. *)
Definition run_trace {A} (f : btrace_record_t -> A -> res A) (l : list btrace_record_t) (x : res A) : res A :=
  foldl (fun st r => st ← st; f r st) x l.

Lemma run_trace_ok {A} (P : Z -> A -> Prop) (f : btrace_record_t -> A -> res A) l : forall n x,
  P n x -> 0 <= n ->
  (forall k y r, r ∈ l -> n <= k < n + Z.of_nat (length l) -> P k y -> exists z, f r y = Ok z /\ P (k + 1) z) ->
  exists y, run_trace f l (Ok x) = Ok y /\ P (n + Z.of_nat (length l)) y.
Proof.
  induction l as [|r l IH]; intros n x Hx Hn Hf.
  { exists x. cbn. by rewrite Z.add_0_r. }
  cbn [run_trace foldl mbind res_bind]. destruct (Hf n x r) as (z & -> & Hz); [left | cbn [length]; lia | done |].
  destruct (IH (n + 1) z Hz ltac:(lia)) as (y & E & Hy).
  { intros k y' r' Hr' Hk. apply Hf; [by right | cbn [length]; lia]. }
  exists y. split; [exact E |]. replace (n + Z.of_nat (length (r :: l))) with (n + 1 + Z.of_nat (length l)) by (cbn [length]; lia). done.
Qed.

Lemma run_trace_fault {A} (f : btrace_record_t -> A -> res A) l e : run_trace f l (Fault e) = Fault e.
Proof. induction l as [|r l IH]; [done | exact IH]. Qed.

Definition trace_ok (l : list btrace_record_t) : Prop :=
  Forall record_ok l /\ Forall (fun r => is_control (r_code r) = true) l /\ Z.of_nat (length l) < 2 ^ 32.

Definition model_ok (n : Z) (r : RtlModelRunner) : Prop := rtl_ok r /\ stats_ok n (stats r).

Lemma model_process_ok n rec r :
  model_ok n r -> 0 <= n -> n + 1 < 2 ^ 64 -> record_ok rec -> is_control (r_code rec) = true ->
  exists r', rtl_process rec r = Ok r' /\ model_ok (n + 1) r' /\ config r' = config r.
Proof.
  intros [Hr Hs] Hn Hmax Hrec Hc. destruct (rtl_process_ok rec r Hr Hrec Hc) as (r' & E & Hr' & Hcfg).
  exists r'. split; [done |]. split; [| done]. split; [done |].
  destruct (rtl_process_spec rec r Hr Hrec Hc) as (old & p & cs & h & _ & Ho & Ep & _ & _ & _ & E'). rewrite E in E'. injection E' as ->.
  cbn [stats]. destruct (predict_ok r old rec Hr) as (p' & Ep' & _ & _ & Hnt). rewrite Ep in Ep'. injection Ep' as <-.
  unfold stats_after.
  destruct (record_stats_ok n (kind_of_code (r_code rec)) p (rec_taken rec) (negb (p_pc p =? r_nxt_pc rec)) (stats r) Hs Hn Hmax) as [Hs' Hk].
  { intros Ht Hact. rewrite (Hnt Ht). unfold rec_taken in Hact. apply orb_false_elim in Hact as [_ Hact].
    apply negb_false_iff, Z.eqb_eq in Hact. by rewrite Hact, Z.eqb_refl. }
  destruct (skipped _ _ _ _); [| done]. apply stats_ok_skip; [done | | done]. rewrite Hk. destruct Hs as [? ? ? (? & ? & ?) ? ? ? ?]. lia.
Qed.

Lemma res_all_map {A} (P Q : A -> Prop) (f : A -> res A) l :
  Forall P l -> (forall x, P x -> exists y, f x = Ok y /\ Q y) -> exists l', res_all (f <$> l) = Ok l' /\ Forall Q l' /\ length l' = length l.
Proof.
  intros Hl Hf. induction Hl as [|x l Hx Hl (l' & E & HQ & HL)]; [by exists [] |].
  destruct (Hf x Hx) as (y & Ey & Hy). exists (y :: l'). cbn [fmap list_fmap res_all]. rewrite Ey. cbn [mbind res_bind]. rewrite E.
  split; [done |]. split; [by constructor | cbn; by rewrite HL].
Qed.

Lemma res_all_fault {A} (f : A -> res A) x l e : f x = Fault e -> res_all (f <$> x :: l) = Fault e.
Proof. intros E. cbn. by rewrite E. Qed.

(** All runners after [n] records. *)
Definition runners_ok (cfgs : list RtlModelConfig) (na : nat) (n : Z) (st : runners) : Prop :=
  Forall (algo_ok n) st.1 /\ length st.1 = na /\ Forall2 (fun c r => model_ok n r /\ config r = c) cfgs st.2.

Lemma models_process_ok cfgs n rec rs :
  Forall2 (fun c r => model_ok n r /\ config r = c) cfgs rs -> 0 <= n -> n + 1 < 2 ^ 64 -> record_ok rec -> is_control (r_code rec) = true ->
  exists rs', res_all (rtl_process rec <$> rs) = Ok rs' /\ Forall2 (fun c r => model_ok (n + 1) r /\ config r = c) cfgs rs'.
Proof.
  intros H Hn Hmax Hrec Hc. induction H as [|c r cs rs [Hr Hcfg] _ (rs' & E & H)]; [by exists [] |].
  destruct (model_process_ok n rec r Hr Hn Hmax Hrec Hc) as (r' & Er & Hr' & Hcfg').
  exists (r' :: rs'). cbn [fmap list_fmap res_all]. rewrite Er. cbn [mbind res_bind]. rewrite E. split; [done |].
  constructor; [| done]. split; [done |]. by rewrite Hcfg', Hcfg.
Qed.

Lemma process_record_ok cfgs na n rec st :
  runners_ok cfgs na n st -> 0 <= n -> n + 1 < 2 ^ 64 -> record_ok rec -> is_control (r_code rec) = true ->
  exists st', process_record rec st = Ok st' /\ runners_ok cfgs na (n + 1) st'.
Proof.
  intros (Ha & Hl & Hr) Hn Hmax Hrec Hc. unfold process_record.
  destruct (res_all_map (algo_ok n) (algo_ok (n + 1)) (algo_process rec) st.1 Ha) as (rs & -> & Hrs & HL); [intros; by apply algo_process_ok |].
  cbn [mbind res_bind]. destruct (models_process_ok cfgs n rec st.2 Hr Hn Hmax Hrec Hc) as (rtls & -> & Hrtls).
  cbn [mbind res_bind]. eexists. split; [done |]. split_and!; [done | by rewrite <- Hl | done].
Qed.

(** A record that is not a control instruction fails the assertion of [get_control_kind]. *)
Lemma process_record_fault cfgs na n rec st :
  runners_ok cfgs na n st -> 0 <= n -> n + 1 < 2 ^ 64 -> cfgs <> [] -> is_control (r_code rec) = false ->
  process_record rec st = Fault FAssert.
Proof.
  intros (Ha & _ & Hr) Hn Hmax Hne Hc. unfold process_record.
  destruct (res_all_map (algo_ok n) (algo_ok (n + 1)) (algo_process rec) st.1 Ha) as (rs & -> & _ & _); [intros; by apply algo_process_ok |].
  cbn [mbind res_bind]. destruct Hr as [|c r cs rs' _ _]; [done |]. rewrite (res_all_fault _ _ _ FAssert); [done |].
  unfold rtl_process. by rewrite get_control_kind_ok, Hc.
Qed.

(** ** The runners at the start *)

Definition table_okb (l : list Z) : bool := forallb (fun c => (0 <=? c) && (c <=? 3)) l && (0 <? vsize l).

Lemma table_okb_ok l : table_okb l = true -> table_ok l.
Proof.
  unfold table_okb. intros H. apply andb_prop in H as [H1 H2]. split; [| by apply Z.ltb_lt].
  apply Forall_forall. intros c Hc. rewrite forallb_forall in H1. specialize (H1 c (proj1 (list_elem_of_In _ _) Hc)). unfold counter_ok. lia.
Qed.

Definition predictor_okb (c : predictor) : bool :=
  match c with
  | Btfn => true
  | TwoBit bht => table_okb bht
  | GShareP _ p => table_okb (g_pht p)
  | LocalP _ p => table_okb (l_pht p) && (0 <? vsize (local_histories p))
  | TournamentP p => table_okb (l_pht (local_ p)) && (0 <? vsize (local_histories (local_ p))) && table_okb (g_pht (gshare_ p)) && table_okb (chooser_ p)
  end.

Lemma predictor_okb_ok c : predictor_okb c = true -> predictor_ok c.
Proof.
  destruct c; cbn; intros H; try done; try by apply table_okb_ok.
  - apply andb_prop in H as [H1 H2]. split; [by apply table_okb_ok | by apply Z.ltb_lt].
  - apply andb_prop in H as [H H4]. apply andb_prop in H as [H H3]. apply andb_prop in H as [H1 H2].
    split_and!; [split; [by apply table_okb_ok | by apply Z.ltb_lt] | by apply table_okb_ok | by apply table_okb_ok].
Qed.

Definition fresh_algo (r : AlgoRunner) : bool := predictor_okb (closures (algo r)) && (0 <? vsize (btb r)) && (total r =? 0) && (wrong r =? 0).

Lemma fresh_algo_ok r : fresh_algo r = true -> algo_ok 0 r.
Proof.
  unfold fresh_algo. intros H. apply andb_prop in H as [H H4]. apply andb_prop in H as [H H3]. apply andb_prop in H as [H1 H2].
  split; [by apply predictor_okb_ok | by apply Z.ltb_lt | by apply Z.eqb_eq | apply Z.eqb_eq in H4; lia].
Qed.

Definition rtl_config_okb (c : RtlModelConfig) : bool :=
  has_single_bit (btb_size c) && (2 ^ Z.of_nat (length (index_bits c)) <=? btb_size c) && (0 <=? direction_table_size c).

Lemma zero_stats_ok : stats_ok 0 zero_stats.
Proof.
  split; try done. intros i Hi. assert (i = 0 \/ i = 1 \/ i = 2 \/ i = 3) as [-> | [-> | [-> | ->]]] by lia; done.
Qed.

Lemma rtl_init_ok c : rtl_config_okb c = true -> exists r, RtlModelRunner_init c = Ok r /\ model_ok 0 r /\ config r = c.
Proof.
  unfold rtl_config_okb. intros H. apply andb_prop in H as [H H3]. apply andb_prop in H as [H1 H2].
  unfold RtlModelRunner_init. rewrite H1. cbn [c_assert mbind res_bind]. eexists. split; [done |]. split; [| done]. apply single_bit_pos in H1.
  split; [| exact zero_stats_ok]. split; cbn [config entries direction_counters rtl_ghr].
  - split; lia.
  - apply Forall_replicate. by split.
  - unfold vsize. rewrite length_replicate. lia.
  - apply Forall_replicate. unfold counter_ok. lia.
  - unfold vsize. rewrite length_replicate. lia.
  - done.
Qed.

Lemma rtl_inits_ok cs : forallb rtl_config_okb cs = true -> exists rs, res_all (RtlModelRunner_init <$> cs) = Ok rs /\ Forall2 (fun c r => model_ok 0 r /\ config r = c) cs rs.
Proof.
  induction cs as [|c cs IH]; intros H; [by exists [] |]. cbn [forallb] in H. apply andb_prop in H as [Hc H].
  destruct (rtl_init_ok c Hc) as (r & Er & Hr), (IH H) as (rs & Ers & Hrs). exists (r :: rs).
  cbn [fmap list_fmap res_all]. rewrite Er. cbn [mbind res_bind]. rewrite Ers. by split; [| constructor].
Qed.

Definition algo_runners (rtl_only : bool) : res (list AlgoRunner) := algos ← algorithms rtl_only; res_all (AlgoRunner_init <$> algos).

Lemma algo_inits_ok rtl_only :
  exists rs, algo_runners rtl_only = Ok rs /\ Forall (algo_ok 0) rs /\ length rs = if rtl_only then 0%nat else 28%nat.
Proof.
  assert (match algo_runners rtl_only with Ok rs => forallb fresh_algo rs && (length rs =? (if rtl_only then 0 else 28))%nat | _ => false end = true) as H
    by (destruct rtl_only; vm_compute; reflexivity).
  destruct (algo_runners rtl_only) as [rs |]; [| done]. apply andb_prop in H as [H HL]. exists rs. split; [done |].
  split; [| by apply Nat.eqb_eq]. apply Forall_forall. intros r Hr. apply fresh_algo_ok. rewrite forallb_forall in H. apply H. by apply list_elem_of_In.
Qed.

Lemma make_runners_ok rtl_only search :
  exists st, make_runners rtl_only search = Ok st /\ runners_ok (rtl_configs search) (if rtl_only then 0 else 28) 0 st.
Proof.
  destruct (algo_inits_ok rtl_only) as (rs & E & Hrs & HL).
  destruct (rtl_inits_ok (rtl_configs search)) as (rtls & Er & Hr); [destruct search; vm_compute; reflexivity |].
  unfold make_runners. unfold algo_runners in E. apply bind_ok in E as (algos & -> & E). cbn [mbind res_bind]. rewrite E. cbn [mbind res_bind].
  rewrite Er. eexists. split; [done |]. by split_and!.
Qed.

Lemma trace_run_ok cfgs na l st :
  runners_ok cfgs na 0 st -> trace_ok l ->
  exists st', run_trace process_record l (Ok st) = Ok st' /\ runners_ok cfgs na (Z.of_nat (length l)) st'.
Proof.
  intros Hst (Hl & Hc & Hn). destruct (run_trace_ok (runners_ok cfgs na) process_record l 0 st Hst ltac:(lia)) as (st' & E & H); [| by exists st'].
  intros k y r Hr Hk Hy. rewrite Forall_forall in Hl, Hc. apply process_record_ok; [done | lia | lia | by apply Hl | by apply Hc].
Qed.

Section main.
  Context (file popen : list Z -> option (list Z)) (bunzip2 : list Z -> option (list Z)).
  Context (Hpopen : forall cmd p bs out, sh_words false None cmd = Some [bytes "bzip2"; bytes "-dc"; bytes "--"; p] ->
    file p = Some bs -> bunzip2 bs = Some out -> popen cmd = Some out).

Lemma branchsim_ok rtl_only search path l :
  holds_trace file bunzip2 path l -> Forall (fun r => is_control (r_code r) = true) l ->
  exists rs rtls, branchsim_main file popen rtl_only search path = Ok (Some (rs, rtls)) /\
    length rs = (if rtl_only then 0 else 28)%nat /\ Forall (algo_ok (Z.of_nat (length l))) rs /\
    config <$> rtls = rtl_configs search /\ Forall (model_ok (Z.of_nat (length l))) rtls.
Proof.
  intros H Hc. pose proof H as (Hl & Hn & _). destruct (make_runners_ok rtl_only search) as (st & E & Hst).
  unfold branchsim_main. rewrite E. cbn [mbind res_bind].
  destruct (open_and_pick file popen bunzip2 Hpopen process_record st l path H) as (pack & -> & ->). fold (run_trace process_record l (Ok st)).
  destruct (trace_run_ok _ _ l st Hst) as ([rs rtls] & -> & Ha & HL & Hr); [done |]. exists rs, rtls. cbn [fmap res_fmap fst snd] in *.
  split_and!; [done | done | done | |].
  - clear -Hr. induction Hr as [|c r cs rs [_ Hc] _ IH]; [done |]. cbn. by rewrite Hc, IH.
  - clear -Hr. induction Hr as [|c r cs rs [Hc _] _ IH]; by constructor.
Qed.

(** C29. The simulator runs every trace of control instructions to the end.  With either set
    of algorithms and models - the searched index mappings included - no assertion fails
    and no table is accessed out of its bounds; afterwards every runner has counted every
    record once, all counters are two bits wide and all tables have kept their sizes.  A
    record that is no control instruction stops it with the assertion. *)
Theorem branchsim_runs rtl_only search path l :
  holds_trace file bunzip2 path l ->
  (Forall (fun r => is_control (r_code r) = true) l ->
    exists rs rtls, branchsim_main file popen rtl_only search path = Ok (Some (rs, rtls)) /\
      length rs = (if rtl_only then 0 else 28)%nat /\ Forall (algo_ok (Z.of_nat (length l))) rs /\
      config <$> rtls = rtl_configs search /\ Forall (model_ok (Z.of_nat (length l))) rtls) /\
  (Exists (fun r => is_control (r_code r) = false) l ->
    branchsim_main file popen rtl_only search path = Fault FAssert).
Proof.
  intros H. split; [intros; by apply branchsim_ok |]. pose proof H as (Hl & Hn & _).
  destruct (make_runners_ok rtl_only search) as (st & E & Hst). unfold branchsim_main. rewrite E. cbn [mbind res_bind].
  destruct (open_and_pick file popen bunzip2 Hpopen process_record st l path H) as (pack & -> & ->). fold (run_trace process_record l (Ok st)).
  intros Hex. apply Exists_exists in Hex as (bad & Hbad & Hcode). 
  assert (forall l n st, runners_ok (rtl_configs search) (if rtl_only then 0 else 28) n st -> 0 <= n -> n + Z.of_nat (length l) < 2 ^ 64 ->
    Forall record_ok l -> bad ∈ l -> run_trace process_record l (Ok st) = Fault FAssert) as Hgo; [| rewrite (Hgo l 0 st); [done | done | lia | lia | done | done]].
  clear l st E Hst H Hl Hn Hbad. induction l as [|r l IH]; intros n st Hst Hn Hmax Hl Hin; [by apply not_elem_of_nil in Hin |].
  apply Forall_cons_1 in Hl as [Hr Hl]. cbn [length] in Hmax. cbn [run_trace foldl mbind res_bind]. destruct (is_control (r_code r)) eqn:Ec.
  + destruct (process_record_ok _ _ n r st Hst Hn ltac:(lia) Hr Ec) as (st' & -> & Hst'). apply (IH (n + 1) st'); [done | lia | lia | done |].
    apply elem_of_cons in Hin as [-> | ?]; [congruence | done].
  + rewrite (process_record_fault _ _ n r st Hst Hn) by (done || lia || by destruct search). by apply run_trace_fault.
Qed.
End main.

(** ** Decoding agrees with the emulator's profiler *)

Lemma sign_extend_sext v bits : 1 <= bits <= 32 -> in_range bits v -> sign_extend v bits = u32 (sext bits v).
Proof.
  intros Hb Hv. unfold sign_extend, sext. rewrite Z.shiftl_mul_pow2, Z.mul_1_l by lia.
  assert (2 ^ bits = 2 * 2 ^ (bits - 1)) as Hp by (rewrite <- Z.pow_succ_r by lia; f_equal; lia).
  assert (1 <= 2 ^ (bits - 1)) as Hp1 by (apply (Z.pow_le_mono_r 2 0); lia).
  assert (2 ^ (bits - 1) < 2 ^ 32) as Hp2 by (apply Z.pow_lt_mono_r; lia).
  rewrite (wrap_small 32 (2 ^ (bits - 1))) by (unfold in_range; lia). f_equal. f_equal.
  unfold wrap. unfold in_range in Hv.
  destruct (Z.ltb_spec v (2 ^ (bits - 1))) as [Hlt | Hge].
  - rewrite Z.mod_small by lia. rewrite <- Z.add_nocarry_lxor; [done |]. apply Z.bits_inj'. intros i Hi. rewrite Z.land_spec, Z.bits_0.
    destruct (Z.eq_dec i (bits - 1)) as [-> |]; [| by rewrite Z.pow2_bits_false, andb_false_r by lia].
    rewrite (testbit_high (bits - 1) v) by (unfold in_range; lia). done.
  - replace (v + 2 ^ (bits - 1)) with (v - 2 ^ (bits - 1) + 1 * 2 ^ bits) by lia. rewrite Z.mod_add, Z.mod_small by lia.
    replace v with (Z.lxor (v - 2 ^ (bits - 1)) (2 ^ (bits - 1))) at 1.
    + by rewrite Z.lxor_assoc, Z.lxor_nilpotent, Z.lxor_0_r.
    + rewrite <- Z.add_nocarry_lxor; [lia |]. apply Z.bits_inj'. intros i Hi. rewrite Z.land_spec, Z.bits_0.
      destruct (Z.eq_dec i (bits - 1)) as [-> |]; [| by rewrite Z.pow2_bits_false, andb_false_r by lia].
      rewrite (testbit_high (bits - 1)) by (unfold in_range; lia). done.
Qed.

Lemma field_range x s m k w : 0 <= m -> 0 <= k -> m + k <= w -> in_range w (((x >>> s) &&& Z.ones m) <<< k).
Proof.
  intros Hm Hk Hw. rewrite Z.land_ones, Z.shiftl_mul_pow2 by lia. pose proof (Z.mod_pos_bound (x >>> s) (2 ^ m)) as H.
  assert (0 < 2 ^ m /\ 0 < 2 ^ k) as [? ?] by (split; apply Z.pow_pos_nonneg; lia).
  assert (2 ^ m * 2 ^ k <= 2 ^ w) by (rewrite <- Z.pow_add_r by lia; apply Z.pow_le_mono_r; lia). unfold in_range. nia.
Qed.

Definition b_field (code : Z) : Z :=
  (((code >>> 31) &&& 0x1) <<< 12) ||| (((code >>> 7) &&& 0x1) <<< 11) ||| (((code >>> 25) &&& 0x3f) <<< 5) ||| (((code >>> 8) &&& 0xf) <<< 1).

Lemma b_field_range code : in_range 13 (b_field code).
Proof.
  unfold b_field. repeat apply lor_range; try lia;
    first [apply (field_range code 31 1 12 13) | apply (field_range code 7 1 11 13) | apply (field_range code 25 6 5 13) | apply (field_range code 8 4 1 13)]; lia.
Qed.

Lemma get_b_imm_sext code : get_b_imm code = u32 (sext 13 (b_field code)).
Proof. apply sign_extend_sext; [lia | apply b_field_range]. Qed.

(** The profiler and the simulator read the same offset from a branch. *)
Lemma branch_imm_agrees code : in_range 32 code -> u32 (branch_imm code) = get_b_imm code.
Proof.
  intros Hc. rewrite get_b_imm_sext. f_equal. unfold branch_imm.
  assert (forall x s m k, 0 <= m -> 0 <= k -> m + k <= 32 -> u32 (((x >>> s) &&& Z.ones m) <<< k) = ((x >>> s) &&& Z.ones m) <<< k) as Hf
    by (intros; apply wrap_small, field_range; lia).
  assert (code >>> 31 = (code >>> 31) &&& 1) as ->.
  { change 1 with (Z.ones 1). rewrite Z.land_ones, Z.shiftr_div_pow2 by lia. unfold in_range in Hc. Z.to_euclidean_division_equations. lia. }
  pose proof (Hf code 31 1 12 ltac:(lia) ltac:(lia) ltac:(lia)) as E1. pose proof (Hf code 7 1 11 ltac:(lia) ltac:(lia) ltac:(lia)) as E2.
  pose proof (Hf code 25 6 5 ltac:(lia) ltac:(lia) ltac:(lia)) as E3. pose proof (Hf code 8 4 1 ltac:(lia) ltac:(lia) ltac:(lia)) as E4.
  change (Z.ones 1) with 1 in E1, E2. change (Z.ones 6) with 63 in E3. change (Z.ones 4) with 15 in E4.
  rewrite E1, E2, E3, E4. fold (b_field code). cbv zeta.
  pose proof (b_field_range code) as Hb. set (v := b_field code) in *. clearbody v.
  unfold in_range in Hb. rewrite Z.shiftl_mul_pow2, Z.shiftr_div_pow2 by lia. unfold sext, wrap.
  change (2 ^ (32 - 1)) with (2 ^ 31). change (2 ^ (13 - 1)) with (2 ^ 12). Z.to_euclidean_division_equations. lia.
Qed.

(** ** Agreement with the profiler's models of the hardware predictor *)

(** An entry of the profiler's table and of the simulator's. *)
Definition same_entry (b : BtbEnt) (e : RtlBTBEntry) : Prop :=
  b_valid b = e_valid e /\
  (e_valid e = true ->
    b_tag b = e_pc e /\ b_target b = e_target e /\ b_counter b = direction_counter e /\
    bool_decide (b_type b = K_JAL) = e_is_jal e /\ bool_decide (b_type b = K_BRANCH) = e_is_branch e).

Definition same_table (b : ProfileCache.btb) (r : RtlModelRunner) : Prop :=
  Z.of_nat (length b) = 32 /\ vsize (BranchSim.entries r) = 32 /\ index_bits (config r) = [] /\ direction_table_size (config r) = 0 /\
  forall i, 0 <= i < 32 -> same_entry (aget empty_btb_ent b i) (aget empty_rtl (BranchSim.entries r) i).

Definition policy_of (skip_conflicting_not_taken : bool) : RtlAllocationPolicy :=
  if skip_conflicting_not_taken then SkipConflictingNotTaken else Always.

(** The profiler's model on a record of the trace. *)
Definition profiler_step (skip : bool) (rec : btrace_record_t) (b : ProfileCache.btb) : ProfileCache.btb * bool :=
  model_rtl_btb32 b (r_pc rec) (r_nxt_pc rec) (r_code rec) (kind_of (r_code rec)) (negb (r_nxt_pc rec =? u32 (r_pc rec + 4))) skip.

Lemma kind_of_control code :
  is_control code = true ->
  kind_of code = match kind_of_code code with Branch => K_BRANCH | Jal => K_JAL | Ret | Jalr => K_JALR end /\
  (code =? 0x00008067) = bool_decide (kind_of_code code = Ret).
Proof.
  unfold is_control, kind_of, kind_of_code, opcode, is_conditional_branch, is_jal_code, is_jalr, is_exact_ret. intros H.
  destruct (Z.eqb_spec (code &&& 127) 99) as [E1 |]; [| destruct (Z.eqb_spec (code &&& 127) 111) as [E2 |]].
  - split; [done |]. apply Z.eqb_neq. by intros ->.
  - split; [done |]. apply Z.eqb_neq. by intros ->.
  - cbn [orb] in H. rewrite H. by destruct (code =? 0x8067).
Qed.

(** Reading and writing the line of a record in both tables. *)
Lemma same_table_aset b r i x e r' :
  same_table b r -> 0 <= i < 32 -> same_entry x e -> BranchSim.entries r' = aset (BranchSim.entries r) i e -> config r' = config r ->
  same_table (aset b i x) r'.
Proof.
  intros (L1 & L2 & Hb & Hd & H) Hi Hx He Hc. unfold same_table. rewrite He, Hc, vsize_aset, length_aset. split_and!; try done.
  intros j Hj. unfold vsize in L2. destruct (Z.eq_dec j i) as [-> |].
  - by rewrite !aget_aset_eq by lia.
  - rewrite !aget_aset_ne by lia. by apply H.
Qed.

(** The prediction of a model without a direction table. *)
Definition entry_hit (rec : btrace_record_t) (e : RtlBTBEntry) : bool := e_valid e && (e_pc e =? r_pc rec).
Definition entry_taken (rec : btrace_record_t) (e : RtlBTBEntry) : bool :=
  entry_hit rec e && (e_is_jal e || (e_is_branch e && (2 <=? direction_counter e))).
Definition entry_pc (rec : btrace_record_t) (e : RtlBTBEntry) : Z := if entry_taken rec e then e_target e else u32 (r_pc rec + 4).

Lemma predict_plain r e rec :
  direction_table_size (config r) = 0 -> predict r e rec = Ok (MkPrediction (entry_hit rec e) (entry_taken rec e) (entry_pc rec e)).
Proof. intros E. unfold predict. by rewrite E. Qed.

Lemma stats_after_wrong rec policy old p s :
  st_wrong (stats_after rec policy old p s) = if p_pc p =? r_nxt_pc rec then st_wrong s else u64 (st_wrong s + 1).
Proof.
  unfold stats_after, record_stats. destruct (p_pc p =? r_nxt_pc rec); cbn [negb]; destruct (skipped _ _ _ _); try done;
    destruct (negb (eqb _ _)); try done; by destruct (p_taken p).
Qed.

Lemma same_entry_step skip rec b e :
  same_entry b e -> is_control (r_code rec) = true -> in_range 32 (r_code rec) ->
  let type := kind_of (r_code rec) in
  let taken := negb (r_nxt_pc rec =? u32 (r_pc rec + 4)) in
  let hit := b_valid b && (b_tag b =? r_pc rec) in
  let branch := bool_decide (type = K_BRANCH) in
  let matching := hit && bool_decide (b_type b = K_BRANCH) && branch in
  hit = entry_hit rec e /\
  (hit && (bool_decide (b_type b = K_JAL) || (bool_decide (b_type b = K_BRANCH) && (2 <=? b_counter b))) = entry_taken rec e) /\
  (hit = true -> b_target b = e_target e) /\
  skip && branch && negb taken && negb matching = skipped rec (policy_of skip) e hit /\
  second_chance rec (policy_of skip) e hit = false /\
  same_entry (MkBtbEnt (r_pc rec) (if branch then u32 (r_pc rec + u32 (branch_imm (r_code rec))) else r_nxt_pc rec) true
      (if bool_decide (type = K_JAL) || (r_code rec =? 0x00008067) then K_JAL else type)
      (if branch then next_direction matching taken (b_counter b) else 0)) (allocated rec e hit).
Proof.
  intros [Hv He] Hc Hcode type taken hit branch matching.
  destruct (kind_of_control _ Hc) as [Hk Hret]. fold type in Hk.
  assert (branch = rec_branch rec) as Hbr by (unfold branch, rec_branch; rewrite Hk; by destruct (kind_of_code (r_code rec))).
  assert (hit = entry_hit rec e) as Hhit.
  { unfold hit, entry_hit. rewrite Hv. destruct (e_valid e); [| done]. by destruct (He eq_refl) as (-> & _). }
  assert (rec_taken rec = negb branch || taken) as Ht by (by rewrite Hbr).
  assert (hit && bool_decide (b_type b = K_BRANCH) = hit && e_is_branch e) as Hmb.
  { rewrite Hhit. unfold entry_hit. destruct (e_valid e); [| done]. by destruct (He eq_refl) as (_ & _ & _ & _ & ->). }
  split; [done |]. split; [| split; [| split; [| split]]].
  - unfold entry_taken. rewrite <- Hhit. destruct hit eqn:Eh; [| done]. unfold hit in Eh. apply andb_prop in Eh as [Eh _]. rewrite Hv in Eh.
    destruct (He Eh) as (_ & _ & -> & -> & ->). done.
  - intros Eh. unfold hit in Eh. apply andb_prop in Eh as [Eh _]. rewrite Hv in Eh. by destruct (He Eh) as (_ & -> & _).
  - unfold skipped, second_chance, matching. rewrite <- Hbr, Ht, Hmb. unfold policy_of. destruct skip; cbn; rewrite ?orb_false_r; [| done].
    by destruct branch.
  - unfold second_chance, policy_of. by destruct skip.
  - unfold same_entry, allocated. cbn [b_valid e_valid b_tag e_pc b_target e_target b_counter direction_counter b_type e_is_jal e_is_branch].
    rewrite <- Hbr, Ht, branch_imm_agrees by done. unfold matching. rewrite Hmb. split; [done |]. intros _. split_and!; [done | done | | |].
    + destruct branch; [| done]. cbn [negb orb]. unfold next_direction, step_counter. destruct (hit && e_is_branch e && true) eqn:Em; [| done].
      cbn [negb]. apply andb_prop in Em as [Em _]. apply andb_prop in Em as [Eh _]. unfold hit in Eh. apply andb_prop in Eh as [Eh _]. rewrite Hv in Eh.
      by destruct (He Eh) as (_ & _ & -> & _).
    + rewrite Hk, Hret. unfold rec_jal. by destruct (kind_of_code (r_code rec)).
    + rewrite Hbr, Hk, Hret. unfold rec_branch. by destruct (kind_of_code (r_code rec)).
Qed.

Lemma same_table_step skip rec b r :
  same_table b r -> rtl_ok r -> record_ok rec -> is_control (r_code rec) = true -> allocation_policy (config r) = policy_of skip ->
  exists r', rtl_process rec r = Ok r' /\ same_table (profiler_step skip rec b).1 r' /\ config r' = config r /\
    st_wrong (stats r') = if (profiler_step skip rec b).2 then u64 (st_wrong (stats r) + 1) else st_wrong (stats r).
Proof.
  intros Hs Hr Hrec Hc Hpol. pose proof Hs as (L1 & L2 & Hbits & Hdir & Hsame).
  destruct (rtl_process_spec rec r Hr Hrec Hc) as (old & p & cs & h & El & Ho & Ep & _ & _ & _ & E). rewrite Hpol in E.
  rewrite predict_plain in Ep by done. injection Ep as <-. cbn [p_hit] in E. eexists. split; [exact E |].
  assert (get_index r (r_pc rec) = (r_pc rec >>> 2) &&& 31) as Ei by (unfold get_index; by rewrite Hbits, L2).
  pose proof (get_index_range r (r_pc rec) Hr) as Hi. rewrite L2 in Hi. rewrite Ei in *.
  set (i := (r_pc rec >>> 2) &&& 31) in *. assert (same_entry (aget empty_btb_ent b i) old) as Hse.
  { replace old with (aget empty_rtl (BranchSim.entries r) i); [by apply Hsame |]. unfold aget. by rewrite nth_lookup, El. }
  destruct (same_entry_step skip rec _ old Hse Hc (proj1 (proj2 Hrec))) as (Hhit & Htk & Htg & Hsk & Hsc & Hnew).
  cbv zeta in Hhit, Htk, Htg, Hsk, Hsc, Hnew. cbn [config stats]. rewrite stats_after_wrong. cbn [p_pc].
  unfold profiler_step, model_rtl_btb32. fold i. cbv zeta. rewrite Htk, Hsk.
  assert ((if entry_taken rec old then b_target (aget empty_btb_ent b i) else u32 (r_pc rec + 4)) = entry_pc rec old) as ->.
  { unfold entry_pc. destruct (entry_taken rec old) eqn:Et; [| done]. apply Htg. unfold entry_taken in Et. apply andb_prop in Et as [Et _]. by rewrite Hhit. }
  unfold entry_after. rewrite <- Hhit, Hsc. destruct (skipped rec (policy_of skip) old _) eqn:Esk; cbn [fst snd].
  - split; [| split; [done | by destruct (entry_pc rec old =? r_nxt_pc rec)]]. replace b with (aset b i (aget empty_btb_ent b i)) by (apply aset_aget; lia).
    by apply (same_table_aset b r i _ old).
  - split; [| split; [done | by destruct (entry_pc rec old =? r_nxt_pc rec)]]. by apply (same_table_aset b r i _ _ _ Hs Hi Hnew).
Qed.

(** The profiler's model over a trace, counting wrong predictions. *)
Definition profiler_trace (skip : bool) (l : list btrace_record_t) : ProfileCache.btb * Z :=
  foldl (fun st rec => let '(b, w) := profiler_step skip rec st.1 in (b, st.2 + b2z w)) (replicate 32 empty_btb_ent, 0) l.

Lemma same_table_init c :
  btb_size c = 32 -> index_bits c = [] -> direction_table_size c = 0 ->
  exists r, RtlModelRunner_init c = Ok r /\ same_table (replicate 32 empty_btb_ent) r /\ model_ok 0 r /\ config r = c.
Proof.
  intros Hb Hi Hd. destruct (rtl_init_ok c) as (r & E & Hm & Hc).
  { unfold rtl_config_okb. by rewrite Hb, Hi, Hd. }
  exists r. split_and!; try done. unfold RtlModelRunner_init in E. apply bind_ok in E as (u & _ & [= <-]). cbn [config] in *.
  unfold same_table. cbn [BranchSim.entries config]. rewrite Hb. split_and!; try done.
  intros i Hi32. split; [| intros Hv].
  all: assert (exists k, (k < 32)%nat /\ i = Z.of_nat k) as (k & Hk & ->) by (exists (Z.to_nat i); lia).
  all: unfold aget in *; rewrite Nat2Z.id in *; rewrite !nth_lookup, !lookup_replicate_2 in * by done; done.
Qed.

(** C12. The simulator's models [rtl-current] and [rtl-skip-conflicting-not-taken] and the
    emulator's profiler agree.  Over any trace of control instructions, the simulator
    counts exactly as many wrong predictions as the profiler's model of the same predictor
    does on the same instructions, for both allocation policies. *)
Theorem profiler_agrees skip l c :
  trace_ok l -> btb_size c = 32 -> index_bits c = [] -> direction_table_size c = 0 -> allocation_policy c = policy_of skip ->
  exists r, run_trace rtl_process l (RtlModelRunner_init c) = Ok r /\ st_wrong (stats r) = (profiler_trace skip l).2.
Proof.
  intros (Hl & Hctl & Hn) Hb Hi Hd Hp. destruct (same_table_init c Hb Hi Hd) as (r0 & E0 & Hs0 & Hm0 & Hc0). rewrite E0.
  assert (forall l k b n r, Forall record_ok l -> Forall (fun r => is_control (r_code r) = true) l -> 0 <= k -> k + Z.of_nat (length l) < 2 ^ 64 ->
    same_table b r -> model_ok k r -> config r = c -> st_wrong (stats r) = n ->
    exists r', run_trace rtl_process l (Ok r) = Ok r' /\
      st_wrong (stats r') = (foldl (fun st rec => let '(b, w) := profiler_step skip rec st.1 in (b, st.2 + b2z w)) (b, n) l).2) as H.
  { clear -Hp. induction l as [|rec l IH]; intros k b n r Hl Hctl Hk Hmax Hs Hm Hc Hw; [by exists r |].
    apply Forall_cons_1 in Hl as [Hrec Hl]. apply Forall_cons_1 in Hctl as [Hcr Hctl]. cbn [length] in Hmax. cbn [run_trace foldl mbind res_bind fst snd].
    destruct (model_process_ok k rec r Hm Hk ltac:(lia) Hrec Hcr) as (r' & E & Hm' & Hc').
    destruct (same_table_step skip rec b r Hs (proj1 Hm) Hrec Hcr) as (r'' & E' & Hs' & _ & Hw'); [by rewrite Hc |].
    rewrite E in E'. injection E' as <-. rewrite E. destruct (profiler_step skip rec b) as [b' w] eqn:Ep. cbn [fst snd] in *.
    apply (IH (k + 1) b'); try done; [lia | lia | by rewrite Hc' |]. rewrite Hw'. destruct (proj2 Hm) as [Ht ? ? ? ? ? ? ?].
    destruct w; cbn [b2z Z.b2z]; [| lia]. rewrite Hw. apply wrap_small. unfold in_range. lia. }
  apply (H l 0); try done; [lia |]. destruct (proj2 Hm0) as [? ? ? (? & ? & ?) ? ? ? ?]. lia.
Qed.

(** ** Learning *)

(** How many times a taken branch is still predicted wrongly when only it is executed. *)
Definition cost (rec : btrace_record_t) (policy : RtlAllocationPolicy) (e : RtlBTBEntry) : Z :=
  if entry_hit rec e then
    if e_is_branch e then (if 2 <=? direction_counter e then b2z (negb (e_target e =? r_nxt_pc rec)) else 2 - direction_counter e)
    else if e_is_jal e && (e_target e =? r_nxt_pc rec) then 0 else 1
  else if second_chance rec policy e false then 2 else 1.

Definition steady (rec : btrace_record_t) : Prop :=
  kind_of_code (r_code rec) = Branch /\ r_nxt_pc rec = u32 (r_pc rec + get_b_imm (r_code rec)) /\ r_nxt_pc rec <> u32 (r_pc rec + 4).

Lemma cost_range rec policy e : entry_ok e -> 0 <= cost rec policy e <= 2.
Proof.
  intros [Hc _ _ _]. unfold counter_ok in Hc. unfold cost. repeat case_match; try lia. by destruct (negb _).
Qed.

(** Each wrong prediction lowers the cost. *)
Lemma cost_step rec policy e :
  steady rec -> entry_ok e -> policy <> ProtectJalFromBranches ->
  b2z (negb (entry_pc rec e =? r_nxt_pc rec)) + cost rec policy (entry_after rec policy e (entry_hit rec e)) <= cost rec policy e.
Proof.
  intros (Hk & Hnxt & Hne) [Hc _ _ Hj] Hpol. unfold counter_ok in Hc.
  assert (rec_branch rec = true) as Hb by (unfold rec_branch; by rewrite Hk).
  assert (rec_taken rec = true) as Ht by (unfold rec_taken; rewrite Hb, (proj2 (Z.eqb_neq _ _) Hne); done).
  assert ((u32 (r_pc rec + 4) =? r_nxt_pc rec) = false) as Hne' by (apply Z.eqb_neq; congruence).
  assert (rec_jal rec = false) as Hjal by (unfold rec_jal; by rewrite Hk).
  assert (forall hit, skipped rec policy e hit = second_chance rec policy e hit) as Hskip.
  { intros hit. unfold skipped. rewrite Ht, Hb. cbn [negb]. rewrite andb_false_r. cbn. by destruct policy. }
  assert (forall hit, cost rec policy (allocated rec e hit) =
    let c := if negb (hit && e_is_branch e) then 2 else step_counter (direction_counter e) true in if 2 <=? c then 0 else 2 - c) as Hcost.
  { intros hit. unfold cost, entry_hit, allocated. cbn [e_valid e_pc e_is_branch direction_counter e_target]. rewrite Z.eqb_refl, Hb, Ht, <- Hnxt, Z.eqb_refl.
    cbn [andb negb]. by rewrite (andb_true_r (hit && e_is_branch e)). }
  unfold entry_after. rewrite Hskip. unfold entry_pc, entry_taken, cost at 2. destruct (entry_hit rec e) eqn:Eh.
  - assert (second_chance rec policy e true = false) as -> by (unfold second_chance; by rewrite Hb, andb_false_r). rewrite Hcost. cbn [andb].
    destruct (e_is_branch e) eqn:Eb; cbn [negb andb].
    + rewrite andb_true_r in Hj. rewrite Hj. cbn [orb andb]. unfold step_counter. cbn [andb negb].
      destruct (Z.leb_spec 2 (direction_counter e)), (Z.eqb_spec (direction_counter e) 3); rewrite ?Hne'; cbn [negb b2z Z.b2z]; cbv zeta; zcmp; destruct (negb _); cbn; lia.
    + rewrite orb_false_r. destruct (e_is_jal e); [| rewrite Hne'; cbn; lia]. cbn [andb]. destruct (e_target e =? r_nxt_pc rec); cbn; lia.
  - cbn [andb]. rewrite Hne'. destruct (second_chance rec policy e false) eqn:Es; [| rewrite Hcost; cbn; lia].
    unfold cost, entry_hit, unprotect, second_chance. cbn [e_valid e_pc e_is_jal jal_protected]. unfold entry_hit in Eh. rewrite Eh, andb_false_r. cbn. lia.
Qed.

(** A steady branch is learned.  From any state of a model without a separate direction
    table - whatever earlier branches left in its tables - a branch that is taken to its
    target every time is predicted wrongly at most twice, however often it is executed;
    the policy that protects jumps from branches is the only one without this guarantee. *)
Theorem steady_branch_learned rec r k n :
  model_ok k r -> 0 <= k -> k + Z.of_nat n < 2 ^ 64 -> record_ok rec -> steady rec ->
  direction_table_size (config r) = 0 -> allocation_policy (config r) <> ProtectJalFromBranches ->
  exists r', run_trace rtl_process (replicate n rec) (Ok r) = Ok r' /\ st_wrong (stats r') <= st_wrong (stats r) + 2.
Proof.
  intros Hm Hk Hmax Hrec Hst Hd Hp.
  set (cost_of r := cost rec (allocation_policy (config r)) (aget empty_rtl (BranchSim.entries r) (get_index r (r_pc rec)))).
  assert (forall r, model_ok k r -> 0 <= cost_of r <= 2) as Hrange.
  { intros r0 [H0 _]. apply cost_range. apply aget_Forall; [by split | apply H0]. }
  cut (exists r', run_trace rtl_process (replicate n rec) (Ok r) = Ok r' /\ st_wrong (stats r') + 0 <= st_wrong (stats r) + cost_of r).
  { intros (r' & E & H). exists r'. split; [done |]. specialize (Hrange r Hm). lia. }
  clear Hrange. revert r k Hm Hk Hmax Hd Hp cost_of. induction n as [|n IH]; intros r k Hm Hk Hmax Hd Hp cost_of.
  { exists r. split; [done |]. assert (0 <= cost_of r); [| lia]. apply cost_range, aget_Forall; [by split | apply Hm]. }
  assert (is_control (r_code rec) = true) as Hctl.
  { destruct Hst as [Hkind _]. unfold kind_of_code in Hkind. unfold is_control. destruct (is_conditional_branch _); [done |]. by repeat case_match. }
  destruct (model_process_ok k rec r Hm Hk ltac:(lia) Hrec Hctl) as (r1 & E1 & Hm1 & Hc1).
  destruct (rtl_process_spec rec r (proj1 Hm) Hrec Hctl) as (old & p & cs & h & El & Ho & Ep & _ & _ & _ & E). rewrite E1 in E. injection E as Er1.
  rewrite predict_plain in Ep by done. injection Ep as <-. cbn [p_hit] in Er1.
  destruct (IH r1 (k + 1)) as (r' & E' & H'); [done | lia | lia | by rewrite Hc1 | by rewrite Hc1 |].
  exists r'. split; [cbn [replicate run_trace foldl mbind res_bind]; rewrite E1; exact E' |].
  pose proof (cost_step rec (allocation_policy (config r)) old Hst Ho Hp) as Hstep.
  pose proof (get_index_range r (r_pc rec) (proj1 Hm)) as Hi.
  assert (cost_of r = cost rec (allocation_policy (config r)) old) as Hc0 by (unfold cost_of, aget; by rewrite nth_lookup, El).
  assert (get_index r1 (r_pc rec) = get_index r (r_pc rec)) as Ei by (rewrite Er1; unfold get_index; cbn [config BranchSim.entries]; by rewrite vsize_aset).
  assert (cost rec (allocation_policy (config r1)) (aget empty_rtl (BranchSim.entries r1) (get_index r1 (r_pc rec))) =
    cost rec (allocation_policy (config r)) (entry_after rec (allocation_policy (config r)) old (entry_hit rec old))) as Hcost1.
  { rewrite Ei, Hc1. rewrite Er1. cbn [BranchSim.entries]. unfold vsize in Hi. by rewrite aget_aset_eq by lia. }
  cbv zeta in H'. rewrite Hcost1 in H'. rewrite Hc0.
  assert (st_wrong (stats r1) <= st_wrong (stats r) + b2z (negb (entry_pc rec old =? r_nxt_pc rec))) as Hw.
  { rewrite Er1. cbn [stats]. rewrite stats_after_wrong. cbn [p_pc]. destruct (_ =? _); cbn; [lia |].
    destruct (proj2 Hm) as [? ? ? ? ? ? ? ?]. unfold wrap. pose proof (Z.mod_le (st_wrong (stats r) + 1) (2 ^ 64)). lia. }
  lia.
Qed.

(** ** A concrete trace *)

(** A loop: a branch backwards, taken three times, then a return. *)
Definition sample_trace : list btrace_record_t :=
  replicate 3 (BRecord 0x80000010 0xfe0008e3 0x80000000) ++ [BRecord 0x80000010 0xfe0008e3 0x80000014; BRecord 0x80000014 0x00008067 0x80000100].

Lemma sample_trace_ok : trace_ok sample_trace.
Proof. split_and!; [by repeat constructor | by repeat constructor | done]. Qed.

Definition sample_file (p : list Z) : option (list Z) :=
  if bool_decide (p = bytes "btrace.bin") then Some (btrace_pack_close (foldl btrace_pack_add btrace_pack_create sample_trace)) else None.

Lemma branchsim_runs_witness :
  exists rs rtls, branchsim_main sample_file (fun _ => None) false true (bytes "btrace.bin") = Ok (Some (rs, rtls)) /\
    length rs = 28%nat /\ Forall (algo_ok 5) rs /\ config <$> rtls = rtl_configs true /\ Forall (model_ok 5) rtls.
Proof.
  destruct (branchsim_runs sample_file (fun _ => None) (fun _ => None)) with (rtl_only := false) (search := true)
    (path := bytes "btrace.bin") (l := sample_trace) as [H _].
  - done.
  - split; [apply sample_trace_ok |]. split; [done |]. eexists. split; [reflexivity |]. reflexivity.
  - apply H, sample_trace_ok.
Defined.

Lemma profiler_agrees_witness :
  (profiler_trace true sample_trace).2 = 3 /\
  exists r, run_trace rtl_process sample_trace (RtlModelRunner_init (MkRtlConfig "" 32 SkipConflictingNotTaken [] 0 0)) = Ok r /\
    st_wrong (stats r) = (profiler_trace true sample_trace).2.
Proof.
  split; [vm_compute; reflexivity |].
  apply (profiler_agrees true sample_trace); try done. apply sample_trace_ok.
Defined.

Lemma steady_branch_learned_witness :
  exists r r', RtlModelRunner_init (MkRtlConfig "" 64 SecondChanceJal [] 0 0) = Ok r /\
    run_trace rtl_process (replicate 1000 (BRecord 0x80000010 0xfe0008e3 0x80000000)) (Ok r) = Ok r' /\
    st_wrong (stats r') <= st_wrong (stats r) + 2.
Proof.
  destruct (rtl_init_ok (MkRtlConfig "" 64 SecondChanceJal [] 0 0) eq_refl) as (r & E & Hm & Hc). exists r.
  destruct (steady_branch_learned (BRecord 0x80000010 0xfe0008e3 0x80000000) r 0 1000) as (r' & H); try done; try (by rewrite Hc).
  by exists r'.
Defined.
