(* ===== verification/EmulatorTrace.v ===== *)
(** The emulator and the branch simulator together: a branch trace recorded while the
    emulator runs (nemu inst.c, [g_btrace_pack]) is one the simulator accepts. *)

From S2P Require Import Prelude Memory Devices Cpu TracePack BranchSim BranchSimCorrect.

#[local] Open Scope cint_scope.

(** The recorded triples as records of the trace file. *)
Definition records (l : list (Z * Z * Z)) : list btrace_record_t := (fun '(p, inst, dnpc) => BRecord p inst dnpc) <$> l.

Section emulator.
  Context (cfg : Memory.config) (enc : encoding) (Henc : encoding_ok enc) {D : Type} `{!MmioBus D} `{!DevicePoll D}.
  Context (execute_instruction : Z -> Z -> machine D -> res (Z * Z * machine D)).
  (** The generated interpreter has no access to the traces and returns a 32-bit address. *)
  Context (Hexec : forall inst p m r tmp m',
    execute_instruction inst p m = Ok (r, tmp, m') -> tr m' = tr m /\ in_range 32 tmp).
  Implicit Types m : machine D.

(** All branches so far are in the trace, which has control instructions only. *)
Definition traced m : Prop :=
  exists l, g_btrace_pack (tr m) = Some l /\ Forall record_ok (records l) /\
    Forall (fun r => is_control (r_code r) = true) (records l) /\ g_nbranches (tr m) = u64 (Z.of_nat (length l)).

Lemma traced_tr m m' : tr m' = tr m -> traced m -> traced m'.
Proof. unfold traced. by intros ->. Qed.

(** The instructions the emulator records are control instructions. *)
Lemma recorded_control inst :
  is_branch inst || is_std enc inst S_JALR || is_std enc inst S_JAL = true -> is_control inst = true.
Proof.
  assert (forall i, is_std enc inst i = true -> inst &&& 0x7f = match i with S_JAL => 0x6f | S_JALR => 0x67 | _ => 0x73 end) as H.
  { intros i E. unfold is_std in E. apply Z.eqb_eq in E. rewrite <- (eo_match _ Henc i), <- E, <- Z.land_assoc, (eo_mask _ Henc i). done. }
  unfold is_control, is_conditional_branch, is_jal_code, is_jalr, is_branch. intros E.
  destruct ((inst &&& 0x7f) =? 0x63); [done |]. cbn [orb] in *. apply orb_prop in E as [E | E]; apply H in E; rewrite E; done.
Qed.

Lemma record_branch_traced p inst dnpc m :
  in_range 32 p -> in_range 32 inst -> in_range 32 dnpc -> traced m -> traced (record_branch enc p inst dnpc m).
Proof.
  intros Hp Hi Hd (l & El & Hl & Hc & Hn). unfold record_branch. destruct (_ || _) eqn:E; [| by exists l].
  apply recorded_control in E. exists (l ++ [(p, inst, dnpc)]). cbn [tr set_traces g_btrace_pack g_nbranches]. rewrite El, Hn.
  unfold records in *. rewrite fmap_app. split_and!; [done | by apply Forall_app; split; [| constructor] | by apply Forall_app; split; [| constructor] |].
  rewrite wrap_add_l, length_app. f_equal. cbn. lia.
Qed.

Lemma set_nemu_state_tr s p r m : tr (set_nemu_state s p r m) = tr m.
Proof. unfold set_nemu_state. by destruct (sdb_inited m). Qed.

Lemma decode_exec_traced inst p snpc m dnpc m' :
  in_range 32 p -> in_range 32 inst -> in_range 32 snpc -> traced m ->
  decode_exec cfg enc execute_instruction inst p snpc m = Ok (dnpc, m') -> traced m'.
Proof.
  intros Hp Hi Hs Hm E. unfold decode_exec in E.
  apply bind_ok in E as ([[matched d1] m1] & E1 & E). apply bind_ok in E as ([d2 m2] & E2 & E).
  apply bind_ok in E as (m3 & E3 & [= <- <-]). apply (set_R_keeps cfg tr) in E3; [| done]. apply (traced_tr m2); [done |].
  assert (traced m1 /\ in_range 32 d1) as [Hm1 Hd1].
  { destruct (negb _); [| by injection E1 as _ <- <-]. apply bind_ok in E1 as ([[r tmp] mx] & E1 & [= _ <- <-]).
    destruct (Hexec _ _ _ _ _ _ E1) as [Ht Htmp]. split; [by apply (traced_tr m) | by destruct (r =? 0)]. }
  pose proof (record_branch_traced p inst d1 m1 Hp Hi Hd1 Hm1) as Hr. revert E2 Hr. generalize (record_branch enc p inst d1 m1) as mr. intros mr E2 Hr.
  destruct (_ || _); [by injection E2 as _ <- |]. destruct (_ && _); [by injection E2 as _ <-; apply (traced_tr mr) |].
  destruct (find_instr enc inst) as [i |].
  - apply (exec_instr_keeps cfg enc tr) in E2 as [E2 | [a0 ->]]; try done; [by apply (traced_tr mr) |].
    by apply (traced_tr mr); [apply set_nemu_state_tr |].
  - apply bind_ok in E2 as (mi & Ei & [= _ <-]). apply (invalid_inst_keeps cfg tr) in Ei as (m4 & E4 & ->); [| done].
    apply (traced_tr mr); [by rewrite set_nemu_state_tr | done].
Qed.

Lemma exec_once_traced p m m' :
  in_range 32 p -> traced m -> exec_once cfg enc execute_instruction p m = Ok m' -> traced m' /\ in_range 32 (pc (cpu m')).
Proof.
  intros Hp Hm E. unfold exec_once, isa_exec_once in E. apply bind_ok in E as ([dnpc m2] & E & [= <-]).
  apply bind_ok in E as ([[inst s] m1] & E1 & E). split; [| cbn; apply wrap_range; lia]. apply (traced_tr m2); [done |].
  assert (in_range 32 inst /\ in_range 32 s /\ tr m1 = tr m) as (Hi & Hs & Ht).
  { unfold inst_fetch in E1. apply bind_ok in E1 as ([w g] & _ & [= <- <- <-]). split_and!; [apply wrap_range; lia.. | done]. }
  refine (decode_exec_traced inst p s _ dnpc m2 Hp Hi Hs _ E). destruct Hm as (l & Hm). exists l.
  rewrite <- Ht in Hm. by destruct (isSoC cfg).
Qed.

Lemma execute_traced n m m' :
  in_range 32 (pc (cpu m)) -> traced m -> execute cfg enc execute_instruction n m = Ok m' -> traced m' /\ in_range 32 (pc (cpu m')).
Proof.
  revert m. induction n as [|n IH]; intros m Hp Hm E; [by injection E as <- |]. cbn [execute] in E. apply bind_ok in E as (m1 & E1 & E).
  apply exec_once_traced in E1 as [Hm1 Hp1]; [| done | done]. assert (traced (count_inst m1)) as Hc by (destruct Hm1 as (l & H); by exists l).
  destruct (negb _); [by injection E as <- |]. apply bind_ok in E as (m2 & E2 & E).
  assert (tr m2 = tr (count_inst m1) /\ cpu m2 = cpu (count_inst m1)) as [Ht Hcpu].
  { unfold poll_devices in E2. destruct (CONFIG_DEVICE cfg); [| by injection E2 as <-]. destruct (guest (count_inst m1)) as [mem d].
    apply bind_ok in E2 as ([s d'] & _ & [= <-]). done. }
  apply (IH m2); [by rewrite Hcpu | by apply (traced_tr (count_inst m1)) | done].
Qed.

Lemma cpu_exec_traced n m m' :
  in_range 32 (pc (cpu m)) -> traced m -> cpu_exec cfg enc execute_instruction n m = Ok m' -> traced m'.
Proof.
  intros Hp Hm E. unfold cpu_exec in E.
  assert (forall s, (m1 ← execute cfg enc execute_instruction n (with_state s m);
    Ok (match state (nemu_state m1) with NEMU_RUNNING => with_state NEMU_STOP m1 | _ => m1 end)) = Ok m' -> traced m') as H.
  { intros s E1. apply bind_ok in E1 as (m1 & E1 & [= <-]). apply execute_traced in E1 as [E1 _]; [| done | by apply (traced_tr m)].
    by destruct (state (nemu_state m1)); [apply (traced_tr m1) | ..]. }
  destruct (state (nemu_state m)); try (by eapply H); by injection E as <-.
Qed.

Section simulate.
  Context (file popen bunzip2 : list Z -> option (list Z)).
  Context (Hpopen : forall cmd p bs out, sh_words false None cmd = Some [bytes "bzip2"; bytes "-dc"; bytes "--"; p] ->
    file p = Some bs -> bunzip2 bs = Some out -> popen cmd = Some out).

(** C11. What the emulator records, the simulator replays.  Run any number of instructions of
    any program with an empty branch trace, close the trace, and hand the file - as it is
    or compressed - to branchsim: the simulation runs to the end without a failed
    assertion, and every algorithm and every hardware model has counted exactly the
    branches the emulator reports as [total branches]. *)
Theorem emulator_trace_simulated n m m' l path bs rtl_only search :
  in_range 32 (pc (cpu m)) -> g_btrace_pack (tr m) = Some [] -> g_nbranches (tr m) = 0 ->
  cpu_exec cfg enc execute_instruction n m = Ok m' -> g_btrace_pack (tr m') = Some l -> Z.of_nat (length l) < 2 ^ 32 ->
  file path = Some bs ->
  (let recorded := btrace_pack_close (foldl btrace_pack_add btrace_pack_create (records l)) in
   if ends_with (bytes ".bz2") path then bunzip2 bs = Some recorded else bs = recorded) ->
  exists rs rtls, branchsim_main file popen rtl_only search path = Ok (Some (rs, rtls)) /\
    Forall (fun r => total r = g_nbranches (tr m')) rs /\ Forall (fun r => st_total (stats r) = g_nbranches (tr m')) rtls.
Proof.
  intros Hp Hb Hn E El Hlen Hf Hbs.
  assert (traced m) as Hm by (exists []; rewrite Hb, Hn; done).
  destruct (cpu_exec_traced n m m' Hp Hm E) as (l' & El' & Hl & Hc & Hn'). rewrite El in El'. injection El' as <-.
  assert (length (records l) = length l) as HL by apply length_fmap.
  destruct (branchsim_ok file popen bunzip2 Hpopen rtl_only search path (records l)) as (rs & rtls & Em & _ & Ha & _ & Hr); [| done |].
  { split; [done |]. rewrite HL. split; [done |]. by exists bs. }
  exists rs, rtls. rewrite HL in Ha, Hr. rewrite Hn', (wrap_small 64) by (unfold in_range; lia). split_and!; [done | |].
  - eapply Forall_impl; [exact Ha |]. intros r Hr0. apply Hr0.
  - eapply Forall_impl; [exact Hr |]. intros r [_ Hr0]. apply Hr0.
Qed.
End simulate.
End emulator.

(** ** A concrete run *)

#[local] Instance no_bus : MmioBus () := {| bus_read _ _ _ := Fault FAssert; bus_write _ _ _ _ := Fault FAssert |}.
#[local] Instance no_poll : DevicePoll () := fun s d => Ok (s, d).

(** An interpreter that knows only [jal] without a link register. *)
Definition jump_only (inst p : Z) (m : machine ()) : res (Z * Z * machine ()) :=
  if (inst &&& 0x7f) =? 0x6f then Ok (0, u32 (p + get_j_imm inst), m) else Ok (1, u32 p, m).

Lemma jump_only_ok inst p m r tmp m' : jump_only inst p m = Ok (r, tmp, m') -> tr m' = tr m /\ in_range 32 tmp.
Proof. unfold jump_only. destruct (_ =? _); intros [= _ <- <-]; split; try done; apply wrap_range; lia. Qed.

(** j 8; ebreak; j -4 *)
Definition jump_program : list Z := [0x0080006f; 0x00100073; 0xffdff06f].

Definition jump_machine : machine () :=
  let mem := Memory (fun r => if decide (r = Pmem) then
    mem_of 0 (concat ((fun w => [u8 w; u8 (w >>> 8); u8 (w >>> 16); u8 (w >>> 24)]) <$> jump_program)) else fun _ => 0) None in
  Machine (CpuState (replicate 32 0) 0x80000000 (replicate 32 (0, 0)) 0) initial_csrs
    (NumericDfa.NumericDfa (replicate 8 0) (replicate 8 0) 0) 0 (mem, tt) (NemuState NEMU_STOP 0 0) true
    (Traces 0 (Some []) None 0).

Definition jumps : list (Z * Z * Z) := [(0x80000000, 0x0080006f, 0x80000008); (0x80000008, 0xffdff06f, 0x80000004)].

Lemma ok_inv {A} (P : A -> Prop) (x : res A) : match x with Ok a => P a | Fault _ => False end -> exists a, x = Ok a /\ P a.
Proof. destruct x as [a |]; [| done]. intros H. by exists a. Qed.

Lemma jump_run :
  exists m', cpu_exec (default_config false) riscv_encoding jump_only 10 jump_machine = Ok m' /\
    g_nbranches (tr m') = 2 /\ g_btrace_pack (tr m') = Some jumps.
Proof. apply ok_inv. vm_compute. done. Qed.

Lemma emulator_trace_witness :
  let bs := btrace_pack_close (foldl btrace_pack_add btrace_pack_create (records jumps)) in
  exists m' rs rtls,
    cpu_exec (default_config false) riscv_encoding jump_only 10 jump_machine = Ok m' /\ g_nbranches (tr m') = 2 /\
    branchsim_main (fun _ => Some bs) (fun _ => None) false false (bytes "btrace.bin") = Ok (Some (rs, rtls)) /\
    Forall (fun r => total r = g_nbranches (tr m')) rs /\ Forall (fun r => st_total (stats r) = g_nbranches (tr m')) rtls.
Proof.
  intros bs.
  destruct jump_run as (m' & E & Hn & Hb).
  assert (in_range 32 (pc (cpu jump_machine))) as Hp by (cbn; unfold in_range; lia).
  destruct (emulator_trace_simulated (default_config false) riscv_encoding riscv_encoding_ok jump_only jump_only_ok
    (fun _ => Some bs) (fun _ => None) (fun _ => None) (fun _ _ _ _ _ _ H => ltac:(discriminate H))
    10 jump_machine m' jumps (bytes "btrace.bin") bs false false Hp eq_refl eq_refl E Hb eq_refl eq_refl eq_refl) as (rs & rtls & H).
  exists m', rs, rtls. split; [exact E |]. split; [exact Hn | exact H].
Defined.
