(* ===== verification/CacheSim.v ===== *)
(** The offline instruction-cache simulator (cachesim/src/main.cc): a direct-mapped cache
    that keeps tags only, fed from an address trace (TracePack), for 42 geometries spread
    over 14 threads.

    The threads share nothing but the read-only list of geometries: each opens its own
    trace.  The statistics file is not modelled. *)

From S2P Require Import Prelude TracePack BranchSim.

#[local] Open Scope cint_scope.

Definition extractBits (num high low : Z) : res Z :=
  _ ← c_assert (low <=? high);
  _ ← c_assert (high <? 32);
  _ ← c_assert (0 <=? low);
  _ ← c_assert (high - low + 1 <? 32);
  Ok ((num >>> low) &&& u32 ((1 <<< (high - low + 1)) - 1)).

Record ICacheSim := MkICache {
  blockSize : Z; blockNum : Z; blocks : list Z; valid : list bool; totalMissCount : Z; totalAccessCount : Z }.

Definition blockSizeWidth (c : ICacheSim) : Z := countr_zero (blockSize c).
Definition blockNumWidth (c : ICacheSim) : Z := countr_zero (blockNum c).

Definition getBlockIndex (c : ICacheSim) (addr : Z) : res Z :=
  extractBits addr (blockSizeWidth c + blockNumWidth c - 1) (blockSizeWidth c).
Definition getTag (c : ICacheSim) (addr : Z) : res Z := extractBits addr 31 (blockSizeWidth c + blockNumWidth c).
Definition getBlockOffset (c : ICacheSim) (addr : Z) : res Z := extractBits addr (blockSizeWidth c - 1) 0.

Definition ICacheSim_init (bSize bNum : Z) : res ICacheSim :=
  _ ← c_assert (has_single_bit bSize);
  _ ← c_assert (has_single_bit bNum);
  Ok (MkICache bSize bNum (replicate (Z.to_nat bNum) 0) (replicate (Z.to_nat bNum) false) 0 0).

Definition access (c : ICacheSim) (addr : Z) : res ICacheSim :=
  let accesses := u64 (totalAccessCount c + 1) in
  bIndex ← getBlockIndex c addr;
  tag ← getTag c addr;
  v ← vget (valid c) bIndex;
  t ← vget (blocks c) bIndex;
  if negb v || negb (t =? tag) then
    bl ← vset (blocks c) bIndex tag;
    va ← vset (valid c) bIndex true;
    Ok (MkICache (blockSize c) (blockNum c) bl va (u64 (totalMissCount c + 1)) accesses)
  else Ok (MkICache (blockSize c) (blockNum c) (blocks c) (valid c) (totalMissCount c) accesses).

(** [sim] up to the statistics; [trace] is the decompressed trace. *)
Definition sim (trace : option (list Z)) (fuel : nat) (blockSize blockNum : Z) : res ICacheSim :=
  pack ← itrace_pack_open trace;
  icache ← ICacheSim_init blockSize blockNum;
  r ← pickone_loop (fun pc c => c ← c; access c pc) fuel pack (Ok icache);
  r.

(** [for (bs = 4; bs <= 256; bs *= 2) for (bn = 16; bn <= 512; bn *= 2)] *)
Fixpoint doubling (n : nat) (x max : Z) : list Z :=
  match n with O => [] | S n => if x <=? max then x :: doubling n (x * 2) max else [] end.
Definition parmlist : list (Z * Z) :=
  flat_map (fun bs => (fun bn => (bs, bn)) <$> doubling 64 16 512) (doubling 64 4 256).

Definition numThreads : nat := 14.
Definition tasksPerThread : nat := 3.

(** The geometries of thread [i], in its order; an index past the list is undefined. *)
Definition thread_tasks (i : nat) : res (list (Z * Z)) :=
  res_all ((fun j => vget parmlist (Z.of_nat (i * tasksPerThread + j))) <$> seq 0 tasksPerThread).

(** What thread [i] simulates. *)
Definition thread (trace : option (list Z)) (fuel i : nat) : res (list ICacheSim) :=
  tasks ← thread_tasks i; res_all ((fun '(bs, bn) => sim trace fuel bs bn) <$> tasks).

Definition cachesim_main (trace : option (list Z)) (fuel : nat) : res (list ICacheSim) :=
  rs ← res_all (thread trace fuel <$> seq 0 numThreads); Ok (concat rs).

(** ** Geometry *)

(** Block size [2 ^ w] and [2 ^ n] blocks. *)
Record cache_ok (w n : Z) (c : ICacheSim) : Prop := {
  ko_w : 2 <= w; ko_n : 1 <= n; ko_wn : w + n < 32;
  ko_size : blockSize c = 2 ^ w; ko_num : blockNum c = 2 ^ n;
  ko_blocks : Z.of_nat (length (blocks c)) = 2 ^ n; ko_valid : Z.of_nat (length (valid c)) = 2 ^ n }.

Lemma countr_zero_pow2 k : 0 <= k -> countr_zero (2 ^ k) = k.
Proof.
  intros Hk. unfold countr_zero. assert (2 ^ k &&& - 2 ^ k = 2 ^ k) as ->; [| by apply Z.log2_pow2].
  apply Z.bits_inj'. intros i Hi. rewrite Z.land_spec. destruct (Z.eq_dec i k) as [-> |].
  - rewrite Z.pow2_bits_true by lia. cbn [andb]. replace (- 2 ^ k) with (Z.lnot (Z.ones k)) by (rewrite Z.ones_equiv; unfold Z.lnot; lia).
    rewrite Z.lnot_spec, Z.testbit_ones_nonneg by lia. by rewrite (proj2 (Z.ltb_ge k k)) by lia.
  - by rewrite Z.pow2_bits_false by lia.
Qed.

Lemma extractBits_ok num high low :
  0 <= low <= high -> high < 32 -> high - low + 1 < 32 -> extractBits num high low = Ok (num / 2 ^ low mod 2 ^ (high - low + 1)).
Proof.
  intros H1 H2 H3. unfold extractBits, c_assert.
  rewrite (proj2 (Z.leb_le low high)), (proj2 (Z.ltb_lt high 32)), (proj2 (Z.leb_le 0 low)), (proj2 (Z.ltb_lt (high - low + 1) 32)) by lia.
  cbn [mbind res_bind]. do 2 f_equal. rewrite Z.shiftl_mul_pow2, Z.mul_1_l by lia.
  assert (0 < 2 ^ (high - low + 1) < 2 ^ 32) by (split; [apply Z.pow_pos_nonneg | apply Z.pow_lt_mono_r]; lia).
  rewrite wrap_small by (unfold in_range; lia). rewrite Z.sub_1_r, <- Z.ones_equiv, Z.land_ones, Z.shiftr_div_pow2 by lia. done.
Qed.

(** The block of an address, its line and its tag. *)
Definition block (w a : Z) : Z := a / 2 ^ w.
Definition line (w n a : Z) : Z := block w a mod 2 ^ n.
Definition tag (w n a : Z) : Z := block w a / 2 ^ n.

Lemma line_range w n a : 0 <= n -> 0 <= line w n a < 2 ^ n.
Proof. intros. apply Z.mod_pos_bound, Z.pow_pos_nonneg; lia. Qed.

Section cache.
  Context (w n : Z).

Lemma index_tag_ok c a :
  cache_ok w n c -> in_range 32 a -> getBlockIndex c a = Ok (line w n a) /\ getTag c a = Ok (tag w n a).
Proof.
  intros [Hw Hn Hwn Hs Hb _ _] Ha. unfold getBlockIndex, getTag, blockSizeWidth, blockNumWidth. rewrite Hs, Hb, !countr_zero_pow2 by lia.
  rewrite !extractBits_ok by lia. unfold line, tag, block. split.
  - do 3 f_equal. lia.
  - f_equal. rewrite Z.div_div by (try apply Z.pow_nonzero; try apply Z.pow_pos_nonneg; lia). rewrite <- Z.pow_add_r by lia.
    apply Z.mod_small. unfold in_range in Ha. replace (31 - (w + n) + 1) with (32 - (w + n)) by lia.
    assert (0 < 2 ^ (w + n)) by (apply Z.pow_pos_nonneg; lia). split; [apply Z.div_pos; lia |].
    apply Z.div_lt_upper_bound; [lia |]. rewrite <- Z.pow_add_r by lia. replace (w + n + (32 - (w + n))) with 32 by lia. lia.
Qed.

(** Whether an access hits. *)
Definition hits (c : ICacheSim) (a : Z) : bool :=
  aget false (valid c) (line w n a) && (aget 0 (blocks c) (line w n a) =? tag w n a).

(** [access] as a pure function. *)
Definition accessed (c : ICacheSim) (a : Z) : ICacheSim :=
  MkICache (blockSize c) (blockNum c) (aset (blocks c) (line w n a) (tag w n a)) (aset (valid c) (line w n a) true)
    (if hits c a then totalMissCount c else u64 (totalMissCount c + 1)) (u64 (totalAccessCount c + 1)).

Lemma accessed_ok c a : cache_ok w n c -> cache_ok w n (accessed c a).
Proof. intros []. split; cbn; by rewrite ?length_aset. Qed.

Lemma vget_aget {A} (d : A) (v : list A) i : 0 <= i < Z.of_nat (length v) -> vget v i = Ok (aget d v i).
Proof.
  intros Hi. unfold vget, aget. rewrite nth_lookup. by destruct (lookup_lt_is_Some_2 v (Z.to_nat i)) as [x ->]; [lia |].
Qed.

Lemma access_accessed c a : cache_ok w n c -> in_range 32 a -> access c a = Ok (accessed c a).
Proof.
  intros Hc Ha. destruct (index_tag_ok c a Hc Ha) as [Ei Et]. destruct Hc as [Hw Hn Hwn Hs Hb Hbl Hv].
  pose proof (line_range w n a ltac:(lia)) as Hl. unfold access. rewrite Ei, Et. cbn [mbind res_bind].
  rewrite (vget_aget false), (vget_aget 0) by lia. cbn [mbind res_bind]. unfold accessed, hits.
  destruct (aget false (valid c) (line w n a)) eqn:Ev, (Z.eqb_spec (aget 0 (blocks c) (line w n a)) (tag w n a)) as [Eb |]; cbn [negb orb andb].
  1: { do 2 f_equal; symmetry; [rewrite <- Eb | rewrite <- Ev]; apply aset_aget; lia. }
  all: unfold vset; rewrite Hbl, Hv, (proj2 (Z.ltb_lt _ _)) by lia; done.
Qed.

(** ** Order *)

(** Two sequential addresses are in one block or in different lines, so their order does
    not matter. *)
Lemma sequential_lines a : 2 <= w -> 1 <= n -> 0 <= a -> a mod 4 = 0 ->
  block w (a + 4) = block w a \/ line w n (a + 4) <> line w n a.
Proof.
  intros Hw Hn Ha H4. unfold line, block.
  assert (2 ^ w = 4 * 2 ^ (w - 2)) as Hp by (change 4 with (2 ^ 2); rewrite <- Z.pow_add_r by lia; f_equal; lia).
  assert (2 ^ n = 2 * 2 ^ (n - 1)) as Hq by (rewrite <- Z.pow_succ_r by lia; f_equal; lia).
  assert (0 < 2 ^ (w - 2) /\ 0 < 2 ^ (n - 1)) as [P1 P2] by (split; apply Z.pow_pos_nonneg; lia).
  set (s := 2 ^ w) in *. set (m := 2 ^ n) in *. pose proof (Z.div_mod a s ltac:(lia)) as E. pose proof (Z.mod_pos_bound a s ltac:(lia)) as Hr.
  destruct (Z.ltb_spec (a mod s + 4) s) as [Hlt | Hge].
  - left. symmetry. apply (Z.div_unique_pos _ _ _ (a mod s + 4)); lia.
  - right. assert ((a + 4) / s = a / s + 1) as ->.
    { symmetry. apply (Z.div_unique_pos _ _ _ (a mod s + 4 - s)); lia. }
    set (q := a / s). pose proof (Z.div_mod q m ltac:(lia)). pose proof (Z.div_mod (q + 1) m ltac:(lia)). intros Heq. 
    assert (m * ((q + 1) / m - q / m) = 1) by lia. assert (2 <= m) by lia. nia.
Qed.

Lemma accessed_swap c a :
  cache_ok w n c -> trace_pc a -> a + 4 < 2 ^ 32 -> accessed (accessed c a) (a + 4) = accessed (accessed c (a + 4)) a.
Proof.
  intros [Hw Hn Hwn Hs Hb Hbl Hv] [Ha H4] Hlt. pose proof (line_range w n a ltac:(lia)) as L1. pose proof (line_range w n (a + 4) ltac:(lia)) as L2.
  destruct (sequential_lines a Hw Hn ltac:(lia) H4) as [E | Hne].
  - unfold accessed, hits, line, tag. cbn [blockSize blockNum blocks valid totalMissCount totalAccessCount]. by rewrite E.
  - assert (forall x y, x <> y -> 0 <= x < 2 ^ n -> 0 <= y < 2 ^ n -> forall A (l : list A) u v, aset (aset l x u) y v = aset (aset l y v) x u) as Hcomm.
    { intros x y Hxy Hx Hy A l u v. unfold aset. apply list_insert_insert_ne. lia. }
    unfold accessed, hits. cbn [blockSize blockNum blocks valid totalMissCount totalAccessCount].
    rewrite !aget_aset_ne by lia. rewrite !(Hcomm (line w n a) (line w n (a + 4))) by (done || congruence).
    f_equal. repeat case_match; try done.
Qed.

Lemma fold_accessed_ok l : forall c, cache_ok w n c -> cache_ok w n (foldl accessed c l).
Proof. induction l as [|a l IH]; intros c Hc; [done |]. apply IH. by apply accessed_ok. Qed.

Lemma fold_picked l : forall c, cache_ok w n c -> Forall trace_pc l -> foldl accessed c (picked l) = foldl accessed c l.
Proof.
  assert (forall k l c, (length l <= k)%nat -> cache_ok w n c -> Forall trace_pc l -> foldl accessed c (picked l) = foldl accessed c l) as H;
    [| intros c; by apply (H (length l))].
  clear l. induction k as [|k IH]; intros l c Hk Hc Hl; [by destruct l; cbn in *; [| lia] |].
  destruct l as [|a [|b l]]; [done | done |]. cbn [picked length] in *. apply Forall_cons_1 in Hl as [Ha Hl].
  destruct (Z.eqb_spec b (a + 4)) as [-> |].
  - apply Forall_cons_1 in Hl as [[Hb _] Hl]. cbn [foldl]. rewrite accessed_swap by (done || lia). apply IH; [lia | by repeat apply accessed_ok | done].
  - cbn [foldl]. rewrite (IH (b :: l)); [done | cbn; lia | by apply accessed_ok | done].
Qed.
End cache.

(** ** Misses *)

(** An access hits when the last access to its line was to its block; [past] is the
    history, most recent first. *)
Definition resident (w n : Z) (past : list Z) (a : Z) : bool :=
  match List.find (fun b => line w n b =? line w n a) past with Some b => block w b =? block w a | None => false end.

Fixpoint misses (w n : Z) (past l : list Z) : Z :=
  match l with [] => 0 | a :: l => (if resident w n past a then 0 else 1) + misses w n (a :: past) l end.

(** The cache holds the last block of every line. *)
Definition remembers (w n : Z) (past : list Z) (c : ICacheSim) : Prop :=
  forall i, 0 <= i < 2 ^ n ->
  match List.find (fun b => line w n b =? i) past with
  | Some b => aget false (valid c) i = true /\ aget 0 (blocks c) i = tag w n b
  | None => aget false (valid c) i = false
  end.

Lemma misses_range w n l : forall past, 0 <= misses w n past l <= Z.of_nat (length l).
Proof. induction l as [|a l IH]; intros past; [done |]. cbn [misses length]. specialize (IH (a :: past)). destruct (resident w n past a); lia. Qed.

Lemma remembers_hits w n past c a : 0 <= n -> remembers w n past c -> hits w n c a = resident w n past a.
Proof.
  intros Hn H. specialize (H (line w n a) (line_range w n a Hn)). unfold hits, resident.
  destruct (List.find _ past) as [b |] eqn:E; [| by rewrite H]. apply find_some in E as [_ E]. apply Z.eqb_eq in E. destruct H as [-> ->]. cbn [andb].
  unfold tag, line in *. pose proof (Z.div_mod (block w a) (2 ^ n)). pose proof (Z.div_mod (block w b) (2 ^ n)).
  assert (2 ^ n <> 0) by (apply Z.pow_nonzero; lia).
  destruct (Z.eqb_spec (block w b / 2 ^ n) (block w a / 2 ^ n)) as [E' |], (Z.eqb_spec (block w b) (block w a)); try done; exfalso; [| congruence].
  rewrite E, E' in *. lia.
Qed.

Lemma remembers_accessed w n past c a :
  cache_ok w n c -> remembers w n past c -> remembers w n (a :: past) (accessed w n c a).
Proof.
  intros [Hw Hn Hwn Hs Hb Hbl Hv] H i Hi. cbn [List.find]. pose proof (line_range w n a ltac:(lia)). cbn [accessed valid blocks].
  destruct (Z.eqb_spec (line w n a) i) as [<- |].
  - rewrite !aget_aset_eq by lia. done.
  - rewrite !aget_aset_ne by lia. by apply H.
Qed.

Lemma fold_accessed_counts w n l : forall past c k,
  cache_ok w n c -> remembers w n past c -> totalAccessCount c = k -> 0 <= totalMissCount c <= k -> k + Z.of_nat (length l) < 2 ^ 64 ->
  totalAccessCount (foldl (accessed w n) c l) = k + Z.of_nat (length l) /\
  totalMissCount (foldl (accessed w n) c l) = totalMissCount c + misses w n past l.
Proof.
  induction l as [|a l IH]; intros past c k Hc HR Hk Hm Hmax; cbn [foldl misses length] in *; [lia |].
  pose proof (remembers_hits w n past c a ltac:(destruct Hc; lia) HR) as Hh.
  destruct (IH (a :: past) (accessed w n c a) (k + 1)) as [E1 E2];
    [by apply accessed_ok | by apply remembers_accessed | cbn; rewrite Hk; apply wrap_small; unfold in_range; lia | | lia |].
  - cbn [accessed totalMissCount]. destruct (hits w n c a); [lia |]. rewrite wrap_small by (unfold in_range; lia). lia.
  - rewrite E1, E2. cbn [accessed totalMissCount]. rewrite Hh. destruct (resident w n past a); [lia |].
    rewrite wrap_small by (unfold in_range; lia). lia.
Qed.

Lemma init_ok w n : 2 <= w -> 1 <= n -> w + n < 32 -> has_single_bit (2 ^ w) = true -> has_single_bit (2 ^ n) = true ->
  exists c, ICacheSim_init (2 ^ w) (2 ^ n) = Ok c /\ cache_ok w n c /\ remembers w n [] c /\ totalMissCount c = 0 /\ totalAccessCount c = 0.
Proof.
  intros Hw Hn Hwn H1 H2. unfold ICacheSim_init. rewrite H1, H2. cbn [c_assert mbind res_bind]. eexists. split; [done |].
  assert (0 < 2 ^ n) by (apply Z.pow_pos_nonneg; lia). split; [split; cbn; rewrite ?length_replicate; lia |]. split; [| done].
  intros i Hi. cbn [List.find valid]. unfold aget. by rewrite nth_lookup, lookup_replicate_2 by lia.
Qed.

(** A simulation of one geometry. *)
Lemma sim_ok w n l bs p :
  2 <= w -> 1 <= n -> w + n < 32 -> has_single_bit (2 ^ w) = true -> has_single_bit (2 ^ n) = true ->
  Forall trace_pc l -> Z.of_nat (length l) < 2 ^ 64 -> itrace_pack_open (Some bs) = Ok p ->
  (forall (body : Z -> res ICacheSim -> res ICacheSim) st,
    pickone_loop body (S (length l)) p st = Ok (foldl (fun st a => body a st) st (picked l))) ->
  exists c, sim (Some bs) (S (length l)) (2 ^ w) (2 ^ n) = Ok c /\ blockSize c = 2 ^ w /\ blockNum c = 2 ^ n /\
    totalAccessCount c = Z.of_nat (length l) /\ totalMissCount c = misses w n [] l.
Proof.
  intros Hw Hn Hwn H1 H2 Hl Hmax Eo Hloop. destruct (init_ok w n Hw Hn Hwn H1 H2) as (c0 & E0 & Hc0 & HR & Hm0 & Ha0).
  unfold sim. rewrite Eo. cbn [mbind res_bind]. rewrite E0. cbn [mbind res_bind]. rewrite Hloop. cbn [mbind res_bind].
  assert (forall l c, cache_ok w n c -> Forall trace_pc l ->
    foldl (fun (st : res ICacheSim) a => c ← st; access c a) (Ok c) l = Ok (foldl (accessed w n) c l)) as Hfold.
  { clear. induction l as [|a l IH]; intros c Hc Hl; [done |]. apply Forall_cons_1 in Hl as [[Ha _] Hl]. cbn [foldl mbind res_bind].
    rewrite (access_accessed w n c a) by (done || (unfold in_range; lia)). apply IH; [by apply accessed_ok | done]. }
  rewrite Hfold by (done || by rewrite picked_perm). rewrite fold_picked by done. eexists. split; [done |].
  destruct (fold_accessed_counts w n l [] c0 0 Hc0 HR Ha0 ltac:(lia) ltac:(lia)) as [Ea Em].
  destruct (fold_accessed_ok w n l c0 Hc0) as [_ _ _ Hs Hb _ _]. split_and!; [done | done | lia | lia].
Qed.

(** ** The whole program *)

Definition geometry_ok (g : Z * Z) : Prop :=
  exists w n, g = (2 ^ w, 2 ^ n) /\ 2 <= w /\ 1 <= n /\ w + n < 32 /\ has_single_bit (2 ^ w) = true /\ has_single_bit (2 ^ n) = true.

Lemma parmlist_ok : Forall geometry_ok parmlist.
Proof.
  assert (forallb (fun '(bs, bn) => bool_decide (bs = 2 ^ Z.log2 bs) && bool_decide (bn = 2 ^ Z.log2 bn) && (2 <=? Z.log2 bs) && (1 <=? Z.log2 bn) &&
    (Z.log2 bs + Z.log2 bn <? 32) && has_single_bit bs && has_single_bit bn) parmlist = true) as H by (vm_compute; reflexivity).
  apply Forall_forall. intros [bs bn] Hin. rewrite forallb_forall in H. specialize (H _ (proj1 (list_elem_of_In _ _) Hin)).
  repeat (apply andb_prop in H as [H ?]). apply bool_decide_eq_true in H as E1.
  match goal with E : bool_decide (bn = _) = true |- _ => apply bool_decide_eq_true in E as E2 end.
  exists (Z.log2 bs), (Z.log2 bn). rewrite <- E1, <- E2. split_and!; try done; lia.
Qed.

(** The threads' tasks together are the geometries, each once. *)
Lemma threads_cover : exists tss, res_all (thread_tasks <$> seq 0 numThreads) = Ok tss /\ concat tss = parmlist.
Proof. eexists. split; vm_compute; reflexivity. Qed.

Lemma res_all_bind {A B C} (f : A -> res B) (g : B -> res C) l ys :
  res_all (f <$> l) = Ok ys -> res_all ((fun x => y ← f x; g y) <$> l) = res_all (g <$> ys).
Proof.
  revert ys. induction l as [|x l IH]; intros ys E; [by injection E as <- |]. cbn [fmap list_fmap res_all] in *.
  apply bind_ok in E as (y & Ey & E). apply bind_ok in E as (ys' & Eys & [= <-]). cbn [fmap list_fmap res_all]. rewrite Ey. cbn [mbind res_bind].
  by rewrite (IH ys' Eys).
Qed.

Lemma res_all_Forall2 {A B} (f : A -> res B) (P : A -> B -> Prop) l :
  Forall (fun x => exists y, f x = Ok y /\ P x y) l -> exists ys, res_all (f <$> l) = Ok ys /\ Forall2 P l ys.
Proof.
  induction 1 as [|x l (y & Ey & Hy) _ (ys & Eys & Hys)]; [by exists [] |]. exists (y :: ys).
  cbn [fmap list_fmap res_all]. rewrite Ey. cbn [mbind res_bind]. rewrite Eys. by split; [| constructor].
Qed.

(** What a simulation of a geometry reports for the trace [l]. *)
Definition reports (l : list Z) (g : Z * Z) (c : ICacheSim) : Prop :=
  (blockSize c, blockNum c) = g /\ totalAccessCount c = Z.of_nat (length l) /\
  totalMissCount c = misses (Z.log2 g.1) (Z.log2 g.2) [] l.

(** C31. The cache simulator reports the misses of the recorded trace.  Record any trace of
    aligned instruction addresses, and run the simulator on the file: no assertion fails,
    the 14 threads simulate each of the 42 geometries exactly once, every simulation
    counts every address, and the misses it reports are those of a direct-mapped cache on
    the trace in its original order - the pairs that come back swapped cannot change them,
    because two sequential addresses are in one block or in different lines. *)
Theorem cachesim_counts l :
  Forall trace_pc l -> head l <> Some 4 -> Z.of_nat (length l) < 2 ^ 64 ->
  exists bs sims,
    (p ← foldl (fun p a => p ← p; itrace_pack_add p a) (Ok itrace_pack_create) l; itrace_pack_close p) = Ok bs /\
    cachesim_main (Some bs) (S (length l)) = Ok sims /\ Forall2 (reports l) parmlist sims.
Proof.
  intros Hl H4 Hn. destruct (address_trace_ok (fun _ (st : ()) => st) tt l Hl H4 Hn) as (bs & p & E & Eo & _ & _).
  assert (forall (body : Z -> res ICacheSim -> res ICacheSim) st, pickone_loop body (S (length l)) p st = Ok (foldl (fun st a => body a st) st (picked l))) as Hloop.
  { intros body st. destruct (address_trace_ok body st l Hl H4 Hn) as (bs' & p' & E' & Eo' & _ & H).
    rewrite E in E'. injection E' as <-. rewrite Eo in Eo'. by injection Eo' as <-. }
  assert (Forall (fun g => exists c, (fun '(bsz, bn) => sim (Some bs) (S (length l)) bsz bn) g = Ok c /\ reports l g c) parmlist) as Hsim.
  { eapply Forall_impl; [exact parmlist_ok |]. intros g (w & n & -> & Hw & Hn1 & Hwn & H1 & H2).
    destruct (sim_ok w n l bs p Hw Hn1 Hwn H1 H2 Hl Hn Eo Hloop) as (c & Ec & Es & Eb & Ea & Em). exists c. split; [done |].
    unfold reports. cbn [fst snd]. rewrite Es, Eb, !Z.log2_pow2 by lia. done. }
  destruct threads_cover as (tss & Et & Ec). exists bs.
  assert (exists rs, res_all (thread (Some bs) (S (length l)) <$> seq 0 numThreads) = Ok rs /\ Forall2 (Forall2 (reports l)) tss rs) as (rs & Er & Hrs).
  { unfold thread. rewrite (res_all_bind thread_tasks (fun ts => res_all ((fun '(bsz, bn) => sim (Some bs) (S (length l)) bsz bn) <$> ts)) _ tss Et).
    apply res_all_Forall2. rewrite <- Ec in Hsim. apply Forall_concat in Hsim. eapply Forall_impl; [exact Hsim |]. intros ts Hts. by apply res_all_Forall2. }
  exists (concat rs). split; [done |]. unfold cachesim_main. rewrite Er. split; [done |]. rewrite <- Ec.
  clear -Hrs. induction Hrs as [|ts r tss rs H _ IH]; [done |]. cbn [concat]. by apply Forall2_app.
Qed.

Lemma cachesim_counts_witness :
  exists bs sims,
    (p ← foldl (fun p a => p ← p; itrace_pack_add p a) (Ok itrace_pack_create) [0x80000000; 0x80000004; 0x80000008; 0x80000000]; itrace_pack_close p) = Ok bs /\
    cachesim_main (Some bs) 5 = Ok sims /\ Forall2 (reports [0x80000000; 0x80000004; 0x80000008; 0x80000000]) parmlist sims.
Proof.
  apply (cachesim_counts [0x80000000; 0x80000004; 0x80000008; 0x80000000]); [by repeat constructor | done | done].
Defined.
