(* ===== verification/SocMem.v ===== *)
(** * SocMem: the memories of the RTL simulation (npc/sim/memory)

    The Verilated processor reaches its memories through functions the simulator exports
    (mrom_read, flash_read, psram_read, psram_write, sdram_read, sdram_write, sram_upd), the
    debugger through mem_guest_to_host, read_guest_mem and write_guest_mem.  Both work on the
    same containers: the region objects are copied into the list of get_mem_regions, the vectors
    behind their shared pointers are not.  Here a region names its container by an index into a
    [store], so the two views share it.

    - [Direct]: direct_mapped_mem of mregion.hpp, with the byte strobes of write_word.
    - [Sdram]: sdram_mem, whose words are spread over banks, rows, columns and blocks.
    - [Guest]: mem_dpi.cc, the search through the list of regions.
    - [Ysyx], [Npc], [Jyd]: the memories of the three systems (ysyxsoc.cc, npcsoc.cc,
      jydsoc.cc) and their initialisation. *)
From S2P Require Import Prelude.

(** ** Containers *)

(** A vector or array: [csize] elements, the [i]-th is [cdata i]. *)
Record container := Container { csize : Z; cdata : Z -> Z }.
Abbreviation store := (list container).

(** An element access outside the container is undefined. *)
Definition cell_get (st : store) (c : nat) (i : Z) : res Z :=
  match st !! c with
  | Some k => if (0 <=? i) && (i <? csize k) then Ok (cdata k i) else Fault FUndef
  | None => Fault FUndef
  end.

Definition cell_set (st : store) (c : nat) (i v : Z) : res store :=
  match st !! c with
  | Some k => if (0 <=? i) && (i <? csize k)
              then Ok (<[c := Container (csize k) (fun x => if x =? i then v else cdata k x)]> st)
              else Fault FUndef
  | None => Fault FUndef
  end.

(** Byte [k] of a little-endian word, and the word with that byte replaced. *)
Definition byte_of (w k : Z) : Z := (w >>> (8 * k)) &&& 0xff.
Definition with_byte (w k b : Z) : Z :=
  (w &&& Z.lnot (0xff <<< (8 * k))) ||| (u8 b <<< (8 * k)).

(** ** mem_region_traits *)

Record mem_region_traits := Traits { rBase : Z; rEnd : Z; rname : String.string }.

Definition new_traits (base end_ : Z) (name : String.string) : res mem_region_traits :=
  c_assert (base <? end_);; Ok (Traits base end_ name).

Definition contains (r : mem_region_traits) (addr : Z) : bool :=
  (rBase r <=? addr) && (addr <? rEnd r).

Definition assert_in_range (r : mem_region_traits) (addr : Z) : res () := c_assert (contains r addr).

(** ** direct_mapped_mem *)
Module Direct.

Record direct_mapped_mem :=
  Mem { traits : mem_region_traits; actualSizeInBytes : Z; data : nat }.

(** The constructor that allocates its vector, all zeros. *)
Definition new (base end_ : Z) (name : String.string) (actual_size : Z) (st : store)
  : res (direct_mapped_mem * store) :=
  t ← new_traits base end_ name;
  let size := if actual_size =? 0 then u32 (end_ - base) else actual_size in
  c_assert (size <=? u32 (end_ - base));;
  c_assert (size mod 4 =? 0);;
  Ok (Mem t size (length st), st ++ [Container (size / 4) (fun _ => 0)]).

(** The constructor over an array of the Verilated model. *)
Definition new_external (base end_ : Z) (name : String.string) (actual_size : Z) (ptr : nat)
  : res direct_mapped_mem :=
  t ← new_traits base end_ name;
  c_assert (actual_size <=? u32 (end_ - base));;
  c_assert (actual_size mod 4 =? 0);;
  Ok (Mem t actual_size ptr).

Definition assert_in_actual_data_range (r : direct_mapped_mem) (addr : Z) : res () :=
  c_assert (u32 (addr - rBase (traits r)) <? actualSizeInBytes r).

(** memcpy into the container, byte by byte; [k] counts the bytes already copied. *)
Fixpoint copy_bytes (c : nat) (k : Z) (src : list Z) (st : store) : res store :=
  match src with
  | [] => Ok st
  | b :: src' =>
      w ← cell_get st c (k / 4);
      st' ← cell_set st c (k / 4) (with_byte w (k mod 4) b);
      copy_bytes c (k + 1) src' st'
  end.
Definition copy_from (r : direct_mapped_mem) (src : list Z) (st : store) : res store :=
  copy_bytes (data r) 0 src st.

(** memset of the whole container. *)
Definition fill (r : direct_mapped_mem) (val : Z) (st : store) : res store :=
  match st !! data r with
  | Some k => if actualSizeInBytes r / 4 <=? csize k
              then Ok (<[data r := Container (csize k) (fun i =>
                         if (0 <=? i) && (i <? actualSizeInBytes r / 4)
                         then u8 val * 0x01010101 else cdata k i)]> st)
              else Fault FUndef
  | None => Fault FUndef
  end.

(** A host pointer: the container and the byte offset in it. *)
Definition get_data_ptr_at (r : direct_mapped_mem) (addr : Z) : res (nat * Z) :=
  assert_in_range (traits r) addr;;
  assert_in_actual_data_range r addr;;
  Ok (data r, u32 (addr - rBase (traits r)) / 4 * 4 + (addr &&& 3)).

Definition read_word (r : direct_mapped_mem) (addr : Z) (st : store) : res Z :=
  assert_in_range (traits r) addr;;
  assert_in_actual_data_range r addr;;
  cell_get st (data r) (u32 (addr - rBase (traits r)) / 4).

Definition write_word (r : direct_mapped_mem) (addr value : Z) (st : store) : res store :=
  assert_in_range (traits r) addr;;
  assert_in_actual_data_range r addr;;
  cell_set st (data r) (u32 (addr - rBase (traits r)) / 4) value.

Definition strb32_of (strb8 : Z) : Z :=
  let strb32 := 0 in
  let strb32 := if (strb8 &&& 1) =? 0 then strb32 else strb32 ||| 0x000000ff in
  let strb32 := if (strb8 &&& 2) =? 0 then strb32 else strb32 ||| 0x0000ff00 in
  let strb32 := if (strb8 &&& 4) =? 0 then strb32 else strb32 ||| 0x00ff0000 in
  let strb32 := if (strb8 &&& 8) =? 0 then strb32 else strb32 ||| 0xff000000 in
  strb32.

(** The masked update of one word. *)
Definition merge_word (old addr value strb8 : Z) : Z :=
  let shift := (addr &&& 3) * 8 in
  let shMask := u32 (strb32_of strb8 <<< shift) in
  let shData := u32 (value <<< shift) in
  (old &&& not32 shMask) ||| (shData &&& shMask).

Definition write_word_strb (r : direct_mapped_mem) (addr value strb8 : Z) (st : store)
  : res store :=
  assert_in_range (traits r) addr;;
  assert_in_actual_data_range r addr;;
  let i := u32 (addr - rBase (traits r)) / 4 in
  old ← cell_get st (data r) i;
  cell_set st (data r) i (merge_word old addr value strb8).

End Direct.

(** ** sdram_mem *)
Module Sdram.

Definition N_BLOCKS : Z := 4.
Definition N_BANKS : Z := 4.
Definition N_ROWS : Z := 8192.
Definition N_COLS : Z := 512.

Record sdram_mem := Mem { traits : mem_region_traits; data : nat }.

Definition new (base end_ : Z) (name : String.string) (st : store) : res (sdram_mem * store) :=
  t ← new_traits base end_ name;
  let required_cont := N_BANKS * N_ROWS * N_COLS * N_BLOCKS in
  c_assert (required_cont * 2 <=? u32 (end_ - base));;
  Ok (Mem t (length st), st ++ [Container required_cont (fun _ => 0)]).

Definition cell_index (bank row col block : Z) : Z :=
  bank * (N_ROWS * N_COLS * N_BLOCKS) + row * (N_COLS * N_BLOCKS) + col * N_BLOCKS + block.

(** The reference data_at returns, as the index of its cell. *)
Definition data_at (bank row col block : Z) : res Z :=
  c_assert (bank <? N_BANKS);;
  c_assert (row <? N_ROWS);;
  c_assert (col <? N_COLS);;
  c_assert (block <? N_BLOCKS);;
  Ok (cell_index bank row col block).

Definition fill (r : sdram_mem) (val : Z) (st : store) : res store :=
  match st !! data r with
  | Some k => Ok (<[data r := Container (csize k) (fun _ => u8 val)]> st)
  | None => Fault FUndef
  end.

(** u32_data_ptr: the cells of the low and of the high half. *)
Definition get_data_at (r : sdram_mem) (addr : Z) : res (Z * Z) :=
  assert_in_range (traits r) addr;;
  let in_sdram_addr := u32 (addr - rBase (traits r)) in
  let raw_bank := (in_sdram_addr >>> 10) &&& 7 in
  let row := (in_sdram_addr >>> 13) &&& 0x1fff in
  let col := (in_sdram_addr >>> 1) &&& 0x1ff in
  let bank := raw_bank mod 4 in
  let block := if (raw_bank &&& 4) =? 0 then 0 else 2 in
  lo ← data_at bank row col block;
  hi ← data_at bank row col (block + 1);
  Ok (lo, hi).

(** Not supported: a null pointer. *)
Definition get_data_ptr_at (r : sdram_mem) (addr : Z) : res (option (nat * Z)) :=
  assert_in_range (traits r) addr;; Ok None.

Definition read_half (r : sdram_mem) (bank row col block : Z) (st : store) : res Z :=
  i ← data_at bank row col block; cell_get st (data r) i.

Definition write_half (r : sdram_mem) (bank row col block value : Z) (st : store) : res store :=
  i ← data_at bank row col block; cell_set st (data r) i value.

Definition read_word (r : sdram_mem) (addr : Z) (st : store) : res Z :=
  p ← get_data_at r addr;
  hi ← cell_get st (data r) p.2;
  lo ← cell_get st (data r) p.1;
  Ok ((hi <<< 16) ||| lo).

Definition write_word (r : sdram_mem) (addr value : Z) (st : store) : res store :=
  p ← get_data_at r addr;
  st ← cell_set st (data r) p.1 (u16 (value &&& 0xffff));
  cell_set st (data r) p.2 (u16 ((value >>> 16) &&& 0xffff)).

End Sdram.

(** ** The list of regions (mem_dpi.cc) *)
Module Guest.

Inductive mem_region :=
  | RDirect (r : Direct.direct_mapped_mem)
  | RSdram (r : Sdram.sdram_mem).

Definition region_traits (r : mem_region) : mem_region_traits :=
  match r with RDirect r => Direct.traits r | RSdram r => Sdram.traits r end.

Definition region_data (r : mem_region) : nat :=
  match r with RDirect r => Direct.data r | RSdram r => Sdram.data r end.

Definition region_ptr (r : mem_region) (addr : Z) : res (option (nat * Z)) :=
  match r with
  | RDirect r => p ← Direct.get_data_ptr_at r addr; Ok (Some p)
  | RSdram r => Sdram.get_data_ptr_at r addr
  end.

Definition region_read (r : mem_region) (addr : Z) (st : store) : res Z :=
  match r with RDirect r => Direct.read_word r addr st | RSdram r => Sdram.read_word r addr st end.

Definition region_write (r : mem_region) (addr value : Z) (st : store) : res store :=
  match r with
  | RDirect r => Direct.write_word r addr value st
  | RSdram r => Sdram.write_word r addr value st
  end.

(** The first region that holds the address and has a pointer for it. *)
Fixpoint mem_guest_to_host (rs : list mem_region) (addr : Z) : res (option (nat * Z)) :=
  match rs with
  | [] => Ok None
  | r :: rs' =>
      p ← (if contains (region_traits r) addr then region_ptr r addr else Ok None);
      match p with Some _ => Ok p | None => mem_guest_to_host rs' addr end
  end.

(** any_of with read_word, which returns true: [None] is the answer false. *)
Fixpoint read_guest_mem (rs : list mem_region) (addr : Z) (st : store) : res (option Z) :=
  match rs with
  | [] => Ok None
  | r :: rs' =>
      if contains (region_traits r) addr
      then v ← region_read r addr st; Ok (Some v)
      else read_guest_mem rs' addr st
  end.

Fixpoint write_guest_mem (rs : list mem_region) (addr value : Z) (st : store) : res (bool * store) :=
  match rs with
  | [] => Ok (false, st)
  | r :: rs' =>
      if contains (region_traits r) addr
      then st' ← region_write r addr value st; Ok (true, st')
      else write_guest_mem rs' addr value st
  end.

End Guest.

(** ** The memories of ysyxSoC (ysyxsoc.cc) *)
Module Ysyx.

Record g_mem_t := GMem {
  mrom : Direct.direct_mapped_mem;
  flash : Direct.direct_mapped_mem;
  psram : Direct.direct_mapped_mem;
  sram : Direct.direct_mapped_mem;
  sdram : Sdram.sdram_mem
}.

(** The static initialisation of g_mem. *)
Definition new_g_mem : res (g_mem_t * store) :=
  a ← Direct.new 0x20000000 0x20010000 "mrom" 0 [];
  b ← Direct.new 0x30000000 0x40000000 "flash" (64 * 1024 * 1024) a.2;
  c ← Direct.new 0x80000000 0xa0000000 "psram" (128 * 1024 * 1024) b.2;
  d ← Direct.new 0x0f000000 0x10000000 "sram" (8 * 1024) c.2;
  e ← Sdram.new 0xa0000000 0xb0000000 "sdram" d.2;
  Ok (GMem a.1 b.1 c.1 d.1 e.1, e.2).

(** The copies in the list name the containers of g_mem. *)
Definition get_mem_regions (g : g_mem_t) : list Guest.mem_region :=
  [Guest.RDirect (mrom g); Guest.RDirect (flash g); Guest.RDirect (psram g);
   Guest.RDirect (sram g); Guest.RSdram (sdram g)].

Definition fill_rams_uninit (g : g_mem_t) (zero_uninit_ram : bool) (st : store) : res store :=
  if zero_uninit_ram then
    st ← Direct.fill (psram g) 0 st;
    Sdram.fill (sdram g) 0 st
  else
    st ← Direct.fill (psram g) 0xcc st;
    Sdram.fill (sdram g) 0xdd st.

Definition init_mem (g : g_mem_t) (img : list Z) (zero_uninit_ram : bool) (st : store) : res store :=
  st ← Direct.copy_from (flash g) img st;
  fill_rams_uninit g zero_uninit_ram st.

(** The functions the Verilated model calls.  An [int32_t] address is passed on as an
    unsigned word; a [char] or [short] index is sign-extended first. *)
Definition mrom_read (g : g_mem_t) (addr : Z) (st : store) : res Z :=
  Direct.read_word (mrom g) (u32 addr) st.

Definition flash_read (g : g_mem_t) (addr : Z) (st : store) : res Z :=
  c_assert (u32 addr &&& 0xff000000 =? 0);;
  let addr := u32 (addr + rBase (Direct.traits (flash g))) in
  Direct.read_word (flash g) addr st.

Definition psram_read (g : g_mem_t) (addr : Z) (st : store) : res Z :=
  let addr := u32 (addr + rBase (Direct.traits (psram g))) in
  Direct.read_word (psram g) addr st.

Definition psram_write (g : g_mem_t) (addr strb8 data : Z) (st : store) : res store :=
  let addr := u32 (addr + rBase (Direct.traits (psram g))) in
  st ← Direct.write_word_strb (psram g) addr (u32 data) (u8 strb8) st;
  newdata ← Direct.read_word (psram g) addr st;
  Ok st.

Definition sdram_read (g : g_mem_t) (block bank row col : Z) (st : store) : res Z :=
  Sdram.read_half (sdram g) (u32 (s8 bank)) (u32 (s16 row)) (u32 (s16 col)) (u32 (s8 block)) st.

Definition sdram_merge (new_data data mask : Z) : Z :=
  let new_data := if (mask &&& 1) =? 0
                  then (new_data &&& 0xff00) ||| (data &&& 0x00ff) else new_data in
  if (mask &&& 2) =? 0 then (new_data &&& 0x00ff) ||| (data &&& 0xff00) else new_data.

Definition sdram_write (g : g_mem_t) (block bank row col data mask : Z) (st : store) : res store :=
  new_data ← sdram_read g block bank row col st;
  Sdram.write_half (sdram g) (u32 (s8 bank)) (u32 (s16 row)) (u32 (s16 col)) (u32 (s8 block))
    (u16 (sdram_merge new_data data mask)) st.

Definition sram_upd (g : g_mem_t) (addr data mask : Z) (st : store) : res store :=
  Direct.write_word_strb (sram g) (u32 addr) (u32 data) (u8 mask) st.

End Ysyx.

(** ** The memory of the plain processor (npcsoc.cc)

    [ptr] is the array of the Verilated model. *)
Module Npc.

(** init_mem: the new value of the static [_pmem_ptr] and the store. *)
Definition init_mem (ptr : nat) (img : list Z) (st : store)
  : res (option Direct.direct_mapped_mem * store) :=
  r ← Direct.new_external 0x80000000 0xa0000000 "pmem" (128 * 1024 * 1024) ptr;
  st ← Direct.copy_from r img st;
  Ok (Some r, st).

(** The static list is filled by the first call after init_mem; the answer is its new
    value. *)
Definition get_mem_regions (pmem_ptr : option Direct.direct_mapped_mem)
    (mem_regions : list Guest.mem_region) : list Guest.mem_region :=
  match mem_regions with
  | [] => match pmem_ptr with Some r => [Guest.RDirect r] | None => [] end
  | _ => mem_regions
  end.

End Npc.

(** ** The contest system (jydsoc.cc) *)
Module Jyd.

Record jyd_state := Jyd {
  irom_ptr : option Direct.direct_mapped_mem;
  dram_ptr : option Direct.direct_mapped_mem;
  mem_regions : list Guest.mem_region;
  dram_difftest_need_init_size : Z;
  last_led : Z;
  last_segs : Z
}.

Definition jyd_start : jyd_state := Jyd None None [] 0 0 0.

(** The answer, and the state with the static list it fills. *)
Definition get_mem_regions (s : jyd_state) : list Guest.mem_region * jyd_state :=
  match mem_regions s with
  | [] => match irom_ptr s, dram_ptr s with
          | Some i, Some d =>
              let l := [Guest.RDirect i; Guest.RDirect d] in
              (l, Jyd (irom_ptr s) (dram_ptr s) l (dram_difftest_need_init_size s)
                      (last_led s) (last_segs s))
          | _, _ => ([], s)
          end
  | l => (l, s)
  end.

(** A memory of the model with [n] words; [end_] is 0 when the caller leaves it out. *)
Definition MakeDirectMappedMemFromVlUnpacked (name : String.string) (ptr : nat) (n base end_ : Z)
  : res Direct.direct_mapped_mem :=
  let end_ := if end_ =? 0 then u32 (base + 4 * n) else end_ in
  Direct.new_external base end_ name (u32 (4 * n)) ptr.

(** [irom] and [dram] are the arrays of the Verilated model, [dram_file] is the content of
    the .data.bin file beside the image; exit(1) is [Fault FPanic]. *)
Definition init_mem (irom dram : nat) (irom_words dram_words : Z) (img : list Z)
    (dram_file : option (list Z)) (s : jyd_state) (st : store) : res (jyd_state * store) :=
  match dram_file with
  | None => Fault FPanic
  | Some content =>
      ir ← MakeDirectMappedMemFromVlUnpacked "irom" irom irom_words 0x80000000 0;
      dr ← MakeDirectMappedMemFromVlUnpacked "dram" dram dram_words 0x80100000 0;
      st ← Direct.copy_from ir img st;
      if Direct.actualSizeInBytes dr <? Z.of_nat (length content) then Fault FPanic
      else
        st ← Direct.copy_from dr content st;
        Ok (Jyd (Some ir) (Some dr) (mem_regions s) (Direct.actualSizeInBytes dr)
                (last_led s) (last_segs s), st)
  end.

Definition good_trap_led_1 : Z := 0x01221c08.
Definition good_trap_led_2 : Z := 0x078b7323.

Definition jyd_is_good_trap (s : jyd_state) : bool :=
  let seg_high := (last_segs s >>> 24) &&& 0xff in
  if negb (seg_high =? 0x37) then false
  else if negb ((last_led s =? good_trap_led_1) || (last_led s =? good_trap_led_2)) then false
  else true.

Definition jyd_update_led (leds : Z) (s : jyd_state) : jyd_state :=
  Jyd (irom_ptr s) (dram_ptr s) (mem_regions s) (dram_difftest_need_init_size s)
      (u32 leds) (last_segs s).
Definition jyd_update_seg (segs : Z) (s : jyd_state) : jyd_state :=
  Jyd (irom_ptr s) (dram_ptr s) (mem_regions s) (dram_difftest_need_init_size s)
      (last_led s) (u32 segs).

(** One mem_region_data_span: name, guest address, size in bytes, container. *)
Definition get_mem_regions_need_init_difftest (s : jyd_state)
  : res (list (String.string * Z * Z * nat)) :=
  match dram_ptr s with
  | Some d => Ok [(rname (Direct.traits d), rBase (Direct.traits d),
                   dram_difftest_need_init_size s, Direct.data d)]
  | None => Fault FUndef
  end.

End Jyd.

(** ** Containers: what an update changes *)

Definition cell_ok (st : store) (c : nat) (i : Z) : Prop :=
  exists k, st !! c = Some k /\ 0 <= i < csize k.

(** Two stores with the same containers, up to their elements. *)
Definition same_shape (st st' : store) : Prop :=
  forall c, csize <$> st !! c = csize <$> st' !! c.

#[export] Instance same_shape_equiv : Equivalence same_shape.
Proof.
  split; [by intros st c | by intros st st' H c |].
  intros st st' st'' H H' c. by rewrite H.
Qed.

Lemma cell_ok_shape st st' c i : same_shape st st' -> cell_ok st c i -> cell_ok st' c i.
Proof.
  intros Hs (k & Hk & Hi). specialize (Hs c). rewrite Hk in Hs.
  destruct (st' !! c) as [k' |] eqn:E; [| done]. injection Hs as Hs.
  exists k'. split; [done | lia].
Qed.

Lemma cell_get_ok st c i : cell_ok st c i -> exists v, cell_get st c i = Ok v.
Proof.
  intros (k & Hk & Hi). exists (cdata k i). unfold cell_get. rewrite Hk.
  by rewrite (proj2 (Z.leb_le _ _)), (proj2 (Z.ltb_lt _ _)) by lia.
Qed.

Lemma cell_set_spec st c i v : cell_ok st c i ->
  exists st', cell_set st c i v = Ok st' /\ same_shape st st' /\
    forall c' j, cell_get st' c' j =
      if bool_decide (c' = c) && (j =? i) then Ok v else cell_get st c' j.
Proof.
  intros (k & Hk & Hi). unfold cell_set. rewrite Hk.
  rewrite (proj2 (Z.leb_le _ _)), (proj2 (Z.ltb_lt _ _)) by lia. cbn [andb].
  eexists. split; [done |]. split.
  - intros c'. destruct (decide (c' = c)) as [-> |].
    + rewrite list_lookup_insert_eq by by eapply lookup_lt_Some. by rewrite Hk.
    + by rewrite list_lookup_insert_ne.
  - intros c' j. unfold cell_get. destruct (decide (c' = c)) as [-> |].
    + rewrite list_lookup_insert_eq by by eapply lookup_lt_Some. rewrite Hk.
      rewrite bool_decide_eq_true_2 by done. cbn. destruct (Z.eqb_spec j i) as [-> |]; [| done].
      by rewrite (proj2 (Z.leb_le _ _)), (proj2 (Z.ltb_lt _ _)) by lia.
    + rewrite list_lookup_insert_ne by done. by rewrite bool_decide_eq_false_2.
Qed.

(** ** Byte strobes *)

Lemma land_bit_eqb s k : 0 <= k -> (s &&& 2 ^ k =? 0) = negb (Z.testbit s k).
Proof.
  intros Hk. destruct (Z.testbit s k) eqn:E; cbn.
  - apply Z.eqb_neq. intros H. apply (f_equal (fun x => Z.testbit x k)) in H.
    by rewrite Z.land_spec, E, Z.pow2_bits_true, Z.bits_0 in H by lia.
  - apply Z.eqb_eq. zbits. rewrite Z.bits_0. destruct (decide (i = k)) as [-> |].
    + by rewrite E.
    + rewrite Z.pow2_bits_false by lia. apply andb_false_r.
Qed.

Definition strobe_bits (b0 b1 b2 b3 : bool) : Z :=
  b2z b0 * 0xff + b2z b1 * 0xff00 + b2z b2 * 0xff0000 + b2z b3 * 0xff000000.

Lemma strb32_of_bits s :
  Direct.strb32_of s =
  strobe_bits (Z.testbit s 0) (Z.testbit s 1) (Z.testbit s 2) (Z.testbit s 3).
Proof.
  unfold Direct.strb32_of.
  pose proof (land_bit_eqb s 0 ltac:(lia)) as H0. pose proof (land_bit_eqb s 1 ltac:(lia)) as H1.
  pose proof (land_bit_eqb s 2 ltac:(lia)) as H2. pose proof (land_bit_eqb s 3 ltac:(lia)) as H3.
  change (2 ^ 0) with 1 in H0. change (2 ^ 1) with 2 in H1. change (2 ^ 2) with 4 in H2.
  change (2 ^ 3) with 8 in H3. rewrite H0, H1, H2, H3.
  by destruct (Z.testbit s 0), (Z.testbit s 1), (Z.testbit s 2), (Z.testbit s 3).
Qed.

Lemma testbit_strb32 s n : 0 <= n < 32 ->
  Z.testbit (Direct.strb32_of s) n = Z.testbit s (n / 8).
Proof.
  intros Hn. rewrite strb32_of_bits.
  assert (forall b0 b1 b2 b3, forallb (fun n => eqb
    (Z.testbit (strobe_bits b0 b1 b2 b3) (Z.of_nat n))
    (nth (n / 8) [b0; b1; b2; b3] false)) (seq 0 32) = true) as Hall
    by (intros [] [] [] []; vm_compute; reflexivity).
  specialize (Hall (Z.testbit s 0) (Z.testbit s 1) (Z.testbit s 2) (Z.testbit s 3)).
  rewrite forallb_forall in Hall. specialize (Hall (Z.to_nat n)).
  rewrite in_seq in Hall. specialize (Hall ltac:(lia)). apply eqb_prop in Hall.
  rewrite Z2Nat.id in Hall by lia. rewrite Hall.
  rewrite <- (Z2Nat.id n) at 2 by lia. change 8 with (Z.of_nat 8). rewrite <- Nat2Z.inj_div.
  assert (Z.to_nat n / 8 < 4)%nat by (apply Nat.Div0.div_lt_upper_bound; lia).
  destruct (Z.to_nat n / 8)%nat as [| [| [| [| m]]]]; [done.. | lia].
Qed.

Lemma testbit_byte_of w k i : 0 <= k -> 0 <= i ->
  Z.testbit (byte_of w k) i = (i <? 8) && Z.testbit w (8 * k + i).
Proof.
  intros Hk Hi. unfold byte_of. change 0xff with (Z.ones 8). zbits_step.
  rewrite Z.testbit_ones_nonneg, Z.shiftr_spec by lia.
  rewrite andb_comm. f_equal. f_equal. lia.
Qed.

Lemma testbit_merge_word old addr value strb n : 0 <= n < 32 ->
  Z.testbit (Direct.merge_word old addr value strb) n =
  let off := addr &&& 3 in
  if (off * 8 <=? n) && Z.testbit strb (n / 8 - off)
  then Z.testbit value (n - off * 8) else Z.testbit old n.
Proof.
  intros Hn. unfold Direct.merge_word, not32. cbv zeta.
  assert (0 <= addr &&& 3 < 4) as Hoff.
  { change 3 with (Z.ones 2). rewrite Z.land_ones by lia. apply Z.mod_pos_bound. lia. }
  set (off := addr &&& 3) in *. repeat zbits_step.
  rewrite (proj2 (Z.ltb_lt _ _)) by lia. cbn [andb].
  destruct (Z.leb_spec (off * 8) n) as [Hle | Hgt].
  - rewrite testbit_strb32 by lia.
    replace ((n - off * 8) / 8) with (n / 8 - off)
      by (replace (n - off * 8) with (n + (- off) * 8) by lia; rewrite Z.div_add by lia; lia).
    destruct (Z.testbit strb (n / 8 - off)); cbn; by rewrite ?andb_false_r, ?andb_true_r, ?orb_false_r.
  - rewrite !(Z.testbit_neg_r _ (n - off * 8)) by lia. cbn. by rewrite andb_true_r, orb_false_r.
Qed.

(** Byte [j] of the word after a strobed write. *)
Lemma byte_of_merge old addr value strb j : 0 <= j < 4 ->
  byte_of (Direct.merge_word old addr value strb) j =
  let off := addr &&& 3 in
  if (off <=? j) && Z.testbit strb (j - off) then byte_of value (j - off) else byte_of old j.
Proof.
  intros Hj. cbv zeta.
  assert (0 <= addr &&& 3 < 4) as Hoff.
  { change 3 with (Z.ones 2). rewrite Z.land_ones by lia. apply Z.mod_pos_bound. lia. }
  apply Z.bits_inj'. intros i Hi. rewrite testbit_byte_of by lia.
  destruct (Z.ltb_spec i 8) as [Hi8 | Hi8].
  - rewrite testbit_merge_word by lia. cbv zeta. set (off := addr &&& 3) in *.
    replace ((8 * j + i) / 8) with j
      by (rewrite Z.mul_comm, Z.div_add_l, Z.div_small by lia; lia).
    replace (off * 8 <=? 8 * j + i) with (off <=? j)
      by (destruct (Z.leb_spec off j), (Z.leb_spec (off * 8) (8 * j + i)); lia).
    destruct (Z.leb_spec off j); cbn [andb]; [destruct (Z.testbit strb (j - off)) |];
      rewrite testbit_byte_of by lia; rewrite (proj2 (Z.ltb_lt i 8)) by lia; cbn; f_equal; lia.
  - set (off := addr &&& 3) in *.
    destruct (Z.leb_spec off j); cbn [andb]; [destruct (Z.testbit strb (j - off)) |];
      rewrite testbit_byte_of by lia; by rewrite (proj2 (Z.ltb_ge i 8)) by lia.
Qed.

(** ** Single bytes of a container *)

(** What a host pointer to byte [n] of container [c] points at. *)
Definition byte_at (st : store) (c : nat) (n : Z) : res Z :=
  w ← cell_get st c (n / 4); Ok (byte_of w (n mod 4)).

Lemma byte_of_with_byte w k b j : 0 <= k -> 0 <= j ->
  byte_of (with_byte w k b) j = if j =? k then u8 b else byte_of w j.
Proof.
  intros Hk Hj. apply Z.bits_inj'. intros i Hi. rewrite testbit_byte_of by lia.
  assert (Z.testbit (if j =? k then u8 b else byte_of w j) i =
          (i <? 8) && Z.testbit (if j =? k then b else byte_of w j) i) as ->.
  { destruct (j =? k); [by rewrite testbit_wrap by lia |].
    rewrite testbit_byte_of by lia. by destruct (i <? 8). }
  destruct (Z.ltb_spec i 8) as [Hi8 |]; [cbn | done].
  unfold with_byte. change 0xff with (Z.ones 8). repeat zbits_step.
  destruct (Z.eqb_spec j k) as [-> |].
  - replace (8 * k + i - 8 * k) with i by lia. rewrite Z.testbit_ones_nonneg by lia.
    rewrite (proj2 (Z.ltb_lt i 8)) by lia. cbn. by rewrite andb_false_r.
  - rewrite testbit_byte_of, (proj2 (Z.ltb_lt i 8)) by lia. cbn.
    destruct (Z.leb_spec 0 (8 * j + i - 8 * k)) as [Hge |].
    + rewrite Z.testbit_ones_nonneg by lia.
      rewrite (proj2 (Z.ltb_ge (8 * j + i - 8 * k) 8)) by lia. cbn.
      by rewrite andb_true_r, orb_false_r.
    + rewrite !(Z.testbit_neg_r _ (8 * j + i - 8 * k)) by lia.
      rewrite andb_false_r. cbn. by rewrite andb_true_r, orb_false_r.
Qed.

(** A word update seen byte by byte. *)
Lemma byte_at_set st st' c i v c' n :
  (forall c' j, cell_get st' c' j =
     if bool_decide (c' = c) && (j =? i) then Ok v else cell_get st c' j) ->
  byte_at st' c' n =
    if bool_decide (c' = c) && (n / 4 =? i) then Ok (byte_of v (n mod 4)) else byte_at st c' n.
Proof.
  intros H. unfold byte_at. rewrite H. by destruct (bool_decide (c' = c) && (n / 4 =? i)).
Qed.

Lemma copy_bytes_spec c src k st :
  0 <= k -> (forall n, k <= n < k + Z.of_nat (length src) -> cell_ok st c (n / 4)) ->
  exists st', Direct.copy_bytes c k src st = Ok st' /\ same_shape st st' /\
    forall c' n, 0 <= n -> byte_at st' c' n =
      if bool_decide (c' = c) && (k <=? n) && (n <? k + Z.of_nat (length src))
      then Ok (u8 (nth (Z.to_nat (n - k)) src 0)) else byte_at st c' n.
Proof.
  revert k st. induction src as [| b src IH]; intros k st Hk Hok.
  { exists st. split; [done |]. split; [done |]. intros c' n Hn. cbn.
    destruct (bool_decide (c' = c)); [cbn | done]. zcmp. }
  assert (cell_ok st c (k / 4)) as Hc by (apply Hok; cbn; lia).
  destruct (cell_get_ok _ _ _ Hc) as [w Hw].
  destruct (cell_set_spec st c (k / 4) (with_byte w (k mod 4) b) Hc) as (st1 & E1 & Hs1 & Hg1).
  destruct (IH (k + 1) st1 ltac:(lia)) as (st2 & E2 & Hs2 & Hg2).
  { intros n Hn. apply (cell_ok_shape st); [done |]. apply Hok. cbn [length]. lia. }
  exists st2. split.
  { cbn. rewrite Hw. cbn. by rewrite E1. }
  split; [by transitivity st1 |]. intros c' n Hn. rewrite Hg2 by done. cbn [length].
  rewrite (byte_at_set _ _ _ _ _ c' n Hg1).
  destruct (bool_decide_reflect (c' = c)) as [-> |]; cbn [andb]; [| done].
  pose proof (Z.mod_pos_bound n 4). pose proof (Z.mod_pos_bound k 4).
  destruct (Z.leb_spec (k + 1) n), (Z.ltb_spec n (k + 1 + Z.of_nat (length src))),
    (Z.leb_spec k n), (Z.ltb_spec n (k + Z.of_nat (S (length src)))); try lia; cbn.
  - do 2 f_equal. replace (Z.to_nat (n - k)) with (S (Z.to_nat (n - (k + 1)))) by lia. done.
  - destruct (Z.eqb_spec (n / 4) (k / 4)) as [He |]; [| done].
    rewrite byte_of_with_byte by lia. rewrite (proj2 (Z.eqb_neq _ _)).
    + unfold byte_at. by rewrite He, Hw.
    + intros Hm. assert (n = k); [| lia]. rewrite (Z.div_mod n 4), (Z.div_mod k 4); lia.
  - assert (n = k) as -> by lia. rewrite Z.eqb_refl, byte_of_with_byte, Z.eqb_refl by lia.
    by rewrite Z.sub_diag.
  - destruct (Z.eqb_spec (n / 4) (k / 4)) as [He |]; [| done].
    rewrite byte_of_with_byte by lia. rewrite (proj2 (Z.eqb_neq _ _)).
    + unfold byte_at. by rewrite He, Hw.
    + intros Hm. assert (n = k); [| lia]. rewrite (Z.div_mod n 4), (Z.div_mod k 4); lia.
Qed.

(** ** Well-formed regions *)

Definition traits_ok (t : mem_region_traits) : Prop :=
  0 <= rBase t < rEnd t /\ rEnd t < 2 ^ 32 /\ rBase t mod 4 = 0.

(** The container a region needs. *)
Definition region_size (r : Guest.mem_region) : Z :=
  match r with
  | Guest.RDirect r => Direct.actualSizeInBytes r / 4
  | Guest.RSdram _ => Sdram.N_BANKS * Sdram.N_ROWS * Sdram.N_COLS * Sdram.N_BLOCKS
  end.

Definition region_ok (st : store) (r : Guest.mem_region) : Prop :=
  traits_ok (Guest.region_traits r) /\
  (exists k, st !! Guest.region_data r = Some k /\ region_size r <= csize k) /\
  match r with
  | Guest.RDirect r => 0 <= Direct.actualSizeInBytes r /\ Direct.actualSizeInBytes r mod 4 = 0
  | Guest.RSdram r => True
  end.

Definition regions_ok (st : store) (rs : list Guest.mem_region) : Prop :=
  Forall (region_ok st) rs /\ NoDup (Guest.region_data <$> rs).

Lemma region_ok_shape st st' r : same_shape st st' -> region_ok st r -> region_ok st' r.
Proof.
  intros Hs (Ht & (k & Hk & Hsz) & Hr). split; [done |]. split; [| done].
  specialize (Hs (Guest.region_data r)). rewrite Hk in Hs.
  destruct (st' !! Guest.region_data r) as [k' |] eqn:E; [| done]. injection Hs as Hs.
  exists k'. split; [done | lia].
Qed.

Lemma regions_ok_shape st st' rs : same_shape st st' -> regions_ok st rs -> regions_ok st' rs.
Proof.
  intros Hs [H Hn]. split; [| done]. eapply Forall_impl; [done |]. intros r.
  by apply region_ok_shape.
Qed.

(** ** The cells of a word *)

(** SDRAM: the 25 address bits that select a cell, and the low half's cell. *)
Definition sdram_slot (off : Z) : Z := (off / 2) mod 2 ^ 25.
Definition low_cell (x : Z) : Z :=
  ((x / 512) mod 4) * 2 ^ 24 + (x / 4096) * 2 ^ 11 + (x mod 512) * 4 + 2 * ((x / 2048) mod 2).

Lemma low_cell_bounds x : 0 <= x < 2 ^ 25 -> 0 <= low_cell x /\ low_cell x + 1 < 2 ^ 26.
Proof. intros Hx. unfold low_cell. Z.to_euclidean_division_equations; lia. Qed.

Lemma low_cell_even x : low_cell x mod 2 = 0.
Proof.
  unfold low_cell. change (2 ^ 24) with (2 * 2 ^ 23). change (2 ^ 11) with (2 * 2 ^ 10).
  replace (_ + _) with ((((x / 512) mod 4) * 2 ^ 23 + (x / 4096) * 2 ^ 10 + (x mod 512) * 2
    + (x / 2048) mod 2) * 2) by lia. apply Z_mod_mult.
Qed.

Lemma low_cell_parts x : 0 <= x < 2 ^ 25 ->
  let c := low_cell x in
  x = (c / 4) mod 512 + 512 * (c / 2 ^ 24) + 2048 * ((c / 2) mod 2) + 4096 * ((c / 2 ^ 11) mod 2 ^ 13).
Proof. intros Hx. unfold low_cell. cbv zeta. Z.to_euclidean_division_equations; lia. Qed.

Lemma low_cell_inj x y : 0 <= x < 2 ^ 25 -> 0 <= y < 2 ^ 25 -> low_cell x = low_cell y -> x = y.
Proof.
  intros Hx Hy H. rewrite (low_cell_parts x Hx), (low_cell_parts y Hy). by rewrite H.
Qed.

Lemma u32_off t a : traits_ok t -> contains t a = true ->
  u32 (a - rBase t) = a - rBase t /\ 0 <= a - rBase t < 2 ^ 32.
Proof.
  intros (Ht & Ht' & _) Hc. unfold contains in Hc. apply andb_prop in Hc as [H1 H2].
  apply Z.leb_le in H1. apply Z.ltb_lt in H2.
  split; [apply wrap_small; unfold in_range |]; lia.
Qed.

Lemma get_data_at_ok r a : traits_ok (Sdram.traits r) -> contains (Sdram.traits r) a = true ->
  Sdram.get_data_at r a =
    let c := low_cell (sdram_slot (a - rBase (Sdram.traits r))) in Ok (c, c + 1).
Proof.
  intros Ht Hc. destruct (u32_off _ _ Ht Hc) as [Hu Hr].
  unfold Sdram.get_data_at, assert_in_range. rewrite Hc, Hu. cbn [c_assert mbind res_bind].
  set (o := a - rBase (Sdram.traits r)) in *. cbv zeta.
  change 7 with (Z.ones 3). change 0x1fff with (Z.ones 13). change 0x1ff with (Z.ones 9).
  rewrite !Z.land_ones, !Z.shiftr_div_pow2 by lia.
  assert ((if ((o / 2 ^ 10) mod 2 ^ 3 &&& 4) =? 0 then 0 else 2) =
          2 * ((sdram_slot o / 2048) mod 2)) as ->.
  { change 4 with (2 ^ 2). rewrite land_bit_eqb by lia. unfold sdram_slot.
    rewrite Z.testbit_eqb by lia.
    replace ((o / 2 ^ 10) mod 2 ^ 3 / 2 ^ 2 mod 2) with ((o / 2) mod 2 ^ 25 / 2048 mod 2)
      by (Z.to_euclidean_division_equations; lia).
    pose proof (Z.mod_pos_bound ((o / 2) mod 2 ^ 25 / 2048) 2 ltac:(lia)).
    destruct (Z.eqb_spec ((o / 2) mod 2 ^ 25 / 2048 mod 2) 1); cbn; lia. }
  assert (((o / 2 ^ 10) mod 2 ^ 3) mod 4 = (sdram_slot o / 512) mod 4) as ->
    by (unfold sdram_slot; Z.to_euclidean_division_equations; lia).
  assert ((o / 2 ^ 13) mod 2 ^ 13 = sdram_slot o / 4096) as ->
    by (unfold sdram_slot; Z.to_euclidean_division_equations; lia).
  assert ((o / 2 ^ 1) mod 2 ^ 9 = sdram_slot o mod 512) as ->
    by (unfold sdram_slot; Z.to_euclidean_division_equations; lia).
  assert (0 <= sdram_slot o < 2 ^ 25) as Hs by (apply Z.mod_pos_bound; lia).
  set (x := sdram_slot o) in *. clearbody x. clear Hu Hr o Hc Ht.
  unfold Sdram.data_at, Sdram.cell_index, Sdram.N_BANKS, Sdram.N_ROWS, Sdram.N_COLS, Sdram.N_BLOCKS.
  rewrite !(proj2 (Z.ltb_lt _ _)) by (Z.to_euclidean_division_equations; lia).
  cbn [c_assert mbind res_bind]. unfold low_cell. do 2 f_equal; lia.
Qed.

(** ** Store and load through the list of regions *)

Definition lookup_region (rs : list Guest.mem_region) (a : Z) : option Guest.mem_region :=
  snd <$> list_find (fun r => contains (Guest.region_traits r) a = true) rs.

(** Behind the address there is data. *)
Definition region_backed (r : Guest.mem_region) (a : Z) : bool :=
  match r with
  | Guest.RDirect r => a - rBase (Direct.traits r) <? Direct.actualSizeInBytes r
  | Guest.RSdram _ => true
  end.

(** The word of the region an address selects. *)
Definition region_word (r : Guest.mem_region) (a : Z) : Z :=
  match r with
  | Guest.RDirect r => (a - rBase (Direct.traits r)) / 4
  | Guest.RSdram r => sdram_slot (a - rBase (Sdram.traits r))
  end.

Definition backed (rs : list Guest.mem_region) (a : Z) : bool :=
  match lookup_region rs a with Some r => region_backed r a | None => false end.

Definition same_word (rs : list Guest.mem_region) (a b : Z) : bool :=
  match lookup_region rs a, lookup_region rs b with
  | Some r, Some r' => bool_decide (Guest.region_data r = Guest.region_data r') &&
                       region_backed r' b && (region_word r a =? region_word r' b)
  | _, _ => false
  end.

Lemma lookup_region_cons r rs a :
  lookup_region (r :: rs) a =
    if contains (Guest.region_traits r) a then Some r else lookup_region rs a.
Proof.
  unfold lookup_region. cbn. case_decide as H; [by rewrite H |].
  destruct (contains _ a); [done |]. by destruct (list_find _ rs) as [[]|].
Qed.

Lemma read_guest_lookup rs a st :
  Guest.read_guest_mem rs a st =
    match lookup_region rs a with
    | Some r => v ← Guest.region_read r a st; Ok (Some v)
    | None => Ok None
    end.
Proof.
  induction rs as [| r rs IH]; [done |]. rewrite lookup_region_cons. cbn.
  by destruct (contains _ a).
Qed.

Lemma write_guest_lookup rs a v st :
  Guest.write_guest_mem rs a v st =
    match lookup_region rs a with
    | Some r => st' ← Guest.region_write r a v st; Ok (true, st')
    | None => Ok (false, st)
    end.
Proof.
  induction rs as [| r rs IH]; [done |]. rewrite lookup_region_cons. cbn.
  by destruct (contains _ a).
Qed.

Lemma lookup_region_Some rs a r : lookup_region rs a = Some r ->
  r ∈ rs /\ contains (Guest.region_traits r) a = true.
Proof.
  unfold lookup_region. intros H. apply fmap_Some in H as ([i x] & H & ->).
  apply list_find_Some in H as (Hi & Hc & _). split; [| done].
  by eapply list_elem_of_lookup_2.
Qed.

(** Two regions of the list with the same container are the same region. *)
Lemma region_data_inj st rs r r' : regions_ok st rs -> r ∈ rs -> r' ∈ rs ->
  Guest.region_data r = Guest.region_data r' -> r = r'.
Proof.
  intros [_ Hn] Hr Hr' H. apply list_elem_of_lookup in Hr as [i Hi].
  apply list_elem_of_lookup in Hr' as [j Hj].
  assert (i = j) as ->; [| by rewrite Hi in Hj; injection Hj].
  eapply NoDup_lookup; [done | |].
  - rewrite list_lookup_fmap, Hi. done.
  - rewrite list_lookup_fmap, Hj. cbn. by rewrite H.
Qed.

(** The cells the two halves of an SDRAM word live in. *)
Lemma sdram_cells_ok st r a : region_ok st (Guest.RSdram r) ->
  let c := low_cell (sdram_slot (a - rBase (Sdram.traits r))) in
  cell_ok st (Sdram.data r) c /\ cell_ok st (Sdram.data r) (c + 1).
Proof.
  intros (_ & (k & Hk & Hsz) & _). cbv zeta. cbn in Hk, Hsz.
  unfold Sdram.N_BANKS, Sdram.N_ROWS, Sdram.N_COLS, Sdram.N_BLOCKS in Hsz.
  assert (0 <= sdram_slot (a - rBase (Sdram.traits r)) < 2 ^ 25) as Hx
    by (apply Z.mod_pos_bound; lia).
  pose proof (low_cell_bounds _ Hx). split; exists k; (split; [done | lia]).
Qed.

Lemma direct_cell_ok st r a : region_ok st (Guest.RDirect r) ->
  contains (Direct.traits r) a = true ->
  (a - rBase (Direct.traits r) <? Direct.actualSizeInBytes r) = true ->
  cell_ok st (Direct.data r) ((a - rBase (Direct.traits r)) / 4).
Proof.
  intros (Ht & (k & Hk & Hsz) & Hr) Hc Hb. cbn in Ht, Hk, Hsz.
  pose proof (u32_off _ _ Ht Hc) as [_ Ho]. apply Z.ltb_lt in Hb.
  exists k. split; [done |]. Z.to_euclidean_division_equations; lia.
Qed.

(** Entry of the direct-mapped accesses: their two assertions. *)
Lemma direct_guard {A} r a (f : Z -> res A) : traits_ok (Direct.traits r) ->
  contains (Direct.traits r) a = true ->
  (assert_in_range (Direct.traits r) a;; Direct.assert_in_actual_data_range r a;;
   f (u32 (a - rBase (Direct.traits r)) / 4)) =
  if a - rBase (Direct.traits r) <? Direct.actualSizeInBytes r
  then f ((a - rBase (Direct.traits r)) / 4) else Fault FAssert.
Proof.
  intros Ht Hc. unfold assert_in_range, Direct.assert_in_actual_data_range. rewrite Hc.
  destruct (u32_off _ _ Ht Hc) as [-> _]. cbn. by destruct (_ <? _).
Qed.

Lemma halves_join v : in_range 32 v ->
  (u16 ((v >>> 16) &&& 0xffff) <<< 16) ||| u16 (v &&& 0xffff) = v.
Proof.
  intros Hv. change 0xffff with (Z.ones 16). zbits.
  destruct (Z.leb_spec 16 i).
  - rewrite Z.shiftr_spec, Z.sub_add by lia. rewrite !Z.testbit_ones_nonneg by lia.
    rewrite (proj2 (Z.ltb_ge i 16)) by lia. cbn. rewrite orb_false_r.
    destruct (Z.ltb_spec (i - 16) 16); cbn; rewrite ?andb_true_r; [done |].
    by rewrite (testbit_high 32 v) by (done || lia).
  - rewrite (Z.testbit_neg_r _ (i - 16)) by lia. rewrite andb_false_r. cbn.
    rewrite Z.testbit_ones_nonneg by lia. rewrite (proj2 (Z.ltb_lt i 16)) by lia. cbn.
    by rewrite andb_true_r.
Qed.

Lemma region_write_spec st r a v :
  region_ok st r -> contains (Guest.region_traits r) a = true -> region_backed r a = true ->
  in_range 32 v ->
  exists st', Guest.region_write r a v st = Ok st' /\ same_shape st st' /\
    (forall c i, c <> Guest.region_data r -> cell_get st' c i = cell_get st c i) /\
    (forall b, contains (Guest.region_traits r) b = true ->
       Guest.region_read r b st' =
         if region_backed r b && (region_word r a =? region_word r b)
         then Ok v else Guest.region_read r b st).
Proof.
  intros Hok Hc Hb Hv. pose proof Hok as (Ht & _ & _). destruct r as [r | r]; cbn in *.
  - unfold Direct.write_word, Direct.read_word.
    rewrite (direct_guard r a (fun i => cell_set st _ i v)), Hb by done.
    destruct (cell_set_spec st _ _ v (direct_cell_ok _ _ _ Hok Hc Hb)) as (st' & E & Hs & Hg).
    exists st'. split; [done |]. split; [done |]. split.
    + intros c i Hne. by rewrite Hg, bool_decide_eq_false_2.
    + intros b Hcb. rewrite !(direct_guard r b (fun i => cell_get _ _ i)) by done.
      destruct (b - rBase (Direct.traits r) <? _); [cbn | done]. rewrite Hg, bool_decide_eq_true_2 by done. cbn.
      by rewrite Z.eqb_sym.
  - unfold Sdram.write_word, Sdram.read_word. rewrite get_data_at_ok by done. cbn.
    pose proof (sdram_cells_ok _ _ a Hok) as [Hl Hh]. cbn in Hl, Hh.
    set (c := low_cell (sdram_slot (a - rBase (Sdram.traits r)))) in *.
    destruct (cell_set_spec st _ _ (u16 (v &&& 0xffff)) Hl) as (st1 & E1 & Hs1 & Hg1).
    apply (cell_ok_shape _ _ _ _ Hs1) in Hh.
    destruct (cell_set_spec st1 _ _ (u16 ((v >>> 16) &&& 0xffff)) Hh) as (st2 & E2 & Hs2 & Hg2).
    rewrite E1. cbn. exists st2. split; [done |]. split; [by transitivity st1 |]. split.
    + intros c' i Hne. by rewrite Hg2, Hg1, !bool_decide_eq_false_2.
    + intros b Hcb. rewrite get_data_at_ok by done. cbn.
      set (d := low_cell (sdram_slot (b - rBase (Sdram.traits r)))).
      rewrite !Hg2, !Hg1, !bool_decide_eq_true_2 by done. cbn [andb].
      pose proof (low_cell_even (sdram_slot (a - rBase (Sdram.traits r)))) as Hea. fold c in Hea.
      pose proof (low_cell_even (sdram_slot (b - rBase (Sdram.traits r)))) as Heb. fold d in Heb.
      rewrite (proj2 (Z.eqb_neq (d + 1) c)), (proj2 (Z.eqb_neq d (c + 1)))
        by (Z.to_euclidean_division_equations; lia).
      destruct (Z.eqb_spec (sdram_slot (a - rBase (Sdram.traits r)))
                  (sdram_slot (b - rBase (Sdram.traits r)))) as [Heq | Hne].
      * assert (d = c) as -> by (unfold d, c; by rewrite Heq).
        rewrite !Z.eqb_refl. cbn. by rewrite halves_join.
      * assert (d <> c).
        { intros H. apply Hne. apply low_cell_inj; [apply Z.mod_pos_bound; lia.. | by symmetry]. }
        by rewrite (proj2 (Z.eqb_neq (d + 1) (c + 1))), (proj2 (Z.eqb_neq d c)) by lia.
Qed.

(** C32. A word written through the debugger's view is read back, every other word of every region
    is as before. *)
Theorem soc_memory_store_load rs a v st :
  regions_ok st rs -> backed rs a = true -> in_range 32 v ->
  exists st', Guest.write_guest_mem rs a v st = Ok (true, st') /\ regions_ok st' rs /\
    forall b, Guest.read_guest_mem rs b st' =
      if same_word rs a b then Ok (Some v) else Guest.read_guest_mem rs b st.
Proof.
  intros Hok Hb Hv. unfold backed in Hb. rewrite write_guest_lookup.
  destruct (lookup_region rs a) as [r |] eqn:Er; [| done].
  destruct (lookup_region_Some _ _ _ Er) as [Hin Hc].
  destruct (region_write_spec st r a v) as (st' & E & Hs & Hne & Hrd); [| done.. |].
  { destruct Hok as [Hok _]. rewrite Forall_forall in Hok. by apply Hok. }
  exists st'. rewrite E. split; [done |]. split; [by eapply regions_ok_shape |].
  intros b. rewrite !read_guest_lookup. unfold same_word. rewrite Er.
  destruct (lookup_region rs b) as [r' |] eqn:Er'; [| done].
  destruct (lookup_region_Some _ _ _ Er') as [Hin' Hc'].
  destruct (bool_decide_reflect (Guest.region_data r = Guest.region_data r')) as [Hd | Hd]; cbn [andb].
  - pose proof (region_data_inj _ _ _ _ Hok Hin Hin' Hd). subst r'.
    rewrite Hrd by done. by destruct (_ && _).
  - assert (Guest.region_read r' b st' = Guest.region_read r' b st) as ->; [| done].
    destruct r' as [r' | r']; cbn in Hd |- *.
    + unfold Direct.read_word. by rewrite Hne by congruence.
    + unfold Sdram.read_word. destruct (Sdram.get_data_at r' b) as [p |]; [cbn | done].
      by rewrite !Hne by congruence.
Qed.

(** ** Host pointers *)

(** The byte behind the pointer the debugger gets for a guest address. *)
Definition host_byte (rs : list Guest.mem_region) (b : Z) (st : store) : res (option Z) :=
  p ← Guest.mem_guest_to_host rs b;
  match p with Some (c, n) => v ← byte_at st c n; Ok (Some v) | None => Ok None end.

Definition disjoint_regions (rs : list Guest.mem_region) : Prop :=
  forall i j r r', rs !! i = Some r -> rs !! j = Some r' -> i <> j ->
    rEnd (Guest.region_traits r) <= rBase (Guest.region_traits r') \/
    rEnd (Guest.region_traits r') <= rBase (Guest.region_traits r).

Lemma disjoint_regions_cons r rs : disjoint_regions (r :: rs) ->
  disjoint_regions rs /\ forall b r', contains (Guest.region_traits r) b = true -> r' ∈ rs ->
    contains (Guest.region_traits r') b = false.
Proof.
  intros H. split; [intros i j x y Hi Hj Hne; apply (H (S i) (S j)); [done.. | lia] |].
  intros b r' Hc Hin. apply list_elem_of_lookup in Hin as [j Hj].
  specialize (H 0%nat (S j) r r' eq_refl Hj ltac:(lia)).
  unfold contains in *. apply andb_prop in Hc as [H1 H2].
  apply Z.leb_le in H1. apply Z.ltb_lt in H2. apply andb_false_iff.
  rewrite Z.leb_gt, Z.ltb_ge. lia.
Qed.

Lemma no_region_no_ptr rs b :
  (forall r, r ∈ rs -> contains (Guest.region_traits r) b = false) ->
  Guest.mem_guest_to_host rs b = Ok None.
Proof.
  induction rs as [| r rs IH]; intros H; [done |]. cbn. rewrite H by left. cbn.
  apply IH. intros r' Hr'. apply H. by right.
Qed.

Lemma mem_guest_to_host_lookup rs b : disjoint_regions rs ->
  Guest.mem_guest_to_host rs b =
    match lookup_region rs b with Some r => Guest.region_ptr r b | None => Ok None end.
Proof.
  induction rs as [| r rs IH]; intros H; [done |]. rewrite lookup_region_cons.
  apply disjoint_regions_cons in H as [Hd Hr]. cbn.
  destruct (contains (Guest.region_traits r) b) eqn:E; [| by apply IH].
  destruct (Guest.region_ptr r b) as [[p |] | f]; cbn; [done | | done].
  apply no_region_no_ptr. intros r' Hr'. by apply (Hr b).
Qed.

(** [a & 3] is the byte offset when the region starts at a word. *)
Lemma land3_off t a : traits_ok t -> a &&& 3 = (a - rBase t) mod 4.
Proof.
  intros (_ & _ & Hb). change 3 with (Z.ones 2). rewrite Z.land_ones by lia.
  change (2 ^ 2) with 4. rewrite Zminus_mod, Hb, Z.sub_0_r. by rewrite Z.mod_mod by lia.
Qed.

Lemma direct_ptr r b : traits_ok (Direct.traits r) -> contains (Direct.traits r) b = true ->
  Direct.get_data_ptr_at r b =
    if b - rBase (Direct.traits r) <? Direct.actualSizeInBytes r
    then Ok (Direct.data r, b - rBase (Direct.traits r)) else Fault FAssert.
Proof.
  intros Ht Hc. unfold Direct.get_data_ptr_at.
  rewrite (direct_guard r b (fun i => Ok (Direct.data r, i * 4 + (b &&& 3)))) by done.
  destruct (_ <? _); [| done]. rewrite (land3_off _ _ Ht). do 2 f_equal.
  pose proof (Z.div_mod (b - rBase (Direct.traits r)) 4 ltac:(lia)). lia.
Qed.

(** What the debugger sees at an address: a byte of the region's container. *)
Lemma host_byte_lookup rs b st : disjoint_regions rs -> Forall (region_ok st) rs ->
  host_byte rs b st =
    match lookup_region rs b with
    | Some (Guest.RDirect r) =>
        if b - rBase (Direct.traits r) <? Direct.actualSizeInBytes r
        then v ← byte_at st (Direct.data r) (b - rBase (Direct.traits r)); Ok (Some v)
        else Fault FAssert
    | _ => Ok None
    end.
Proof.
  intros Hd Hok. unfold host_byte. rewrite mem_guest_to_host_lookup by done.
  destruct (lookup_region rs b) as [[r | r] |] eqn:E; [| | done].
  - apply lookup_region_Some in E as [Hin Hc]. rewrite Forall_forall in Hok.
    destruct (Hok _ Hin) as (Ht & _). cbn in *. rewrite direct_ptr by done.
    by destruct (_ <? _).
  - apply lookup_region_Some in E as [_ Hc]. cbn in *. unfold Sdram.get_data_ptr_at.
    unfold assert_in_range. by rewrite Hc.
Qed.

(** An update that changes some bytes of one container, seen by the debugger. *)
Lemma host_byte_update rs st st' r (p : Z -> bool) (f : Z -> Z) :
  disjoint_regions rs -> regions_ok st rs -> same_shape st st' -> Guest.RDirect r ∈ rs ->
  (forall c n, 0 <= n -> byte_at st' c n =
     if bool_decide (c = Direct.data r) && p n then Ok (f n) else byte_at st c n) ->
  (forall n, p n = true -> 0 <= n < Direct.actualSizeInBytes r /\
     n < rEnd (Direct.traits r) - rBase (Direct.traits r)) ->
  forall b, host_byte rs b st' =
    if p (b - rBase (Direct.traits r)) then Ok (Some (f (b - rBase (Direct.traits r))))
    else host_byte rs b st.
Proof.
  intros Hd Hok Hs Hin Hb Hp b. pose proof (regions_ok_shape _ _ _ Hs Hok) as [Hok' _].
  pose proof Hok as [Hok1 _]. rewrite !host_byte_lookup by done.
  destruct (lookup_region rs b) as [r' |] eqn:E.
  - destruct (lookup_region_Some _ _ _ E) as [Hin' Hc'].
    destruct (decide (Guest.region_data r' = Direct.data r)) as [Heq | Hne].
    + assert (r' = Guest.RDirect r) as -> by by eapply region_data_inj. rewrite Forall_forall in Hok1. destruct (Hok1 _ Hin') as (Ht & _). cbn in Hc'.
      destruct (u32_off _ _ Ht Hc') as [_ Ho]. cbn in Ho.
      rewrite Hb, bool_decide_eq_true_2 by lia. cbn [andb].
      destruct (p (b - rBase (Direct.traits r))) eqn:Ep; [| done].
      by rewrite (proj2 (Z.ltb_lt _ _)) by by apply Hp.
    + assert (p (b - rBase (Direct.traits r)) = false) as ->.
      { destruct (p _) eqn:Ep; [| done]. exfalso. apply Hp in Ep.
        apply list_elem_of_lookup in Hin as [i Hi]. apply list_elem_of_lookup in Hin' as [j Hj].
        destruct (decide (i = j)) as [-> | Hij]; [by simplify_eq |].
        pose proof (Hd i j _ _ Hi Hj Hij) as Hd'. cbn in Hd'. unfold contains in Hc'.
        apply andb_prop in Hc' as [H1 H2]. apply Z.leb_le in H1. apply Z.ltb_lt in H2. lia. }
      destruct r' as [r' | r']; [| done].
      rewrite Forall_forall in Hok1. destruct (Hok1 _ Hin') as (Ht & _). cbn in Hc'.
      destruct (u32_off _ _ Ht Hc') as [_ Ho]. cbn in Ho.
      cbn in Hne. by rewrite Hb, bool_decide_eq_false_2 by (done || lia).
  - assert (p (b - rBase (Direct.traits r)) = false) as ->; [| done].
    destruct (p _) eqn:Ep; [| done]. exfalso. apply Hp in Ep.
    assert (contains (Direct.traits r) b = true) as Hc.
    { unfold contains. rewrite (proj2 (Z.leb_le _ _)), (proj2 (Z.ltb_lt _ _)) by lia. done. }
    unfold lookup_region in E. apply fmap_None in E. rewrite list_find_None in E.
    rewrite Forall_forall in E. by apply (E _ Hin).
Qed.

(** A strobed write, byte by byte: [k] is the distance from the address written. *)
Lemma write_word_strb_spec st r a v s :
  region_ok st (Guest.RDirect r) -> contains (Direct.traits r) a = true ->
  a - rBase (Direct.traits r) < Direct.actualSizeInBytes r ->
  exists st', Direct.write_word_strb r a v s st = Ok st' /\ same_shape st st' /\
    forall c n, 0 <= n -> byte_at st' c n =
      let k := n - (a - rBase (Direct.traits r)) in
      if bool_decide (c = Direct.data r) &&
         ((0 <=? k) && (k <? 4 - (a - rBase (Direct.traits r)) mod 4) && Z.testbit s k)
      then Ok (byte_of v k) else byte_at st c n.
Proof.
  intros Hok Hc Hb. pose proof Hok as (Ht & _). cbn in Ht.
  assert (cell_ok st (Direct.data r) ((a - rBase (Direct.traits r)) / 4)) as Hcell
    by (apply direct_cell_ok; [done.. | by apply Z.ltb_lt]).
  unfold Direct.write_word_strb.
  rewrite (direct_guard r a (fun i => old ← cell_get st (Direct.data r) i;
     cell_set st (Direct.data r) i (Direct.merge_word old a v s))) by done.
  rewrite (proj2 (Z.ltb_lt _ _)) by done.
  destruct (cell_get_ok _ _ _ Hcell) as [old Eold]. rewrite Eold. cbn [mbind res_bind].
  destruct (cell_set_spec st _ _ (Direct.merge_word old a v s) Hcell) as (st' & E & Hs & Hg).
  exists st'. split; [done |]. split; [done |]. intros c n Hn. cbv zeta.
  rewrite (byte_at_set _ _ _ _ _ c n Hg).
  destruct (bool_decide_reflect (c = Direct.data r)) as [-> |]; cbn [andb]; [| done].
  destruct (u32_off _ _ Ht Hc) as [_ Ho]. pose proof (land3_off _ a Ht) as Hl.
  set (o := a - rBase (Direct.traits r)) in *.
  destruct (Z.eqb_spec (n / 4) (o / 4)) as [Heq | Hne].
  - pose proof (Z.mod_pos_bound n 4 ltac:(lia)). pose proof (Z.mod_pos_bound o 4 ltac:(lia)).
    rewrite byte_of_merge, Hl by lia. cbv zeta.
    pose proof (Z.div_mod n 4 ltac:(lia)). pose proof (Z.div_mod o 4 ltac:(lia)).
    replace (n mod 4 - o mod 4) with (n - o) by lia.
    destruct (Z.leb_spec (o mod 4) (n mod 4)), (Z.leb_spec 0 (n - o)); try lia; cbn [andb].
    + rewrite (proj2 (Z.ltb_lt _ _)) by lia. cbn [andb].
      destruct (Z.testbit s (n - o)); [done |]. unfold byte_at. by rewrite Heq, Eold.
    + unfold byte_at. by rewrite Heq, Eold.
  - destruct (Z.leb_spec 0 (n - o)), (Z.ltb_spec (n - o) (4 - o mod 4)); cbn; try done.
    exfalso. apply Hne. Z.to_euclidean_division_equations; lia.
Qed.

Lemma copy_from_spec st r src :
  region_ok st (Guest.RDirect r) -> Z.of_nat (length src) <= Direct.actualSizeInBytes r ->
  exists st', Direct.copy_from r src st = Ok st' /\ same_shape st st' /\
    forall c n, 0 <= n -> byte_at st' c n =
      if bool_decide (c = Direct.data r) && (n <? Z.of_nat (length src))
      then Ok (u8 (nth (Z.to_nat n) src 0)) else byte_at st c n.
Proof.
  intros (Ht & (k & Hk & Hsz) & Hr) Hlen. cbn in *.
  destruct (copy_bytes_spec (Direct.data r) src 0 st) as (st' & E & Hs & Hb); [lia | |].
  { intros n Hn. exists k. split; [done |]. Z.to_euclidean_division_equations; lia. }
  exists st'. split; [done |]. split; [done |]. intros c n Hn. rewrite Hb by done.
  rewrite (proj2 (Z.leb_le 0 n)), Z.sub_0_r, andb_true_r by done. done.
Qed.

Lemma byte_of_repeated v j : 0 <= j < 4 -> byte_of (u8 v * 0x01010101) j = u8 v.
Proof.
  intros Hj. pose proof (wrap_range 8 v ltac:(lia)) as Hv. unfold in_range in Hv.
  assert (forall j, In j [0; 1; 2; 3] -> byte_of (u8 v * 0x01010101) j = u8 v) as H;
    [| apply H; cbn; lia].
  clear j Hj. intros j Hj. unfold byte_of. change 0xff with (Z.ones 8).
  rewrite Z.land_ones, Z.shiftr_div_pow2 by (cbn in Hj; lia).
  destruct Hj as [<- | [<- | [<- | [<- | []]]]]; cbn [Z.mul Pos.mul];
    Z.to_euclidean_division_equations; lia.
Qed.

Lemma fill_spec st r v :
  region_ok st (Guest.RDirect r) ->
  exists st', Direct.fill r v st = Ok st' /\ same_shape st st' /\
    forall c n, 0 <= n -> byte_at st' c n =
      if bool_decide (c = Direct.data r) && (n <? Direct.actualSizeInBytes r)
      then Ok (u8 v) else byte_at st c n.
Proof.
  intros (Ht & (k & Hk & Hsz) & Hr). cbn in *. unfold Direct.fill. rewrite Hk.
  rewrite (proj2 (Z.leb_le _ _)) by done. eexists. split; [done |]. split.
  - intros c. destruct (decide (c = Direct.data r)) as [-> |].
    + rewrite list_lookup_insert_eq by by eapply lookup_lt_Some. by rewrite Hk.
    + by rewrite list_lookup_insert_ne.
  - intros c n Hn. unfold byte_at, cell_get.
    destruct (decide (c = Direct.data r)) as [-> |].
    + rewrite list_lookup_insert_eq by by eapply lookup_lt_Some. rewrite Hk. cbn.
      rewrite bool_decide_eq_true_2 by done. cbn.
      rewrite (proj2 (Z.leb_le 0 (n / 4))) by (apply Z.div_pos; lia). cbn.
      destruct (Z.ltb_spec n (Direct.actualSizeInBytes r)) as [Hlt | Hge].
      * rewrite !(proj2 (Z.ltb_lt _ _)) by (Z.to_euclidean_division_equations; lia). cbn.
        by rewrite byte_of_repeated by (apply Z.mod_pos_bound; lia).
      * destruct (n / 4 <? csize k); [| done]. cbn.
        by rewrite (proj2 (Z.ltb_ge _ _)) by (Z.to_euclidean_division_equations; lia).
    + rewrite list_lookup_insert_ne by done. by rewrite bool_decide_eq_false_2.
Qed.

(** ** ysyxSoC *)

Ltac regions_cases :=
  intros i j r r' Hi Hj Hij;
  do 5 (try destruct i as [| i]); cbn in Hi; try discriminate Hi;
  do 5 (try destruct j as [| j]); cbn in Hj; try discriminate Hj;
  first [done | injection Hi as <-; injection Hj as <-; cbn; lia].

Lemma new_g_mem_regions g st0 : Ysyx.new_g_mem = Ok (g, st0) ->
  regions_ok st0 (Ysyx.get_mem_regions g) /\ disjoint_regions (Ysyx.get_mem_regions g) /\
  rBase (Direct.traits (Ysyx.psram g)) = 0x80000000 /\
  rEnd (Direct.traits (Ysyx.psram g)) = 0xa0000000 /\
  Direct.actualSizeInBytes (Ysyx.psram g) = 0x8000000 /\
  rBase (Direct.traits (Ysyx.flash g)) = 0x30000000 /\
  rEnd (Direct.traits (Ysyx.flash g)) = 0x40000000 /\
  Direct.actualSizeInBytes (Ysyx.flash g) = 0x4000000.
Proof.
  intros H. vm_compute in H. injection H as <- <-. split; [split |].
  - unfold Ysyx.get_mem_regions; repeat (apply Forall_cons; split); try by apply Forall_nil.
    all: split; [repeat split; by vm_compute |].
    all: split; [eexists; split; [reflexivity | by vm_compute] | by vm_compute].
  - cbn. apply (bool_decide_unpack _). vm_compute. exact I.
  - split; [| done]. regions_cases.
Qed.

Lemma region_ok_in st rs r : regions_ok st rs -> r ∈ rs -> region_ok st r.
Proof. intros [H _]. rewrite Forall_forall in H. apply H. Qed.

(** C33. A write of the PSRAM model, seen by the debugger: the bytes from the address to the end
    of its word are replaced where their strobe bit is set, nothing else changes. *)
Theorem psram_strobed_write g st0 st a strb d :
  Ysyx.new_g_mem = Ok (g, st0) -> same_shape st0 st -> 0 <= a < 0x8000000 ->
  exists st', Ysyx.psram_write g a strb d st = Ok st' /\ same_shape st st' /\
    forall b, host_byte (Ysyx.get_mem_regions g) b st' =
      let k := b - (0x80000000 + a) in
      if (0 <=? k) && (k <? 4 - a mod 4) && Z.testbit strb k
      then Ok (Some (byte_of d k)) else host_byte (Ysyx.get_mem_regions g) b st.
Proof.
  intros Hg Hsh Ha. destruct (new_g_mem_regions _ _ Hg) as (Hok & Hd & Hb & He & Hsz & _).
  apply (regions_ok_shape _ _ _ Hsh) in Hok.
  assert (Guest.RDirect (Ysyx.psram g) ∈ Ysyx.get_mem_regions g) as Hin
    by (apply list_elem_of_In; cbn; tauto).
  pose proof (region_ok_in _ _ _ Hok Hin) as Hr. pose proof Hr as (Ht & _). cbn in Ht.
  assert (u32 (a + 0x80000000) = a + 0x80000000) as Hu by (apply wrap_small; unfold in_range; lia).
  assert (contains (Direct.traits (Ysyx.psram g)) (a + 0x80000000) = true) as Hc.
  { unfold contains. rewrite Hb, He. by rewrite (proj2 (Z.leb_le _ _)), (proj2 (Z.ltb_lt _ _)) by lia. }
  destruct (write_word_strb_spec st (Ysyx.psram g) (a + 0x80000000) (u32 d) (u8 strb))
    as (st' & E & Hs & Hby); [done.. | rewrite Hb, Hsz; lia |].
  rewrite Hb in Hby. replace (a + 0x80000000 - 0x80000000) with a in Hby by lia.
  exists st'. split.
  { unfold Ysyx.psram_write. rewrite Hb, Hu, E. cbn [mbind res_bind].
    unfold Direct.read_word. rewrite (direct_guard _ _ (fun i => cell_get st' _ i)) by done.
    rewrite Hb, Hsz. replace (a + 0x80000000 - 0x80000000) with a by lia.
    rewrite (proj2 (Z.ltb_lt _ _)) by lia.
    destruct (cell_get_ok st' (Direct.data (Ysyx.psram g)) (a / 4)) as [w Hw].
    { apply (cell_ok_shape _ _ _ _ Hs).
      pose proof (direct_cell_ok _ _ _ Hr Hc) as Hco. rewrite Hb, Hsz in Hco.
      replace (a + 0x80000000 - 0x80000000) with a in Hco by lia.
      apply Hco. apply Z.ltb_lt. lia. }
    by rewrite Hw. }
  split; [done |]. intros b. cbv zeta.
  rewrite (host_byte_update _ st st' (Ysyx.psram g)
    (fun n => (0 <=? n - a) && (n - a <? 4 - a mod 4) && Z.testbit (u8 strb) (n - a))
    (fun n => byte_of (u32 d) (n - a)) Hd Hok Hs Hin).
  - rewrite Hb. replace (b - 0x80000000 - a) with (b - (0x80000000 + a)) by lia.
    set (k := b - (0x80000000 + a)). pose proof (Z.mod_pos_bound a 4).
    destruct (Z.leb_spec 0 k), (Z.ltb_spec k (4 - a mod 4)); cbn [andb]; try done.
    rewrite testbit_wrap by lia. rewrite (proj2 (Z.ltb_lt k 8)) by lia. cbn.
    destruct (Z.testbit strb k); [| done]. do 2 f_equal. apply Z.bits_inj'. intros i Hi.
    rewrite !testbit_byte_of by lia. destruct (Z.ltb_spec i 8); [| done]. cbn.
    by rewrite testbit_wrap, (proj2 (Z.ltb_lt _ _)) by lia.
  - intros c n Hn. rewrite Hby by done. cbv zeta. done.
  - intros n Hn. rewrite Hb, He, Hsz. apply andb_prop in Hn as [Hn _].
    apply andb_prop in Hn as [H1 H2]. apply Z.leb_le in H1. apply Z.ltb_lt in H2.
    Z.to_euclidean_division_equations; lia.
Qed.

(** Loading an image into a region, seen by the debugger. *)
Lemma load_image rs st r src : disjoint_regions rs -> regions_ok st rs -> Guest.RDirect r ∈ rs ->
  Z.of_nat (length src) <= Direct.actualSizeInBytes r ->
  Direct.actualSizeInBytes r <= rEnd (Direct.traits r) - rBase (Direct.traits r) ->
  exists st', Direct.copy_from r src st = Ok st' /\ same_shape st st' /\
    forall b, host_byte rs b st' =
      let n := b - rBase (Direct.traits r) in
      if (0 <=? n) && (n <? Z.of_nat (length src))
      then Ok (Some (u8 (nth (Z.to_nat n) src 0))) else host_byte rs b st.
Proof.
  intros Hd Hok Hin Hlen Hsz. pose proof (region_ok_in _ _ _ Hok Hin) as Hr.
  destruct (copy_from_spec st r src Hr Hlen) as (st' & E & Hs & Hby).
  exists st'. split; [done |]. split; [done |]. intros b. cbv zeta.
  rewrite (host_byte_update rs st st' r
    (fun n => (0 <=? n) && (n <? Z.of_nat (length src)))
    (fun n => u8 (nth (Z.to_nat n) src 0)) Hd Hok Hs Hin); [done | |].
  - intros c n Hn. rewrite Hby, (proj2 (Z.leb_le 0 n)) by done. done.
  - intros n Hn. apply andb_prop in Hn as [H1 H2]. apply Z.leb_le in H1. apply Z.ltb_lt in H2. lia.
Qed.

(** Filling a region, seen by the debugger. *)
Lemma fill_region rs st r v : disjoint_regions rs -> regions_ok st rs -> Guest.RDirect r ∈ rs ->
  Direct.actualSizeInBytes r <= rEnd (Direct.traits r) - rBase (Direct.traits r) ->
  exists st', Direct.fill r v st = Ok st' /\ same_shape st st' /\
    forall b, host_byte rs b st' =
      let n := b - rBase (Direct.traits r) in
      if (0 <=? n) && (n <? Direct.actualSizeInBytes r) then Ok (Some (u8 v))
      else host_byte rs b st.
Proof.
  intros Hd Hok Hin Hsz. pose proof (region_ok_in _ _ _ Hok Hin) as Hr.
  destruct (fill_spec st r v Hr) as (st' & E & Hs & Hby).
  exists st'. split; [done |]. split; [done |]. intros b. cbv zeta.
  rewrite (host_byte_update rs st st' r
    (fun n => (0 <=? n) && (n <? Direct.actualSizeInBytes r)) (fun _ => u8 v) Hd Hok Hs Hin);
    [done | |].
  - intros c n Hn. rewrite Hby, (proj2 (Z.leb_le 0 n)) by done. done.
  - intros n Hn. apply andb_prop in Hn as [H1 H2]. apply Z.leb_le in H1. apply Z.ltb_lt in H2. lia.
Qed.

(** ** The contest system *)

(** The Verilated arrays: [irom] and [dram] with their sizes, the instruction memory below
    the data memory. *)
Definition jyd_arrays (irom dram : nat) (irom_words dram_words : Z) (st : store) : Prop :=
  irom <> dram /\ 0 < irom_words <= 0x40000 /\ 0 < dram_words < 0x1ffc0000 /\
  (exists k, st !! irom = Some k /\ csize k = irom_words) /\
  (exists k, st !! dram = Some k /\ csize k = dram_words).

Lemma jyd_regions irom dram nw dw st : jyd_arrays irom dram nw dw st ->
  let ir := Direct.Mem (Traits 0x80000000 (0x80000000 + 4 * nw) "irom") (4 * nw) irom in
  let dr := Direct.Mem (Traits 0x80100000 (0x80100000 + 4 * dw) "dram") (4 * dw) dram in
  Jyd.MakeDirectMappedMemFromVlUnpacked "irom" irom nw 0x80000000 0 = Ok ir /\
  Jyd.MakeDirectMappedMemFromVlUnpacked "dram" dram dw 0x80100000 0 = Ok dr /\
  regions_ok st [Guest.RDirect ir; Guest.RDirect dr] /\
  disjoint_regions [Guest.RDirect ir; Guest.RDirect dr].
Proof.
  intros (Hne & Hn & Hw & (k & Hk & Hsk) & (k' & Hk' & Hsk')). cbv zeta.
  assert (forall name ptr n base, 0 < n -> 0 <= base -> base + 4 * n < 2 ^ 32 ->
    Jyd.MakeDirectMappedMemFromVlUnpacked name ptr n base 0 =
      Ok (Direct.Mem (Traits base (base + 4 * n) name) (4 * n) ptr)) as Hmk.
  { intros name ptr n base H1 H2 H3. unfold Jyd.MakeDirectMappedMemFromVlUnpacked.
    cbn [Z.eqb]. unfold Direct.new_external, new_traits.
    rewrite !(wrap_small 32 (base + _)), (wrap_small 32 (4 * n)) by (unfold in_range; lia).
    replace (base + 4 * n - base) with (4 * n) by lia.
    rewrite (wrap_small 32 (4 * n)) by (unfold in_range; lia).
    rewrite (proj2 (Z.ltb_lt _ _)), (proj2 (Z.leb_le _ _)) by lia.
    replace (4 * n) with (n * 4) by lia. rewrite Z_mod_mult. done. }
  split; [apply Hmk; lia |]. split; [apply Hmk; lia |].
  assert (forall ptr n base name j, st !! ptr = Some j -> csize j = n -> 0 < n ->
    0 <= base -> base mod 4 = 0 -> base + 4 * n < 2 ^ 32 ->
    region_ok st (Guest.RDirect (Direct.Mem (Traits base (base + 4 * n) name) (4 * n) ptr))) as Hro.
  { intros ptr n base name j Hj Hcs H1 H2 H3 H4. split; [cbn; repeat split; cbn; lia || done |].
    split; [exists j; split; [done |] | split]; cbn; Z.to_euclidean_division_equations; lia. }
  split; [split |].
  - repeat (apply Forall_cons; split); [| | by apply Forall_nil];
      (eapply Hro; [done.. | lia | lia | done | lia]).
  - cbn. apply NoDup_cons. split; [by rewrite list_elem_of_singleton | apply NoDup_singleton].
  - intros i j r r' Hi Hj Hij.
    destruct i as [| [| i]], j as [| [| j]]; cbn in Hi, Hj; simplify_eq; cbn; lia.
Qed.

(** After initialisation the instruction memory holds the image, the data memory the data
    file; all other bytes are as the model had them; the reference of the differential test is
    given the whole data memory. *)
Theorem jyd_memories_loaded irom dram nw dw img content s st :
  jyd_arrays irom dram nw dw st -> Jyd.mem_regions s = [] ->
  Z.of_nat (length img) <= 4 * nw -> Z.of_nat (length content) <= 4 * dw ->
  exists s' st', Jyd.init_mem irom dram nw dw img (Some content) s st = Ok (s', st') /\
    same_shape st st' /\
    let rs := fst (Jyd.get_mem_regions s') in
    (forall b, host_byte rs b st' =
       if (0x80000000 <=? b) && (b <? 0x80000000 + Z.of_nat (length img))
       then Ok (Some (u8 (nth (Z.to_nat (b - 0x80000000)) img 0)))
       else if (0x80100000 <=? b) && (b <? 0x80100000 + Z.of_nat (length content))
       then Ok (Some (u8 (nth (Z.to_nat (b - 0x80100000)) content 0)))
       else host_byte rs b st) /\
    Jyd.get_mem_regions_need_init_difftest s' = Ok [("dram"%string, 0x80100000, 4 * dw, dram)].
Proof.
  intros Harr Hs Hli Hld. destruct (jyd_regions _ _ _ _ _ Harr) as (Ei & Ed & Hok & Hd).
  set (ir := Direct.Mem _ _ irom) in *. set (dr := Direct.Mem _ _ dram) in *.
  destruct (load_image _ st ir img Hd Hok) as (st1 & E1 & Hs1 & Hb1);
    [by left | done | cbn; lia |].
  destruct (load_image _ st1 dr content Hd (regions_ok_shape _ _ _ Hs1 Hok))
    as (st2 & E2 & Hs2 & Hb2); [by right; left | done | cbn; lia |].
  eexists _, st2. split.
  { unfold Jyd.init_mem. rewrite Ei, Ed. cbn [mbind res_bind]. rewrite E1. cbn [mbind res_bind].
    rewrite (proj2 (Z.ltb_ge _ _)) by (cbn; lia). by rewrite E2. }
  split; [by transitivity st1 |]. cbv zeta. unfold Jyd.get_mem_regions.
  cbn [Jyd.mem_regions Jyd.irom_ptr Jyd.dram_ptr]. rewrite Hs. cbn [fst].
  split; [| done]. intros b. rewrite Hb2, Hb1. cbn [Direct.traits rBase ir dr]. cbv zeta.
  destruct Harr as (_ & Hn & _).
  destruct (Z.leb_spec 0x80000000 b), (Z.leb_spec 0x80100000 b),
    (Z.leb_spec 0 (b - 0x80000000)), (Z.leb_spec 0 (b - 0x80100000)); try lia; cbn [andb]; try done.
  - destruct (Z.ltb_spec b (0x80000000 + Z.of_nat (length img))); [lia |].
    destruct (Z.ltb_spec (b - 0x80000000) (Z.of_nat (length img))); [lia |].
    by destruct (Z.ltb_spec b (0x80100000 + Z.of_nat (length content))),
      (Z.ltb_spec (b - 0x80100000) (Z.of_nat (length content))); try lia.
  - by destruct (Z.ltb_spec b (0x80000000 + Z.of_nat (length img))),
      (Z.ltb_spec (b - 0x80000000) (Z.of_nat (length img))); try lia.
Qed.

(** The board reports success exactly when the seven-segment display shows 37 in its high
    byte and the lights one of the two patterns. *)
Lemma good_trap_iff s leds segs : in_range 32 leds -> in_range 32 segs ->
  Jyd.jyd_is_good_trap (Jyd.jyd_update_led leds (Jyd.jyd_update_seg segs s)) = true <->
  segs / 2 ^ 24 = 0x37 /\ (leds = Jyd.good_trap_led_1 \/ leds = Jyd.good_trap_led_2).
Proof.
  intros Hl Hs. unfold Jyd.jyd_is_good_trap. cbn. rewrite !wrap_small by done.
  change 0xff with (Z.ones 8). rewrite Z.land_ones, Z.shiftr_div_pow2 by lia.
  unfold in_range in *.
  rewrite (Z.mod_small (segs / 2 ^ 24)) by (Z.to_euclidean_division_equations; lia).
  destruct (Z.eqb_spec (segs / 2 ^ 24) 55), (Z.eqb_spec leds Jyd.good_trap_led_1),
    (Z.eqb_spec leds Jyd.good_trap_led_2); cbn; intuition congruence.
Qed.

(** ** SDRAM: the view of the chips and the view of the debugger *)

Lemma sdram_read_small g block bank row col st :
  0 <= block < 4 -> 0 <= bank < 4 -> 0 <= row < 8192 -> 0 <= col < 512 ->
  Ysyx.sdram_read g block bank row col st =
    cell_get st (Sdram.data (Ysyx.sdram g)) (Sdram.cell_index bank row col block).
Proof.
  intros Hbl Hba Hr Hc. unfold Ysyx.sdram_read, Sdram.read_half, Sdram.data_at.
  rewrite !sext_small by (unfold in_srange; lia).
  rewrite !wrap_small by (unfold in_range; lia).
  unfold Sdram.N_BANKS, Sdram.N_ROWS, Sdram.N_COLS, Sdram.N_BLOCKS.
  by rewrite !(proj2 (Z.ltb_lt _ _)) by lia.
Qed.

(** The word at an address is the pair of halves two chips hold at the address's bank, row
    and column. *)
Lemma sdram_views_agree r a st : traits_ok (Sdram.traits r) ->
  contains (Sdram.traits r) a = true ->
  let o := a - rBase (Sdram.traits r) in
  let bank := (o / 1024) mod 4 in
  let row := (o / 8192) mod 8192 in
  let col := (o / 2) mod 512 in
  let block := 2 * ((o / 4096) mod 2) in
  Sdram.read_word r a st =
    (hi ← Sdram.read_half r bank row col (block + 1) st;
     lo ← Sdram.read_half r bank row col block st;
     Ok ((hi <<< 16) ||| lo)).
Proof.
  intros Ht Hc. cbv zeta. set (o := a - rBase (Sdram.traits r)).
  unfold Sdram.read_word, Sdram.read_half. rewrite get_data_at_ok by done.
  cbn [mbind res_bind fst snd]. fold o.
  assert (low_cell (sdram_slot o) =
    Sdram.cell_index ((o / 1024) mod 4) ((o / 8192) mod 8192) ((o / 2) mod 512)
      (2 * ((o / 4096) mod 2))) as ->.
  { clearbody o. unfold low_cell, Sdram.cell_index, Sdram.N_ROWS, Sdram.N_COLS, Sdram.N_BLOCKS.
    replace ((sdram_slot o / 512) mod 4) with ((o / 1024) mod 4)
      by (unfold sdram_slot; Z.to_euclidean_division_equations; lia).
    replace (sdram_slot o / 4096) with ((o / 8192) mod 8192)
      by (unfold sdram_slot; Z.to_euclidean_division_equations; lia).
    replace (sdram_slot o mod 512) with ((o / 2) mod 512)
      by (unfold sdram_slot; Z.to_euclidean_division_equations; lia).
    replace ((sdram_slot o / 2048) mod 2) with ((o / 4096) mod 2)
      by (unfold sdram_slot; Z.to_euclidean_division_equations; lia). lia. }
  unfold Sdram.data_at.
  unfold Sdram.N_BANKS, Sdram.N_ROWS, Sdram.N_COLS, Sdram.N_BLOCKS.
  rewrite !(proj2 (Z.ltb_lt _ _)) by (Z.to_euclidean_division_equations; lia).
  cbn [c_assert mbind res_bind]. unfold Sdram.cell_index. by rewrite Z.add_assoc.
Qed.

(** Addresses 64 MiB apart select the same word although the region spans 256 MiB; aligned
    words in the same 64 MiB do not collide. *)
Lemma sdram_slot_alias o : sdram_slot (o + 2 ^ 26) = sdram_slot o.
Proof. unfold sdram_slot. Z.to_euclidean_division_equations; lia. Qed.

Lemma sdram_slot_distinct o o' : 0 <= o < 2 ^ 26 -> 0 <= o' < 2 ^ 26 ->
  o mod 4 = 0 -> o' mod 4 = 0 -> sdram_slot o = sdram_slot o' -> o = o'.
Proof. unfold sdram_slot. intros. Z.to_euclidean_division_equations; lia. Qed.

(** Filling the SDRAM with a byte sets only the low byte of every half. *)
Lemma sdram_fill_word st r v a : region_ok st (Guest.RSdram r) ->
  contains (Sdram.traits r) a = true ->
  exists st', Sdram.fill r v st = Ok st' /\ same_shape st st' /\
    Sdram.read_word r a st' = Ok (u8 v * 0x00010001) /\
    forall c n, c <> Sdram.data r -> byte_at st' c n = byte_at st c n.
Proof.
  intros Hr Hc. pose proof (sdram_cells_ok _ _ a Hr) as [(k & Hk & Hl) (k' & Hk' & Hh)].
  cbn in Hl, Hh. rewrite Hk in Hk'. injection Hk' as <-. destruct Hr as (Ht & _). cbn in Ht.
  unfold Sdram.fill. rewrite Hk. eexists. split; [done |]. split; [| split].
  - intros c. destruct (decide (c = Sdram.data r)) as [-> |].
    + rewrite list_lookup_insert_eq by by eapply lookup_lt_Some. by rewrite Hk.
    + by rewrite list_lookup_insert_ne.
  - unfold Sdram.read_word. rewrite get_data_at_ok by done. cbn [mbind res_bind fst snd].
    unfold cell_get. rewrite list_lookup_insert_eq by by eapply lookup_lt_Some. cbn [csize cdata].
    rewrite !(proj2 (Z.leb_le _ _)), !(proj2 (Z.ltb_lt _ _)) by lia. cbn [andb mbind res_bind].
    pose proof (wrap_range 8 v ltac:(lia)) as Hv. unfold in_range in Hv.
    rewrite lor_add by (unfold in_range; lia). f_equal. lia.
  - intros c n Hne. unfold byte_at, cell_get. by rewrite list_lookup_insert_ne.
Qed.

(** ysyxSoC after initialisation: the image is in the flash, the PSRAM is filled. *)
Lemma ysyx_image_loaded g st0 st img zero :
  Ysyx.new_g_mem = Ok (g, st0) -> same_shape st0 st -> Z.of_nat (length img) <= 0x4000000 ->
  exists st', Ysyx.init_mem g img zero st = Ok st' /\ same_shape st st' /\
    forall b, host_byte (Ysyx.get_mem_regions g) b st' =
      if (0x80000000 <=? b) && (b <? 0x88000000) then Ok (Some (if zero then 0 else 0xcc))
      else if (0x30000000 <=? b) && (b <? 0x30000000 + Z.of_nat (length img))
      then Ok (Some (u8 (nth (Z.to_nat (b - 0x30000000)) img 0)))
      else host_byte (Ysyx.get_mem_regions g) b st.
Proof.
  intros Hg Hsh Hlen.
  destruct (new_g_mem_regions _ _ Hg) as (Hok & Hd & Hpb & Hpe & Hps & Hfb & Hfe & Hfs).
  apply (regions_ok_shape _ _ _ Hsh) in Hok.
  assert (forall r, r ∈ Ysyx.get_mem_regions g <-> In r (Ysyx.get_mem_regions g)) as Hin
    by (intros; apply list_elem_of_In).
  destruct (load_image _ st (Ysyx.flash g) img Hd Hok) as (st1 & E1 & Hs1 & Hb1);
    [apply Hin; cbn; tauto | lia | lia |].
  pose proof (regions_ok_shape _ _ _ Hs1 Hok) as Hok1.
  destruct (fill_region _ st1 (Ysyx.psram g) (if zero then 0 else 0xcc) Hd Hok1)
    as (st2 & E2 & Hs2 & Hb2); [apply Hin; cbn; tauto | lia |].
  pose proof (regions_ok_shape _ _ _ Hs2 Hok1) as Hok2.
  assert (Guest.RSdram (Ysyx.sdram g) ∈ Ysyx.get_mem_regions g) as Hsd by (apply Hin; cbn; tauto).
  destruct (sdram_fill_word st2 (Ysyx.sdram g) (if zero then 0 else 0xdd)
    (rBase (Sdram.traits (Ysyx.sdram g)))) as (st3 & E3 & Hs3 & _ & Hb3).
  { by apply (region_ok_in _ _ _ Hok2). }
  { destruct (region_ok_in _ _ _ Hok2 Hsd) as ((Ht & _) & _). cbn in Ht. unfold contains.
    by rewrite (proj2 (Z.leb_le _ _)), (proj2 (Z.ltb_lt _ _)) by lia. }
  pose proof (regions_ok_shape _ _ _ Hs3 Hok2) as Hok3.
  exists st3. split; [| split].
  - unfold Ysyx.init_mem, Ysyx.fill_rams_uninit. rewrite E1. cbn [mbind res_bind].
    destruct zero; rewrite E2; cbn [mbind res_bind]; by rewrite E3.
  - etransitivity; [exact Hs1 |]. by etransitivity.
  - intros b. transitivity (host_byte (Ysyx.get_mem_regions g) b st2).
    + destruct Hok3 as [Hf3 _], Hok2 as [Hf2 Hnd]. rewrite !host_byte_lookup by done.
      destruct (lookup_region _ b) as [[r | r] |] eqn:El; [| done | done].
      apply lookup_region_Some in El as [Hr _].
      destruct (decide (Direct.data r = Sdram.data (Ysyx.sdram g))) as [He |];
        [| by rewrite Hb3].
      by pose proof (region_data_inj st2 _ (Guest.RDirect r) _ (conj Hf2 Hnd) Hr Hsd He).
    + rewrite Hb2, Hb1. cbv zeta. rewrite Hpb, Hps, Hfb.
      replace (u8 (if zero then 0 else 0xcc)) with (if zero then 0 else 0xcc) by by destruct zero.
      assert (forall x c n, (0 <=? x - c) && (x - c <? n) = (c <=? x) && (x <? c + n)) as Hw.
      { intros x c n. f_equal; [destruct (Z.leb_spec 0 (x - c)), (Z.leb_spec c x)
        | destruct (Z.ltb_spec (x - c) n), (Z.ltb_spec x (c + n))]; lia || done. }
      by rewrite !Hw.
Qed.

(** ** Witnesses *)

Definition jyd_arrays_example : store := [Container 4 (fun _ => 0xaaaaaaaa); Container 8 (fun _ => 0)].

Lemma jyd_arrays_example_ok : jyd_arrays 0 1 4 8 jyd_arrays_example.
Proof. split; [done |]. split; [lia |]. split; [lia |]. split; eexists; done. Qed.

(** The word at 0x80100004 of a small contest system, after a write through the debugger. *)
Lemma soc_memory_store_load_witness :
  exists rs st', Guest.write_guest_mem rs 0x80100004 0xdeadbeef jyd_arrays_example = Ok (true, st') /\
    Guest.read_guest_mem rs 0x80100006 st' = Ok (Some 0xdeadbeef) /\
    Guest.read_guest_mem rs 0x80000000 st' = Ok (Some 0xaaaaaaaa) /\
    Guest.read_guest_mem rs 0x90000000 st' = Ok None.
Proof.
  destruct (jyd_regions _ _ _ _ _ jyd_arrays_example_ok) as (_ & _ & Hok & _). eexists.
  destruct (soc_memory_store_load _ 0x80100004 0xdeadbeef _ Hok ltac:(reflexivity)
    ltac:(unfold in_range; lia)) as (st' & E & _ & Hr).
  exists st'. split; [exact E |]. rewrite !Hr. split; [reflexivity |]. split; reflexivity.
Defined.

(** The example of the comment at write_word, at the start of the PSRAM. *)
Lemma psram_strobed_write_witness :
  exists g st0 st', Ysyx.new_g_mem = Ok (g, st0) /\
    Ysyx.psram_write g 0x1001 13 0x12345678 st0 = Ok st' /\
    host_byte (Ysyx.get_mem_regions g) 0x80001000 st' = Ok (Some 0) /\
    host_byte (Ysyx.get_mem_regions g) 0x80001001 st' = Ok (Some 0x78) /\
    host_byte (Ysyx.get_mem_regions g) 0x80001002 st' = Ok (Some 0) /\
    host_byte (Ysyx.get_mem_regions g) 0x80001003 st' = Ok (Some 0x34) /\
    host_byte (Ysyx.get_mem_regions g) 0x80001004 st' = Ok (Some 0).
Proof.
  destruct Ysyx.new_g_mem as [[g st0] | f] eqn:E; [| discriminate E]. exists g, st0.
  destruct (psram_strobed_write g st0 st0 0x1001 13 0x12345678 E ltac:(reflexivity) ltac:(lia))
    as (st' & Ew & _ & Hb).
  exists st'. split; [reflexivity |]. split; [exact Ew |]. rewrite !Hb.
  vm_compute in E. injection E as <- <-. repeat split.
Defined.

Lemma jyd_memories_loaded_witness :
  exists s' st', Jyd.init_mem 0 1 4 8 [0x13; 0; 0; 0] (Some [1; 2]) Jyd.jyd_start jyd_arrays_example
      = Ok (s', st') /\
    host_byte (fst (Jyd.get_mem_regions s')) 0x80000000 st' = Ok (Some 0x13) /\
    host_byte (fst (Jyd.get_mem_regions s')) 0x80100001 st' = Ok (Some 2).
Proof.
  destruct (jyd_memories_loaded 0 1 4 8 [0x13; 0; 0; 0] [1; 2] Jyd.jyd_start _
    jyd_arrays_example_ok ltac:(reflexivity) ltac:(cbn; lia) ltac:(cbn; lia))
    as (s' & st' & E & _ & Hb & _).
  exists s', st'. split; [exact E |]. rewrite !Hb. split; reflexivity.
Defined.
