(* ===== verification/Tracers.v ===== *)
(** * Tracers: the observers of the debugger (sdb/src)

    etrace.cpp, ftrace.cpp with the function table of elf_tool.cpp, iringbuf.cpp and
    selfloop.cpp: what each recognises in an instruction and what it keeps.  Their text output is
    represented by the values that are printed. *)
From S2P Require Import Prelude.

(** The instruction as the word its bytes form (the cast of the data pointer). *)
Definition inst_word (inst : list Z) : Z := le_read 4 (mem_of 0 inst) 0.

(** ** etrace.cpp *)

Inductive exception_type := exc_none | ecall | eret.
Definition INST_ECALL : Z := 0x00000073.
Definition INST_MRET : Z := 0x30200073.

Definition default_riscv_exception_recognizer (code : Z) : exception_type :=
  if code =? INST_ECALL then ecall
  else if code =? INST_MRET then eret
  else exc_none.

(** ** ftrace.cpp *)

Inductive jump_type := normal | call | ret.

Definition default_riscv_jump_recognizer (instr : Z) : jump_type :=
  let opcode := instr &&& 0x7f in
  let funct3 := (instr >>> 12) &&& 0x7 in
  let rd := (instr >>> 7) &&& 0x1f in
  let rs1 := (instr >>> 15) &&& 0x1f in
  let is_jal := opcode =? 0x6f in
  let is_jalr := (opcode =? 0x67) && (funct3 =? 0) in
  let is_ret := is_jalr && (rd =? 0) && (rs1 =? 1) in
  let is_call := (is_jal && (rd =? 1)) || (is_jalr && (rd =? 1)) in
  if is_call then call else if is_ret then ret else normal.

Definition get_target_addr_riscv (pc : Z) (regs : list Z) (instr : Z) : Z :=
  let opcode := instr &&& 0x7f in
  if opcode =? 0x6f then
    let imm := (((instr >>> 21) &&& 0x3ff) <<< 1) ||| (((instr >>> 20) &&& 0x1) <<< 11)
               ||| (((instr >>> 12) &&& 0xff) <<< 12)
               ||| (if instr >>> 31 =? 0 then 0 else 0xfffff000) in
    u32 (pc + imm)
  else if opcode =? 0x67 then
    let imm := ((instr >>> 20) &&& 0xfff) ||| (if instr >>> 31 =? 0 then 0 else 0xfffff000) in
    let rs1 := (instr >>> 15) &&& 0x1f in
    let base := aget 0 regs rs1 in
    u32 (base + imm) &&& not32 1
  else 0.

(** elf_handler::func and get_fun_at: the first function that holds the address. *)
Record func := Func { faddr : Z; fsize : Z; fname : list Z }.

Fixpoint get_fun_at (funcs : list func) (addr : Z) : option func :=
  match funcs with
  | [] => None
  | f :: funcs => if (faddr f <=? addr) && (addr <? u32 (faddr f + fsize f)) then Some f
                  else get_fun_at funcs addr
  end.

(** A line of the function trace. *)
Inductive ftrace_line :=
  | FCall (pc depth : Z) (target from : option (list Z))
  | FRet (pc depth : Z) (from : option (list Z))
  | FDepthError.

(** handle: the new depth and the lines. *)
Definition ftrace_handle (funcs : list func) (func_depth pc : Z) (regs : list Z) (code : Z)
  : Z * list ftrace_line :=
  let name_at a := fname <$> get_fun_at funcs a in
  match default_riscv_jump_recognizer code with
  | normal => (func_depth, [])
  | call =>
      let func_depth := func_depth + 1 in
      (func_depth, [FCall pc func_depth (name_at (get_target_addr_riscv pc regs code)) (name_at pc)])
  | ret =>
      let line := FRet pc func_depth (name_at pc) in
      if 0 <? func_depth then (func_depth - 1, [line]) else (func_depth, [line; FDepthError])
  end.

(** ** iringbuf.cpp *)

(** riscv_fp_state of difftest.h: 32 registers of two 64-bit halves, and fcsr. *)
Record riscv_fp_state := FpState { fp_fpr : list (Z * Z); fp_fcsr : Z }.

Record irb_inst_ctx := IrbInst {
  irb_pc : Z; irb_inst : list Z; irb_regs : list Z; irb_fp : option riscv_fp_state }.

(** handle: append, then drop from the front while there are more than [n_records]. *)
Fixpoint pop_excess {A} (n_records : Z) (buf : list A) : list A :=
  match buf with
  | [] => []
  | _ :: buf' => if n_records <? Z.of_nat (length buf) then pop_excess n_records buf' else buf
  end.
Definition iringbuf_handle {A} (n_records : Z) (buf : list A) (x : A) : list A :=
  pop_excess n_records (buf ++ [x]).

(** An item of the register columns of the dump. *)
Inductive reg_item := DGpr (r v : Z) | DFpr (r : Z) (v : Z * Z) | DFcsr (v : Z).

Definition dump_gpr (ctx : irb_inst_ctx) (r : Z) : list reg_item :=
  if r =? 0 then [] else [DGpr r (aget 0 (irb_regs ctx) r)].
Definition dump_fpr (ctx : irb_inst_ctx) (r : Z) : list reg_item :=
  match irb_fp ctx with None => [] | Some f => [DFpr r (aget (0, 0) (fp_fpr f) r)] end.

Definition dump_using_reg (ctx : irb_inst_ctx) : list reg_item :=
  let code := inst_word (irb_inst ctx) in
  let rd := (code >>> 7) &&& 0x1f in
  let rs1 := (code >>> 15) &&& 0x1f in
  let rs2 := (code >>> 20) &&& 0x1f in
  let rs3 := (code >>> 27) &&& 0x1f in
  let opcode := code &&& 0x7f in
  if opcode =? 0x07 then dump_fpr ctx rd ++ dump_gpr ctx rs1
  else if opcode =? 0x27 then dump_gpr ctx rs1 ++ dump_fpr ctx rs2
  else if (opcode =? 0x43) || (opcode =? 0x47) || (opcode =? 0x4b) || (opcode =? 0x4f) then
    dump_fpr ctx rd ++ dump_fpr ctx rs1 ++ dump_fpr ctx rs2 ++ dump_fpr ctx rs3
  else if opcode =? 0x53 then
    let funct5 := (code >>> 27) &&& 0x1f in
    if (funct5 =? 0x14) || (funct5 =? 0x18) || (funct5 =? 0x1c) then
      dump_gpr ctx rd ++ dump_fpr ctx rs1 ++ (if funct5 =? 0x14 then dump_fpr ctx rs2 else [])
    else if (funct5 =? 0x1a) || (funct5 =? 0x1e) then dump_fpr ctx rd ++ dump_gpr ctx rs1
    else if funct5 =? 0x0b then dump_fpr ctx rd ++ dump_fpr ctx rs1
    else dump_fpr ctx rd ++ dump_fpr ctx rs1 ++ dump_fpr ctx rs2
  else if opcode =? 0x73 then
    let csr := code >>> 20 in
    dump_gpr ctx rd ++ dump_gpr ctx rs1 ++
    match irb_fp ctx with
    | Some f => if (1 <=? csr) && (csr <=? 3) then [DFcsr (fp_fcsr f)] else []
    | None => []
    end
  else dump_gpr ctx rd ++ dump_gpr ctx rs1 ++ dump_gpr ctx rs2.

(** make_dump: one row per kept instruction, numbered down to 0 for the last. *)
Fixpoint iringbuf_rows (buf : list irb_inst_ctx) : list (Z * Z * Z * list reg_item) :=
  match buf with
  | [] => []
  | x :: buf' => (Z.of_nat (length buf) - 1, irb_pc x, inst_word (irb_inst x), dump_using_reg x)
                 :: iringbuf_rows buf'
  end.

(** ** selfloop.cpp *)

Definition SELF_LOOP : Z := 0x0000006f.

(** * Properties *)

(** ** The ring keeps the last instructions *)

Lemma pop_excess_drop {A} n (l : list A) : 0 <= n -> pop_excess n l = drop (length l - Z.to_nat n) l.
Proof.
  intros Hn. induction l as [| x l IH]; [done |]. cbn [pop_excess].
  destruct (Z.ltb_spec n (Z.of_nat (length (x :: l)))) as [Hlt | Hge].
  - rewrite IH. cbn [length] in *.
    replace (S (length l) - Z.to_nat n)%nat with (S (length l - Z.to_nat n))%nat by lia. done.
  - replace (length (x :: l) - Z.to_nat n)%nat with 0%nat by lia. done.
Qed.

Lemma iringbuf_run {A} n (xs : list A) buf : 0 <= n -> Z.of_nat (length buf) <= n ->
  foldl (iringbuf_handle n) buf xs = drop (length (buf ++ xs) - Z.to_nat n) (buf ++ xs).
Proof.
  intros Hn. revert buf. induction xs as [| x xs IH]; intros buf Hb.
  - cbn. rewrite app_nil_r. by replace (length buf - Z.to_nat n)%nat with 0%nat by lia.
  - cbn. unfold iringbuf_handle at 2. rewrite pop_excess_drop by done.
    rewrite IH by (rewrite length_drop, length_app; cbn; lia).
    set (k := (length (buf ++ [x]) - Z.to_nat n)%nat).
    assert (k <= length (buf ++ [x]))%nat as Hk by (unfold k; lia).
    rewrite <- drop_app_le, <- app_assoc by done. cbn [app]. rewrite drop_drop. f_equal.
    rewrite length_drop. unfold k. rewrite !length_app. cbn. lia.
Qed.

(** ** Jump targets *)

(** The offset a JAL instruction encodes. *)
Definition jal_offset (code : Z) : Z :=
  sext 21 ((((code >>> 21) &&& 0x3ff) <<< 1) ||| (((code >>> 20) &&& 0x1) <<< 11)
           ||| (((code >>> 12) &&& 0xff) <<< 12) ||| ((code >>> 31) <<< 20)).

Lemma jal_fields a b c : in_range 10 a -> in_range 1 b -> in_range 8 c ->
  (a <<< 1) ||| (b <<< 11) ||| (c <<< 12) = a * 2 + b * 2 ^ 11 + c * 2 ^ 12.
Proof.
  unfold in_range. intros Ha Hb Hc.
  rewrite (Z.lor_comm (a <<< 1)).
  assert (a <<< 1 = a * 2) as -> by (rewrite Z.shiftl_mul_pow2; lia).
  rewrite lor_add by (unfold in_range; lia). rewrite Z.lor_comm.
  rewrite lor_add by (unfold in_range; lia). lia.
Qed.

Lemma land_ones_range w x : 0 <= w -> in_range w (x &&& Z.ones w).
Proof. intros Hw. rewrite Z.land_ones by done. by apply wrap_range. Qed.

(** The traced target of a JAL is the target, except for a backward jump whose bits 19 to 12
    are not all set: the sign extension starts at bit 12 instead of bit 20. *)
Lemma jal_target_iff pc regs code : in_range 32 code -> code &&& 0x7f = 0x6f ->
  get_target_addr_riscv pc regs code = u32 (pc + jal_offset code) <->
  code >>> 31 = 0 \/ (code >>> 12) &&& 0xff = 0xff.
Proof.
  intros Hcode Hop. unfold get_target_addr_riscv, jal_offset. rewrite Hop. cbn [Z.eqb Pos.eqb].
  change 0x3ff with (Z.ones 10). change ((code >>> 20) &&& 1) with ((code >>> 20) &&& Z.ones 1). change 0xff with (Z.ones 8).
  pose proof (land_ones_range 10 (code >>> 21) ltac:(lia)) as Ha.
  pose proof (land_ones_range 1 (code >>> 20) ltac:(lia)) as Hb.
  pose proof (land_ones_range 8 (code >>> 12) ltac:(lia)) as Hc.
  set (a := (code >>> 21) &&& Z.ones 10) in *. set (b := (code >>> 20) &&& Z.ones 1) in *.
  set (c := (code >>> 12) &&& Z.ones 8) in *.
  assert (code >>> 31 = 0 \/ code >>> 31 = 1) as Hs.
  { rewrite Z.shiftr_div_pow2 by lia. unfold in_range in Hcode.
    Z.to_euclidean_division_equations; lia. }
  rewrite !jal_fields by done. unfold in_range in Ha, Hb, Hc.
  set (L := a * 2 + b * 2 ^ 11 + c * 2 ^ 12).
  assert (0 <= L < 2 ^ 20) as HL by (unfold L; lia).
  destruct Hs as [-> | ->]; cbn [Z.eqb].
  - rewrite Z.shiftl_0_l, !Z.lor_0_r. rewrite sext_small by (unfold in_srange; lia). tauto.
  - assert (L ||| 0xfffff000 = L mod 2 ^ 12 + 0xfffff000) as ->.
    { change 0xfffff000 with (0xfffff <<< 12) at 1. rewrite Z.lor_comm.
      assert (L = (c <<< 12) ||| (a * 2 + b * 2 ^ 11)) as E
        by (rewrite lor_add by (unfold in_range; lia); unfold L; lia).
      rewrite E at 1. rewrite Z.lor_assoc, <- Z.shiftl_lor.
      replace (0xfffff ||| c) with 0xfffff.
      - rewrite lor_add by (unfold in_range; lia). unfold L.
        rewrite Z_mod_plus_full, Z.mod_small by lia. lia.
      - symmetry. change 0xfffff with (Z.ones 20). rewrite Z.lor_comm.
        apply Z.lor_ones_low; [lia |]. destruct (decide (c = 0)) as [-> |]; [cbn; lia |].
        apply Z.log2_lt_pow2; lia. }
    assert (sext 21 (L ||| (1 <<< 20)) = L - 2 ^ 20) as ->.
    { rewrite Z.lor_comm, lor_add by (unfold in_range; lia). unfold sext, wrap.
      replace (1 * 2 ^ 20 + L + 2 ^ (21 - 1)) with (L + 1 * 2 ^ 21) by lia.
      rewrite Z_mod_plus_full, Z.mod_small by lia. lia. }
    assert (L mod 2 ^ 12 = a * 2 + b * 2 ^ 11) as ->
      by (unfold L; rewrite Z_mod_plus_full, Z.mod_small by lia; lia).
    unfold wrap. split.
    + intros H. right. unfold L in H. change (Z.ones 8) with 255.
      Z.to_euclidean_division_equations; lia.
    + intros [H | H]; [lia |]. change (Z.ones 8) with 255 in H. unfold L. rewrite H.
      replace (pc + (a * 2 + b * 2 ^ 11 + 0xfffff000))
        with (pc + (a * 2 + b * 2 ^ 11 + 255 * 2 ^ 12 - 2 ^ 20) + 1 * 2 ^ 32) by lia.
      by rewrite Z_mod_plus_full.
Qed.
