(* ===== verification/Debugger.v ===== *)
(** * Debugger: the debugger library (sdb) of the RTL simulation

    sdb.hpp, sdb.cpp, cmd.hpp, the evaluator of expr.cpp and difftest.cpp.  The debugger is
    written against four functions of the simulated processor ([Target]) and, for differential
    testing, against the functions of a reference simulator loaded from a shared library
    ([Reference]).  Both are interfaces here, as they are in the source; NpcSim and CoSim
    implement them.

    The trace handlers are objects shared between the debugger's list, the two lists of a run and
    the variable diff_handler; they live in one list and are named by their position.  What the
    debugger prints is a list of [event]s. *)
From S2P Require Import Prelude Tracers Expr.

(** ** Run state *)

Inductive run_state := running | stop | end_ | abort | quit.
#[export] Instance run_state_eq_dec : EqDecision run_state.
Proof. solve_decision. Defined.

(** [last_pc] has no value before the first instruction. *)
Record cpu_state := CpuSt { run : run_state; last_pc : option Z; dpc : Z; halt_ret : Z }.

Definition is_badexit (s : cpu_state) : bool :=
  negb ((bool_decide (run s = end_) && (halt_ret s =? 0)) || bool_decide (run s = quit)).

Definition set_run (r : run_state) (s : cpu_state) : cpu_state :=
  CpuSt r (last_pc s) (dpc s) (halt_ret s).
Definition st_halt (ret : Z) (s : cpu_state) : cpu_state := CpuSt end_ (last_pc s) (dpc s) ret.

(** ** The interfaces *)

(** What the processor calls back while it executes: the halt callback (sdb_set_halt) and
    sdb_skip_difftest_ref. *)
Inductive callback := CbHalt (a0 : Z) | CbSkip.

(** cpu_executor, reg_snapshoter, fp_state_snapshoter (when set), inst_fetcher, mem_loader and
    the names of the registers. *)
Class Target (M : Type) := {
  t_exec : Z -> M -> res (M * Z * list callback);
  t_regs : M -> list Z;
  t_fp : option (M -> riscv_fp_state);
  t_fetch : M -> Z -> res (list Z);
  t_loadmem : M -> Z -> Z -> res (list Z);
  t_names : list (list Z)
}.

(** difftest_exec(1), difftest_memcpy and difftest_regcpy to the reference, difftest_regcpy
    from it, and difftest_fp_regcpy, which the library may lack. *)
Class Reference (R : Type) := {
  ref_exec : R -> res R;
  ref_memcpy : Z -> list Z -> R -> res R;
  ref_set : list Z -> R -> R;
  ref_get : R -> list Z;
  ref_fp : option ((R -> riscv_fp_state) * (riscv_fp_state -> R -> R))
}.

(** ** Expressions (expr.cpp)

    Tokens, parentheses and the main operator are as in Expr; registers and memory come from
    the debugger, and a failed evaluation is 0. *)
Section eval.
Context (fr : list Z -> option Z) (fm : Z -> res Z) (toks : list Expr.Token).

Definition eval_one (t : Expr.Token) : res (option Z) :=
  match Expr.type t with
  | TK_DEC => v ← scan_dec (Expr.str t); Ok (Some v)
  | TK_HEX => v ← scan_hex (Expr.str t); Ok (Some v)
  | TK_REG => Ok (u32 <$> fr (drop 1 (Expr.str t)))
  | _ => Ok None
  end.

Fixpoint eval_sub (fuel : nat) (p q : Z) : res (option Z) :=
  match fuel with
  | O => Fault FFuel
  | S fuel =>
      if q <? p then Ok None
      else if p =? q then eval_one (aget no_token toks p)
      else if check_parentheses toks p q then eval_sub fuel (p + 1) (q - 1)
      else
        op ← find_main_op toks p q;
        let t := type_at toks op in
        val1 ← (if bool_decide (t = TK_DEREF) then Ok (Some 0) else eval_sub fuel p (op - 1));
        match val1 with
        | None => Ok None
        | Some val1 =>
            val2 ← eval_sub fuel (op + 1) q;
            match val2 with
            | None => Ok None
            | Some val2 =>
                match t with
                | TK_DEREF => v ← fm val2; Ok (Some v)
                | _ => Ok (apply_op t val1 val2)
                end
            end
        end
  end.
End eval.

(** [regex_search] is the match of a rule at the start of the text. *)
Definition expr_eval (regex_search : String.string -> list Z -> option Z) (raw : list Z)
    (fr : list Z -> option Z) (fm : Z -> res Z) : res Z :=
  toks ← make_token (fun re e => (fun n => (0, n)) <$> regex_search re e) raw;
  match toks with
  | None => Ok 0
  | Some toks =>
      v ← eval_sub fr fm toks (S (length toks)) 0 (Z.of_nat (length toks) - 1);
      Ok (default 0 v)
  end.

(** ** Commands (cmd.hpp) *)

Inductive errc := argument_list_too_long | invalid_argument | result_out_of_range | no_such_process.
Inductive arg := ASize (n : Z) | AText (s : list Z).
Inductive arg_kind := KSize | KText.

Definition SPACE : Z := 32.

(** split(' '): the empty line has no words; two spaces enclose an empty word. *)
Fixpoint split_at_space (s : list Z) (word : list Z) : list (list Z) :=
  match s with
  | [] => [word]
  | c :: s => if c =? SPACE then word :: split_at_space s [] else split_at_space s (word ++ [c])
  end.
Definition make_toksview (s : list Z) : list (list Z) :=
  match s with [] => [] | _ => split_at_space s [] end.

Fixpoint digits_prefix (s : list Z) : list Z :=
  match s with c :: s' => if dec_digit c then c :: digits_prefix s' else [] | [] => [] end.

(** from_chars into a size_t; what follows the digits is ignored. *)
Definition parse_size (s : list Z) : errc + Z :=
  match digits_prefix s with
  | [] => inl invalid_argument
  | d => if dec_value d <? 2 ^ 64 then inr (dec_value d) else inl result_out_of_range
  end.

Definition parse_arg (k : arg_kind) (s : list Z) : errc + arg :=
  match k with
  | KSize => match parse_size s with inl e => inl e | inr n => inr (ASize n) end
  | KText => inr (AText s)
  end.

(** The arguments from the words, then from the defaults, which are the last ones. *)
Fixpoint bind_args (kinds : list arg_kind) (toks : list (list Z)) (defaults : list arg)
  : errc + list arg :=
  match kinds, toks with
  | [], _ => inr []
  | k :: kinds', t :: toks' =>
      match parse_arg k t with
      | inl e => inl e
      | inr a =>
          match bind_args kinds' toks' defaults with inl e => inl e | inr l => inr (a :: l) end
      end
  | k :: kinds', [] => inr (drop (length defaults - length kinds) defaults)
  end.

Definition invoke_args (kinds : list arg_kind) (defaults : list arg) (toks : list (list Z))
  : errc + list arg :=
  if (length kinds <? length toks)%nat then inl argument_list_too_long
  else if (length toks + length defaults <? length kinds)%nat then inl invalid_argument
  else bind_args kinds toks defaults.

Inductive command := CmdC | CmdQ | CmdSi | CmdInfo | CmdX | CmdP | CmdW.

Definition cmd_table : list (String.string * (command * list arg_kind * list arg)) :=
  [("c", (CmdC, [], [])); ("q", (CmdQ, [], [])); ("si", (CmdSi, [KSize], [ASize 1]));
   ("info", (CmdInfo, [KText], [])); ("x", (CmdX, [KSize; KText], []));
   ("p", (CmdP, [KText], [])); ("w", (CmdW, [KText], []))]%string.

Fixpoint find_command (table : list (String.string * (command * list arg_kind * list arg)))
    (name : list Z) : option (command * list arg_kind * list arg) :=
  match table with
  | [] => None
  | (n, c) :: table => if is_name name n then Some c else find_command table name
  end.

(** The command and its arguments, nothing for an empty line. *)
Definition parse_command (line : list Z) : errc + option (command * list arg) :=
  match make_toksview line with
  | [] => inr None
  | name :: toks =>
      match find_command cmd_table name with
      | None => inl no_such_process
      | Some (c, kinds, defaults) =>
          match invoke_args kinds defaults toks with
          | inl e => inl e
          | inr args => inr (Some (c, args))
          end
      end
  end.

(** ** The debugger *)

Inductive require_int := r_none | r_stop | r_abort | r_halt (ret : Z).

(** What is printed, without the formatting. *)
Inductive event :=
  | EvInst (pc code : Z)
  | EvEcall (pc : Z) | EvMret (pc : Z)
  | EvFunc (l : ftrace_line)
  | EvSelfLoop (pc ret : Z)
  | EvDiff (pc : Z) (ref_pc : option Z) (rows : list (nat * Z * Z))
  | EvFpDiff (pc : Z) (rows : list nat) (diff_fcsr : bool)
  | EvWatch (old new : Z)
  | EvRequire (r : require_int)
  | EvStopped | EvAborted
  | EvRecent (rows : list (Z * Z * Z * list reg_item))
  | EvRegs (regs : list Z) (fp : option riscv_fp_state)
  | EvMem (addr : Z) (bytes : list Z)
  | EvValue (v : Z)
  | EvEnded | EvBadExit (pc : Z) | EvUnknownInfo (s : list Z) | EvCmdError (e : errc).

Record trace_context := Ctx {
  c_lastpc : option Z; c_pc : Z; c_regs : list Z; c_inst : list Z; c_fp : option riscv_fp_state }.

Section debugger.
Context {M R : Type} `{!Target M} `{!Reference R}.
Context (regex_search : String.string -> list Z -> option Z).

(** The trace handlers with their state: disasm_trace_handler (its threshold), etrace_handler,
    iringbuf_trace_handler, ftrace_handler, self_loop_trace_handler (its callback, which looks at
    the simulated board), difftest_trace_handler, watchpoint_tracer. *)
Inductive kind :=
  | HDisasm (threshold : Z)
  | HEtrace
  | HIringbuf (n_records : Z) (buf : list irb_inst_ctx)
  | HFtrace (funcs : list func) (func_depth : Z)
  | HSelfLoop (get_halt_ret : option (M -> Z))
  | HDifftest (is_skip_ref : bool) (ref : R)
  | HWatch (e : list Z) (last_val : Z).

Record handler := Handler { h_req : require_int; h_kind : kind }.

(** _require_call_after_inst_exec *)
Definition require_call_after_inst_exec (h : handler) : bool :=
  match h_kind h with HDifftest _ _ | HWatch _ _ => true | _ => false end.

Definition no_call_when_batch (h : handler) (n : Z) : bool :=
  match h_kind h with HDisasm threshold => threshold <? n | _ => false end.

Definition reset_int (h : handler) : handler := Handler r_none (h_kind h).

Record debuger := Dbg {
  target : M;
  dstate : cpu_state;
  reg_snap : list Z;
  fp_snap : riscv_fp_state;
  handlers : list handler;
  diff_handler : option nat;
  enable_inst_trace : bool;
  mem_base : Z;
  img_size : Z;
  out : list event
}.

Definition with_target (m : M) d :=
  Dbg m (dstate d) (reg_snap d) (fp_snap d) (handlers d) (diff_handler d) (enable_inst_trace d)
      (mem_base d) (img_size d) (out d).
Definition with_dstate (s : cpu_state) d :=
  Dbg (target d) s (reg_snap d) (fp_snap d) (handlers d) (diff_handler d) (enable_inst_trace d)
      (mem_base d) (img_size d) (out d).
Definition with_snap (r : list Z) (f : riscv_fp_state) d :=
  Dbg (target d) (dstate d) r f (handlers d) (diff_handler d) (enable_inst_trace d)
      (mem_base d) (img_size d) (out d).
Definition with_handlers (hs : list handler) d :=
  Dbg (target d) (dstate d) (reg_snap d) (fp_snap d) hs (diff_handler d) (enable_inst_trace d)
      (mem_base d) (img_size d) (out d).
Definition with_diff (i : option nat) d :=
  Dbg (target d) (dstate d) (reg_snap d) (fp_snap d) (handlers d) i (enable_inst_trace d)
      (mem_base d) (img_size d) (out d).
Definition say (es : list event) d :=
  Dbg (target d) (dstate d) (reg_snap d) (fp_snap d) (handlers d) (diff_handler d)
      (enable_inst_trace d) (mem_base d) (img_size d) (out d ++ es).

(** The constructor. *)
Definition new_debuger (init_pc base size : Z) (enable : bool) (m : M) : debuger :=
  Dbg m (CpuSt running None init_pc 0) (t_regs m) (FpState (replicate 32 (0, 0)) 0) [] None
      enable base size [].

(** set_fp_state_snapshoter: the first snapshot. *)
Definition take_fp d : riscv_fp_state := match t_fp with Some f => f (target d) | None => fp_snap d end.
Definition set_fp_state_snapshoter d : debuger := with_snap (reg_snap d) (take_fp d) d.

Definition is_running d : bool := bool_decide (run (dstate d) = running).

Definition get_reg_from_name d (name : list Z) : option Z :=
  if is_name name "pc" then Some (dpc (dstate d))
  else
    match list_find (eq name) t_names with
    | Some (i, _) => Some (nth i (reg_snap d) 0)
    | None =>
        match t_fp with
        | None => None
        | Some _ =>
            if is_name name "fcsr" then Some (fp_fcsr (fp_snap d))
            else
              match name with
              | 102 :: c :: s =>
                  if forallb dec_digit (c :: s) && (u64 (dec_value (c :: s)) <? 32)
                  then Some (fst (aget (0, 0) (fp_fpr (fp_snap d)) (u64 (dec_value (c :: s)))))
                  else None
              | _ => None
              end
        end
    end.

(** The word a dereference reads. *)
Definition load_word d (addr : Z) : res Z :=
  b ← t_loadmem (target d) addr 4; Ok (inst_word b).

Definition ctx_eval d (e : list Z) : res Z :=
  expr_eval regex_search e (get_reg_from_name d) (load_word d).

Definition make_trace_ctx d : res trace_context :=
  inst ← t_fetch (target d) (dpc (dstate d));
  Ok (Ctx (last_pc (dstate d)) (dpc (dstate d)) (reg_snap d) inst
          (match t_fp with Some _ => Some (fp_snap d) | None => None end)).

(** *** difftest.cpp *)

Definition pack_regs_and_pc (ctx : trace_context) : list Z := c_regs ctx ++ [c_pc ctx].

Definition require_fp_regcpy : res ((R -> riscv_fp_state) * (riscv_fp_state -> R -> R)) :=
  match ref_fp with Some f => Ok f | None => Fault FPanic end.

Definition difftest_init (ctx : trace_context) (img_data : list Z) (img_base : Z) (ref : R) : res R :=
  ref ← ref_memcpy img_base img_data ref;
  let ref := ref_set (pack_regs_and_pc ctx) ref in
  match c_fp ctx with
  | None => Ok ref
  | Some f => fp ← require_fp_regcpy; Ok (snd fp f ref)
  end.

(** The places where two arrays differ. *)
Definition diff_rows (regs ref_regs : list Z) : list (nat * Z * Z) :=
  filter (fun '(i, v, r) => r <> v)
    (imap (fun i v => (i, v, nth i ref_regs 0)) regs).

Definition diff_fprs (dut ref : list (Z * Z)) : list nat :=
  filter (fun i => nth i dut (0, 0) <> nth i ref (0, 0)) (seq 0 32).

(** A call through the null pointer of a missing difftest_fp_regcpy is undefined. *)
Definition fp_regcpy : res ((R -> riscv_fp_state) * (riscv_fp_state -> R -> R)) :=
  match ref_fp with Some f => Ok f | None => Fault FUndef end.

Definition difftest_handle (ctx : trace_context) (is_skip_ref : bool) (ref : R) (req : require_int)
  : res (handler * list event) :=
  let regs := pack_regs_and_pc ctx in
  if is_skip_ref then
    let ref := ref_set regs ref in
    ref ← match c_fp ctx with
          | None => Ok ref
          | Some f => fp ← fp_regcpy; Ok (snd fp f ref)
          end;
    Ok (Handler req (HDifftest false ref), [])
  else
    ref ← ref_exec ref;
    let ref_regs := ref_get ref in
    ref_fp_state ← match c_fp ctx with
                   | None => Ok None
                   | Some _ => fp ← fp_regcpy; Ok (Some (fst fp ref))
                   end;
    let rows := diff_rows regs ref_regs in
    match rows with
    | _ :: _ =>
        let ref_pc := nth (length regs - 1) ref_regs 0 in
        Ok (Handler r_abort (HDifftest false ref),
            [EvDiff (c_pc ctx) (if ref_pc =? c_pc ctx then None else Some ref_pc) rows])
    | [] =>
        match c_fp ctx, ref_fp_state with
        | Some dut, Some r =>
            let fprs := diff_fprs (fp_fpr dut) (fp_fpr r) in
            let diff_fcsr := negb (fp_fcsr dut =? fp_fcsr r) in
            match fprs, diff_fcsr with
            | [], false => Ok (Handler req (HDifftest false ref), [])
            | _, _ => Ok (Handler r_abort (HDifftest false ref), [EvFpDiff (c_pc ctx) fprs diff_fcsr])
            end
        | _, _ => Ok (Handler req (HDifftest false ref), [])
        end
    end.

(** *** The handlers *)

Definition handle d (ctx : trace_context) (h : handler) : res (handler * list event) :=
  let code := inst_word (c_inst ctx) in
  match h_kind h with
  | HDisasm _ => Ok (h, [EvInst (c_pc ctx) code])
  | HEtrace =>
      Ok (h, match default_riscv_exception_recognizer code with
             | exc_none => [] | ecall => [EvEcall (c_pc ctx)] | eret => [EvMret (c_pc ctx)] end)
  | HIringbuf n buf =>
      Ok (Handler (h_req h)
            (HIringbuf n (iringbuf_handle n buf (IrbInst (c_pc ctx) (c_inst ctx) (c_regs ctx) (c_fp ctx)))),
          [])
  | HFtrace funcs depth =>
      let '(depth, lines) := ftrace_handle funcs depth (c_pc ctx) (c_regs ctx) code in
      Ok (Handler (h_req h) (HFtrace funcs depth), EvFunc <$> lines)
  | HSelfLoop get_halt_ret =>
      if code =? SELF_LOOP then
        let halt_ret := match get_halt_ret with Some f => u32 (f (target d)) | None => 0 end in
        Ok (Handler (r_halt halt_ret) (h_kind h), [EvSelfLoop (c_pc ctx) halt_ret])
      else Ok (h, [])
  | HDifftest is_skip_ref ref => difftest_handle ctx is_skip_ref ref (h_req h)
  | HWatch e last_val =>
      val ← ctx_eval d e;
      if last_val =? val then Ok (Handler (h_req h) (HWatch e val), [])
      else Ok (Handler r_stop (HWatch e val), [EvWatch last_val val])
  end.

(** get_dump: only the ring buffer has one. *)
Definition get_dump (h : handler) : list event :=
  match h_kind h with HIringbuf _ buf => [EvRecent (iringbuf_rows buf)] | _ => [] end.

Definition dump_reg d : debuger :=
  say [EvRegs (reg_snap d) (match t_fp with Some _ => Some (fp_snap d) | None => None end)] d.

Definition dump_all d : debuger := dump_reg (say (mjoin (get_dump <$> handlers d)) d).

Definition dbg_stop d : debuger := dump_all (say [EvStopped] (with_dstate (set_run stop (dstate d)) d)).
Definition dbg_abort d : debuger := dump_all (say [EvAborted] (with_dstate (set_run abort (dstate d)) d)).

(** *** Execution *)

(** The lambda of _step: one handler, and what it requires. *)
Definition invoke (i : nat) d : res debuger :=
  match handlers d !! i with
  | None => Fault FUndef
  | Some h =>
      ctx ← make_trace_ctx d;
      '(h, es) ← handle d ctx h;
      let d := say es (with_handlers (<[i := h]> (handlers d)) d) in
      let d := match h_req h with r_abort => dbg_abort (say [EvRequire r_abort] d) | _ => d end in
      let d := match h_req h with r_stop => dbg_stop (say [EvRequire r_stop] d) | _ => d end in
      Ok (match h_req h with
          | r_halt v => let d := say [EvRequire (r_halt v)] d in with_dstate (st_halt v (dstate d)) d
          | _ => d
          end)
  end.

Fixpoint invoke_all (l : list nat) d : res debuger :=
  match l with [] => Ok d | i :: l => d ← invoke i d; invoke_all l d end.

Definition set_skip (h : handler) : handler :=
  match h_kind h with HDifftest _ ref => Handler (h_req h) (HDifftest true ref) | _ => h end.

(** sdb_set_halt and sdb_skip_difftest_ref of sdbWrap.cpp. *)
Definition apply_callback d (c : callback) : debuger :=
  match c with
  | CbHalt a0 => with_dstate (st_halt (u32 a0) (dstate d)) d
  | CbSkip => match diff_handler d with
              | Some i => with_handlers (alter set_skip i (handlers d)) d
              | None => d
              end
  end.

Definition step_one d : res debuger :=
  let s := dstate d in
  let d := with_dstate (CpuSt (run s) (Some (dpc s)) (dpc s) (halt_ret s)) d in
  '(m, npc, cbs) ← t_exec 1 (target d);
  let d := foldl apply_callback (with_target m d) cbs in
  let s := dstate d in
  let d := with_dstate (CpuSt (run s) (last_pc s) npc (halt_ret s)) d in
  Ok (with_snap (t_regs m) (take_fp d) d).

(** The handlers called before and after each of [n] instructions. *)
Definition called d (n : Z) (after : bool) : list nat :=
  List.filter (fun i => match handlers d !! i with
                   | Some h => negb (no_call_when_batch h n) &&
                               eqb (require_call_after_inst_exec h) after
                   | None => false
                   end) (seq 0 (length (handlers d))).

Fixpoint step_loop (fuel : nat) (n : Z) (before after : list nat) d : res debuger :=
  if (n <=? 0) || negb (is_running d) then Ok d
  else
    match fuel with
    | O => Fault FFuel
    | S fuel =>
        d ← invoke_all before d;
        if negb (is_running d) then Ok d
        else
          d ← step_one d;
          d ← invoke_all after d;
          if negb (is_running d) then Ok d
          else step_loop fuel (n - 1) before after d
    end.

(** Without tracing the processor runs on its own; the debugger's registers and pc stay as
    they are. *)
Definition step (fuel : nat) (n : Z) d : res debuger :=
  if negb (enable_inst_trace d) then
    '(m, npc, cbs) ← t_exec n (target d);
    Ok (foldl apply_callback (with_target m d) cbs)
  else step_loop fuel n (called d n false) (called d n true) d.

Definition cmd_si (fuel : nat) (n : Z) d : res debuger :=
  match run (dstate d) with
  | end_ | quit => Ok (say [EvEnded] d)
  | _ =>
      let d := with_handlers (reset_int <$> handlers d) d in
      step fuel n (with_dstate (set_run running (dstate d)) d)
  end.

Definition cmd_c (fuel : nat) d : res debuger := cmd_si fuel (2 ^ 64 - 1) d.

Definition cmd_q d : debuger :=
  let d := if is_badexit (dstate d) then say [EvBadExit (dpc (dstate d))] d else d in
  with_dstate (set_run quit (dstate d)) d.

(** The loop runs until the addresses meet, modulo 2^32. *)
Fixpoint dump_mem (n : nat) (addr : Z) d : res debuger :=
  match n with
  | O => Ok d
  | S n => b ← t_loadmem (target d) addr 4; dump_mem n (u32 (addr + 4)) (say [EvMem addr b] d)
  end.

Definition cmd_info (s : list Z) d : debuger :=
  if is_name s "r" then dump_reg (with_snap (t_regs (target d)) (fp_snap d) d)
  else say [EvUnknownInfo s] d.

Definition cmd_p (e : list Z) d : res debuger := v ← ctx_eval d e; Ok (say [EvValue v] d).

Definition cmd_x (N : Z) (e : list Z) d : res debuger :=
  addr ← ctx_eval d e;
  let addr := u32 addr in
  let end_ := u32 (addr + N * 4) in
  dump_mem (Z.to_nat (u32 (end_ - addr) / 4)) addr d.

(** init of the handlers that have one; get_log prints what it logged. *)
Definition handler_init d (ctx : trace_context) (img : list Z) (h : handler) : res handler :=
  match h_kind h with
  | HDifftest skip ref =>
      ref ← difftest_init ctx img (mem_base d) ref;
      Ok (Handler (h_req h) (HDifftest skip ref))
  | HWatch e _ => v ← ctx_eval d e; Ok (Handler (h_req h) (HWatch e v))
  | _ => Ok h
  end.

Definition add_trace (k : kind) d : res debuger :=
  let d := with_handlers (handlers d ++ [Handler r_none k]) d in
  img ← t_loadmem (target d) (mem_base d) (img_size d);
  ctx ← make_trace_ctx d;
  h ← handler_init d ctx img (Handler r_none k);
  Ok (with_handlers (<[(length (handlers d) - 1)%nat := h]> (handlers d)) d).

Definition cmd_w (e : list Z) d : res debuger := add_trace (HWatch e 0) d.

Definition run_command (fuel : nat) (c : command) (args : list arg) d : res debuger :=
  match c, args with
  | CmdC, [] => cmd_c fuel d
  | CmdQ, [] => Ok (cmd_q d)
  | CmdSi, [ASize n] => cmd_si fuel n d
  | CmdInfo, [AText s] => Ok (cmd_info s d)
  | CmdX, [ASize n; AText e] => cmd_x n e d
  | CmdP, [AText e] => cmd_p e d
  | CmdW, [AText e] => cmd_w e d
  | _, _ => Fault FUndef
  end.

Definition exec_command (fuel : nat) (line : list Z) d : res debuger :=
  match parse_command line with
  | inl e => Ok (say [EvCmdError e] d)
  | inr None => Ok d
  | inr (Some (c, args)) => run_command fuel c args d
  end.
End debugger.
Arguments kind : clear implicits. Arguments handler : clear implicits.
Arguments debuger : clear implicits.
