(* ===== verification/DiffTest.v ===== *)
(** * DiffTest: what a differential test establishes

    The debugger of Debugger steps the processor ([Target]) and, after every instruction, the
    reference simulator ([Reference]) and compares their registers.  Here: a run that ends without
    an abort has kept the two in lockstep, an abort names the first instruction after which they
    differ, and a run with working parts always comes to an end. *)
From S2P Require Import Prelude Tracers Expr Debugger.

Lemma list_filter_empty_iff {A} (P : A -> Prop) `{!forall x, Decision (P x)} l :
  filter P l = [] <-> Forall (fun x => ~ P x) l.
Proof.
  split.
  - intros Hnil. apply Forall_forall. intros x Hx HP. by eapply filter_nil_not_elem_of.
  - induction 1 as [| x l Hx _ IH]; [done |]. by rewrite filter_cons_False.
Qed.

Section lockstep.
Context {M R : Type} `{!Target M} `{!Reference R}.

(** ** Lockstep *)

Definition same_fp (dut ref : riscv_fp_state) : Prop :=
  (forall i, (i < 32)%nat -> nth i (fp_fpr dut) (0, 0) = nth i (fp_fpr ref) (0, 0)) /\
  fp_fcsr dut = fp_fcsr ref.

(** The reference shows the registers, the pc and the floating-point state of the processor. *)
Definition agrees (m : M) (npc : Z) (r : R) : Prop :=
  (forall i, (i < S (length (t_regs m)))%nat ->
     nth i (ref_get r) 0 = nth i (t_regs m ++ [npc]) 0) /\
  match t_fp with
  | None => True
  | Some f => exists fp, ref_fp = Some fp /\ same_fp (f m) (fst fp r)
  end.

(** The reference after an instruction it does not execute itself. *)
Definition copied (m : M) (npc : Z) (r : R) : R :=
  let r := ref_set (t_regs m ++ [npc]) r in
  match t_fp, ref_fp with Some f, Some fp => snd fp (f m) r | _, _ => r end.

Definition skips (cbs : list callback) : bool :=
  existsb (fun c => match c with CbSkip => true | _ => false end) cbs.

(** One instruction of the processor and what the reference does with it. *)
Definition co_step (cbs : list callback) (m : M) (npc : Z) (r r' : R) : Prop :=
  if skips cbs then r' = copied m npc r else ref_exec r = Ok r' /\ agrees m npc r'.

(** [n] instructions in lockstep, from one triple of processor, pc and reference to another. *)
Inductive lockstep : M * Z * R -> nat -> M * Z * R -> Prop :=
  | lockstep_O s : lockstep s 0 s
  | lockstep_S s n m p r m' p' cbs r' :
      lockstep s n (m, p, r) -> t_exec 1 m = Ok (m', p', cbs) -> co_step cbs m' p' r r' ->
      lockstep s (S n) (m', p', r').

Lemma lockstep_step_l m p r m' p' cbs r' n s :
  t_exec 1 m = Ok (m', p', cbs) -> co_step cbs m' p' r r' ->
  lockstep (m', p', r') n s -> lockstep (m, p, r) (S n) s.
Proof.
  intros He Hc Hl. revert He Hc. remember (m', p', r') as s0 eqn:E. revert m p r m' p' cbs r' E.
  induction Hl as [s | s n m1 p1 r1 m2 p2 cbs2 r2 Hl IH He2 Hc2]; intros m p r m' p' cbs r' ->.
  - intros He Hc. econstructor; [constructor | done | done].
  - intros He Hc. econstructor; [by eapply IH | done | done].
Qed.

(** ** Single handlers *)

Implicit Types (d : debuger M R) (h : handler M R).
Context (regex_search : String.string -> list Z -> option Z).

Lemma diff_rows_nil regs ref_regs :
  diff_rows regs ref_regs = [] <->
  forall i, (i < length regs)%nat -> nth i ref_regs 0 = nth i regs 0.
Proof.
  unfold diff_rows. split.
  - intros H i Hi. destruct (decide (nth i ref_regs 0 = nth i regs 0)) as [| Hne]; [done |].
    exfalso. destruct (lookup_lt_is_Some_2 regs i Hi) as [v Hv].
    assert ((i, v, nth i ref_regs 0) ∈ filter (fun '(i, v, r) => r <> v)
      (imap (fun i v => (i, v, nth i ref_regs 0)) regs)) as Hin.
    { apply list_elem_of_filter. split; [by rewrite (nth_lookup_Some _ _ _ _ Hv) in Hne |].
      apply list_elem_of_lookup. exists i. by rewrite list_lookup_imap, Hv. }
    rewrite H in Hin. by apply not_elem_of_nil in Hin.
  - intros H. apply list_filter_empty_iff. apply Forall_forall. intros [[i v] r] Hin.
    apply list_elem_of_lookup in Hin as [j Hj]. rewrite list_lookup_imap in Hj.
    destruct (regs !! j) as [w |] eqn:E; [| done]. cbn in Hj. injection Hj as <- <- <-.
    rewrite H by by eapply lookup_lt_Some. rewrite (nth_lookup_Some _ _ _ _ E). intros Hn. by apply Hn.
Qed.

Lemma diff_fprs_nil dut ref :
  diff_fprs dut ref = [] <-> forall i, (i < 32)%nat -> nth i dut (0, 0) = nth i ref (0, 0).
Proof.
  unfold diff_fprs. rewrite list_filter_empty_iff, Forall_forall. split.
  - intros H i Hi. destruct (decide (nth i dut (0, 0) = nth i ref (0, 0))); [done |].
    exfalso. apply (H i); [apply elem_of_seq; lia | done].
  - intros H i Hi Hne. apply elem_of_seq in Hi. apply Hne, H. lia.
Qed.

(** The registers and floating-point state of the context are those of the processor. *)
Definition synced d : Prop :=
  reg_snap d = t_regs (target d) /\ match t_fp with Some f => fp_snap d = f (target d) | None => True end.

(** The three outcomes of the differential test's handler. *)
Lemma difftest_outcome d ctx skip r req h es :
  synced d -> make_trace_ctx d = Ok ctx -> difftest_handle ctx skip r req = Ok (h, es) ->
  (skip = true /\ h = Handler req (HDifftest false (copied (target d) (dpc (dstate d)) r))) \/
  (skip = false /\ exists r', ref_exec r = Ok r' /\
     ((agrees (target d) (dpc (dstate d)) r' /\ h = Handler req (HDifftest false r')) \/
      (~ agrees (target d) (dpc (dstate d)) r' /\ h = Handler r_abort (HDifftest false r')))).
Proof.
  intros [Hr Hf] Hctx Hh. unfold make_trace_ctx in Hctx.
  destruct (t_fetch (target d) (dpc (dstate d))) as [inst |]; [| done]. injection Hctx as <-.
  unfold difftest_handle, pack_regs_and_pc, fp_regcpy in Hh. cbn [c_fp c_regs c_pc mbind res_bind] in Hh. rewrite Hr in Hh.
  destruct skip.
  - left. split; [done |]. unfold copied.
    destruct t_fp as [f |] eqn:Ef; cbn [c_fp c_regs c_pc mbind res_bind] in Hh; [destruct ref_fp as [fp |]; cbn [c_fp c_regs c_pc mbind res_bind] in Hh; [| done] |];
      injection Hh as <- _; [by rewrite Hf | done].
  - right. split; [done |]. destruct (ref_exec r) as [r' |]; [| done]. cbn [c_fp c_regs c_pc mbind res_bind] in Hh.
    exists r'. split; [done |]. unfold agrees.
    assert (diff_rows (t_regs (target d) ++ [dpc (dstate d)]) (ref_get r') = [] <->
      forall i, (i < S (length (t_regs (target d))))%nat ->
        nth i (ref_get r') 0 = nth i (t_regs (target d) ++ [dpc (dstate d)]) 0) as Hd.
    { rewrite diff_rows_nil, length_app. cbn. by rewrite Nat.add_1_r. }
    destruct t_fp as [f |]; cbn [c_fp c_regs c_pc mbind res_bind] in Hh; [destruct ref_fp as [fp |]; cbn [c_fp c_regs c_pc mbind res_bind] in Hh; [| done] |].
    + destruct (diff_rows _ _) as [| row rows].
      * assert (diff_fprs (fp_fpr (fp_snap d)) (fp_fpr (fst fp r')) = [] /\
          negb (fp_fcsr (fp_snap d) =? fp_fcsr (fst fp r')) = false <->
          same_fp (f (target d)) (fst fp r')) as Hfp.
        { rewrite diff_fprs_nil, Hf. unfold same_fp. by rewrite negb_false_iff, Z.eqb_eq. }
        destruct (diff_fprs _ _) as [| x xs], (negb _); cbn [c_fp c_regs c_pc mbind res_bind] in Hh; injection Hh as <- _.
        -- right. split; [| done]. intros [_ (fp' & [= <-] & H)]. by apply Hfp in H as [_ ?].
        -- left. split; [| done]. split; [by apply Hd |]. exists fp. split; [done |]. by apply Hfp.
        -- right. split; [| done]. intros [_ (fp' & [= <-] & H)]. by apply Hfp in H as [? _].
        -- right. split; [| done]. intros [_ (fp' & [= <-] & H)]. by apply Hfp in H as [? _].
      * injection Hh as <- _. right. split; [| done]. intros [H _]. by apply Hd in H.
    + destruct (diff_rows _ _) as [| row rows]; injection Hh as <- _.
      * left. split; [| done]. split; [by apply Hd | done].
      * right. split; [| done]. intros [H _]. by apply Hd in H.
Qed.

(** ** What a handler may change *)

Definition is_diff h : bool := match h_kind h with HDifftest _ _ => true | _ => false end.
Definition tag h : bool * bool := (require_call_after_inst_exec h, is_diff h).
Definition tags d : list (bool * bool) := tag <$> handlers d.

(** Everything but the handlers, the run state and the output. *)
Definition same_machine d d' : Prop :=
  target d' = target d /\ dpc (dstate d') = dpc (dstate d) /\ reg_snap d' = reg_snap d /\
  fp_snap d' = fp_snap d /\ diff_handler d' = diff_handler d.

#[local] Instance same_machine_preorder : PreOrder same_machine.
Proof.
  split; [done |]. intros d1 d2 d3 (? & ? & ? & ? & ?) (? & ? & ? & ? & ?).
  repeat split; congruence.
Qed.

Lemma synced_same d d' : same_machine d d' -> synced d -> synced d'.
Proof.
  intros (Ht & _ & Hr & Hf & _) [H1 H2]. split; [congruence |].
  destruct t_fp; [| done]. congruence.
Qed.

(** The request a handler may add. *)
Definition may_require h (q : require_int) : Prop :=
  q = h_req h \/
  match h_kind h with
  | HDifftest _ _ => q = r_abort
  | HWatch _ _ => q = r_stop
  | HSelfLoop _ => exists v, q = r_halt v
  | _ => False
  end.

Lemma handle_spec d ctx h h' es : handle regex_search d ctx h = Ok (h', es) ->
  tag h' = tag h /\ may_require h (h_req h').
Proof.
  unfold handle, tag, require_call_after_inst_exec, is_diff, may_require.
  destruct h as [q k]. cbn [h_kind h_req]. destruct k as [th | | n buf | fs dep | g | sk r | e v].
  - intros [= <- _]. cbn. auto.
  - intros [= <- _]. cbn. auto.
  - intros [= <- _]. cbn. auto.
  - destruct (ftrace_handle _ _ _ _ _). intros [= <- _]. cbn. auto.
  - destruct (_ =? _); intros [= <- _]; cbn; eauto.
  - unfold difftest_handle. intros H. destruct sk.
    + destruct (match c_fp ctx with Some _ => _ | None => _ end); [| done].
      cbn [mbind res_bind] in H. injection H as <- _. cbn. auto.
    + destruct (ref_exec r) as [r' |]; [| done]. cbn [mbind res_bind] in H.
      destruct (match c_fp ctx with Some _ => _ | None => _ end) as [o |]; [| done].
      cbn [mbind res_bind] in H.
      destruct (diff_rows _ _); [destruct (c_fp ctx), o; [destruct (diff_fprs _ _), (negb _) |..] |];
        injection H as <- _; cbn; auto.
  - destruct (ctx_eval regex_search d e) as [val |]; [| done]. cbn [mbind res_bind].
    destruct (_ =? _); intros [= <- _]; cbn; auto.
Qed.

(** The run state a request leads to. *)
Definition run_after (q : require_int) (s : run_state) : run_state :=
  match q with r_none => s | r_stop => stop | r_abort => abort | r_halt _ => end_ end.

Lemma invoke_spec j d d' : invoke regex_search j d = Ok d' ->
  exists h h' ctx es, handlers d !! j = Some h /\ make_trace_ctx d = Ok ctx /\
    handle regex_search d ctx h = Ok (h', es) /\ same_machine d d' /\
    handlers d' = <[j := h']> (handlers d) /\
    run (dstate d') = run_after (h_req h') (run (dstate d)).
Proof.
  unfold invoke. destruct (handlers d !! j) as [h |] eqn:Eh; [| done].
  destruct (make_trace_ctx d) as [ctx |] eqn:Ec; [| done]. cbn [mbind res_bind].
  destruct (handle regex_search d ctx h) as [[h' es] |] eqn:Ehd; [| done]. cbn [mbind res_bind].
  intros [= <-]. exists h, h', ctx, es. 
  split_and!; [done.. | | |]; by destruct (h_req h').
Qed.

(** The handlers at the given places have no request pending. *)
Definition calm d (l : list nat) : Prop :=
  forall j, j ∈ l -> exists h, handlers d !! j = Some h /\ h_req h = r_none.

Lemma tags_insert d j h h' : handlers d !! j = Some h -> tag h' = tag h ->
  tag <$> <[j := h']> (handlers d) = tags d.
Proof.
  intros Hj Ht. rewrite list_fmap_insert, Ht. apply list_insert_id. unfold tags.
  by rewrite list_lookup_fmap, Hj.
Qed.

(** Handlers other than the differential test. *)
Lemma invoke_others l : forall d d', invoke_all regex_search l d = Ok d' -> NoDup l -> calm d l ->
  (forall j, j ∈ l -> exists b, tags d !! j = Some (b, false)) ->
  same_machine d d' /\ tags d' = tags d /\
  (forall k, k ∉ l -> handlers d' !! k = handlers d !! k) /\
  (run (dstate d') = run (dstate d) \/ run (dstate d') = stop \/ run (dstate d') = end_) /\
  ((forall j, j ∈ l -> tags d !! j = Some (true, false)) ->
     run (dstate d') = run (dstate d) \/ run (dstate d') = stop) /\
  (run (dstate d') = running -> calm d' l).
Proof.
  induction l as [| j l IH]; intros d d' H Hnd Hq Hk.
  { injection H as <-. split_and!; [done | done | done | auto | auto |].
    by intros _ j Hj%not_elem_of_nil. }
  cbn in H. destruct (invoke regex_search j d) as [d1 |] eqn:E; [| done]. cbn [mbind res_bind] in H.
  apply NoDup_cons in Hnd as [Hjl Hnd].
  destruct (invoke_spec _ _ _ E) as (h & h' & ctx & es & Hh & _ & Hhd & Hm & Hhs & Hrun).
  destruct (handle_spec _ _ _ _ _ Hhd) as [Htag Hreq].
  assert (tags d1 = tags d) as Ht1 by (unfold tags at 1; rewrite Hhs; by eapply tags_insert).
  destruct (Hq j (list_elem_of_here _ _)) as (h0 & Hh0 & Hnone). rewrite Hh in Hh0. injection Hh0 as <-.
  destruct (Hk j (list_elem_of_here _ _)) as (b & Hb). unfold tags in Hb.
  rewrite list_lookup_fmap, Hh in Hb. cbn in Hb. unfold tag in Hb. injection Hb as Hb1 Hb2.
  assert (forall k, k <> j -> handlers d1 !! k = handlers d !! k) as Hfr1
    by (intros k Hkj; rewrite Hhs; by apply list_lookup_insert_ne).
  destruct (IH d1 d' H Hnd) as (Hm' & Ht' & Hfr & Hr & Hr' & Hc).
  { intros k Hkl. rewrite Hfr1 by (intros ->; done). apply Hq. by right. }
  { intros k Hkl. rewrite Ht1. apply Hk. by right. }
  assert (h_req h' = r_none \/ h_req h' = r_stop \/
          (exists v, h_req h' = r_halt v /\ require_call_after_inst_exec h = false)) as Hcase.
  { unfold may_require in Hreq. rewrite Hnone in Hreq. destruct Hreq as [-> | Hreq]; [auto |].
    unfold is_diff in Hb2. unfold require_call_after_inst_exec.
    destruct (h_kind h); try done; [destruct Hreq as [v ->]; eauto | auto]. }
  split; [by etransitivity |]. split; [congruence |]. split.
  { intros k Hkl. apply not_elem_of_cons in Hkl as [Hkj Hkl]. by rewrite Hfr, Hfr1. }
  split; [| split].
  - destruct Hcase as [E0 | [E0 | (v & E0 & _)]]; rewrite E0 in Hrun; cbn in Hrun;
      rewrite Hrun in Hr; intuition.
  - intros Hall. specialize (Hr' (fun k Hkl => eq_trans (f_equal (.!! k) Ht1) (Hall k (list_elem_of_further _ _ _ Hkl)))).
    specialize (Hall j (list_elem_of_here _ _)). unfold tags in Hall.
    rewrite list_lookup_fmap, Hh in Hall. cbn in Hall. unfold tag in Hall. injection Hall as Ha _.
    destruct Hcase as [E0 | [E0 | (v & E0 & E1)]]; rewrite ?E0 in Hrun; cbn in Hrun;
      [by rewrite Hrun in Hr' | rewrite Hrun in Hr'; intuition | congruence].
  - intros Hrn k Hkl. apply elem_of_cons in Hkl as [-> | Hkl]; [| by apply Hc].
    exists h'. rewrite Hfr, Hhs by done.
    split; [apply list_lookup_insert_eq; by eapply lookup_lt_Some |].
    destruct Hcase as [E0 | [E0 | (v & E0 & _)]]; rewrite E0 in Hrun; cbn in Hrun;
      rewrite Hrun in Hr; intuition congruence.
Qed.

(** The differential test among the handlers that run after an instruction. *)
Lemma invoke_after l i skip r d d' :
  invoke_all regex_search l d = Ok d' -> NoDup l -> i ∈ l -> calm d l -> synced d ->
  handlers d !! i = Some (Handler r_none (HDifftest skip r)) ->
  (forall j, j ∈ l -> j <> i -> tags d !! j = Some (true, false)) ->
  same_machine d d' /\ tags d' = tags d /\
  (forall k, k ∉ l -> handlers d' !! k = handlers d !! k) /\
  ((exists r', (if skip then r' = copied (target d) (dpc (dstate d)) r
                else ref_exec r = Ok r' /\ agrees (target d) (dpc (dstate d)) r') /\
      handlers d' !! i = Some (Handler r_none (HDifftest false r')) /\
      (run (dstate d') = run (dstate d) \/ run (dstate d') = stop) /\
      (run (dstate d') = running -> calm d' l)) \/
   (skip = false /\ (exists r', ref_exec r = Ok r' /\ ~ agrees (target d) (dpc (dstate d)) r') /\
      (run (dstate d') = abort \/ run (dstate d') = stop))).
Proof.
  intros H Hnd Hil Hq Hsy Hi Ht. apply list_elem_of_split in Hil as (l1 & l2 & ->).
  assert (forall la lb d d', invoke_all regex_search (la ++ lb) d = Ok d' -> exists d1,
    invoke_all regex_search la d = Ok d1 /\ invoke_all regex_search lb d1 = Ok d') as Happ.
  { induction la as [| j la IH]; intros lb e e' He; [by exists e |]. cbn in He |- *.
    destruct (invoke regex_search j e) as [e1 |]; [| done]. cbn [mbind res_bind] in *. by apply IH. }
  apply Happ in H as (d1 & H1 & H2). cbn in H2.
  destruct (invoke regex_search i d1) as [d2 |] eqn:E; [| done]. cbn [mbind res_bind] in H2.
  apply NoDup_app in Hnd as (Hnd1 & Hd12 & Hnd2). apply NoDup_cons in Hnd2 as [Hil2 Hnd2].
  assert (i ∉ l1) as Hil1 by (intros Hx; apply (Hd12 i Hx); by left).
  destruct (invoke_others l1 d d1 H1 Hnd1) as (Hm1 & Ht1 & Hf1 & _ & Hr1 & Hc1).
  { intros j Hj. apply Hq. apply elem_of_app. by left. }
  { intros j Hj. exists true. apply Ht; [apply elem_of_app; by left | by intros ->]. }
  specialize (Hr1 (fun j Hj => Ht j (proj2 (elem_of_app _ _ _) (or_introl Hj))
    (fun e => Hil1 (eq_ind _ (fun x => x ∈ l1) Hj _ e)))).
  destruct (invoke_spec _ _ _ E) as (h & h' & ctx & es & Hh & Hctx & Hhd & Hm2 & Hhs & Hrun).
  rewrite Hf1, Hi in Hh by done. injection Hh as <-.
  assert (tags d2 = tags d1) as Ht2.
  { unfold tags at 1. rewrite Hhs. eapply tags_insert; [by rewrite Hf1 |].
    by apply handle_spec in Hhd as [-> _]. }
  assert (forall k, k <> i -> handlers d2 !! k = handlers d1 !! k) as Hf2
    by (intros k Hk; rewrite Hhs; by apply list_lookup_insert_ne).
  destruct (invoke_others l2 d2 d' H2 Hnd2) as (Hm3 & Ht3 & Hf3 & _ & Hr3 & Hc3).
  { intros j Hj. rewrite Hf2 by (intros ->; done). rewrite Hf1.
    - apply Hq. apply elem_of_app. right. by right.
    - intros Hx. apply (Hd12 j Hx). by right. }
  { intros j Hj. rewrite Ht2, Ht1. exists true. apply Ht; [| by intros ->].
    apply elem_of_app. right. by right. }
  assert (forall j, j ∈ l2 -> tags d2 !! j = Some (true, false)) as Hl2.
  { intros j Hj. rewrite Ht2, Ht1. apply Ht; [| by intros ->].
    apply elem_of_app. right. by right. }
  specialize (Hr3 Hl2).
  split; [by etransitivity; [| etransitivity] |]. split; [congruence |]. split.
  { intros k Hk. apply not_elem_of_app in Hk as [Hk1 Hk2]. apply not_elem_of_cons in Hk2 as [Hki Hk2].
    by rewrite Hf3, Hf2, Hf1. }
  pose proof (synced_same _ _ Hm1 Hsy) as Hsy1. cbn [h_kind h_req] in Hhd. unfold handle in Hhd.
  cbn [h_kind h_req] in Hhd. apply (difftest_outcome d1) in Hhd; [| done..].
  destruct Hm1 as (Hta & Hpc & _). rewrite Hta, Hpc in Hhd.
  assert (handlers d' !! i = Some h') as Hi'.
  { rewrite Hf3 by done. rewrite Hhs. apply list_lookup_insert_eq. eapply lookup_lt_Some.
    by rewrite Hf1, Hi. }
  assert (forall r', h' = Handler r_none (HDifftest false r') ->
    handlers d' !! i = Some (Handler r_none (HDifftest false r')) /\
    (run (dstate d') = run (dstate d) \/ run (dstate d') = stop) /\
    (run (dstate d') = running -> calm d' (l1 ++ i :: l2))) as Hgood.
  { intros r' ->. cbn in Hrun. split; [done |]. split.
    { rewrite Hrun in Hr3. intuition congruence. }
    intros Hrn j Hj. rewrite Hrun in Hr3.
    assert (run (dstate d1) = running) as Hrn1 by (intuition congruence).
    apply elem_of_app in Hj as [Hj | Hj]; [| apply elem_of_cons in Hj as [-> | Hj]].
    - assert (j ∉ l2) by (intros Hx; apply (Hd12 j Hj); by right).
      rewrite Hf3, Hf2 by (done || by intros ->). by apply Hc1.
    - rewrite Hi'. eauto.
    - by apply Hc3. }
  destruct Hhd as [[-> Hh'] | (-> & r' & He & [[Ha Hh'] | [Hna Hh']])].
  - left. eexists. split; [done |]. by apply Hgood.
  - left. exists r'. split; [done |]. by apply Hgood.
  - right. split; [done |]. split; [by exists r' |]. rewrite Hh' in Hrun. cbn in Hrun.
    rewrite Hrun in Hr3. done.
Qed.

(** ** One instruction *)

Lemma callbacks_spec cbs i r : forall d,
  handlers d !! i = Some (Handler r_none (HDifftest r.1 r.2)) -> diff_handler d = Some i ->
  let d' := foldl apply_callback d cbs in
  same_machine d d' /\ tags d' = tags d /\
  (forall k, k <> i -> handlers d' !! k = handlers d !! k) /\
  handlers d' !! i = Some (Handler r_none (HDifftest (r.1 || skips cbs) r.2)) /\
  (run (dstate d') = run (dstate d) \/ run (dstate d') = end_).
Proof.
  destruct r as [sk r]. cbn [fst snd]. revert sk. induction cbs as [| c cbs IH]; intros sk d Hi Hd.
  { cbn. rewrite orb_false_r. split_and!; [done | done | done | done | auto]. }
  destruct c as [a0 |]; cbn [foldl skips existsb orb].
  - destruct (IH sk (apply_callback d (CbHalt a0))) as (Hm & Ht & Hf & Hi' & Hr); [done | done |].
    split_and!; [done.. |]. by destruct Hr as [Hr | Hr]; right; rewrite Hr.
  - set (d1 := with_handlers (alter set_skip i (handlers d)) d).
    replace (apply_callback d CbSkip) with d1 by (unfold apply_callback; by rewrite Hd).
    destruct (IH true d1) as (Hm & Ht & Hf & Hi' & Hr).
    { cbn. by rewrite list_lookup_alter_eq, Hi. }
    { done. }
    split; [done |]. split.
    { rewrite Ht. unfold d1, tags. cbn. apply list_eq. intros k. rewrite !list_lookup_fmap.
      destruct (decide (k = i)) as [-> |]; [by rewrite list_lookup_alter_eq, Hi |].
      by rewrite list_lookup_alter_ne. }
    split; [intros k Hk; rewrite Hf by done; cbn; by apply list_lookup_alter_ne |].
    split; [| done]. cbn in Hi'. by rewrite Hi', orb_true_r.
Qed.

Lemma step_one_spec d d' i r : step_one d = Ok d' ->
  handlers d !! i = Some (Handler r_none (HDifftest false r)) -> diff_handler d = Some i ->
  exists cbs, t_exec 1 (target d) = Ok (target d', dpc (dstate d'), cbs) /\ synced d' /\
    tags d' = tags d /\ diff_handler d' = Some i /\
    (forall k, k <> i -> handlers d' !! k = handlers d !! k) /\
    handlers d' !! i = Some (Handler r_none (HDifftest (skips cbs) r)) /\
    (run (dstate d') = run (dstate d) \/ run (dstate d') = end_).
Proof.
  intros H Hi Hd. unfold step_one in H. cbn in H.
  destruct (t_exec 1 (target d)) as [[[m npc] cbs] |] eqn:E; [| done]. cbn [mbind res_bind] in H.
  injection H as <-. exists cbs. cbn.
  match goal with |- context [foldl apply_callback ?x cbs] => set (d0 := x) end.
  destruct (callbacks_spec cbs i (false, r) d0) as ((Ht & _ & _ & _ & Hdh) & Htg & Hf & Hi' & Hr);
    [done | done |].
  split; [by rewrite Ht |]. split.
  { split; cbn; [by rewrite Ht |]. unfold take_fp. cbn. by destruct t_fp. }
  split_and!; try done. by rewrite Hdh.
Qed.

(** ** The loop *)

(** The state at the head of the loop; [i] is the differential test. *)
Record ready (before after : list nat) (i : nat) (r : R) d : Prop := Ready {
  rd_synced : synced d;
  rd_test : handlers d !! i = Some (Handler r_none (HDifftest false r));
  rd_ptr : diff_handler d = Some i;
  rd_calm_before : calm d before;
  rd_calm_after : calm d after;
  rd_tags_before : forall j, j ∈ before -> exists b, tags d !! j = Some (b, false);
  rd_tags_after : forall j, j ∈ after -> j <> i -> tags d !! j = Some (true, false)
}.

(** What a run of at most [n] instructions from [s] can end in. *)
Inductive run_result (s : M * Z * R) (n : Z) d' : Prop :=
  | RunDone k r' : Z.of_nat k = n -> run (dstate d') = running ->
      lockstep s k (target d', dpc (dstate d'), r') -> run_result s n d'
  | RunEnded k r' : Z.of_nat k <= n -> run (dstate d') = end_ ->
      lockstep s k (target d', dpc (dstate d'), r') -> run_result s n d'
  | RunStopped k m p r : Z.of_nat k <= n -> run (dstate d') = stop ->
      lockstep s k (m, p, r) ->
      (target d' = m /\ dpc (dstate d') = p \/
       exists cbs, t_exec 1 m = Ok (target d', dpc (dstate d'), cbs)) -> run_result s n d'
  | RunAborted k m p r cbs r' : Z.of_nat k < n -> run (dstate d') = abort ->
      lockstep s k (m, p, r) -> t_exec 1 m = Ok (target d', dpc (dstate d'), cbs) ->
      skips cbs = false -> ref_exec r = Ok r' -> ~ agrees (target d') (dpc (dstate d')) r' ->
      run_result s n d'.

Lemma run_result_step m p r m' p' cbs r' n d' :
  t_exec 1 m = Ok (m', p', cbs) -> co_step cbs m' p' r r' ->
  run_result (m', p', r') (n - 1) d' -> run_result (m, p, r) n d'.
Proof.
  intros He Hc H. destruct H as [k q Hk Hr Hl | k q Hk Hr Hl | k m1 p1 r1 Hk Hr Hl Hx
    | k m1 p1 r1 cb q Hk Hr Hl Hx Hs Hf Ha].
  - eapply (RunDone _ _ _ (S k)); [lia | done |]. by eapply lockstep_step_l.
  - eapply (RunEnded _ _ _ (S k)); [lia | done |]. by eapply lockstep_step_l.
  - eapply (RunStopped _ _ _ (S k)); [lia | done | by eapply lockstep_step_l | done].
  - eapply (RunAborted _ _ _ (S k)); [lia | done | by eapply lockstep_step_l | done..].
Qed.

Context (before after : list nat) (i : nat).
Context (Hbefore : NoDup before) (Hafter : NoDup after) (Hin : i ∈ after).
Context (Hdisj : forall j, j ∈ before -> j ∉ after).

Lemma notin_before : i ∉ before.
Proof. intros H. by apply (Hdisj i H). Qed.

Lemma step_loop_result fuel : forall n d d' r,
  step_loop regex_search fuel n before after d = Ok d' -> ready before after i r d ->
  run (dstate d) = running -> 0 <= n ->
  run_result (target d, dpc (dstate d), r) n d'.
Proof.
  induction fuel as [| fuel IH]; intros n d d' r H Hr Hrun Hn.
  { cbn in H. unfold is_running in H. rewrite Hrun, bool_decide_eq_true_2 in H by done.
    destruct (Z.leb_spec n 0); [| done]. injection H as <-.
    eapply (RunDone _ _ _ 0%nat); [lia | done | constructor]. }
  cbn in H. unfold is_running at 1 in H. rewrite Hrun, bool_decide_eq_true_2 in H by done.
  destruct (Z.leb_spec n 0).
  { injection H as <-. eapply (RunDone _ _ _ 0%nat); [lia | done | constructor]. }
  cbn [orb negb] in H.
  destruct (invoke_all regex_search before d) as [d1 |] eqn:E1; [| done]. cbn [mbind res_bind] in H.
  destruct Hr as [Hsy Hi Hp Hcb Hca Htb Hta].
  destruct (invoke_others before d d1 E1 Hbefore Hcb Htb) as (Hm1 & Ht1 & Hf1 & Hr1 & _ & Hc1).
  pose proof Hm1 as (Htg1 & Hpc1 & _ & _ & Hdh1).
  unfold is_running at 1 in H. destruct (decide (run (dstate d1) = running)) as [Hrun1 | Hne].
  2:{ rewrite bool_decide_eq_false_2 in H by done. injection H as <-. rewrite <- Htg1, <- Hpc1.
      destruct Hr1 as [? | [Hs | Hs]]; [congruence | |].
      - eapply (RunStopped _ _ _ 0%nat); [lia | done | constructor | by left].
      - eapply (RunEnded _ _ _ 0%nat); [lia | done | constructor]. }
  rewrite bool_decide_eq_true_2 in H by done. cbn [negb] in H.
  destruct (step_one d1) as [d2 |] eqn:E2; [| done]. cbn [mbind res_bind] in H.
  assert (handlers d1 !! i = Some (Handler r_none (HDifftest false r))) as Hi1
    by (rewrite Hf1 by apply notin_before; done).
  destruct (step_one_spec d1 d2 i r E2 Hi1 ltac:(congruence))
    as (cbs & Hex & Hsy2 & Ht2 & Hdh2 & Hf2 & Hi2 & Hr2).
  rewrite Htg1 in Hex.
  destruct (invoke_all regex_search after d2) as [d3 |] eqn:E3; [| done]. cbn [mbind res_bind] in H.
  destruct (invoke_after after i (skips cbs) r d2 d3 E3 Hafter Hin)
    as (Hm3 & Ht3 & Hf3 & Hres); [| done | done | |].
  { intros j Hj. destruct (decide (j = i)) as [-> | Hji]; [rewrite Hi2; eauto |].
    rewrite Hf2, Hf1 by (done || intros Hb; by apply (Hdisj j Hb)). by apply Hca. }
  { intros j Hj Hji. rewrite Ht2, Ht1. by apply Hta. }
  pose proof Hm3 as (Htg3 & Hpc3 & _ & _ & Hdh3).
  rewrite <- Htg3, <- Hpc3 in Hex, Hres.
  destruct Hres as [(r' & Hco & Hi3 & Hr3 & Hc3) | (Hsk & (r' & Hre & Hna) & Hr3)].
  - assert (co_step cbs (target d3) (dpc (dstate d3)) r r') as Hcs
      by (unfold co_step; by destruct (skips cbs)).
    unfold is_running at 1 in H. destruct (decide (run (dstate d3) = running)) as [Hrun3 | Hne].
    + rewrite bool_decide_eq_true_2 in H by done. cbn [negb] in H.
      eapply run_result_step; [exact Hex | exact Hcs |].
      eapply (IH (n - 1) d3); [done | | done | lia]. constructor.
      * by eapply synced_same.
      * done.
      * congruence.
      * intros j Hj. rewrite Hf3 by by apply Hdisj.
        rewrite Hf2 by (intros ->; by apply notin_before). by apply Hc1.
      * by apply Hc3.
      * intros j Hj. rewrite Ht3, Ht2, Ht1. by apply Htb.
      * intros j Hj Hji. rewrite Ht3, Ht2, Ht1. by apply Hta.
    + rewrite bool_decide_eq_false_2 in H by done. injection H as <-.
      assert (run (dstate d3) = end_ \/ run (dstate d3) = stop) as [Hend | Hst]
        by (intuition congruence).
      * eapply (RunEnded _ _ _ 1%nat); [lia | done |].
        eapply lockstep_step_l; [exact Hex | exact Hcs | constructor].
      * apply (RunStopped _ _ _ 1%nat (target d3) (dpc (dstate d3)) r'); [lia | done | | by left].
        eapply lockstep_step_l; [exact Hex | exact Hcs | constructor].
  - unfold is_running at 1 in H. rewrite bool_decide_eq_false_2 in H by (intuition congruence).
    injection H as <-. destruct Hr3 as [Hab | Hst].
    + eapply (RunAborted _ _ _ 0%nat); [lia | done | constructor | done..].
    + eapply (RunStopped _ _ _ 0%nat); [lia | done | constructor | by right; exists cbs].
Qed.
End lockstep.

(** ** The command *)

Section command.
Context {M R : Type} `{!Target M} `{!Reference R}.
Context (regex_search : String.string -> list Z -> option Z).
Implicit Types (d : debuger M R) (h : handler M R).

(** A debugger whose only differential test is handler [i], with the reference [r]. *)
Record tests_with (i : nat) (r : R) d : Prop := TestsWith {
  tw_synced : synced d;
  tw_test : exists q, handlers d !! i = Some (Handler q (HDifftest false r));
  tw_only : forall j b, tags d !! j = Some (b, true) -> j = i;
  tw_ptr : diff_handler d = Some i;
  tw_trace : enable_inst_trace d = true;
  tw_live : run (dstate d) <> end_ /\ run (dstate d) <> quit
}.

Lemma elem_of_called d n b j : j ∈ called d n b <->
  exists h, handlers d !! j = Some h /\ no_call_when_batch h n = false /\
            require_call_after_inst_exec h = b.
Proof.
  unfold called. rewrite list_elem_of_In, filter_In, in_seq. split.
  - intros [_ H]. destruct (handlers d !! j) as [h |]; [| done].
    apply andb_prop in H as [H1 H2]. apply eqb_prop in H2. apply negb_true_iff in H1. eauto.
  - intros (h & Hh & Hn & Hb). split; [pose proof (lookup_lt_Some _ _ _ Hh); lia |].
    by rewrite Hh, Hn, Hb, eqb_reflx.
Qed.

Lemma NoDup_called d n b : NoDup (called d n b).
Proof. unfold called. apply NoDup_ListNoDup, List.NoDup_filter, List.seq_NoDup. Qed.

Lemma called_disjoint d n j : j ∈ called d n false -> j ∉ called d n true.
Proof.
  rewrite !elem_of_called. intros (h & Hh & _ & Hb) (h' & Hh' & _ & Hb'). congruence.
Qed.

Lemma calm_reset d l : (forall j, j ∈ l -> exists h, handlers d !! j = Some h) ->
  calm (with_handlers (reset_int <$> handlers d) d) l.
Proof.
  intros H j Hj. destruct (H j Hj) as [h Hh]. exists (reset_int h). cbn.
  by rewrite list_lookup_fmap, Hh.
Qed.

Lemma tags_reset d : tag <$> (reset_int <$> handlers d) = tags d.
Proof. unfold tags. rewrite <- list_fmap_compose. by apply list_fmap_ext. Qed.

(** The state cmd_si enters the loop with. *)
Definition restarted d : debuger M R :=
  with_dstate (set_run running (dstate d)) (with_handlers (reset_int <$> handlers d) d).

Lemma cmd_si_restart fuel n d : enable_inst_trace d = true ->
  run (dstate d) <> end_ /\ run (dstate d) <> quit ->
  cmd_si regex_search fuel n d =
    step_loop regex_search fuel n (called (restarted d) n false) (called (restarted d) n true)
      (restarted d).
Proof.
  intros He [H1 H2]. unfold cmd_si, step. cbn. rewrite He. cbn.
  by destruct (run (dstate d)).
Qed.

Lemma restarted_ready i r n d : tests_with i r d ->
  ready (called (restarted d) n false) (called (restarted d) n true) i r (restarted d).
Proof.
  intros [Hs [q Hi] Honly Hp He Hl].
  assert (forall b j, j ∈ called (restarted d) n b -> exists h, handlers d !! j = Some h /\
    require_call_after_inst_exec h = b) as Hcal.
  { intros b j Hj. apply elem_of_called in Hj as (h & Hh & _ & Hb). cbn in Hh.
    rewrite list_lookup_fmap in Hh. destruct (handlers d !! j) as [h0 |]; [| done].
    injection Hh as <-. exists h0. by split. }
  assert (forall j h, handlers d !! j = Some h -> j <> i ->
    tags (restarted d) !! j = Some (require_call_after_inst_exec h, false)) as Htag.
  { intros j h Hh Hji. unfold tags. cbn. rewrite tags_reset. unfold tags.
    rewrite list_lookup_fmap, Hh. cbn. unfold tag. f_equal. f_equal.
    destruct (is_diff h) eqn:E; [| done]. exfalso. apply Hji.
    eapply (Honly j (require_call_after_inst_exec h)). unfold tags.
    rewrite list_lookup_fmap, Hh. cbn. unfold tag. by rewrite E. }
  constructor.
  - done.
  - cbn. by rewrite list_lookup_fmap, Hi.
  - done.
  - apply calm_reset. intros j Hj. destruct (Hcal _ _ Hj) as (h & Hh & _). eauto.
  - apply calm_reset. intros j Hj. destruct (Hcal _ _ Hj) as (h & Hh & _). eauto.
  - intros j Hj. destruct (Hcal _ _ Hj) as (h & Hh & Hb). eexists. apply (Htag j h); [done |].
    intros ->. rewrite Hi in Hh. injection Hh as <-. done.
  - intros j Hj Hji. destruct (Hcal _ _ Hj) as (h & Hh & Hb). rewrite <- Hb. by apply Htag.
Qed.

Lemma test_is_called i r n d : tests_with i r d -> i ∈ called (restarted d) n true.
Proof.
  intros [_ [q Hi] _ _ _ _]. apply elem_of_called. cbn. rewrite list_lookup_fmap, Hi. cbn. eauto.
Qed.

(** Stepping under the differential test: when the command returns, the instructions executed
    were executed in lockstep with the reference (registers, pc and floating-point state agree
    after each one the reference executed), except that an abort means the last instruction,
    and none before it, led to a difference.  All [n] instructions are executed unless the
    program ended, a handler stopped the run, or the test aborted it. *)
Lemma difftest_lockstep fuel n d d' i r :
  tests_with i r d -> 0 <= n -> cmd_si regex_search fuel n d = Ok d' ->
  run_result (target d, dpc (dstate d), r) n d'.
Proof.
  intros Ht Hn H. rewrite cmd_si_restart in H by apply Ht.
  eapply (step_loop_result regex_search _ _ i) in H.
  - exact H.
  - apply NoDup_called.
  - apply NoDup_called.
  - by eapply test_is_called.
  - intros j. apply called_disjoint.
  - by apply restarted_ready.
  - done.
  - done.
Qed.

(** ** Termination *)

(** Evaluating the expression of a watchpoint returns. *)
Definition evaluates h : Prop :=
  match h_kind h with
  | HWatch e _ => forall d, exists v, ctx_eval regex_search d e = Ok v
  | _ => True
  end.

Context (Hexec : forall m : M, exists m' p cbs, t_exec 1 m = Ok (m', p, cbs)).
Context (Hfetch : forall (m : M) p, exists b, t_fetch m p = Ok b).
Context (Href : forall r : R, exists r', ref_exec r = Ok r').
Context (Hfp : (t_fp : option (M -> _)) = None \/ (exists f, (ref_fp : option ((R -> _) * _)) = Some f)).

Lemma handle_returns d ctx h : evaluates h -> make_trace_ctx d = Ok ctx ->
  exists h' es, handle regex_search d ctx h = Ok (h', es) /\ evaluates h'.
Proof.
  intros Hev Hctx.
  assert (forall A (a : A) (k : (R -> riscv_fp_state) * (riscv_fp_state -> R -> R) -> riscv_fp_state -> A),
    exists x, match c_fp ctx with None => Ok a | Some f => fp ← fp_regcpy; Ok (k fp f) end = Ok x) as Hf.
  { intros A a k. unfold make_trace_ctx in Hctx.
    destruct (t_fetch (target d) (dpc (dstate d))); [| done]. injection Hctx as <-. cbn [c_fp].
    unfold fp_regcpy. destruct Hfp as [-> | [f ->]]; [eauto |]. destruct t_fp; cbn; eauto. }
  unfold handle, evaluates in *. destruct h as [q k]. cbn [h_kind h_req] in *.
  destruct k as [th | | n buf | fs dep | g | sk r | e v].
  - eauto.
  - eauto.
  - eexists _, _. split; [done |]. done.
  - destruct (ftrace_handle _ _ _ _ _). eexists _, _. split; [done |]. done.
  - destruct (_ =? _); eexists _, _; split; done.
  - unfold difftest_handle. destruct sk.
    + destruct (Hf R (ref_set (pack_regs_and_pc ctx) r)
        (fun fp f => snd fp f (ref_set (pack_regs_and_pc ctx) r))) as [x ->].
      eexists _, _. split; [done |]. done.
    + destruct (Href r) as [r' ->]. cbn [mbind res_bind].
      destruct (Hf _ None (fun fp _ => Some (fst fp r'))) as [x ->]. cbn [mbind res_bind].
      destruct (diff_rows _ _); [destruct (c_fp ctx), x; [destruct (diff_fprs _ _), (negb _) |..] |];
        eexists _, _; split; done.
  - destruct (Hev d) as [w ->]. cbn [mbind res_bind].
    destruct (_ =? _); eexists _, _; split; done.
Qed.

Lemma invoke_all_returns l : forall d, Forall evaluates (handlers d) ->
  (forall j, j ∈ l -> (j < length (handlers d))%nat) ->
  exists d', invoke_all regex_search l d = Ok d' /\ Forall evaluates (handlers d') /\
    length (handlers d') = length (handlers d).
Proof.
  induction l as [| j l IH]; intros d Hev Hl; [by exists d |]. cbn.
  destruct (lookup_lt_is_Some_2 (handlers d) j (Hl j (list_elem_of_here _ _))) as [h Hh].
  destruct (Hfetch (target d) (dpc (dstate d))) as [b Hb].
  assert (exists ctx, make_trace_ctx d = Ok ctx) as [ctx Hctx]
    by (unfold make_trace_ctx; rewrite Hb; eauto).
  destruct (handle_returns d ctx h) as (h' & es & Hhd & Hev'); [by eapply Forall_lookup_1 | done |].
  assert (exists d1, invoke regex_search j d = Ok d1) as [d1 E]
    by (unfold invoke; rewrite Hh, Hctx; cbn [mbind res_bind]; rewrite Hhd; eauto).
  rewrite E. destruct (invoke_spec _ _ _ _ E) as (h0 & h1 & c & es' & Hh0 & Hc & Hhd' & _ & Hhs & _).
  rewrite Hh in Hh0. injection Hh0 as <-. rewrite Hctx in Hc. injection Hc as <-.
  rewrite Hhd in Hhd'. injection Hhd' as <- <-.
  destruct (IH d1) as (d' & E' & Hev2 & Hlen).
  - rewrite Hhs. by apply Forall_insert.
  - intros k Hk. rewrite Hhs, length_insert. apply Hl. by right.
  - exists d'. cbn. split; [done |]. split; [done |]. by rewrite Hlen, Hhs, length_insert.
Qed.

Lemma step_one_returns d : Forall evaluates (handlers d) ->
  exists d', step_one d = Ok d' /\ Forall evaluates (handlers d') /\
    length (handlers d') = length (handlers d).
Proof.
  intros Hev. unfold step_one. cbn. destruct (Hexec (target d)) as (m & p & cbs & ->).
  eexists. split; [done |]. cbn.
  match goal with |- context [foldl apply_callback ?x cbs] =>
    assert (Forall evaluates (handlers x)) as H0 by done;
    assert (length (handlers x) = length (handlers d)) as H1 by done; revert H0 H1;
    generalize x end.
  induction cbs as [| c cbs IH]; intros e He Hlen; [done |]. cbn. apply IH.
  - destruct c; [done |]. cbn. destruct (diff_handler e); [| done]. cbn.
    apply Forall_alter; [done |]. intros h _ Hh. unfold set_skip, evaluates in *. by destruct (h_kind h) eqn:E; rewrite ?E.
  - destruct c; [done |]. cbn. destruct (diff_handler e); [| done]. cbn. by rewrite length_alter.
Qed.

(** The fuel of a step command: with a processor, a fetch and a reference that work, stepping [n] instructions returns:
    the loop needs one unit of fuel per instruction. *)
Lemma step_command_returns fuel n d :
  enable_inst_trace d = true -> Forall evaluates (handlers d) -> n <= Z.of_nat fuel ->
  exists d', cmd_si regex_search fuel n d = Ok d'.
Proof.
  intros He Hev Hn.
  assert (forall fuel n before after d, Forall evaluates (handlers d) -> n <= Z.of_nat fuel ->
    (forall j, j ∈ before ++ after -> (j < length (handlers d))%nat) ->
    exists d', step_loop regex_search fuel n before after d = Ok d') as Hloop.
  { clear fuel n d He Hev Hn. intros fuel. induction fuel as [| fuel IH]; intros n before after d Hev Hn Hl; cbn.
    { rewrite (proj2 (Z.leb_le n 0)) by lia. by eexists. }
    destruct (_ || _); [by eexists |].
    destruct (invoke_all_returns before d Hev) as (d1 & -> & Hev1 & Hl1).
    { intros j Hj. apply Hl, elem_of_app. by left. }
    cbn [mbind res_bind]. destruct (negb (is_running d1)); [by eexists |].
    destruct (step_one_returns d1 Hev1) as (d2 & -> & Hev2 & Hl2). cbn [mbind res_bind].
    destruct (invoke_all_returns after d2 Hev2) as (d3 & -> & Hev3 & Hl3).
    { intros j Hj. rewrite Hl2, Hl1. apply Hl, elem_of_app. by right. }
    cbn [mbind res_bind]. destruct (negb (is_running d3)); [by eexists |].
    apply IH; [done | lia |]. intros j Hj. rewrite Hl3, Hl2, Hl1. by apply Hl. }
  destruct (decide (run (dstate d) = end_ \/ run (dstate d) = quit)) as [Hend | Hlive].
  { unfold cmd_si. destruct Hend as [-> | ->]; by eexists. }
  rewrite cmd_si_restart by (done || tauto).
  apply Hloop; [cbn; apply Forall_fmap; eapply Forall_impl; [exact Hev |]; done | done |].
  intros j Hj. apply elem_of_app in Hj as [Hj | Hj]; apply elem_of_called in Hj as (h & Hh & _);
    by eapply lookup_lt_Some.
Qed.
End command.

(** ** Witnesses *)

(** A processor with one register that counts instructions, and a reference that does the same
    until it has counted to [limit]. *)
#[local] Instance counter_target : Target Z := {|
  t_exec _ m := Ok (m + 1, 4 * (m + 1), []);
  t_regs m := [m];
  t_fp := None;
  t_fetch _ _ := Ok [0x13; 0; 0; 0];
  t_loadmem _ _ _ := Ok [];
  t_names := []
|}.
#[local] Instance counter_reference (limit : Z) : Reference (Z * Z) := {|
  ref_exec '(x, p) := Ok (if x <? limit then x + 1 else x, p + 4);
  ref_memcpy _ _ r := Ok r;
  ref_set l _ := (nth 0 l 0, nth 1 l 0);
  ref_get '(x, p) := [x; p];
  ref_fp := None
|}.

Definition counter_debugger : debuger Z (Z * Z) :=
  with_diff (Some 0%nat) (with_handlers [Handler r_none (HDifftest false (0, 0))]
    (new_debuger 0 0 0 true 0)).

Lemma counter_tests : tests_with 0 (0, 0) counter_debugger.
Proof.
  constructor; try done; [by exists r_none |]. intros [| j] b H; [done |]. cbn in H. by destruct j.
Qed.

(** With a reference that stops counting at 2, the third of five instructions is the one that differs. *)
Lemma difftest_lockstep_witness :
  exists d', cmd_si (Reference0 := counter_reference 2) (fun _ _ => None) 5 5 counter_debugger = Ok d' /\
    run (dstate d') = abort /\ target d' = 3 /\
    run_result (Reference0 := counter_reference 2) (0, 0, (0, 0)) 5 d'.
Proof.
  eexists. split; [vm_compute; reflexivity |]. split; [reflexivity |]. split; [reflexivity |].
  apply (difftest_lockstep (Reference0 := counter_reference 2) (fun _ _ => None) 5 5 counter_debugger _ 0 (0, 0)
    counter_tests ltac:(lia)).
  vm_compute. reflexivity.
Defined.

