(* ===== verification/SimCounters.v ===== *)
(** * SimCounters: the performance counters of the RTL simulation

    PerfCounter.hpp, PerfCounter.cpp and AXI4PerfCounter.cpp.  Every counter is a record with
    an [update] that looks at the signals of the Verilated processor once per clock cycle.  The
    signals a counter is bound to are arguments: [signals] collects those of the counters
    initPerfCounters creates.  Counts are 64-bit. *)
From S2P Require Import Prelude.

Definition inc (x : Z) : Z := u64 (x + 1).
Definition inc_if (b : bool) (x : Z) : Z := if b then inc x else x.

(** ** HandShakeCounterManager *)

Record ValidReadyBus := VRBus { hValid : bool; hReady : bool; shake_count : Z }.
Definition shakeHappened (b : ValidReadyBus) : bool := hValid b && hReady b.

(** update, with the signals of the cycle for each bus. *)
Definition handshake_update (buses : list ValidReadyBus) : list ValidReadyBus :=
  (fun b => VRBus (hValid b) (hReady b) (inc_if (shakeHappened b) (shake_count b))) <$> buses.

(** ** AXI4 counters *)
Module Axi.

Record LatencyRecord := Latency { startTime : Z; endTime : Z; cycles : Z }.
Inductive State := IDLE | WAIT.

(** AXI4CounterBase with the state of the derived counter: WAIT is WAIT_DATA of the read
    counter, WAIT_RESP of the write counter. *)
Record counter := Counter {
  transaction_count : Z;
  total_latency_cycles : Z;
  currentRecord : LatencyRecord;
  maxRecord : LatencyRecord;
  state : State
}.

(** A new counter: the two records have no initialisers, so their contents ([cur], [mx]) are
    whatever memory held. *)
Definition new_counter (cur mx : LatencyRecord) : counter := Counter 0 0 cur mx IDLE.

(** AXI4ReadPerfCounter::update *)
Definition read_update (sim_time : Z) (arvalid rvalid rready : bool) (c : counter) : counter :=
  match state c with
  | IDLE =>
      if arvalid then
        Counter (inc (transaction_count c)) (total_latency_cycles c)
          (Latency sim_time (endTime (currentRecord c)) 0) (maxRecord c) WAIT
      else c
  | WAIT =>
      let cur := Latency (startTime (currentRecord c)) (endTime (currentRecord c))
                   (inc (cycles (currentRecord c))) in
      if rvalid && rready then
        let cur := Latency (startTime cur) sim_time (cycles cur) in
        Counter (transaction_count c) (u64 (total_latency_cycles c + cycles cur)) cur
          (if cycles (maxRecord c) <? cycles cur then cur else maxRecord c) IDLE
      else Counter (transaction_count c) (total_latency_cycles c) cur (maxRecord c) WAIT
  end.

(** AXI4WritePerfCounter::update *)
Definition write_update (sim_time : Z) (awvalid bvalid bready : bool) (c : counter) : counter :=
  match state c with
  | IDLE =>
      if awvalid then
        Counter (inc (transaction_count c)) (total_latency_cycles c)
          (Latency sim_time (endTime (currentRecord c)) 0) (maxRecord c) WAIT
      else c
  | WAIT =>
      let cur := Latency (startTime (currentRecord c)) (endTime (currentRecord c))
                   (inc (cycles (currentRecord c))) in
      if bvalid && bready then
        let cur := Latency (startTime cur) sim_time (cycles cur) in
        Counter (transaction_count c) (u64 (total_latency_cycles c + cycles cur)) cur
          (if cycles (maxRecord c) <? cycles cur then cur else maxRecord c) IDLE
      else Counter (transaction_count c) (total_latency_cycles c) cur (maxRecord c) WAIT
  end.

End Axi.

(** ** Signals

    The signals the counters of initPerfCounters read in a cycle. *)
Record stage_signals := StageSig { hOutValid : bool; hOutReady : bool }.

Record exu_signals := ExuSig {
  io_in_valid : bool; io_in_ready : bool;
  io_in_bits_code : Z; io_in_bits_info_reg1 : Z; io_in_bits_info_reg2 : Z;
  io_in_bits_info_lateLoadRs1 : bool; io_in_bits_info_lateLoadRs2 : bool;
  io_out_bits_cacheableLoad : bool; io_out_bits_dcacheHit : bool;
  dbgIsBranch : bool; dbgIsJAL : bool; dbgIsJALR : bool; dbgIsCSRJmp : bool; io_predWrong : bool;
  io_dcache_storeUpdate : bool; memWMask : Z }.

Record raw_signals := RawSig {
  hIsAnyConflict : bool; hIsConflictEXU : bool; hIsConflictLSU : bool; hIsConflictWBU : bool;
  hIsConflictOnlyEXU : bool; hIsConflictOnlyLSU : bool; hIsConflictOnlyWBU : bool;
  hIsStallEXU : bool; hIsStallLSU : bool; hIsStallWBU : bool;
  hIsStallOnlyEXU : bool; hIsStallOnlyLSU : bool; hIsStallOnlyWBU : bool;
  hIsIDUStall : bool; hActualStall : bool; hActualBypassStall : Z;
  hActualReg1AddImmEXUStall : Z; hActualReg1AddImmWBUStall : Z; hStalledInst : Z }.

Record signals := Signals {
  sg_stages : list stage_signals;
  sg_exu : exu_signals;
  sg_raw : raw_signals;
  activeRedirectValid : bool; redirectNow : bool; lateRedirectNow : bool }.

(** ** PipeStagePerfCounter *)

Inductive stage_state := Backpressure | Bubble | Fire.
Record stage_counter := StageCtr { n_backpressure : Z; n_bubble : Z; n_fire : Z }.

Definition stage_of (s : stage_signals) : stage_state :=
  if hOutReady s then if hOutValid s then Fire else Bubble else Backpressure.

Definition stage_update (s : stage_signals) (c : stage_counter) : stage_counter :=
  match stage_of s with
  | Backpressure => StageCtr (inc (n_backpressure c)) (n_bubble c) (n_fire c)
  | Bubble => StageCtr (n_backpressure c) (inc (n_bubble c)) (n_fire c)
  | Fire => StageCtr (n_backpressure c) (n_bubble c) (inc (n_fire c))
  end.

Definition stage_total (c : stage_counter) : Z := u64 (n_backpressure c + n_bubble c + n_fire c).

(** PipePerfManager::update *)
Definition pipe_update (ss : list stage_signals) (cs : list stage_counter) : list stage_counter :=
  zip_with stage_update ss cs.

(** ** CachePerfCounter *)

Record cache_counter := CacheCtr { totalVisitCount : Z; hitCount : Z }.

Definition cache_update (e : exu_signals) (c : cache_counter) : cache_counter :=
  let issued := io_in_valid e && io_in_ready e in
  if issued && io_out_bits_cacheableLoad e then
    CacheCtr (inc (totalVisitCount c)) (inc_if (io_out_bits_dcacheHit e) (hitCount c))
  else c.

Definition missCount (c : cache_counter) : Z := u64 (totalVisitCount c - hitCount c).

(** ** RAWStallPerfCounter *)

Record raw_counter := RawCtr {
  cycAnyConflict : Z; cycAllConflictEXU : Z; cycAllConflictLSU : Z; cycAllConflictWBU : Z;
  cycConflictEXU : Z; cycConflictLSU : Z; cycConflictWBU : Z;
  cycConflictOnlyEXU : Z; cycConflictOnlyLSU : Z; cycConflictOnlyWBU : Z;
  cycIDUStall : Z; cycStallEXU : Z; cycStallLSU : Z; cycStallWBU : Z;
  cycStallOnlyEXU : Z; cycStallOnlyLSU : Z; cycStallOnlyWBU : Z;
  cycActualStall : Z; cycActualBypassStall : Z;
  cycActualReg1AddImmEXUStall : Z; cycActualReg1AddImmWBUStall : Z;
  cycActualEXUStall : Z; cycActualLSUStall : Z; cycActualWBUStall : Z;
  actualStallByOpcodeFunc3 : list Z; actualEXUStallByOpcodeFunc3 : list Z;
  actualLSUStallByOpcodeFunc3 : list Z }.

Definition new_raw : raw_counter :=
  RawCtr 0 0 0 0 0 0 0 0 0 0 0 0 0 0 0 0 0 0 0 0 0 0 0 0
    (replicate 1024 0) (replicate 1024 0) (replicate 1024 0).

Definition bucket_of (inst : Z) : Z := (inst &&& 0x7f) ||| (((inst >>> 12) &&& 7) <<< 7).
Definition bump (l : list Z) (i : Z) : list Z := aset l i (inc (aget 0 l i)).

Definition raw_update (s : raw_signals) (c : raw_counter) : raw_counter :=
  let stall := hIsIDUStall s in
  let actual := hActualStall s in
  let bucket := bucket_of (hStalledInst s) in
  {| cycAnyConflict := inc_if (hIsAnyConflict s) (cycAnyConflict c);
     cycAllConflictEXU := inc_if (hIsConflictEXU s) (cycAllConflictEXU c);
     cycAllConflictLSU := inc_if (hIsConflictLSU s) (cycAllConflictLSU c);
     cycAllConflictWBU := inc_if (hIsConflictWBU s) (cycAllConflictWBU c);
     cycConflictEXU := inc_if (stall && hIsConflictEXU s) (cycConflictEXU c);
     cycConflictLSU := inc_if (stall && hIsConflictLSU s) (cycConflictLSU c);
     cycConflictWBU := inc_if (stall && hIsConflictWBU s) (cycConflictWBU c);
     cycConflictOnlyEXU := inc_if (hIsConflictOnlyEXU s) (cycConflictOnlyEXU c);
     cycConflictOnlyLSU := inc_if (hIsConflictOnlyLSU s) (cycConflictOnlyLSU c);
     cycConflictOnlyWBU := inc_if (hIsConflictOnlyWBU s) (cycConflictOnlyWBU c);
     cycIDUStall := inc_if stall (cycIDUStall c);
     cycStallEXU := inc_if (hIsStallEXU s) (cycStallEXU c);
     cycStallLSU := inc_if (hIsStallLSU s) (cycStallLSU c);
     cycStallWBU := inc_if (hIsStallWBU s) (cycStallWBU c);
     cycStallOnlyEXU := inc_if (hIsStallOnlyEXU s) (cycStallOnlyEXU c);
     cycStallOnlyLSU := inc_if (hIsStallOnlyLSU s) (cycStallOnlyLSU c);
     cycStallOnlyWBU := inc_if (hIsStallOnlyWBU s) (cycStallOnlyWBU c);
     cycActualStall := inc_if actual (cycActualStall c);
     cycActualBypassStall :=
       if actual then u64 (cycActualBypassStall c + hActualBypassStall s)
       else cycActualBypassStall c;
     cycActualReg1AddImmEXUStall :=
       if actual then u64 (cycActualReg1AddImmEXUStall c + hActualReg1AddImmEXUStall s)
       else cycActualReg1AddImmEXUStall c;
     cycActualReg1AddImmWBUStall :=
       if actual then u64 (cycActualReg1AddImmWBUStall c + hActualReg1AddImmWBUStall s)
       else cycActualReg1AddImmWBUStall c;
     cycActualEXUStall := inc_if (actual && hIsStallEXU s) (cycActualEXUStall c);
     cycActualLSUStall := inc_if (actual && hIsStallLSU s) (cycActualLSUStall c);
     cycActualWBUStall := inc_if (actual && hIsStallWBU s) (cycActualWBUStall c);
     actualStallByOpcodeFunc3 :=
       if actual then bump (actualStallByOpcodeFunc3 c) bucket else actualStallByOpcodeFunc3 c;
     actualEXUStallByOpcodeFunc3 :=
       if actual && hIsStallEXU s then bump (actualEXUStallByOpcodeFunc3 c) bucket
       else actualEXUStallByOpcodeFunc3 c;
     actualLSUStallByOpcodeFunc3 :=
       if actual && hIsStallLSU s then bump (actualLSUStallByOpcodeFunc3 c) bucket
       else actualLSUStallByOpcodeFunc3 c |}.

(** ** IDUFlushPerfCounter *)

(** The reasons, by their number. *)
Definition BranchTaken : Z := 0.
Definition JALR : Z := 1.
Definition JAL : Z := 2.
Definition Exception : Z := 3.
Definition Fence : Z := 4.
Definition PredRecover : Z := 5.
Definition Unknown : Z := 6.
Definition REASON_NUM : Z := 7.

Record flush_counter := FlushCtr {
  lastCycIsFlush : bool; lastCycRedirectNow : bool; lastFlushReason : Z;
  cycIDUFlush : Z; cycFlushOfReason : list Z }.
Definition new_flush : flush_counter :=
  FlushCtr false false Unknown 0 (replicate (Z.to_nat REASON_NUM) 0).

Definition getCurReason (s : signals) : Z :=
  let exu := sg_exu s in
  if lateRedirectNow s || dbgIsBranch exu then BranchTaken
  else if dbgIsJAL exu then JAL
  else if dbgIsJALR exu then JALR
  else if dbgIsCSRJmp exu then Exception
  else if io_predWrong exu then PredRecover
  else Unknown.

Definition flush_update (s : signals) (c : flush_counter) : flush_counter :=
  let isRedirectNowRaisingEdge := negb (lastCycRedirectNow c) && redirectNow s in
  let reason := if isRedirectNowRaisingEdge then getCurReason s else lastFlushReason c in
  FlushCtr (activeRedirectValid s) (redirectNow s) reason
    (inc_if (activeRedirectValid s) (cycIDUFlush c))
    (if activeRedirectValid s then bump (cycFlushOfReason c) reason else cycFlushOfReason c).

(** ** BranchPredPerfCounter *)

Definition JmpTypeNum : Z := 4.
Record branch_counter := BranchCtr { totCountOfType : list Z; totMispredictOfType : list Z }.
Definition new_branch : branch_counter :=
  BranchCtr (replicate (Z.to_nat JmpTypeNum) 0) (replicate (Z.to_nat JmpTypeNum) 0).

(** Branch, JAL, JALR, Exception, or JmpTypeNum. *)
Definition getCurJmpType (e : exu_signals) : Z :=
  if dbgIsBranch e then 0 else if dbgIsJAL e then 1 else if dbgIsJALR e then 2
  else if dbgIsCSRJmp e then 3 else JmpTypeNum.

Definition branch_update (e : exu_signals) (c : branch_counter) : branch_counter :=
  if io_in_valid e && io_in_ready e then
    let jmpType := getCurJmpType e in
    if JmpTypeNum <=? jmpType then c
    else BranchCtr (bump (totCountOfType c) jmpType)
           (if io_predWrong e then bump (totMispredictOfType c) jmpType else totMispredictOfType c)
  else c.

(** ** OptimizationDirectionPerfCounter

    lateAddSuccessorCount, which no update writes, is left out. *)

Record opt_counter := OptCtr {
  mOpCount : list Z;
  mulOperandZero : Z; mulOperandOne : Z; mulOperandPowerOfTwo : Z; mulBothUnsigned16 : Z;
  crcClmulhCount : Z; cacheableFullWordStores : Z; lateLoadAddCount : list Z }.
Definition new_opt : opt_counter := OptCtr (replicate 8 0) 0 0 0 0 0 0 (replicate 3 0).

Definition isPowerOfTwo (value : Z) : bool := negb (value =? 0) && (value &&& u32 (value - 1) =? 0).

Definition opt_mul (e : exu_signals) (c : opt_counter) : opt_counter :=
  let lhs := io_in_bits_info_reg1 e in
  let rhs := io_in_bits_info_reg2 e in
  OptCtr (mOpCount c)
    (inc_if ((lhs =? 0) || (rhs =? 0)) (mulOperandZero c))
    (inc_if ((lhs =? 1) || (rhs =? 1)) (mulOperandOne c))
    (inc_if (isPowerOfTwo lhs || isPowerOfTwo rhs) (mulOperandPowerOfTwo c))
    (inc_if ((lhs <=? 0xffff) && (rhs <=? 0xffff)) (mulBothUnsigned16 c))
    (crcClmulhCount c) (cacheableFullWordStores c) (lateLoadAddCount c).

(** The part for an issued instruction. *)
Definition opt_issue (e : exu_signals) (c : opt_counter) : opt_counter :=
  let inst := io_in_bits_code e in
  let opcode := inst &&& 0x7f in
  let func3 := (inst >>> 12) &&& 7 in
  let func7 := (inst >>> 25) &&& 0x7f in
  let c :=
    if (opcode =? 0x33) && (func7 =? 1) then
      let c := OptCtr (bump (mOpCount c) func3) (mulOperandZero c) (mulOperandOne c)
                 (mulOperandPowerOfTwo c) (mulBothUnsigned16 c) (crcClmulhCount c)
                 (cacheableFullWordStores c) (lateLoadAddCount c) in
      if func3 =? 0 then opt_mul e c else c
    else c in
  let crc := (opcode =? 0x33) && (func7 =? 5) && (func3 =? 3) && (io_in_bits_info_reg2 e =? 0x14002) in
  let lateRs1 := io_in_bits_info_lateLoadRs1 e in
  let lateRs2 := io_in_bits_info_lateLoadRs2 e in
  OptCtr (mOpCount c) (mulOperandZero c) (mulOperandOne c) (mulOperandPowerOfTwo c)
    (mulBothUnsigned16 c) (inc_if crc (crcClmulhCount c)) (cacheableFullWordStores c)
    (if lateRs1 || lateRs2
     then bump (lateLoadAddCount c) (if lateRs1 && lateRs2 then 2 else if lateRs1 then 0 else 1)
     else lateLoadAddCount c).

Definition opt_update (e : exu_signals) (c : opt_counter) : opt_counter :=
  let c := if io_in_valid e && io_in_ready e then opt_issue e c else c in
  OptCtr (mOpCount c) (mulOperandZero c) (mulOperandOne c) (mulOperandPowerOfTwo c)
    (mulBothUnsigned16 c) (crcClmulhCount c)
    (inc_if (io_dcache_storeUpdate e && (memWMask e =? 0xf)) (cacheableFullWordStores c))
    (lateLoadAddCount c).

(** ** All counters *)

Record perf_counters := Perf {
  pc_pipe : list stage_counter; pc_raw : raw_counter; pc_flush : flush_counter;
  pc_branch : branch_counter; pc_cache : cache_counter; pc_opt : opt_counter }.

(** Four pipeline stages: IFU, IDU, EXU, LSU. *)
Definition initPerfCounters : perf_counters :=
  Perf (replicate 4 (StageCtr 0 0 0)) new_raw new_flush new_branch (CacheCtr 0 0) new_opt.

Definition updatePerfCounters (s : signals) (p : perf_counters) : perf_counters :=
  Perf (pipe_update (sg_stages s) (pc_pipe p)) (raw_update (sg_raw s) (pc_raw p))
    (flush_update s (pc_flush p)) (branch_update (sg_exu s) (pc_branch p))
    (cache_update (sg_exu s) (pc_cache p)) (opt_update (sg_exu s) (pc_opt p)).

(** * Properties *)

Fixpoint sumz (l : list Z) : Z := match l with [] => 0 | x :: l => x + sumz l end.
Definition countz {A} (f : A -> bool) (l : list A) : Z := Z.of_nat (length (List.filter f l)).

Lemma countz_snoc {A} (f : A -> bool) l x : countz f (l ++ [x]) = countz f l + b2z (f x).
Proof.
  unfold countz. rewrite List.filter_app, length_app. cbn. destruct (f x); cbn; lia.
Qed.

Lemma countz_bounds {A} (f : A -> bool) l : 0 <= countz f l <= Z.of_nat (length l).
Proof. unfold countz. pose proof (List.filter_length_le f l). lia. Qed.

Lemma countz_le {A} (f g : A -> bool) l : (forall x, f x = true -> g x = true) ->
  countz f l <= countz g l.
Proof.
  intros H. unfold countz. induction l as [| x l IH]; [done |]. cbn.
  destruct (f x) eqn:E; [rewrite (H x E); cbn; lia |]. destruct (g x); cbn; lia.
Qed.

Lemma inc_small x : 0 <= x < 2 ^ 64 - 1 -> inc x = x + 1.
Proof. intros H. apply wrap_small. unfold in_range. lia. Qed.

Lemma inc_if_small b x : 0 <= x < 2 ^ 64 - 1 -> inc_if b x = x + b2z b.
Proof. intros H. destruct b; cbn; [by apply inc_small | lia]. Qed.

Lemma sumz_nonneg l : Forall (Z.le 0) l -> 0 <= sumz l.
Proof. induction 1; cbn; lia. Qed.

Lemma aget_le_sumz l i : Forall (Z.le 0) l -> 0 <= aget 0 l i <= sumz l.
Proof.
  intros H. unfold aget. generalize (Z.to_nat i) as k. induction H as [| x l Hx Hl IH]; intros k.
  - destruct k; cbn; lia.
  - destruct k as [| k]; cbn; [pose proof (sumz_nonneg l Hl); lia |].
    specialize (IH k). lia.
Qed.

Lemma sumz_aset l i v : 0 <= i < Z.of_nat (length l) -> sumz (aset l i v) = sumz l - aget 0 l i + v.
Proof.
  unfold aset, aget. intros Hi. assert (Z.to_nat i < length l)%nat as H by lia. revert H.
  generalize (Z.to_nat i) as k. clear Hi. induction l as [| x l IH]; intros k Hk; cbn in Hk; [lia |].
  destruct k as [| k]; cbn; [lia |]. rewrite IH by lia. lia.
Qed.

(** A table of counts whose sum is [n]. *)
Definition table_ok (len : nat) (n : Z) (l : list Z) : Prop :=
  length l = len /\ Forall (Z.le 0) l /\ sumz l = n.

Lemma table_new len : table_ok len 0 (replicate len 0).
Proof.
  split; [apply length_replicate |]. split; [by apply Forall_replicate |].
  induction len; [done |]. done.
Qed.

Lemma table_bump len n l i : table_ok len n l -> 0 <= i < Z.of_nat len -> n < 2 ^ 64 - 1 ->
  table_ok len (n + 1) (bump l i).
Proof.
  intros (Hl & Hp & Hs) Hi Hn. pose proof (aget_le_sumz l i Hp) as Ha. unfold bump.
  rewrite inc_small by lia. split; [by rewrite length_aset |]. split.
  - apply aset_Forall; [lia | done].
  - rewrite sumz_aset by lia. lia.
Qed.

Lemma table_bump_if len n l i b : table_ok len n l -> 0 <= i < Z.of_nat len -> n < 2 ^ 64 - 1 ->
  table_ok len (n + b2z b) (if b then bump l i else l).
Proof.
  intros. destruct b; [by apply table_bump |]. cbn. by rewrite Z.add_0_r.
Qed.

Lemma bucket_range inst : 0 <= bucket_of inst < 1024.
Proof.
  unfold bucket_of. change 0x7f with (Z.ones 7). change ((inst >>> 12) &&& 7) with ((inst >>> 12) &&& Z.ones 3).
  rewrite (Z.land_ones inst 7), (Z.land_ones (inst >>> 12) 3) by done.
  rewrite Z.lor_comm, lor_add by (try lia; apply wrap_range; lia).
  pose proof (Z.mod_pos_bound inst (2 ^ 7)). pose proof (Z.mod_pos_bound (inst >>> 12) (2 ^ 3)). lia.
Qed.

Lemma reason_range s : 0 <= getCurReason s < REASON_NUM.
Proof. unfold getCurReason. repeat case_match; done. Qed.

Definition run_counters (ss : list signals) : perf_counters :=
  foldl (fun p s => updatePerfCounters s p) initPerfCounters ss.

(** ** Every count is the number of cycles with its condition *)

Definition issued (s : signals) : bool := io_in_valid (sg_exu s) && io_in_ready (sg_exu s).
Definition jump (e : exu_signals) : bool := dbgIsBranch e || dbgIsJAL e || dbgIsJALR e || dbgIsCSRJmp e.
Definition jumps (s : signals) : bool := issued s && jump (sg_exu s).
Definition stage_is (k : nat) (t : stage_state) (s : signals) : bool :=
  match sg_stages s !! k with
  | Some g =>
      match t with
      | Fire => hOutReady g && hOutValid g
      | Bubble => hOutReady g && negb (hOutValid g)
      | Backpressure => negb (hOutReady g)
      end
  | None => false
  end.

Lemma jump_type e : jump e = negb (JmpTypeNum <=? getCurJmpType e).
Proof. unfold jump, getCurJmpType. by destruct (dbgIsBranch e), (dbgIsJAL e), (dbgIsJALR e), (dbgIsCSRJmp e). Qed.

(** The totals, with the sums of the break-downs. *)
Record tallies (ss : list signals) (p : perf_counters) : Prop := {
  ta_stages : length (pc_pipe p) = 4%nat;
  ta_stage : forall k c, pc_pipe p !! k = Some c ->
    n_fire c = countz (stage_is k Fire) ss /\ n_bubble c = countz (stage_is k Bubble) ss /\
    n_backpressure c = countz (stage_is k Backpressure) ss;
  ta_flush : cycIDUFlush (pc_flush p) = countz activeRedirectValid ss;
  ta_reason : 0 <= lastFlushReason (pc_flush p) < REASON_NUM;
  ta_reasons : table_ok 7 (countz activeRedirectValid ss) (cycFlushOfReason (pc_flush p));
  ta_jumps : table_ok 4 (countz jumps ss) (totCountOfType (pc_branch p));
  ta_wrong : table_ok 4 (countz (fun s => jumps s && io_predWrong (sg_exu s)) ss)
               (totMispredictOfType (pc_branch p));
  ta_visits : totalVisitCount (pc_cache p) =
    countz (fun s => issued s && io_out_bits_cacheableLoad (sg_exu s)) ss;
  ta_hits : hitCount (pc_cache p) =
    countz (fun s => issued s && io_out_bits_cacheableLoad (sg_exu s)
                     && io_out_bits_dcacheHit (sg_exu s)) ss;
  ta_stall : cycActualStall (pc_raw p) = countz (fun s => hActualStall (sg_raw s)) ss;
  ta_stalls : table_ok 1024 (countz (fun s => hActualStall (sg_raw s)) ss)
                (actualStallByOpcodeFunc3 (pc_raw p));
  ta_stall_exu : cycActualEXUStall (pc_raw p) =
    countz (fun s => hActualStall (sg_raw s) && hIsStallEXU (sg_raw s)) ss;
  ta_stalls_exu : table_ok 1024
    (countz (fun s => hActualStall (sg_raw s) && hIsStallEXU (sg_raw s)) ss)
    (actualEXUStallByOpcodeFunc3 (pc_raw p));
  ta_stalls_lsu : table_ok 1024
    (countz (fun s => hActualStall (sg_raw s) && hIsStallLSU (sg_raw s)) ss)
    (actualLSUStallByOpcodeFunc3 (pc_raw p));
  ta_conflict : cycAllConflictEXU (pc_raw p) = countz (fun s => hIsConflictEXU (sg_raw s)) ss;
  ta_conflict_stall : cycConflictEXU (pc_raw p) =
    countz (fun s => hIsIDUStall (sg_raw s) && hIsConflictEXU (sg_raw s)) ss;
  ta_stores : cacheableFullWordStores (pc_opt p) =
    countz (fun s => io_dcache_storeUpdate (sg_exu s) && (memWMask (sg_exu s) =? 0xf)) ss
}.

Lemma tallies_init : tallies [] initPerfCounters.
Proof.
  constructor; try done; try apply (table_new 7); try apply (table_new 4); try apply (table_new 1024).
  intros k c Hk. by apply list_elem_of_lookup_2, elem_of_replicate in Hk as [-> _].
Qed.

Lemma opt_stores e c : cacheableFullWordStores (opt_update e c) =
  inc_if (io_dcache_storeUpdate e && (memWMask e =? 0xf)) (cacheableFullWordStores c).
Proof.
  assert (cacheableFullWordStores (opt_issue e c) = cacheableFullWordStores c) as H.
  { unfold opt_issue, opt_mul. cbv zeta. cbn [cacheableFullWordStores]. by repeat case_match. }
  unfold opt_update. cbn [cacheableFullWordStores].
  destruct (io_in_valid e && io_in_ready e); [by rewrite H | done].
Qed.

Lemma tallies_step ss s p : length (sg_stages s) = 4%nat -> Z.of_nat (length ss) < 2 ^ 64 - 1 ->
  tallies ss p -> tallies (ss ++ [s]) (updatePerfCounters s p).
Proof.
  intros Hst Hlen [Hl Hs Hf Hr Hrs Hj Hw Hv Hh Ha Hat He Het Hlt Hc Hcs Hso].
  pose proof (fun f : signals -> bool => countz_bounds f ss) as B.
  assert (forall f : signals -> bool, 0 <= countz f ss < 2 ^ 64 - 1) as B'
    by (intros f; specialize (B f); lia).
  pose proof (bucket_range (hStalledInst (sg_raw s))) as Hb.
  constructor; rewrite ?countz_snoc; cbn [updatePerfCounters pc_pipe pc_raw pc_flush pc_branch pc_cache pc_opt].
  - unfold pipe_update. rewrite length_zip_with. lia.
  - intros k c Hk. unfold pipe_update in Hk. rewrite lookup_zip_with in Hk.
    destruct (sg_stages s !! k) as [g |] eqn:Eg; [| done]. cbn in Hk.
    destruct (pc_pipe p !! k) as [c0 |] eqn:Ec; [| done]. cbn in Hk. injection Hk as <-.
    destruct (Hs k c0 Ec) as (H1 & H2 & H3). rewrite !countz_snoc, <- H1, <- H2, <- H3.
    unfold stage_is, stage_update, stage_of. rewrite Eg.
    destruct (hOutReady g), (hOutValid g); cbn; rewrite ?inc_small, ?Z.add_0_r; try done;
      rewrite ?H1, ?H2, ?H3; apply B'.
  - cbn. by rewrite inc_if_small, Hf by (rewrite Hf; apply B').
  - cbn. destruct (_ && _); [apply reason_range | done].
  - cbn. apply table_bump_if; [done | | apply B'].
    destruct (_ && _); [apply reason_range | apply Hr].
  - unfold jumps, issued, branch_update. rewrite jump_type. destruct (io_in_valid (sg_exu s) && io_in_ready (sg_exu s)); cbn [andb].
    + destruct (Z.leb_spec JmpTypeNum (getCurJmpType (sg_exu s))); cbn [negb b2z Z.b2z].
      * by rewrite Z.add_0_r.
      * cbn [totCountOfType]. apply table_bump; [done | | apply B'].
        unfold getCurJmpType in *. repeat case_match; unfold JmpTypeNum in *; lia.
    + by rewrite Z.add_0_r.
  - unfold jumps, issued, branch_update. rewrite jump_type. destruct (io_in_valid (sg_exu s) && io_in_ready (sg_exu s)); cbn [andb].
    + destruct (Z.leb_spec JmpTypeNum (getCurJmpType (sg_exu s))); cbn [negb andb].
      * by rewrite Z.add_0_r.
      * cbn [totMispredictOfType]. apply table_bump_if; [done | | apply B'].
        unfold getCurJmpType in *. repeat case_match; unfold JmpTypeNum in *; lia.
    + by rewrite Z.add_0_r.
  - unfold issued, cache_update. cbv zeta. destruct (_ && io_out_bits_cacheableLoad _); cbn.
    + by rewrite inc_small, Hv by (rewrite Hv; apply B').
    + rewrite Hv. unfold issued. lia.
  - unfold issued, cache_update. cbv zeta.
    destruct (_ && io_out_bits_cacheableLoad _); cbn [andb hitCount].
    + by rewrite inc_if_small, Hh by (rewrite Hh; apply B').
    + rewrite Hh. unfold issued. cbn. lia.
  - cbn. by rewrite inc_if_small, Ha by (rewrite Ha; apply B').
  - cbn. by apply table_bump_if; [| | apply B'].
  - cbn. by rewrite inc_if_small, He by (rewrite He; apply B').
  - cbn. by apply table_bump_if; [| | apply B'].
  - cbn. by apply table_bump_if; [| | apply B'].
  - cbn. by rewrite inc_if_small, Hc by (rewrite Hc; apply B').
  - cbn. by rewrite inc_if_small, Hcs by (rewrite Hcs; apply B').
  - rewrite opt_stores. by rewrite inc_if_small, Hso by (rewrite Hso; apply B').
Qed.

Lemma run_counters_tallies ss : Forall (fun s => length (sg_stages s) = 4%nat) ss ->
  Z.of_nat (length ss) < 2 ^ 64 -> tallies ss (run_counters ss).
Proof.
  induction ss as [| s ss IH] using rev_ind; intros Hst Hlen; [apply tallies_init |].
  apply Forall_app in Hst as [Hst Hs]. rewrite length_app in Hlen. cbn in Hlen.
  unfold run_counters. rewrite foldl_app. cbn. apply tallies_step.
  - by apply Forall_cons in Hs as [? _].
  - lia.
  - apply IH; [done | lia].
Qed.

Lemma stage_partition k ss : (k < 4)%nat -> Forall (fun s => length (sg_stages s) = 4%nat) ss ->
  countz (stage_is k Fire) ss + countz (stage_is k Bubble) ss + countz (stage_is k Backpressure) ss
  = Z.of_nat (length ss).
Proof.
  intros Hk. induction ss as [| s ss IH] using rev_ind; intros Hst; [done |].
  apply Forall_app in Hst as [Hst Hs]. apply Forall_cons in Hs as [Hs _].
  rewrite !countz_snoc, length_app. specialize (IH Hst). cbn [length].
  destruct (lookup_lt_is_Some_2 (sg_stages s) k ltac:(lia)) as [g Hg]. unfold stage_is at 2 4 6.
  rewrite Hg. destruct (hOutReady g), (hOutValid g); cbn; lia.
Qed.

Lemma tallies_consistent ss p : Forall (fun s => length (sg_stages s) = 4%nat) ss ->
  Z.of_nat (length ss) < 2 ^ 64 -> tallies ss p ->
  Forall (fun c => stage_total c = Z.of_nat (length ss)) (pc_pipe p) /\
  sumz (cycFlushOfReason (pc_flush p)) = cycIDUFlush (pc_flush p) /\
  sumz (actualStallByOpcodeFunc3 (pc_raw p)) = cycActualStall (pc_raw p) /\
  sumz (actualEXUStallByOpcodeFunc3 (pc_raw p)) = cycActualEXUStall (pc_raw p) /\
  cycActualEXUStall (pc_raw p) <= cycActualStall (pc_raw p) /\
  cycConflictEXU (pc_raw p) <= cycAllConflictEXU (pc_raw p) /\
  sumz (totMispredictOfType (pc_branch p)) <= sumz (totCountOfType (pc_branch p)) /\
  hitCount (pc_cache p) <= totalVisitCount (pc_cache p) /\
  hitCount (pc_cache p) + missCount (pc_cache p) = totalVisitCount (pc_cache p).
Proof.
  intros Hst Hlen H.
  assert (hitCount (pc_cache p) <= totalVisitCount (pc_cache p)) as Hhit.
  { rewrite (ta_hits _ _ H), (ta_visits _ _ H). apply countz_le. intros s Hs.
    by apply andb_prop in Hs as [? _]. }
  split_and!.
  - apply Forall_lookup. intros k c Hk. destruct (ta_stage _ _ H k c Hk) as (H1 & H2 & H3).
    unfold stage_total. rewrite H1, H2, H3. pose proof (stage_partition k ss) as Hp.
    specialize (Hp ltac:(pose proof (lookup_lt_Some _ _ _ Hk); rewrite (ta_stages _ _ H) in *; lia) Hst).
    rewrite wrap_small by (unfold in_range; lia). lia.
  - rewrite (ta_flush _ _ H). apply (ta_reasons _ _ H).
  - rewrite (ta_stall _ _ H). apply (ta_stalls _ _ H).
  - rewrite (ta_stall_exu _ _ H). apply (ta_stalls_exu _ _ H).
  - rewrite (ta_stall_exu _ _ H), (ta_stall _ _ H). apply countz_le. intros s Hs.
    by apply andb_prop in Hs as [? _].
  - rewrite (ta_conflict _ _ H), (ta_conflict_stall _ _ H). apply countz_le. intros s Hs.
    by apply andb_prop in Hs as [_ ?].
  - destruct (ta_jumps _ _ H) as (_ & _ & ->). destruct (ta_wrong _ _ H) as (_ & _ & ->).
    apply countz_le. intros s Hs. by apply andb_prop in Hs as [? _].
  - done.
  - unfold missCount. rewrite wrap_small; [lia |]. unfold in_range.
    rewrite (ta_hits _ _ H), (ta_visits _ _ H) in *.
    pose proof (countz_bounds (fun s => issued s && io_out_bits_cacheableLoad (sg_exu s)) ss).
    pose proof (countz_bounds (fun s => issued s && io_out_bits_cacheableLoad (sg_exu s)
                     && io_out_bits_dcacheHit (sg_exu s)) ss). lia.
Qed.

(** ** Every counter and every entry of a break-down

    The conditions below are on the signals of a cycle alone; [exact] says that after any
    number of cycles every counter is the number of cycles with its condition. *)

Definition word_op (x : Z) : Z := x mod 128.
Definition word_f3 (x : Z) : Z := x / 2 ^ 12 mod 8.
Definition word_f7 (x : Z) : Z := x / 2 ^ 25 mod 128.
Definition instruction_is (op f3 f7 x : Z) : bool := (word_op x =? op) && (word_f3 x =? f3) && (word_f7 x =? f7).
Definition powers_of_two : list Z := (fun k => 2 ^ k) <$> seqZ 0 32.

(** An issued multiplication one (or both) of whose operands satisfies [f]. *)
Definition mul_with (f : Z -> Z -> bool) (s : signals) : bool :=
  let e := sg_exu s in
  issued s && instruction_is 0x33 0 1 (io_in_bits_code e)
  && f (io_in_bits_info_reg1 e) (io_in_bits_info_reg2 e).

(** The counters of single conditions. *)
Definition flags : list ((perf_counters -> Z) * (signals -> bool)) :=
  let raw get cond := (fun p => get (pc_raw p), fun s => cond (sg_raw s)) in
  [ raw cycAnyConflict hIsAnyConflict;
    raw cycAllConflictEXU hIsConflictEXU;
    raw cycAllConflictLSU hIsConflictLSU;
    raw cycAllConflictWBU hIsConflictWBU;
    raw cycConflictEXU (fun r => hIsIDUStall r && hIsConflictEXU r);
    raw cycConflictLSU (fun r => hIsIDUStall r && hIsConflictLSU r);
    raw cycConflictWBU (fun r => hIsIDUStall r && hIsConflictWBU r);
    raw cycConflictOnlyEXU hIsConflictOnlyEXU;
    raw cycConflictOnlyLSU hIsConflictOnlyLSU;
    raw cycConflictOnlyWBU hIsConflictOnlyWBU;
    raw cycIDUStall hIsIDUStall;
    raw cycStallEXU hIsStallEXU;
    raw cycStallLSU hIsStallLSU;
    raw cycStallWBU hIsStallWBU;
    raw cycStallOnlyEXU hIsStallOnlyEXU;
    raw cycStallOnlyLSU hIsStallOnlyLSU;
    raw cycStallOnlyWBU hIsStallOnlyWBU;
    raw cycActualStall hActualStall;
    raw cycActualEXUStall (fun r => hActualStall r && hIsStallEXU r);
    raw cycActualLSUStall (fun r => hActualStall r && hIsStallLSU r);
    raw cycActualWBUStall (fun r => hActualStall r && hIsStallWBU r);
    (fun p => cycIDUFlush (pc_flush p), activeRedirectValid);
    (fun p => totalVisitCount (pc_cache p), fun s => issued s && io_out_bits_cacheableLoad (sg_exu s));
    (fun p => hitCount (pc_cache p),
     fun s => issued s && io_out_bits_cacheableLoad (sg_exu s) && io_out_bits_dcacheHit (sg_exu s));
    (fun p => mulOperandZero (pc_opt p), mul_with (fun a b => (a =? 0) || (b =? 0)));
    (fun p => mulOperandOne (pc_opt p), mul_with (fun a b => (a =? 1) || (b =? 1)));
    (fun p => mulOperandPowerOfTwo (pc_opt p),
     mul_with (fun a b => existsb (Z.eqb a) powers_of_two || existsb (Z.eqb b) powers_of_two));
    (fun p => mulBothUnsigned16 (pc_opt p), mul_with (fun a b => (a <? 2 ^ 16) && (b <? 2 ^ 16)));
    (fun p => crcClmulhCount (pc_opt p),
     fun s => issued s && instruction_is 0x33 3 5 (io_in_bits_code (sg_exu s))
              && (io_in_bits_info_reg2 (sg_exu s) =? 0x14002));
    (fun p => cacheableFullWordStores (pc_opt p),
     fun s => io_dcache_storeUpdate (sg_exu s) && (memWMask (sg_exu s) =? 0xf)) ].

(** The counters that add a signal in the cycles of an actual stall. *)
Definition added : list ((perf_counters -> Z) * (raw_signals -> Z)) :=
  [ (fun p => cycActualBypassStall (pc_raw p), hActualBypassStall);
    (fun p => cycActualReg1AddImmEXUStall (pc_raw p), hActualReg1AddImmEXUStall);
    (fun p => cycActualReg1AddImmWBUStall (pc_raw p), hActualReg1AddImmWBUStall) ].

(** The kinds of a jump in the order of the report: branch, JAL, JALR, exception; an
    instruction that several signals claim has the first of them. *)
Definition jump_kind (e : exu_signals) (i : Z) : bool :=
  match i with
  | 0 => dbgIsBranch e
  | 1 => negb (dbgIsBranch e) && dbgIsJAL e
  | 2 => negb (dbgIsBranch e) && negb (dbgIsJAL e) && dbgIsJALR e
  | 3 => negb (dbgIsBranch e) && negb (dbgIsJAL e) && negb (dbgIsJALR e) && dbgIsCSRJmp e
  | _ => false
  end.

(** A late load used by the first operand only, the second only, or both. *)
Definition late_kind (e : exu_signals) (i : Z) : bool :=
  let a := io_in_bits_info_lateLoadRs1 e in
  let b := io_in_bits_info_lateLoadRs2 e in
  match i with 0 => a && negb b | 1 => b && negb a | 2 => a && b | _ => false end.

(** A stalled instruction of the bucket [i]: opcode in the low seven bits, funct3 above. *)
Definition in_bucket (r : raw_signals) (i : Z) : bool :=
  (word_op (hStalledInst r) =? i mod 128) && (word_f3 (hStalledInst r) =? i / 128).

(** The break-downs: the table, its length, and when entry [i] counts a cycle. *)
Definition tables : list ((perf_counters -> list Z) * nat * (Z -> signals -> bool)) :=
  [ (fun p => actualStallByOpcodeFunc3 (pc_raw p), 1024%nat,
     fun i s => hActualStall (sg_raw s) && in_bucket (sg_raw s) i);
    (fun p => actualEXUStallByOpcodeFunc3 (pc_raw p), 1024%nat,
     fun i s => hActualStall (sg_raw s) && hIsStallEXU (sg_raw s) && in_bucket (sg_raw s) i);
    (fun p => actualLSUStallByOpcodeFunc3 (pc_raw p), 1024%nat,
     fun i s => hActualStall (sg_raw s) && hIsStallLSU (sg_raw s) && in_bucket (sg_raw s) i);
    (fun p => totCountOfType (pc_branch p), 4%nat, fun i s => issued s && jump_kind (sg_exu s) i);
    (fun p => totMispredictOfType (pc_branch p), 4%nat,
     fun i s => issued s && io_predWrong (sg_exu s) && jump_kind (sg_exu s) i);
    (fun p => mOpCount (pc_opt p), 8%nat,
     fun i s => issued s && instruction_is 0x33 i 1 (io_in_bits_code (sg_exu s)));
    (fun p => lateLoadAddCount (pc_opt p), 3%nat, fun i s => issued s && late_kind (sg_exu s) i) ].

(** The cycles of a simulation with what came before, the latest first. *)
Fixpoint histories (h ss : list signals) : list (list signals) :=
  match ss with [] => [] | s :: ss => (s :: h) :: histories (s :: h) ss end.

(** The latest cycle in which [redirectNow] rose. *)
Fixpoint latest_redirect (h : list signals) : option signals :=
  match h with
  | [] => None
  | s :: h =>
      if redirectNow s && negb (match h with p :: _ => redirectNow p | [] => false end) then Some s
      else latest_redirect h
  end.

(** The reasons in the order of the report: branch taken, JALR, JAL, exception, fence,
    prediction recovery, unknown. *)
Definition flush_cause (s : signals) (i : Z) : bool :=
  let e := sg_exu s in
  let branch := lateRedirectNow s || dbgIsBranch e in
  let jump := branch || dbgIsJAL e || dbgIsJALR e in
  match i with
  | 0 => branch
  | 1 => negb branch && negb (dbgIsJAL e) && dbgIsJALR e
  | 2 => negb branch && dbgIsJAL e
  | 3 => negb jump && dbgIsCSRJmp e
  | 5 => negb jump && negb (dbgIsCSRJmp e) && io_predWrong e
  | 6 => negb jump && negb (dbgIsCSRJmp e) && negb (io_predWrong e)
  | _ => false
  end.

(** A flushed cycle belongs to the reason of the latest redirect, before the first to unknown. *)
Definition flushed_by (i : Z) (h : list signals) : bool :=
  match h with s :: _ => activeRedirectValid s | [] => false end &&
  match latest_redirect h with Some s => flush_cause s i | None => i =? 6 end.

Definition table_is {A} (len : nat) (f : Z -> A -> bool) (l : list A) (t : list Z) : Prop :=
  length t = len /\ forall i, 0 <= i < Z.of_nat len -> aget 0 t i = countz (f i) l.

Record exact (ss : list signals) (p : perf_counters) : Prop := {
  ex_stages : length (pc_pipe p) = 4%nat;
  ex_stage : forall k c, pc_pipe p !! k = Some c ->
    n_fire c = countz (stage_is k Fire) ss /\ n_bubble c = countz (stage_is k Bubble) ss /\
    n_backpressure c = countz (stage_is k Backpressure) ss;
  ex_flags : Forall (fun x => x.1 p = countz x.2 ss) flags;
  ex_added : Forall (fun x => x.1 p =
    u64 (sumz ((fun s => x.2 (sg_raw s)) <$> List.filter (fun s => hActualStall (sg_raw s)) ss))) added;
  ex_tables : Forall (fun x => table_is x.1.2 x.2 ss (x.1.1 p)) tables;
  ex_reasons : table_is 7 flushed_by (histories [] ss) (cycFlushOfReason (pc_flush p))
}.

(** The signals have the widths of the design: four stages, 32-bit operands. *)
Definition signals_ok (s : signals) : Prop :=
  length (sg_stages s) = 4%nat /\
  in_range 32 (io_in_bits_info_reg1 (sg_exu s)) /\ in_range 32 (io_in_bits_info_reg2 (sg_exu s)).

Lemma word_fields x :
  x &&& 0x7f = word_op x /\ (x >>> 12) &&& 7 = word_f3 x /\ (x >>> 25) &&& 0x7f = word_f7 x.
Proof.
  unfold word_op, word_f3, word_f7. change 0x7f with (Z.ones 7). change ((x >>> 12) &&& 7) with ((x >>> 12) &&& Z.ones 3).
  by rewrite !Z.land_ones, !Z.shiftr_div_pow2 by lia.
Qed.

(** The bit trick finds the powers of two. *)
Lemma isPowerOfTwo_spec v : in_range 32 v -> isPowerOfTwo v = existsb (Z.eqb v) powers_of_two.
Proof.
  intros Hv. unfold in_range in Hv. apply eq_true_iff_eq. rewrite existsb_exists. unfold isPowerOfTwo, powers_of_two.
  rewrite andb_true_iff, negb_true_iff, Z.eqb_neq, Z.eqb_eq. split.
  - intros [Hn E]. rewrite wrap_small in E by (unfold in_range; lia). exists v. split; [| apply Z.eqb_refl].
    pose proof (Z.log2_nonneg v). pose proof (Z.log2_spec v ltac:(lia)) as Hl.
    assert (Z.log2 v < 32) by (apply Z.log2_lt_pow2; lia).
    apply list_elem_of_In, list_elem_of_fmap. exists (Z.log2 v). split; [| apply elem_of_seqZ; lia].
    destruct (Z.eq_dec v (2 ^ Z.log2 v)) as [| Hne]; [done |]. exfalso.
    assert (Z.log2 (v - 1) = Z.log2 v) as El by (apply Z.log2_unique; lia).
    assert (Z.testbit (v &&& (v - 1)) (Z.log2 v) = true) as Hb.
    { rewrite Z.land_spec, Z.bit_log2, <- El, Z.bit_log2 by lia. done. }
    by rewrite E, Z.bits_0 in Hb.
  - intros (w & Hw & ->%Z.eqb_eq). apply list_elem_of_In, list_elem_of_fmap in Hw as (k & -> & Hk%elem_of_seqZ).
    assert (0 < 2 ^ k) by (apply Z.pow_pos_nonneg; lia). split; [lia |].
    rewrite wrap_small by (unfold in_range; lia).
    rewrite Z.sub_1_r, <- Z.ones_equiv, Z.land_ones by lia. apply Z_mod_same_full.
Qed.

(** What an update does to the counters of multiplications and checksums. *)
Lemma opt_fields s c :
  let e := sg_exu s in
  let mul f x := inc_if (mul_with f s) x in
  signals_ok s ->
  mulOperandZero (opt_update e c) = mul (fun a b => (a =? 0) || (b =? 0)) (mulOperandZero c) /\
  mulOperandOne (opt_update e c) = mul (fun a b => (a =? 1) || (b =? 1)) (mulOperandOne c) /\
  mulOperandPowerOfTwo (opt_update e c) =
    mul (fun a b => existsb (Z.eqb a) powers_of_two || existsb (Z.eqb b) powers_of_two) (mulOperandPowerOfTwo c) /\
  mulBothUnsigned16 (opt_update e c) = mul (fun a b => (a <? 2 ^ 16) && (b <? 2 ^ 16)) (mulBothUnsigned16 c) /\
  crcClmulhCount (opt_update e c) =
    inc_if (issued s && instruction_is 0x33 3 5 (io_in_bits_code e) && (io_in_bits_info_reg2 e =? 0x14002))
      (crcClmulhCount c).
Proof.
  intros e mul (_ & H1 & H2). subst mul. unfold mul_with, opt_update, issued. cbv beta. fold e.
  rewrite <- (isPowerOfTwo_spec (io_in_bits_info_reg1 e)), <- (isPowerOfTwo_spec (io_in_bits_info_reg2 e)) by done.
  assert (forall v, (v <? 2 ^ 16) = (v <=? 0xffff)) as H16 by (intros v; apply eq_true_iff_eq; lia).
  rewrite !H16.
  destruct (io_in_valid e && io_in_ready e); [| done]. cbn [andb].
  destruct (word_fields (io_in_bits_code e)) as (E1 & E2 & E3). unfold opt_issue, instruction_is.
  rewrite E1, E2, E3. cbv zeta.
  destruct (word_op (io_in_bits_code e) =? 0x33), (word_f7 (io_in_bits_code e) =? 1) eqn:E7,
    (word_f3 (io_in_bits_code e) =? 0) eqn:E30; cbn; try done.
  all: by rewrite (andb_comm (word_f3 _ =? 3)).
Qed.

Lemma flags_step s p : signals_ok s ->
  Forall (fun x => x.1 (updatePerfCounters s p) = inc_if (x.2 s) (x.1 p)) flags.
Proof.
  intros Hs. destruct (opt_fields s (pc_opt p) Hs) as (O1 & O2 & O3 & O4 & O5).
  unfold flags. repeat (apply Forall_cons; split); try apply Forall_nil_2; try reflexivity;
    cbn [fst snd updatePerfCounters pc_cache pc_opt]; try assumption; try apply opt_stores.
  all: unfold cache_update, issued; cbv zeta; by destruct (_ && io_out_bits_cacheableLoad _).
Qed.

(** An update bumps at most one entry of a table. *)
Definition bumps (len : nat) (f : Z -> signals -> bool) (s : signals) (t t' : list Z) : Prop :=
  exists b j, 0 <= j < Z.of_nat len /\ t' = (if b : bool then bump t j else t) /\
    forall i, 0 <= i < Z.of_nat len -> f i s = b && (i =? j).

Lemma bucket_arith inst : bucket_of inst = word_op inst + 128 * word_f3 inst.
Proof.
  unfold bucket_of. destruct (word_fields inst) as (-> & -> & _).
  rewrite Z.lor_comm, lor_add; [lia | lia |]. unfold word_op. apply (Z.mod_pos_bound inst 128). lia.
Qed.

Lemma bucket_bumps s t b :
  bumps 1024 (fun i s => b s && in_bucket (sg_raw s) i) s t
    (if b s then bump t (bucket_of (hStalledInst (sg_raw s))) else t).
Proof.
  exists (b s), (bucket_of (hStalledInst (sg_raw s))). split; [apply bucket_range |]. split; [done |].
  intros i Hi. f_equal. unfold in_bucket. rewrite bucket_arith. set (w := hStalledInst (sg_raw s)).
  assert (0 <= word_op w < 128) by (apply Z.mod_pos_bound; lia).
  assert (0 <= word_f3 w < 8) by (apply Z.mod_pos_bound; lia).
  apply eq_true_iff_eq. rewrite andb_true_iff, !Z.eqb_eq. pose proof (Z.div_mod i 128 ltac:(lia)).
  pose proof (Z.mod_pos_bound i 128 ltac:(lia)). lia.
Qed.

Lemma four_cases i : 0 <= i < 4 -> i = 0 \/ i = 1 \/ i = 2 \/ i = 3.
Proof. lia. Qed.

Lemma jump_kind_type e i : 0 <= i < 4 -> jump_kind e i = (i =? getCurJmpType e).
Proof.
  intros Hi. unfold jump_kind, getCurJmpType.
  destruct (four_cases i Hi) as [-> | [-> | [-> | ->]]];
    by destruct (dbgIsBranch e), (dbgIsJAL e), (dbgIsJALR e), (dbgIsCSRJmp e).
Qed.

Lemma jump_type_range e : 0 <= getCurJmpType e < 4 \/ getCurJmpType e = JmpTypeNum.
Proof. unfold getCurJmpType. repeat case_match; unfold JmpTypeNum; lia. Qed.

Lemma jump_bumps s c :
  bumps 4 (fun i s => issued s && jump_kind (sg_exu s) i) s (totCountOfType c) (totCountOfType (branch_update (sg_exu s) c)) /\
  bumps 4 (fun i s => issued s && io_predWrong (sg_exu s) && jump_kind (sg_exu s) i) s (totMispredictOfType c)
    (totMispredictOfType (branch_update (sg_exu s) c)).
Proof.
  unfold branch_update, bumps. cbv zeta. unfold issued.
  destruct (io_in_valid (sg_exu s) && io_in_ready (sg_exu s)); cbn [andb].
  2: { split; exists false, 0; (split; [lia | done]). }
  destruct (jump_type_range (sg_exu s)) as [Hj | Hj].
  - rewrite (proj2 (Z.leb_gt _ _)) by (unfold JmpTypeNum; lia).
    split; [exists true | exists (io_predWrong (sg_exu s))]; exists (getCurJmpType (sg_exu s));
      (split; [done | split; [done | intros i Hi; by rewrite jump_kind_type]]).
  - rewrite Hj, Z.leb_refl. split; exists false, 0; (split; [lia | split; [done |]]); intros i Hi;
      rewrite jump_kind_type, Hj by done; unfold JmpTypeNum; rewrite (proj2 (Z.eqb_neq _ _)) by lia;
      by rewrite ?andb_false_r.
Qed.

Lemma op_bumps s c :
  bumps 8 (fun i s => issued s && instruction_is 0x33 i 1 (io_in_bits_code (sg_exu s))) s (mOpCount c)
    (mOpCount (opt_update (sg_exu s) c)) /\
  bumps 3 (fun i s => issued s && late_kind (sg_exu s) i) s (lateLoadAddCount c)
    (lateLoadAddCount (opt_update (sg_exu s) c)).
Proof.
  unfold opt_update, bumps, issued. cbn [mOpCount lateLoadAddCount].
  destruct (io_in_valid (sg_exu s) && io_in_ready (sg_exu s)); cbn [andb].
  2: { split; exists false, 0; (split; [lia | done]). }
  unfold opt_issue, instruction_is, late_kind. destruct (word_fields (io_in_bits_code (sg_exu s))) as (-> & -> & ->).
  cbv zeta. set (f3 := word_f3 _). assert (0 <= f3 < 8) by (apply Z.mod_pos_bound; lia). split.
  - exists ((word_op (io_in_bits_code (sg_exu s)) =? 0x33) && (word_f7 (io_in_bits_code (sg_exu s)) =? 1)), f3.
    split; [done |]. split.
    + destruct (_ && _); [| done]. by destruct (f3 =? 0).
    + intros i Hi. rewrite (Z.eqb_sym i f3). by destruct (word_op _ =? 0x33), (f3 =? i), (word_f7 _ =? 1).
  - set (a := io_in_bits_info_lateLoadRs1 _). set (b := io_in_bits_info_lateLoadRs2 _).
    exists (a || b), (if a && b then 2 else if a then 0 else 1). split; [by destruct a, b |]. split.
    + cbn [lateLoadAddCount]. match goal with |- (if _ then bump ?t _ else _) = _ => assert (t = lateLoadAddCount c) as -> end;
        [| done]. destruct (_ && _); [| done]. by destruct (f3 =? 0).
    + intros i Hi. assert (i = 0 \/ i = 1 \/ i = 2) as [-> | [-> | ->]] by lia; by destruct a, b.
Qed.

Lemma tables_step s p :
  Forall (fun x => bumps x.1.2 x.2 s (x.1.1 p) (x.1.1 (updatePerfCounters s p))) tables.
Proof.
  unfold tables. repeat (apply Forall_cons; split); try apply Forall_nil_2;
    cbn [fst snd updatePerfCounters pc_raw pc_branch pc_opt]; try apply jump_bumps; try apply op_bumps.
  - apply (bucket_bumps s _ (fun s => hActualStall (sg_raw s))).
  - apply (bucket_bumps s _ (fun s => hActualStall (sg_raw s) && hIsStallEXU (sg_raw s))).
  - apply (bucket_bumps s _ (fun s => hActualStall (sg_raw s) && hIsStallLSU (sg_raw s))).
Qed.

Lemma table_is_step {A} len (f : Z -> A -> bool) l x t b j :
  table_is len f l t -> 0 <= j < Z.of_nat len -> Z.of_nat (length l) < 2 ^ 64 - 1 ->
  (forall i, 0 <= i < Z.of_nat len -> f i x = b && (i =? j)) ->
  table_is len f (l ++ [x]) (if b : bool then bump t j else t).
Proof.
  intros [Hl Ht] Hj Hn Hf. split; [destruct b; [| done]; unfold bump; by rewrite length_aset |].
  intros i Hi. rewrite countz_snoc, (Hf i Hi), <- (Ht i Hi). destruct b; cbn [andb].
  - unfold bump. destruct (Z.eqb_spec i j) as [-> | Hne].
    + rewrite aget_aset_eq by lia. pose proof (countz_bounds (f j) l). rewrite Ht by done.
      apply inc_small. lia.
    + rewrite aget_aset_ne by lia. symmetry. apply Z.add_0_r.
  - symmetry. apply Z.add_0_r.
Qed.

Lemma histories_snoc ss s : forall h, histories h (ss ++ [s]) = histories h ss ++ [s :: rev ss ++ h].
Proof.
  induction ss as [| x ss IH]; intros h; [done |]. cbn [app histories rev]. rewrite IH. by rewrite <- app_assoc.
Qed.

Lemma length_histories ss : forall h, length (histories h ss) = length ss.
Proof. induction ss as [| s ss IH]; intros h; [done |]. cbn. by rewrite IH. Qed.

Lemma reason_cases i : 0 <= i < 7 -> i = 0 \/ i = 1 \/ i = 2 \/ i = 3 \/ i = 4 \/ i = 5 \/ i = 6.
Proof. lia. Qed.

Lemma flush_cause_reason s i : 0 <= i < 7 -> flush_cause s i = (i =? getCurReason s).
Proof.
  intros Hi. unfold flush_cause, getCurReason.
  destruct (reason_cases i Hi) as [-> | [-> | [-> | [-> | [-> | [-> | ->]]]]]];
    destruct (lateRedirectNow s), (dbgIsBranch (sg_exu s)), (dbgIsJAL (sg_exu s)), (dbgIsJALR (sg_exu s)),
      (dbgIsCSRJmp (sg_exu s)), (io_predWrong (sg_exu s)); reflexivity.
Qed.

(** The counter's registers hold the last sample and the reason of the latest redirect. *)
Definition flush_state (h : list signals) (c : flush_counter) : Prop :=
  lastCycRedirectNow c = match h with s :: _ => redirectNow s | [] => false end /\
  lastFlushReason c = match latest_redirect h with Some s => getCurReason s | None => Unknown end.

Lemma flush_state_step h s c : flush_state h c -> flush_state (s :: h) (flush_update s c).
Proof.
  intros [H1 H2]. unfold flush_state, flush_update. cbn [lastCycRedirectNow lastFlushReason latest_redirect].
  split; [done |]. rewrite H1, H2, (andb_comm (negb _)). by destruct (_ && _).
Qed.

Lemma flush_table_step ss s c :
  flush_state (rev ss) c -> Z.of_nat (length ss) < 2 ^ 64 - 1 ->
  table_is 7 flushed_by (histories [] ss) (cycFlushOfReason c) ->
  table_is 7 flushed_by (histories [] (ss ++ [s])) (cycFlushOfReason (flush_update s c)).
Proof.
  intros Hf Hn Ht. pose proof (flush_state_step _ s _ Hf) as [_ Hr]. rewrite histories_snoc, app_nil_r.
  unfold flush_update in Hr |- *. cbn [cycFlushOfReason lastFlushReason] in *. rewrite Hr.
  apply table_is_step; [done | | by rewrite length_histories |].
  - destruct (latest_redirect _); [apply (reason_range) | done].
  - intros i Hi. unfold flushed_by. f_equal. destruct (latest_redirect _); [by apply flush_cause_reason | done].
Qed.

Lemma added_step s p :
  Forall (fun x => x.1 (updatePerfCounters s p) =
    if hActualStall (sg_raw s) then u64 (x.1 p + x.2 (sg_raw s)) else x.1 p) added.
Proof. repeat (apply Forall_cons; split); by try apply Forall_nil_2. Qed.

Lemma sumz_app l l' : sumz (l ++ l') = sumz l + sumz l'.
Proof. induction l; cbn; lia. Qed.

Lemma Forall_step {A} (P Q R : A -> Prop) l : (forall x, P x -> Q x -> R x) -> Forall P l -> Forall Q l -> Forall R l.
Proof. intros H HP HQ. eapply Forall_impl; [apply Forall_and; split; [exact HP | exact HQ] |]. intros x [? ?]. by apply H. Qed.

Lemma exact_step ss s p :
  signals_ok s -> Z.of_nat (length ss) < 2 ^ 64 - 1 -> flush_state (rev ss) (pc_flush p) ->
  tallies (ss ++ [s]) (updatePerfCounters s p) -> exact ss p -> exact (ss ++ [s]) (updatePerfCounters s p).
Proof.
  intros Hs Hn Hf Ht [_ _ Hfl Had Htb Hre]. constructor; [apply Ht | apply Ht | | | |].
  - eapply Forall_step; [| exact Hfl | by apply flags_step]. intros x E1 E2. cbn beta in E1, E2 |- *.
    pose proof (countz_bounds x.2 ss). rewrite E2, E1, inc_if_small, countz_snoc by lia. done.
  - eapply Forall_step; [| exact Had | apply added_step]. intros x E1 E2. cbn beta in E1, E2 |- *.
    rewrite E2, E1, List.filter_app. cbn [List.filter]. destruct (hActualStall (sg_raw s)).
    + rewrite fmap_app, sumz_app. cbn [fmap list_fmap sumz]. rewrite wrap_add_l. f_equal. lia.
    + by rewrite app_nil_r.
  - eapply Forall_step; [| exact Htb | apply tables_step]. intros x E1 (b & j & Hj & E2 & E3). rewrite E2.
    by apply table_is_step.
  - by apply flush_table_step.
Qed.

Lemma exact_init : exact [] initPerfCounters.
Proof.
  assert (forall n A (f : Z -> A -> bool), table_is n f [] (replicate n 0)) as Hz.
  { intros n A f. split; [apply length_replicate |]. intros i Hi. unfold aget. by rewrite nth_lookup, lookup_replicate_2 by lia. }
  constructor; try done.
  - intros k c Hk. by apply list_elem_of_lookup_2, elem_of_replicate in Hk as [-> _].
  - repeat (apply Forall_cons; split); by try apply Forall_nil_2.
  - repeat (apply Forall_cons; split); by try apply Forall_nil_2.
  - repeat (apply Forall_cons; split); try apply Forall_nil_2; apply Hz.
Qed.

Lemma run_counters_exact ss : Forall signals_ok ss -> Z.of_nat (length ss) < 2 ^ 64 ->
  exact ss (run_counters ss) /\ flush_state (rev ss) (pc_flush (run_counters ss)).
Proof.
  induction ss as [| s ss IH] using rev_ind; intros Hst Hlen; [split; [apply exact_init | done] |].
  pose proof (run_counters_tallies (ss ++ [s]) ltac:(eapply Forall_impl; [exact Hst | by intros x []]) Hlen) as Ht.
  apply Forall_app in Hst as [Hst Hs]. apply Forall_cons in Hs as [Hs _].
  rewrite length_app in Hlen. cbn in Hlen. destruct (IH Hst ltac:(lia)) as [He Hf].
  unfold run_counters in *. rewrite foldl_app in *. cbn [foldl] in *. split.
  - apply exact_step; [done | lia | done | done | done].
  - rewrite rev_app_distr. by apply flush_state_step.
Qed.

(** C34. After any simulation every counter is exact: each count of a single condition is the
    number of cycles with that condition ([flags]: conflicts, stalls, flushes, cache accesses and
    hits, multiplications by operand, checksum and store operations), each entry of a break-down is
    the number of cycles of that entry ([tables]: stalls by instruction, jumps and
    mispredictions by kind, multiplications by operation, late loads by operand; flushes by the reason of the latest
    redirect), each accumulated signal is its sum, every pipeline stage's counts are its
    fired, bubble and backpressure cycles.  Hence the report is consistent: every stage
    accounts for every cycle; the flushes, the stalls and the stalls caused by the execution
    unit are the sums of their break-downs; mispredictions are at most jumps, cache hits at
    most accesses. *)
Theorem counters_consistent ss p :
  Forall signals_ok ss -> Z.of_nat (length ss) < 2 ^ 64 -> run_counters ss = p -> exact ss p /\
  Forall (fun c => stage_total c = Z.of_nat (length ss)) (pc_pipe p) /\
  sumz (cycFlushOfReason (pc_flush p)) = cycIDUFlush (pc_flush p) /\
  sumz (actualStallByOpcodeFunc3 (pc_raw p)) = cycActualStall (pc_raw p) /\
  sumz (actualEXUStallByOpcodeFunc3 (pc_raw p)) = cycActualEXUStall (pc_raw p) /\
  cycActualEXUStall (pc_raw p) <= cycActualStall (pc_raw p) /\
  cycConflictEXU (pc_raw p) <= cycAllConflictEXU (pc_raw p) /\
  sumz (totMispredictOfType (pc_branch p)) <= sumz (totCountOfType (pc_branch p)) /\
  hitCount (pc_cache p) <= totalVisitCount (pc_cache p) /\
  hitCount (pc_cache p) + missCount (pc_cache p) = totalVisitCount (pc_cache p).
Proof.
  intros Hok Hlen <-. destruct (run_counters_exact ss Hok Hlen) as [He _].
  assert (Forall (fun s => length (sg_stages s) = 4%nat) ss) as Hst
    by (eapply Forall_impl; [exact Hok | by intros x []]).
  split; [exact He |]. apply tallies_consistent; [done | done |]. by apply run_counters_tallies.
Qed.

(** ** The AXI4 counters measure transactions *)

(** A cycle as a counter samples it: the request (arvalid, awvalid), and valid and ready of the
    response (rvalid and rready, bvalid and bready). *)
Definition sample : Type := bool * bool * bool.

(** A cycle without the response's handshake. *)
Inductive pending := NoResponse (ready : bool) | NotReady.
Definition pending_sample (x : bool * pending) : sample :=
  match x.2 with NoResponse ready => (x.1, false, ready) | NotReady => (x.1, true, false) end.

(** A transaction as the bus shows it: cycles without a request, the cycle of the request,
    cycles that wait for the response, the cycle of its handshake.  The response signals
    while no transaction is open and the request signal while one is open are arbitrary. *)
Record transaction := Trans {
  tr_idle : list (bool * bool); tr_first : bool * bool; tr_wait : list (bool * pending); tr_last_request : bool }.
Definition latency (t : transaction) : Z := Z.of_nat (length (tr_wait t)) + 1.

Definition samples (t : transaction) : list sample :=
  ((fun x => (false, x.1, x.2)) <$> tr_idle t) ++ [(true, (tr_first t).1, (tr_first t).2)] ++
  (pending_sample <$> tr_wait t) ++ [(tr_last_request t, true, true)].

(** One update per sample, the time advancing. *)
Definition axi_step (upd : Z -> bool -> bool -> bool -> Axi.counter -> Axi.counter) (st : Z * Axi.counter) (x : sample) :
    Z * Axi.counter :=
  let '(request, valid, ready) := x in (st.1 + 1, upd st.1 request valid ready st.2).
Definition axi_run (upd : Z -> bool -> bool -> bool -> Axi.counter -> Axi.counter) (now : Z) (l : list sample)
    (c : Axi.counter) : Axi.counter := snd (foldl (axi_step upd) (now, c) l).

(** What a counter reports after the transactions [ts], [old] being what the record of the
    longest one held at the start. *)
Definition counted (ts : list transaction) (old : Axi.LatencyRecord) (c : Axi.counter) : Prop :=
  Axi.state c = Axi.IDLE /\ Axi.transaction_count c = Z.of_nat (length ts) /\
  Axi.total_latency_cycles c = sumz (latency <$> ts) /\
  Axi.cycles (Axi.maxRecord c) = foldr Z.max (Axi.cycles old) (latency <$> ts).

Section axi.

Lemma axi_run_app upd now l l' c :
  axi_run upd now (l ++ l') c = axi_run upd (now + Z.of_nat (length l)) l' (axi_run upd now l c).
Proof.
  unfold axi_run. rewrite foldl_app.
  assert (forall l now c, fst (foldl (axi_step upd) (now, c) l) = now + Z.of_nat (length l)) as Hf.
  { clear. intros l. induction l as [| [[q v] r] l IH]; intros now c; cbn [foldl axi_step fst snd length]; [lia |].
    rewrite IH. lia. }
  specialize (Hf l now c). destruct (foldl _ (now, c) l) as [t c']. cbn in *. by subst t.
Qed.

Lemma axi_idle ds : forall now c, Axi.state c = Axi.IDLE -> axi_run Axi.read_update now ((fun x => (false, x.1, x.2)) <$> ds) c = c.
Proof.
  induction ds as [| d ds IH]; intros now c Hc; [done |]. cbn [fmap list_fmap].
  change (((false, d.1, d.2) :: ?l)) with ([(false, d.1, d.2)] ++ l). rewrite axi_run_app.
  assert (axi_run Axi.read_update now [(false, d.1, d.2)] c = c) as -> by (unfold axi_run, Axi.read_update; cbn; by rewrite Hc).
  by apply IH.
Qed.

(** While a transaction waits only the cycles of the current record grow. *)
Lemma axi_wait rs : forall now n tot cur mx,
  0 <= Axi.cycles cur -> Axi.cycles cur + Z.of_nat (length rs) < 2 ^ 64 ->
  axi_run Axi.read_update now (pending_sample <$> rs) (Axi.Counter n tot cur mx Axi.WAIT) =
  Axi.Counter n tot
    (Axi.Latency (Axi.startTime cur) (Axi.endTime cur) (Axi.cycles cur + Z.of_nat (length rs))) mx Axi.WAIT.
Proof.
  induction rs as [| [q x] rs IH]; intros now n tot cur mx H0 Hb.
  { cbn. rewrite Z.add_0_r. by destruct cur. }
  cbn [fmap list_fmap]. change (pending_sample (q, x) :: ?l) with ([pending_sample (q, x)] ++ l). rewrite axi_run_app.
  cbn [length] in Hb.
  assert (axi_run Axi.read_update now [pending_sample (q, x)] (Axi.Counter n tot cur mx Axi.WAIT) =
    Axi.Counter n tot (Axi.Latency (Axi.startTime cur) (Axi.endTime cur) (Axi.cycles cur + 1)) mx Axi.WAIT) as ->.
  { unfold axi_run. destruct x as [[] |]; cbn; by rewrite inc_small by lia. }
  rewrite IH by (cbn; lia). cbn [Axi.startTime Axi.endTime Axi.cycles length]. do 2 f_equal. lia.
Qed.

Lemma max_snoc old l x : foldr Z.max old (l ++ [x]) = Z.max (foldr Z.max old l) x.
Proof. induction l as [| y l IH]; cbn; lia. Qed.

Lemma latencies_pos ts : 0 <= sumz (latency <$> ts) /\ Z.of_nat (length ts) <= sumz (latency <$> ts).
Proof.
  induction ts as [| t ts IH]; cbn [fmap list_fmap sumz length]; [cbn; lia |].
  assert (1 <= latency t) by (unfold latency; lia). lia.
Qed.

(** One transaction on a counter that is idle. *)
Lemma axi_transaction now t n tot cur mx :
  0 <= n < 2 ^ 64 - 1 -> 0 <= tot -> tot + latency t < 2 ^ 64 ->
  exists cur', Axi.cycles cur' = latency t /\
  axi_run Axi.read_update now (samples t) (Axi.Counter n tot cur mx Axi.IDLE) =
  Axi.Counter (n + 1) (tot + latency t) cur' (if Axi.cycles mx <? latency t then cur' else mx) Axi.IDLE.
Proof.
  intros Hn Ht Hb. assert (latency t = Z.of_nat (length (tr_wait t)) + 1) as Hlat by done.
  unfold samples. rewrite !axi_run_app, axi_idle by done.
  match goal with |- context [axi_run Axi.read_update ?a [(true, ?d, ?e)] ?c] =>
    assert (axi_run Axi.read_update a [(true, d, e)] c = Axi.Counter (n + 1) tot (Axi.Latency a (Axi.endTime cur) 0) mx Axi.WAIT) as ->
      by (unfold axi_run; cbn; by rewrite inc_small by lia) end.
  rewrite axi_wait by (cbn; lia). cbn [Axi.startTime Axi.endTime Axi.cycles].
  unfold axi_run. cbn [foldl snd fst axi_step]. unfold Axi.read_update.
  cbn [Axi.state Axi.currentRecord Axi.cycles Axi.startTime Axi.endTime Axi.total_latency_cycles Axi.maxRecord
       Axi.transaction_count andb].
  rewrite inc_small by lia. rewrite wrap_small by (unfold in_range; lia).
  replace (0 + Z.of_nat (length (tr_wait t)) + 1) with (latency t) by lia.
  eexists. split; [| done]. done.
Qed.

Lemma axi_read_exact now ts cur mx :
  sumz (latency <$> ts) < 2 ^ 64 ->
  counted ts mx (axi_run Axi.read_update now (mjoin (samples <$> ts)) (Axi.new_counter cur mx)).
Proof.
  revert now. induction ts as [| t ts IH] using rev_ind; intros now Hs; [done |].
  rewrite fmap_app, sumz_app in Hs. cbn in Hs. pose proof (latencies_pos ts) as [Hp Hn].
  assert (1 <= latency t) as Ht by (unfold latency; lia).
  rewrite fmap_app, join_app. cbn [fmap list_fmap mjoin list_join]. rewrite app_nil_r, axi_run_app.
  specialize (IH now ltac:(lia)). destruct IH as (H1 & H2 & H3 & H4).
  set (now' := now + _). set (c := axi_run Axi.read_update now _ _) in *. destruct c as [n tot cur0 mx0 st]. cbn in H1, H2, H3, H4. subst st n tot.
  destruct (axi_transaction now' t (Z.of_nat (length ts)) (sumz (latency <$> ts)) cur0 mx0) as (cur' & Ec & ->); [lia.. |].
  unfold counted. cbn [Axi.state Axi.transaction_count Axi.total_latency_cycles Axi.maxRecord].
  rewrite length_app, fmap_app, sumz_app. cbn [fmap list_fmap sumz length].
  rewrite max_snoc, <- H4. split_and!; [done | lia | lia |].
  destruct (Z.ltb_spec (Axi.cycles mx0) (latency t)); lia.
Qed.

Lemma axi_run_ext upd upd' now l c :
  (forall t q v r c, upd t q v r c = upd' t q v r c) -> axi_run upd now l c = axi_run upd' now l c.
Proof.
  intros H. unfold axi_run. f_equal. revert now c.
  induction l as [| [[q v] r] l IH]; intros now c; [done |]. cbn [foldl axi_step fst snd]. by rewrite H, IH.
Qed.
End axi.

(** C35. The read counter and the write counter measure every transaction from the cycle of
    its request (arvalid, awvalid) to the handshake of its response (rvalid and rready,
    bvalid and bready): after any sequence of transactions they report their number and the
    sum of their latencies, and the record of the longest one holds the maximum of the
    latencies and of what it held when the counter was created (it has no initialiser). *)
Theorem axi_counter_exact now ts cur mx :
  sumz (latency <$> ts) < 2 ^ 64 ->
  counted ts mx (axi_run Axi.read_update now (mjoin (samples <$> ts)) (Axi.new_counter cur mx)) /\
  counted ts mx (axi_run Axi.write_update now (mjoin (samples <$> ts)) (Axi.new_counter cur mx)).
Proof.
  intros Hs. split; [by apply axi_read_exact |].
  rewrite (axi_run_ext Axi.write_update Axi.read_update) by done. by apply axi_read_exact.
Qed.

(** ** Witnesses *)

Definition quiet_exu : exu_signals :=
  ExuSig true true 0x02000033 6 7 false false true true true false false false true false 0.
Definition quiet_raw : raw_signals :=
  RawSig true true false false true false false true false false true false false true true 1 0 0 0x13.
Definition sample_cycle : signals :=
  Signals (replicate 4 (StageSig true true)) quiet_exu quiet_raw true true false.

Lemma counters_consistent_witness :
  let p := run_counters [sample_cycle; sample_cycle] in
  sumz (cycFlushOfReason (pc_flush p)) = 2 /\ hitCount (pc_cache p) = 2 /\
  hitCount (pc_cache p) <= totalVisitCount (pc_cache p) /\
  table_is 7 flushed_by (histories [] [sample_cycle; sample_cycle]) (cycFlushOfReason (pc_flush p)).
Proof.
  destruct (counters_consistent [sample_cycle; sample_cycle] _
    ltac:(repeat (constructor || (cbn; lia))) ltac:(cbn; lia) eq_refl) as (He & _ & Hf & _ & _ & _ & _ & _ & Hh & _).
  cbv zeta. rewrite Hf. split; [vm_compute; reflexivity |]. split; [vm_compute; reflexivity |].
  split; [exact Hh | exact (ex_reasons _ _ He)].
Defined.

Lemma axi_counter_exact_witness :
  let ts := [Trans [(true, true)] (false, true) [(true, NoResponse true); (false, NotReady)] true;
             Trans [] (true, true) [] false] in
  let junk := Axi.Latency 5 6 2 in
  counted ts junk (axi_run Axi.read_update 7 (mjoin (samples <$> ts)) (Axi.new_counter junk junk)) /\
  counted ts junk (axi_run Axi.write_update 7 (mjoin (samples <$> ts)) (Axi.new_counter junk junk)).
Proof. apply axi_counter_exact. vm_compute. reflexivity. Defined.
