(* ===== verification/NpcSim.v ===== *)
(** * NpcSim: the driver of the RTL simulation (npc/sim)

    sim.cpp steps the Verilated processor by clock cycles until an instruction has been
    committed; sdbWrap.cpp puts the debugger on top of it (an instance of [Target]) and runs it
    in batch mode or interactively.

    The Verilated model is generated by the build and a parameter: [dut_eval] evaluates it for
    a value of clock and reset and gives the calls it makes to the simulator; the functions of the
    memories (SocMem) are called inside.  [sample] are the signals the performance counters
    are bound to. *)
From S2P Require Import Prelude SocMem SimCounters Tracers Expr Debugger.

(** The calls of the model that concern sim.cpp and the board. *)
Inductive dpi :=
  | GprUpd (regno data : Z)
  | PcUpd (pc npc : Z)
  | RaiseEbreak
  | SkipDifftestRef
  | UartPutch (ch : Z)
  | UpdateLed (leds : Z)
  | UpdateSeg (segs : Z).

Class Verilated (dut : Type) := {
  dut_eval : bool -> bool -> dut -> store -> res (dut * store * list dpi);
  sample : dut -> signals
}.

Section sim.
Context {dut : Type} `{!Verilated dut}.

(** The globals of sim.cpp, the memories and the board. *)
Record sim := Sim {
  s_dut : dut;
  s_store : store;
  sim_time : Z;
  cycle_count : Z;
  inst_count : Z;
  cpu_pc : Z;
  cpu_gpr : list Z;
  is_running : bool;
  is_good_trap : bool;
  pc_changed : bool;
  dut_reset : bool;
  board : Jyd.jyd_state;
  console : list Z;
  perf : perf_counters
}.
Implicit Types s : sim.

Definition upd_dut (x : dut) (st : store) s :=
  Sim x st (sim_time s) (cycle_count s) (inst_count s) (cpu_pc s) (cpu_gpr s) (is_running s)
    (is_good_trap s) (pc_changed s) (dut_reset s) (board s) (console s) (perf s).
Definition upd_counts (t c i : Z) s :=
  Sim (s_dut s) (s_store s) t c i (cpu_pc s) (cpu_gpr s) (is_running s)
    (is_good_trap s) (pc_changed s) (dut_reset s) (board s) (console s) (perf s).
Definition upd_cpu (p : Z) (g : list Z) (ch : bool) s :=
  Sim (s_dut s) (s_store s) (sim_time s) (cycle_count s) (inst_count s) p g (is_running s)
    (is_good_trap s) ch (dut_reset s) (board s) (console s) (perf s).
Definition upd_halt (r g : bool) s :=
  Sim (s_dut s) (s_store s) (sim_time s) (cycle_count s) (inst_count s) (cpu_pc s) (cpu_gpr s) r
    g (pc_changed s) (dut_reset s) (board s) (console s) (perf s).
Definition upd_board (b : Jyd.jyd_state) (c : list Z) s :=
  Sim (s_dut s) (s_store s) (sim_time s) (cycle_count s) (inst_count s) (cpu_pc s) (cpu_gpr s)
    (is_running s) (is_good_trap s) (pc_changed s) (dut_reset s) b c (perf s).
Definition upd_reset (r : bool) s :=
  Sim (s_dut s) (s_store s) (sim_time s) (cycle_count s) (inst_count s) (cpu_pc s) (cpu_gpr s)
    (is_running s) (is_good_trap s) (pc_changed s) r (board s) (console s) (perf s).
Definition upd_perf (p : perf_counters) s :=
  Sim (s_dut s) (s_store s) (sim_time s) (cycle_count s) (inst_count s) (cpu_pc s) (cpu_gpr s)
    (is_running s) (is_good_trap s) (pc_changed s) (dut_reset s) (board s) (console s) p.

Definition sim_halted s : bool := negb (is_running s).

(** ** The calls of the model *)

(** A [char] index outside the array is undefined; the value is stored as a word. *)
Definition gpr_upd (regno data : Z) s : res sim :=
  if regno =? 0 then Ok s
  else if (0 <=? regno) && (regno <? 32)
  then Ok (upd_cpu (cpu_pc s) (aset (cpu_gpr s) regno (u32 data)) (pc_changed s) s)
  else Fault FUndef.

Definition pc_upd (npc : Z) s : sim := upd_cpu (u32 npc) (cpu_gpr s) true s.

(** The halt callback is set (sdb_mainloop, gdb_mainloop). *)
Definition raise_ebreak s : sim * list callback :=
  let a0 := s32 (aget 0 (cpu_gpr s) 10) in
  (upd_halt false (a0 =? 0) s, [CbHalt a0]).

Definition dpi_call (c : dpi) s : res (sim * list callback) :=
  match c with
  | GprUpd r v => s ← gpr_upd r v s; Ok (s, [])
  | PcUpd _ npc => Ok (pc_upd npc s, [])
  | RaiseEbreak => Ok (raise_ebreak s)
  | SkipDifftestRef => Ok (s, [CbSkip])
  | UartPutch ch => Ok (upd_board (board s) (console s ++ [ch]) s, [CbSkip])
  | UpdateLed v => Ok (upd_board (Jyd.jyd_update_led v (board s)) (console s) s, [])
  | UpdateSeg v => Ok (upd_board (Jyd.jyd_update_seg v (board s)) (console s) s, [])
  end.

Fixpoint dpi_calls (l : list dpi) s : res (sim * list callback) :=
  match l with
  | [] => Ok (s, [])
  | c :: l =>
      '(s, cb) ← dpi_call c s;
      '(s, cbs) ← dpi_calls l s;
      Ok (s, cb ++ cbs)
  end.

(** ** Cycles and instructions *)

Definition sim_eval (clock : bool) s : res (sim * list callback) :=
  '(x, st, calls) ← dut_eval clock (dut_reset s) (s_dut s) (s_store s);
  '(s, cbs) ← dpi_calls calls (upd_dut x st s);
  Ok (upd_counts (u64 (sim_time s + 1)) (cycle_count s) (inst_count s) s, cbs).

Definition sim_step_cycle s : res (sim * list callback) :=
  '(s, cb1) ← sim_eval true s;
  '(s, cb2) ← sim_eval false s;
  let s := upd_counts (sim_time s) (u64 (cycle_count s + 1)) (inst_count s) s in
  let s := if dut_reset s then s else upd_perf (updatePerfCounters (sample (s_dut s)) (perf s)) s in
  Ok (s, cb1 ++ cb2).

Fixpoint reset_loop (n : nat) s : res sim :=
  match n with O => Ok s | S n => '(s, _) ← sim_step_cycle s; reset_loop n s end.

(** The halt callback is not set yet during reset; the model raises no call then. *)
Definition sim_reset (n : nat) s : res sim :=
  s ← reset_loop n (upd_reset true s);
  Ok (upd_reset false s).

Definition MAYBE_DEADLOOP_THRESHOLD : Z := 8192 * 2.

(** The loop of sim_step_inst: [k] cycles are left before it gives up with exit(1).  The
    answer says whether the processor halted. *)
Fixpoint wait_pc (k : nat) s : res (bool * sim * list callback) :=
  if pc_changed s then Ok (false, s, [])
  else
    match k with
    | O => Fault FPanic
    | S k =>
        '(s, cb) ← sim_step_cycle s;
        if sim_halted s then
          Ok (true, upd_counts (sim_time s) (cycle_count s) (u64 (inst_count s + 1))
                      (upd_cpu (u32 (cpu_pc s + 4)) (cpu_gpr s) (pc_changed s) s), cb)
        else
          match k with
          | O => Fault FPanic
          | _ => '(h, s, cbs) ← wait_pc k s; Ok (h, s, cb ++ cbs)
          end
    end.

Definition sim_step_inst s : res (sim * list callback) :=
  '(halted, s, cbs) ← wait_pc (Z.to_nat MAYBE_DEADLOOP_THRESHOLD) s;
  if (halted : bool) then Ok (s, cbs)
  else Ok (upd_counts (sim_time s) (cycle_count s) (u64 (inst_count s + 1))
             (upd_cpu (cpu_pc s) (cpu_gpr s) false s), cbs).

(** ** The debugger's functions (sdbWrap.cpp) *)

Fixpoint cpu_exec_loop (n : nat) s : res (sim * list callback) :=
  match n with
  | O => Ok (s, [])
  | S n =>
      '(s, cb) ← sim_step_inst s;
      if sim_halted s then Ok (s, cb)
      else '(s, cbs) ← cpu_exec_loop n s; Ok (s, cb ++ cbs)
  end.
Definition cpu_exec (n : Z) s : res (sim * Z * list callback) :=
  '(s, cbs) ← cpu_exec_loop (Z.to_nat n) s; Ok (s, cpu_pc s, cbs).

Definition word_bytes (w : Z) : list Z := (fun k => byte_of w k) <$> [0; 1; 2; 3].

(** The word of an address without memory is not initialised. *)
Definition inst_fetcher (rs : list Guest.mem_region) s (pc : Z) : res (list Z) :=
  w ← Guest.read_guest_mem rs pc (s_store s);
  match w with Some w => Ok (word_bytes w) | None => Fault FUndef end.

Fixpoint bytes_from (st : store) (c : nat) (off : Z) (n : nat) : res (list Z) :=
  match n with
  | O => Ok []
  | S n => b ← byte_at st c off; l ← bytes_from st c (off + 1) n; Ok (b :: l)
  end.

(** [n] bytes behind the pointer; a null pointer may not be read. *)
Definition loadmem (rs : list Guest.mem_region) s (addr n : Z) : res (list Z) :=
  p ← Guest.mem_guest_to_host rs addr;
  match p with Some (c, off) => bytes_from (s_store s) c off (Z.to_nat n) | None => Fault FUndef end.

(** The regions of the system the simulation is built for. *)
Context (rs : list Guest.mem_region).

#[export] Instance sim_target : Target sim := {|
  t_exec := cpu_exec;
  t_regs := cpu_gpr;
  t_fp := None;
  t_fetch := inst_fetcher rs;
  t_loadmem := loadmem rs;
  t_names := bytes <$> Expr.regs
|}.

(** ** Initialisation and main loop *)

(** The settings sdb_init looks at. [ftrace_funcs] is the function table of the program when
    function tracing is on and its ELF file was found. *)
Record sim_setting := Setting {
  max_instructions : Z; en_inst_trace : bool; showdisasm : bool; always_showdisasm : bool;
  ftrace_funcs : option (list func); iringbuf : Z; etrace : bool; difftest : bool }.

Context {R : Type} `{!Reference R}.
Context (regex_search : String.string -> list Z -> option Z).
Implicit Types d : debuger sim R.

Definition add_if (b : bool) (k : kind sim R) d : res (debuger sim R) :=
  if b then add_trace regex_search k d else Ok d.

Definition halt_code s : Z := if Jyd.jyd_is_good_trap (board s) then 0 else 1.

(** The further regions are copied to the reference of handler [i]. *)
Fixpoint copy_spans (i : nat) (spans : list (Z * Z)) d : res (debuger sim R) :=
  match spans with
  | [] => Ok d
  | (base, size) :: spans =>
      data ← loadmem rs (target d) base size;
      match handlers d !! i with
      | Some (Handler q (HDifftest skip r)) =>
          r ← ref_memcpy base data r;
          copy_spans i spans (with_handlers (<[i := Handler q (HDifftest skip r)]> (handlers d)) d)
      | _ => Fault FUndef
      end
  end.

(** diff_handler is set before the handler is added; [ref] is what loading the library
    gives, nothing when it throws. *)
Definition add_difftest (ref : option R) (spans : list (Z * Z)) d : res (debuger sim R) :=
  match ref with
  | None => Ok d
  | Some r =>
      let i := length (handlers d) in
      d ← add_trace regex_search (HDifftest false r) (with_diff (Some i) d);
      copy_spans i spans d
  end.

Definition sdb_init (set : sim_setting) (init_pc img_size : Z) (ref : option R)
    (spans : list (Z * Z)) s : res (debuger sim R) :=
  let d := new_debuger init_pc init_pc img_size (en_inst_trace set) s in
  if en_inst_trace set then
    d ← add_if (showdisasm set) (HDisasm (if always_showdisasm set then 2 ^ 64 - 1 else 16)) d;
    d ← add_if (etrace set) HEtrace d;
    d ← add_if (0 <? iringbuf set) (HIringbuf (iringbuf set) []) d;
    d ← match ftrace_funcs set with
        | Some f => add_trace regex_search (HFtrace f 0) d
        | None => Ok d
        end;
    d ← add_trace regex_search (HSelfLoop (Some halt_code)) d;
    if difftest set then add_difftest ref spans d else Ok d
  else Ok d.

(** sdb_mainloop in batch mode: the debugger and the answer.  [fuel] bounds the instructions. *)
Definition sdb_batch (fuel : nat) (set : sim_setting) d : res (debuger sim R * Z) :=
  if max_instructions set =? 0 then
    d ← cmd_c regex_search fuel d;
    Ok (d, b2z (is_badexit (dstate d)))
  else
    d ← cmd_si regex_search fuel (max_instructions set) d;
    if negb (sim_halted (target d)) && (inst_count (target d) =? max_instructions set)
    then Ok (d, 0)
    else Ok (d, b2z (is_badexit (dstate d))).

(** sdb_mainloop in interactive mode, on the lines of the terminal.  The line [sc] steps one
    cycle; a line that starts with [ps] adds a signal probe, which only prints.  2 is the answer
    at the end of the input. *)
Fixpoint sdb_interactive (fuel : nat) (lines : list (list Z)) d : res (debuger sim R * Z) :=
  if sim_halted (target d) || bool_decide (run (dstate d) = quit)
  then Ok (d, b2z (is_badexit (dstate d)))
  else
    match lines with
    | [] => Ok (d, 2)
    | line :: lines =>
        if is_name line "sc" then
          '(s, cbs) ← sim_step_cycle (target d);
          sdb_interactive fuel lines (foldl apply_callback (with_target s d) cbs)
        else if (3 <? Z.of_nat (length line)) && is_name (take 2 line) "ps"
        then sdb_interactive fuel lines d
        else d ← exec_command regex_search fuel line d; sdb_interactive fuel lines d
    end.

End sim.
Arguments sim : clear implicits.
