(* ===== verification/CoSim.v ===== *)
(** * CoSim: the RTL simulation checked against the emulator

    nemu/src/cpu/difftest/ref.c makes the emulator a [Reference]; together with the processor of
    NpcSim as [Target] and the theorem of DiffTest this gives the guarantee the project's test flow
    relies on: an RTL simulation that the differential test does not abort has shown, after
    every instruction, the registers and the pc of the emulator. *)
From S2P Require Import Prelude Memory Cpu SocMem SimCounters Tracers Expr Debugger DiffTest NpcSim.

(** ** The emulator as reference (ref.c) *)
Section nemu_ref.
Context (cfg : config) (enc : encoding) {D : Type} `{!MmioBus D} `{!DevicePoll D}.
Context (execute_instruction : Z -> Z -> machine D -> res (Z * Z * machine D)).
Implicit Types m : machine D.

(** memcpy to the host address of a guest address. *)
Fixpoint copy_to_host (data : list Z) (haddr : region * Z) (mem : memory) : res memory :=
  match data with
  | [] => Ok mem
  | b :: data => mem ← host_write cfg mem haddr 1 b; copy_to_host data (haddr.1, haddr.2 + 1) mem
  end.

Definition difftest_memcpy (addr : Z) (buf : list Z) m : res (machine D) :=
  match guest_to_host cfg addr with
  | None => Fault FUndef
  | Some h => mem ← copy_to_host buf h (guest m).1; Ok (set_guest (mem, (guest m).2) m)
  end.

(** DIFFTEST_REG_SIZE: 32 registers and the pc, which follows them in CPU_state. *)
Definition regcpy_to_dut m : list Z :=
  ((fun i => nth i (gpr (cpu m)) 0) <$> seq 0 32) ++ [pc (cpu m)].
Definition regcpy_to_ref (regs : list Z) m : machine D :=
  set_cpu (CpuState (take 32 regs) (nth 32 regs 0) (fpr (cpu m)) (fcsr (cpu m))) m.

Definition fp_regcpy_to_dut m : riscv_fp_state := FpState (fpr (cpu m)) (fcsr (cpu m)).
Definition fp_regcpy_to_ref (f : riscv_fp_state) m : machine D :=
  set_cpu (CpuState (gpr (cpu m)) (pc (cpu m)) (fp_fpr f) (fp_fcsr f &&& 0xff)) m.

Definition difftest_exec (n : nat) m : res (machine D) := Cpu.cpu_exec cfg enc execute_instruction n m.

#[export] Instance nemu_reference : Reference (machine D) := {|
  ref_exec := difftest_exec 1;
  ref_memcpy := difftest_memcpy;
  ref_set := regcpy_to_ref;
  ref_get := regcpy_to_dut;
  ref_fp := Some (fp_regcpy_to_dut, fp_regcpy_to_ref)
|}.
End nemu_ref.

(** ** The registers of the simulated processor *)
Section registers.
Context {dut : Type} `{!Verilated dut}.
Implicit Types s : sim dut.

Definition n_regs s : nat := length (cpu_gpr s).

Lemma dpi_calls_regs l : forall s s' cbs, dpi_calls l s = Ok (s', cbs) -> n_regs s' = n_regs s.
Proof.
  induction l as [| c l IH]; intros s s' cbs H; cbn in H; [by injection H as <- _ |].
  destruct (dpi_call c s) as [[s1 cb] |] eqn:E; [| done]. cbn [mbind res_bind] in H.
  destruct (dpi_calls l s1) as [[s2 cbs2] |] eqn:E2; [| done]. cbn [mbind res_bind] in H.
  injection H as <- _. rewrite (IH _ _ _ E2).
  destruct c; cbn in E; try by injection E as <- _.
  unfold gpr_upd in E. destruct (_ =? 0); [by injection E as <- _ |].
  destruct (_ && _); [| done]. injection E as <- _. unfold n_regs. cbn. apply length_aset.
Qed.

Lemma sim_eval_regs c s s' cbs : sim_eval c s = Ok (s', cbs) -> n_regs s' = n_regs s.
Proof.
  unfold sim_eval. destruct (dut_eval _ _ _ _) as [[[x st] calls] |]; [| done]. cbn [mbind res_bind].
  destruct (dpi_calls calls _) as [[s1 cb] |] eqn:E; [| done]. cbn [mbind res_bind].
  intros [= <- _]. apply dpi_calls_regs in E. exact E.
Qed.

Lemma sim_step_cycle_regs s s' cbs : sim_step_cycle s = Ok (s', cbs) -> n_regs s' = n_regs s.
Proof.
  unfold sim_step_cycle. destruct (sim_eval true s) as [[s1 c1] |] eqn:E1; [| done].
  cbn [mbind res_bind]. destruct (sim_eval false s1) as [[s2 c2] |] eqn:E2; [| done].
  cbn [mbind res_bind]. intros [= <- _]. apply sim_eval_regs in E1, E2. rewrite <- E1, <- E2.
  unfold n_regs. by destruct (dut_reset _).
Qed.

Lemma wait_pc_regs k : forall s h s' cbs, wait_pc k s = Ok (h, s', cbs) -> n_regs s' = n_regs s.
Proof.
  induction k as [| k IH]; intros s h s' cbs H; cbn in H.
  { destruct (pc_changed s); [by injection H as <- <- _ | done]. }
  destruct (pc_changed s); [by injection H as <- <- _ |].
  destruct (sim_step_cycle s) as [[s1 cb] |] eqn:E; [| done]. cbn [mbind res_bind] in H.
  apply sim_step_cycle_regs in E. rewrite <- E.
  destruct (sim_halted s1); [by injection H as <- <- _ |].
  destruct k as [| k]; [done |].
  destruct (wait_pc (S k) s1) as [[[h2 s2] cb2] |] eqn:E2; [| done]. cbn [mbind res_bind] in H.
  injection H as <- <- _. by eapply IH.
Qed.

Lemma sim_step_inst_regs s s' cbs : sim_step_inst s = Ok (s', cbs) -> n_regs s' = n_regs s.
Proof.
  unfold sim_step_inst. destruct (wait_pc _ s) as [[[h s1] cb] |] eqn:E; [| done].
  cbn [mbind res_bind]. apply wait_pc_regs in E. rewrite <- E.
  destruct h; by intros [= <- _].
Qed.

#[local] Opaque sim_step_inst.
Lemma cpu_exec_loop_regs k : forall s s' cbs, cpu_exec_loop k s = Ok (s', cbs) -> n_regs s' = n_regs s.
Proof.
  induction k as [| k IH]; intros s s' cbs E; cbn [cpu_exec_loop] in E; [by injection E as <- _ |].
  destruct (sim_step_inst s) as [[s2 c2] |] eqn:E2; [| done]. cbn [mbind res_bind] in E.
  apply sim_step_inst_regs in E2. rewrite <- E2.
  destruct (sim_halted s2); [by injection E as <- _ |].
  destruct (cpu_exec_loop k s2) as [[s3 c3] |] eqn:E3; [| done]. cbn [mbind res_bind] in E.
  injection E as <- _. by eapply IH.
Qed.

Lemma cpu_exec_regs n s s' p cbs : cpu_exec n s = Ok (s', p, cbs) -> n_regs s' = n_regs s.
Proof.
  unfold cpu_exec. destruct (cpu_exec_loop _ s) as [[s1 cb] |] eqn:E; [| done]. cbn [mbind res_bind].
  intros [= <- _ _]. by eapply cpu_exec_loop_regs.
Qed.
End registers.

(** ** The composition *)
Section cosim.
Context (cfg : config) (enc : encoding) {D : Type} `{!MmioBus D} `{!DevicePoll D}.
Context (execute_instruction : Z -> Z -> machine D -> res (Z * Z * machine D)).
Context {dut : Type} `{!Verilated dut} (rs : list Guest.mem_region).
Context (regex_search : String.string -> list Z -> option Z).
#[local] Existing Instance sim_target.
#[local] Opaque sim_step_inst NpcSim.cpu_exec.
Abbreviation R := (machine D).
#[local] Instance ref_instance : Reference R := nemu_reference cfg enc execute_instruction.
#[local] Instance target_instance : Target (sim dut) := sim_target rs.
Implicit Types (s : sim dut) (m : R) (d : debuger (sim dut) R).

(** The emulator shows the registers of the processor and the pc [p]. *)
Definition shows m s (p : Z) : Prop := regcpy_to_dut m = cpu_gpr s ++ [p].

Lemma length_regcpy m : length (regcpy_to_dut m) = 33%nat.
Proof. unfold regcpy_to_dut. by rewrite length_app, length_fmap, length_seq. Qed.

Lemma shows_set m l p : length l = 32%nat -> regcpy_to_dut (regcpy_to_ref (l ++ [p]) m) = l ++ [p].
Proof.
  intros Hl. unfold regcpy_to_dut, regcpy_to_ref. cbn [cpu set_cpu gpr pc].
  f_equal.
  - rewrite take_app_length' by done. apply list_eq. intros i. rewrite list_lookup_fmap.
    destruct (decide (i < 32)%nat) as [Hi | Hi].
    + rewrite lookup_seq_lt by done. cbn.
      destruct (lookup_lt_is_Some_2 l i ltac:(lia)) as [v Hv].
      by rewrite Hv, (nth_lookup_Some _ _ _ _ Hv).
    + rewrite lookup_seq_ge by lia. cbn. symmetry. apply lookup_ge_None. lia.
  - f_equal. rewrite app_nth2 by lia. by rewrite Hl.
Qed.

Lemma agrees_shows m s p : n_regs s = 32%nat -> agrees s p m <-> shows m s p.
Proof.
  intros Hn. unfold agrees, shows. cbn [t_fp target_instance sim_target t_regs ref_get ref_instance nemu_reference].
  unfold n_regs in Hn. rewrite Hn. split.
  - intros [H _]. apply (list_eq_same_length _ _ 33); [by rewrite length_app, Hn | by rewrite length_regcpy |].
    intros i x y Hi Hx Hy. specialize (H i ltac:(lia)).
    by rewrite (nth_lookup_Some _ _ _ _ Hx), (nth_lookup_Some _ _ _ _ Hy) in H.
  - intros ->. done.
Qed.

Lemma lockstep_shows x k y : lockstep x k y -> n_regs x.1.1 = 32%nat ->
  n_regs y.1.1 = 32%nat /\ (shows x.2 x.1.1 x.1.2 -> shows y.2 y.1.1 y.1.2).
Proof.
  induction 1 as [x | x k s p m s' p' cbs m' Hl IH He Hc]; intros Hn; [done |].
  destruct (IH Hn) as [Hn' _]. cbn in Hn' |- *. cbn in He. apply cpu_exec_regs in He.
  split; [by rewrite He |]. intros _. unfold co_step in Hc. destruct (skips cbs).
  - subst m'. unfold copied. cbn. unfold shows. apply shows_set. unfold n_regs in *. congruence.
  - destruct Hc as [_ Ha]. apply agrees_shows; [congruence | done].
Qed.

(** ** Initialisation *)

(** A debugger under construction: at its first pc, with other handlers only. *)
Definition building s (p : Z) d : Prop :=
  target d = s /\ dpc (dstate d) = p /\ reg_snap d = cpu_gpr s /\ enable_inst_trace d = true /\
  run (dstate d) = running /\ Forall (fun h => is_diff h = false) (handlers d).

Lemma add_trace_building k d d' s p : building s p d ->
  match k with HDifftest _ _ => False | _ => True end ->
  add_trace regex_search k d = Ok d' -> building s p d'.
Proof.
  intros (H1 & H2 & H3 & H4 & H5 & H6) Hk H. unfold add_trace in H.
  destruct (t_loadmem _ _ _) as [img |]; [| done]. cbn [mbind res_bind] in H.
  destruct (make_trace_ctx _) as [ctx |]; [| done]. cbn [mbind res_bind] in H.
  destruct (handler_init _ _ _ _ _) as [h |] eqn:E; [| done]. cbn [mbind res_bind] in H.
  injection H as <-. split_and!; try done. cbn. rewrite length_app. cbn.
  replace (length (handlers d) + 1 - 1)%nat with (length (handlers d) + 0)%nat by lia.
  rewrite insert_app_r. apply Forall_app. split; [done |]. cbn. constructor; [| constructor].
  unfold handler_init in E. cbn in E. destruct k; try done; try by injection E as <-.
  destruct (ctx_eval _ _ _); [| done]. cbn in E. by injection E as <-.
Qed.

(** The same with the differential test, whose reference is [m], as last handler. *)
Definition testing hs s (p : Z) m d : Prop :=
  building s p (with_handlers hs d) /\ diff_handler d = Some (length hs) /\
  handlers d = hs ++ [Handler r_none (HDifftest false m)] /\ shows m s p.

Lemma memcpy_shows base dat m m' s p :
  difftest_memcpy cfg base dat m = Ok m' -> shows m s p -> shows m' s p.
Proof.
  unfold difftest_memcpy. destruct (guest_to_host cfg base); [| done].
  destruct (copy_to_host _ _ _ _); [| done]. by intros [= <-].
Qed.

Lemma copy_spans_testing hs s p spans : forall m d d', testing hs s p m d ->
  copy_spans rs (length hs) spans d = Ok d' -> exists m', testing hs s p m' d'.
Proof.
  induction spans as [| [base size] spans IH]; intros m d d' (Hb & Hd & Hh & Hs) H;
    cbn [copy_spans] in H.
  { injection H as <-. exists m. by split_and!. }
  destruct (loadmem rs (target d) base size) as [dat |]; [| done]. cbn [mbind res_bind] in H.
  rewrite Hh, list_lookup_middle in H by done.
  destruct (ref_memcpy base dat m) as [m1 |] eqn:E1; [| done]. cbn [mbind res_bind] in H.
  eapply IH in H; [exact H |]. split_and!; [exact Hb | exact Hd | | exact (memcpy_shows _ _ _ _ _ _ E1 Hs)].
  cbn. by rewrite <- (Nat.add_0_r (length hs)), insert_app_r.
Qed.

Lemma add_difftest_testing m spans d d' s p : building s p d -> n_regs s = 32%nat ->
  add_difftest rs regex_search (Some m) spans d = Ok d' ->
  exists m', testing (handlers d) s p m' d'.
Proof.
  intros (H1 & H2 & H3 & H4 & H5 & H6) Hn H. unfold add_difftest in H.
  unfold add_trace in H. cbn [with_diff handlers with_handlers] in H.
  destruct (t_loadmem _ _ _) as [img |]; [| done]. cbn [mbind res_bind] in H.
  destruct (make_trace_ctx _) as [ctx |] eqn:Ectx; [| done]. cbn [mbind res_bind] in H.
  unfold make_trace_ctx in Ectx. cbn [with_diff with_handlers target dstate reg_snap fp_snap] in Ectx.
  destruct (t_fetch _ _) as [inst |]; [| done]. cbn [mbind res_bind] in Ectx. injection Ectx as <-.
  destruct (handler_init _ _ _ _ _) as [h |] eqn:E; [| done]. cbn [mbind res_bind] in H.
  unfold handler_init in E. cbn [h_kind h_req] in E.
  unfold difftest_init in E.
  destruct (ref_memcpy _ img m) as [m1 |]; [| done].
  cbn [mbind res_bind c_fp t_fp target_instance sim_target] in E. injection E as <-.
  eapply copy_spans_testing in H; [exact H |]. split_and!; [by split_and! | done | |].
  - cbn. rewrite length_app. cbn.
    replace (length (handlers d) + 1 - 1)%nat with (length (handlers d) + 0)%nat by lia.
    by rewrite insert_app_r.
  - unfold shows, pack_regs_and_pc. cbn [c_regs c_pc]. rewrite H2, H3. by apply shows_set.
Qed.

Lemma testing_tests hs s p m d : testing hs s p m d ->
  tests_with (length hs) m d /\ target d = s /\ dpc (dstate d) = p /\ shows m s p.
Proof.
  intros ((Ht & Hp & Hr & Hen & Hrun & Hhs) & Hd & Hh & Hs).
  cbn in Ht, Hp, Hr, Hen, Hrun, Hhs. split_and!; try done. constructor; try done.
  - split; [by rewrite Ht, Hr | done].
  - exists r_none. by rewrite Hh, list_lookup_middle.
  - intros j b Hj. unfold tags in Hj. rewrite Hh, fmap_app in Hj.
    apply lookup_app_Some in Hj as [Hj | [Hge Hj]].
    + rewrite list_lookup_fmap in Hj. destruct (hs !! j) as [h |] eqn:Eh; [| done].
      rewrite Forall_lookup in Hhs. specialize (Hhs j h Eh). cbn in Hj. unfold tag in Hj. congruence.
    + rewrite length_fmap in Hge, Hj.
      destruct (j - length hs)%nat as [| q] eqn:Eq; [lia | done].
  - by rewrite Hrun.
Qed.
Lemma add_if_building b k d d' s p : building s p d ->
  match k with HDifftest _ _ => False | _ => True end ->
  add_if rs regex_search b k d = Ok d' -> building s p d'.
Proof. destruct b; cbn; [apply add_trace_building | by intros ? ? [= <-]]. Qed.

Lemma sdb_init_testing set p size m spans s d :
  en_inst_trace set = true -> difftest set = true -> n_regs s = 32%nat ->
  sdb_init rs regex_search set p size (Some m) spans s = Ok d ->
  exists hs m0, testing hs s p m0 d.
Proof.
  intros He Hd Hn H. unfold sdb_init in H. rewrite He, Hd in H.
  assert (building s p (new_debuger p p size true s)) as Hb by done.
  repeat match type of H with ?x ≫= _ = _ =>
    let E := fresh "E" in let d1 := fresh "d" in
    destruct x as [d1 |] eqn:E; [cbn [mbind res_bind] in H | done] end.
  pose proof (add_if_building _ (HDisasm _) _ _ _ _ Hb I E) as B0.
  pose proof (add_if_building _ HEtrace _ _ _ _ B0 I E0) as B1.
  pose proof (add_if_building _ (HIringbuf _ _) _ _ _ _ B1 I E1) as B2.
  match type of E2 with _ = Ok ?x => assert (building s p x) as B3 end.
  { destruct (ftrace_funcs set); [| by injection E2 as <-].
    exact (add_trace_building (HFtrace _ _) _ _ _ _ B2 I E2). }
  pose proof (add_trace_building (HSelfLoop _) _ _ _ _ B3 I E3) as B4.
  destruct (add_difftest_testing m spans _ d s p B4 Hn H) as [m0 Ht]. eauto.
Qed.

(** What the debugger shows after [cmd_si], for a processor that started in [s] at [p] and an
    emulator that started in [m]. *)
Definition cosimulated s (p : Z) m (n : Z) (d' : debuger (sim dut) R) : Prop :=
  let s' := target d' in
  let p' := dpc (dstate d') in
  match run (dstate d') with
  | running => exists m', lockstep (s, p, m) (Z.to_nat n) (s', p', m') /\ shows m' s' p'
  | end_ => exists k m', Z.of_nat k <= n /\ lockstep (s, p, m) k (s', p', m') /\ shows m' s' p'
  | stop => exists k s1 p1 m1, Z.of_nat k <= n /\ lockstep (s, p, m) k (s1, p1, m1) /\ shows m1 s1 p1 /\
      (s' = s1 /\ p' = p1 \/ exists cbs, NpcSim.cpu_exec 1 s1 = Ok (s', p', cbs))
  | abort => exists k s1 p1 m1 cbs m', Z.of_nat k < n /\ lockstep (s, p, m) k (s1, p1, m1) /\ shows m1 s1 p1 /\
      NpcSim.cpu_exec 1 s1 = Ok (s', p', cbs) /\ skips cbs = false /\
      difftest_exec cfg enc execute_instruction 1 m1 = Ok m' /\ ~ shows m' s' p'
  | quit => False
  end.

(** C1. Co-simulation: after the debugger was set up with the emulator as reference, which gives the
    emulator the registers and the pc of the processor, stepping [n] instructions leaves the emulator
    with the registers and the pc of the processor when the run went through or the program ended;
    an abort means that one more instruction, which both executed, gave different registers or a
    different pc. *)
Theorem rtl_matches_emulator set p size m spans s d fuel n d' :
  en_inst_trace set = true -> difftest set = true -> n_regs s = 32%nat ->
  sdb_init rs regex_search set p size (Some m) spans s = Ok d ->
  0 <= n -> cmd_si regex_search fuel n d = Ok d' ->
  exists m0, shows m0 s p /\ cosimulated s p m0 n d'.
Proof.
  intros He Hd Hn Hinit Hpos H.
  destruct (sdb_init_testing _ _ _ _ _ _ _ He Hd Hn Hinit) as (hs & m0 & Ht).
  apply testing_tests in Ht as (Htest & Htg & Hpc & Hs). exists m0. split; [done |].
  eapply difftest_lockstep in H; [| exact Htest | done]. rewrite Htg, Hpc in H.
  assert (forall k s1 p1 m1, lockstep (s, p, m0) k (s1, p1, m1) ->
    n_regs s1 = 32%nat /\ shows m1 s1 p1) as Hshow.
  { intros k s1 p1 m1 Hl. destruct (lockstep_shows _ _ _ Hl Hn) as [Hn1 Hs1]. auto. }
  unfold cosimulated. destruct H as [k r Hk -> Hl | k r Hk -> Hl | k s1 p1 r Hk -> Hl Hx
    | k s1 p1 r cbs r' Hk -> Hl Hx Hsk Hr Ha]; destruct (Hshow _ _ _ _ Hl) as [Hn1 Hs1].
  - subst n. rewrite Nat2Z.id. eauto.
  - eauto.
  - exists k, s1, p1, r. by split_and!.
  - exists k, s1, p1, r, cbs, r'. split_and!; try done. rewrite <- agrees_shows; [done |].
    cbn in Hx. apply cpu_exec_regs in Hx. congruence.
Qed.
End cosim.

(** ** Witness *)

(** A processor that executes [addi a0, a0, 1] on every rising edge; after two of them it adds
    [wrong] instead of 1. *)
#[local] Instance adder_verilated (wrong : Z) : Verilated (Z * Z) := {|
  dut_eval clock reset x st :=
    let '(k, a0) := x in
    if clock && negb reset then
      let a0' := a0 + (if k <? 2 then 1 else wrong) in
      Ok ((k + 1, a0'), st, [GprUpd 10 a0'; PcUpd (0x80000000 + 4 * k) (0x80000004 + 4 * k)])
    else Ok (x, st, []);
  sample _ := sample_cycle
|}.

Definition adder_memory : list Guest.mem_region :=
  [Guest.RDirect (Direct.Mem (Traits 0x80000000 0x80000010 "irom") 16 0)].

Definition adder_sim : sim (Z * Z) :=
  Sim (0, 0) [Container 4 (fun _ => 0x00150513)] 0 0 0 0x80000000 (replicate 32 0) true false false false
    Jyd.jyd_start [] initPerfCounters.

Definition adder_setting : sim_setting := Setting 0 true true false None 4 true true.

#[local] Instance no_bus : MmioBus () := {| bus_read _ _ _ := Fault FAssert; bus_write _ _ _ _ := Fault FAssert |}.
#[local] Instance no_poll : DevicePoll () := fun s d => Ok (s, d).

Abbreviation adder_init wrong :=
  (sdb_init (Verilated0 := adder_verilated wrong)
    (Reference0 := ref_instance (default_config false) riscv_encoding addi_only)
    adder_memory (fun _ _ => None) adder_setting 0x80000000 16 (Some sample_machine) [] adder_sim).

Abbreviation adder_run wrong d :=
  (cmd_si (Target0 := target_instance (Verilated0 := adder_verilated wrong) adder_memory)
    (Reference0 := ref_instance (default_config false) riscv_encoding addi_only) (fun _ _ => None) 3 3 d).

Definition outcome (wrong : Z) : option (run_state * Z) :=
  match adder_init wrong with
  | Ok d => match adder_run wrong d with Ok d' => Some (run (dstate d'), dpc (dstate d')) | _ => None end
  | _ => None
  end.

Lemma outcome_inv wrong r p : outcome wrong = Some (r, p) ->
  exists d d', adder_init wrong = Ok d /\ adder_run wrong d = Ok d' /\ run (dstate d') = r /\ dpc (dstate d') = p.
Proof.
  unfold outcome. destruct (adder_init wrong) as [d |]; [| done].
  destruct (adder_run wrong d) as [d' |] eqn:E; [| done]. intros [= <- <-]. by exists d, d'.
Qed.

Lemma outcome_right : outcome 1 = Some (running, 0x8000000c).
Proof. vm_compute. reflexivity. Qed.
Lemma outcome_wrong : outcome 2 = Some (abort, 0x8000000c).
Proof. vm_compute. reflexivity. Qed.

#[local] Opaque sdb_init cmd_si.

(** A processor without the error goes through, one with the error is caught at the third
    instruction. *)
Lemma rtl_matches_emulator_witness :
  (exists d d' (m' : machine ()), adder_init 1 = Ok d /\ adder_run 1 d = Ok d' /\
     run (dstate d') = running /\ shows m' (target d') 0x8000000c) /\
  (exists d d' (m' : machine ()), adder_init 2 = Ok d /\ adder_run 2 d = Ok d' /\
     run (dstate d') = abort /\ ~ shows m' (target d') 0x8000000c).
Proof.
  split.
  - destruct (outcome_inv _ _ _ outcome_right) as (d & d' & Ei & Er & Hrun & Hpc).
    destruct (rtl_matches_emulator (Verilated0 := adder_verilated 1) (default_config false) riscv_encoding
      addi_only adder_memory (fun _ _ => None) adder_setting 0x80000000 16 sample_machine [] adder_sim d 3 3 d'
      eq_refl eq_refl eq_refl Ei ltac:(lia) Er) as (m0 & _ & H).
    unfold cosimulated in H. rewrite Hrun, Hpc in H. destruct H as (m' & _ & H).
    exists d, d', m'. auto.
  - destruct (outcome_inv _ _ _ outcome_wrong) as (d & d' & Ei & Er & Hrun & Hpc).
    destruct (rtl_matches_emulator (Verilated0 := adder_verilated 2) (default_config false) riscv_encoding
      addi_only adder_memory (fun _ _ => None) adder_setting 0x80000000 16 sample_machine [] adder_sim d 3 3 d'
      eq_refl eq_refl eq_refl Ei ltac:(lia) Er) as (m0 & _ & H).
    unfold cosimulated in H. rewrite Hrun, Hpc in H.
    destruct H as (k & s1 & p1 & m1 & cbs & m' & _ & _ & _ & _ & _ & _ & H). exists d, d', m'. auto.
Defined.
