(* ===== verification/SimTools.v ===== *)
(** * SimTools: the gdb server's operations and the pipeline log of the RTL simulation

    npc/sim/gdbop.cpp gives a gdb stub, which is a library, access to the registers, the memory and
    the execution of the simulated processor; npc/sim/KonataLog writes the events of the pipeline
    to a file in which only the differences of the cycle numbers appear. *)
From Stdlib Require Import Sorted.
From S2P Require Import Prelude SocMem SimCounters Tracers Expr Debugger NpcSim.

(** ** gdbop.cpp *)
Module Gdb.

Inductive errc := invalid_argument | address_family_not_supported | not_supported.
Inductive gdb_action := ACT_RESUME | ACT_SHUTDOWN.

Definition N_GPR : Z := 16.

Section gdb.
Context {dut : Type} `{!Verilated dut} (rs : list Guest.mem_region).
Implicit Types s : sim dut.

Definition op_read_reg (regno : Z) s : errc + Z :=
  if (regno <? 0) || (N_GPR <? regno) then inl invalid_argument
  else if regno =? N_GPR then inr (cpu_pc s)
  else inr (aget 0 (cpu_gpr s) regno).

Definition op_write_reg (regno value : Z) s : errc + sim dut :=
  if (regno <? 0) || (N_GPR <? regno) then inl invalid_argument
  else if regno =? N_GPR then inr (upd_cpu value (cpu_gpr s) (pc_changed s) s)
  else inr (upd_cpu (cpu_pc s) (aset (cpu_gpr s) regno value) (pc_changed s) s).

(** The loop over the words of a block: the error and the bytes stored before it, a zero word
    where there is no memory.  The address is cut to 32 bits by the call. *)
Fixpoint read_words (words : nat) (addr : Z) (st : store) : res (option errc * list Z) :=
  match words with
  | O => Ok (None, [])
  | S words =>
      w ← Guest.read_guest_mem rs (u32 addr) st;
      match w with
      | None => Ok (Some address_family_not_supported, word_bytes 0)
      | Some w => '(e, l) ← read_words words (addr + 4) st; Ok (e, word_bytes w ++ l)
      end
  end.

(** [n] bytes of the word around an address. *)
Definition read_part (addr : Z) (n : nat) (st : store) : res (option errc * list Z) :=
  w ← Guest.read_guest_mem rs (u32 (Z.land addr (Z.lnot 3))) st;
  match w with
  | None => Ok (Some address_family_not_supported, replicate n 0)
  | Some w => Ok (None, (fun k => byte_of w ((addr &&& 3) + Z.of_nat k)) <$> seq 0 n)
  end.

(** The error and the bytes written to the buffer. *)
Definition op_read_mem (addr len : Z) (st : store) : res (option errc * list Z) :=
  if len =? 0 then Ok (None, [])
  else if len =? 1 then read_part addr 1 st
  else if ((addr &&& 1) =? 0) && (len =? 2) then read_part addr 2 st
  else if negb ((addr &&& 3) =? 0) then Ok (Some not_supported, [])
  else if len =? 4 then
    w ← Guest.read_guest_mem rs (u32 addr) st;
    match w with
    | None => Ok (Some address_family_not_supported, word_bytes 0)
    | Some w => Ok (None, word_bytes w)
    end
  else if (len &&& 3) =? 0 then read_words (Z.to_nat (len / 4)) addr st
  else Ok (Some not_supported, []).

Definition op_write_mem (addr len : Z) : option errc := Some not_supported.

Definition op_set_bp (addr : Z) (breakpoints : gset Z) : gset Z := {[addr]} ∪ breakpoints.
Definition op_del_bp (addr : Z) (breakpoints : gset Z) : gset Z := breakpoints ∖ {[addr]}.

(** [intr k] is the value of _request_interrupt after the [k]-th instruction of the run, set by
    the thread of the stub. *)
Fixpoint op_cont (fuel : nat) (breakpoints : gset Z) (intr : nat -> bool) (k : nat) s
  : res (gdb_action * sim dut) :=
  match fuel with
  | O => Fault FFuel
  | S fuel =>
      if bool_decide (cpu_pc s ∈ breakpoints) then Ok (ACT_RESUME, s)
      else
        '(s, _) ← sim_step_inst s;
        if sim_halted s then Ok (ACT_SHUTDOWN, s)
        else if intr k then Ok (ACT_RESUME, s)
        else op_cont fuel breakpoints intr (S k) s
  end.

Definition op_stepi s : res (gdb_action * sim dut) :=
  '(s, _) ← sim_step_inst s; Ok (ACT_RESUME, s).

(** *** Properties *)

(** The byte the words of the guest memory hold at an address. *)
Definition guest_byte (st : store) (a : Z) : res (option Z) :=
  w ← Guest.read_guest_mem rs (a - a mod 4) st; Ok (option_map (fun w => byte_of w (a mod 4)) w).

(** The accesses the stub may make. *)
Definition supported (addr len : Z) : bool :=
  (len =? 0) || (len =? 1) || ((len =? 2) && (addr mod 2 =? 0)) || ((len mod 4 =? 0) && (addr mod 4 =? 0)).

Lemma guest_byte_word st a v : guest_byte st a = Ok (Some v) ->
  exists w, Guest.read_guest_mem rs (a - a mod 4) st = Ok (Some w) /\ v = byte_of w (a mod 4).
Proof.
  unfold guest_byte. destruct (Guest.read_guest_mem rs _ st) as [[w |] |]; [| done..].
  cbn. intros [= <-]. eauto.
Qed.

(** The bytes of one aligned word. *)
Lemma aligned_word st f a : a mod 4 = 0 ->
  (forall b, a <= b < a + 4 -> guest_byte st b = Ok (Some (f b))) ->
  exists w, Guest.read_guest_mem rs a st = Ok (Some w) /\ forall k, 0 <= k < 4 -> f (a + k) = byte_of w k.
Proof.
  intros Ha H. destruct (guest_byte_word _ _ _ (H a ltac:(lia))) as (w & Hw & _).
  rewrite Ha, Z.sub_0_r in Hw. exists w. split; [done |]. intros k Hk.
  destruct (guest_byte_word _ _ _ (H (a + k) ltac:(lia))) as (w' & Hw' & ->).
  assert ((a + k) mod 4 = k) as E by (rewrite Z.add_mod, Ha, Z.add_0_l, Z.mod_mod by lia; apply Z.mod_small; lia).
  rewrite E in Hw' |- *. replace (a + k - k) with a in Hw' by lia. congruence.
Qed.

Lemma word_bytes_seq f a w : (forall k, 0 <= k < 4 -> f (a + k) = byte_of w k) ->
  word_bytes w = f <$> seqZ a 4.
Proof.
  intros Hb. unfold word_bytes. change (seqZ a 4) with ((fun i => Z.of_nat i + a) <$> seq 0 4).
  cbn [fmap list_fmap seq]. by rewrite <- !Hb, !(Z.add_comm a) by lia.
Qed.

Lemma read_words_bytes st f n : forall a, a mod 4 = 0 -> 0 <= a -> a + 4 * Z.of_nat n <= 2 ^ 32 ->
  (forall b, a <= b < a + 4 * Z.of_nat n -> guest_byte st b = Ok (Some (f b))) ->
  read_words n a st = Ok (None, f <$> seqZ a (4 * Z.of_nat n)).
Proof.
  induction n as [| n IH]; intros a Ha H0 Hlt H; [done |]. cbn [read_words].
  destruct (aligned_word st f a Ha) as (w & Hw & Hb); [intros; apply H; lia |].
  rewrite (wrap_small 32 a) by (unfold in_range; lia). rewrite Hw. cbn [mbind res_bind].
  rewrite IH.
  - cbn [mbind res_bind]. f_equal. f_equal.
    replace (4 * Z.of_nat (S n)) with (4 + 4 * Z.of_nat n) by lia.
    rewrite seqZ_app by lia. rewrite fmap_app. f_equal. by apply word_bytes_seq.
  - rewrite Z.add_mod, Ha by lia. done.
  - lia.
  - lia.
  - intros b Hb'. apply H. lia.
Qed.

Lemma read_part_bytes st f n a : 0 <= a < 2 ^ 32 -> a mod 4 + Z.of_nat n <= 4 ->
  (0 < n)%nat -> (forall b, a <= b < a + Z.of_nat n -> guest_byte st b = Ok (Some (f b))) ->
  read_part a n st = Ok (None, f <$> seqZ a (Z.of_nat n)).
Proof.
  intros Ha Hn Hpos H. unfold read_part. rewrite land_not_3, land_3.
  pose proof (Z.mod_pos_bound a 4 ltac:(lia)). pose proof (Z.mod_le a 4 ltac:(lia) ltac:(lia)).
  destruct (guest_byte_word _ _ _ (H a ltac:(lia))) as (w & Hw & _).
  rewrite wrap_small by (unfold in_range; lia). rewrite Hw. cbn [mbind res_bind]. f_equal. f_equal.
  unfold seqZ. rewrite Nat2Z.id, <- list_fmap_compose. apply list_fmap_ext. intros i k Hk.
  apply lookup_seq in Hk as [-> Hk]. cbn.
  destruct (guest_byte_word _ _ _ (H (Z.of_nat i + a) ltac:(lia))) as (w' & Hw' & ->).
  assert ((Z.of_nat i + a) mod 4 = a mod 4 + Z.of_nat i) as E.
  { rewrite <- Zplus_mod_idemp_r. rewrite Z.mod_small; lia. }
  rewrite E in Hw' |- *.
  replace (Z.of_nat i + a - (a mod 4 + Z.of_nat i)) with (a - a mod 4) in Hw' by lia. congruence.
Qed.

(** C36. What gdb sees: a read of a byte, an even half word or an aligned block delivers the bytes the
    words of the guest memory hold; every other read is refused without touching the buffer. *)
Theorem gdb_reads_memory st f a len : 0 <= a -> 0 <= len -> a + len <= 2 ^ 32 ->
  (forall b, a <= b < a + len -> guest_byte st b = Ok (Some (f b))) ->
  op_read_mem a len st =
    if supported a len then Ok (None, f <$> seqZ a len) else Ok (Some not_supported, []).
Proof.
  intros Ha Hl Hlt H. unfold op_read_mem, supported. rewrite !land_3, land_1.
  pose proof (Z.mod_pos_bound a 4 ltac:(lia)).
  assert (a mod 4 = 0 -> a mod 2 = 0) as H42.
  { clear -H0. Z.to_euclidean_division_equations; lia. }
  assert (a mod 2 = 0 -> a mod 4 <= 2) as H2.
  { clear -H0. Z.to_euclidean_division_equations; lia. }
  destruct (Z.eqb_spec len 0) as [-> |]; [done |]. cbn [orb].
  destruct (Z.eqb_spec len 1) as [-> |]; cbn [orb].
  { apply (read_part_bytes st f 1); cbn; lia || done. }
  destruct (Z.eqb_spec len 2) as [-> |]; cbn [andb orb].
  { destruct (Z.eqb_spec (a mod 2) 0) as [E |]; cbn [andb orb].
    { apply (read_part_bytes st f 2); cbn; [lia | auto with lia | lia | done]. }
    destruct (Z.eqb_spec (a mod 4) 0); [intuition congruence | done]. }
  rewrite andb_false_r. cbn [andb orb].
  destruct (Z.eqb_spec (a mod 4) 0) as [E |]; cbn [negb]; rewrite ?andb_true_r, ?andb_false_r; [| done].
  destruct (Z.eqb_spec len 4) as [-> |].
  { destruct (aligned_word st f a E H) as (w & Hw & Hb).
    rewrite wrap_small by (unfold in_range; lia). rewrite Hw. cbn [mbind res_bind]. by rewrite (word_bytes_seq f a). }
  destruct (Z.eqb_spec (len mod 4) 0) as [E4 |]; [| done].
  assert (len = 4 * Z.of_nat (Z.to_nat (len / 4))) as El.
  { rewrite Z2Nat.id by (apply Z.div_pos; lia). pose proof (Z.div_mod len 4). lia. }
  rewrite (read_words_bytes st f) by (rewrite <- ?El; done). by rewrite <- El.
Qed.

(** [j] instructions from one state to another, none of them at a breakpoint. *)
Inductive free_run (breakpoints : gset Z) : nat -> sim dut -> sim dut -> Prop :=
  | free_run_O s : free_run breakpoints 0 s s
  | free_run_S j s s1 s' cbs : cpu_pc s ∉ breakpoints -> sim_step_inst s = Ok (s1, cbs) ->
      sim_halted s1 = false -> free_run breakpoints j s1 s' -> free_run breakpoints (S j) s s'.

#[local] Opaque sim_step_inst.

(** Without an interrupt, continuing comes back exactly at the first breakpoint that is reached. *)
Lemma op_cont_breakpoint bps fuel : forall k s s',
  op_cont fuel bps (fun _ => false) k s = Ok (ACT_RESUME, s') <->
  exists j, (j < fuel)%nat /\ free_run bps j s s' /\ cpu_pc s' ∈ bps.
Proof.
  induction fuel as [| fuel IH]; intros k s s'; cbn [op_cont]; [split; [done | intros (? & ? & _); lia] |].
  destruct (bool_decide_reflect (cpu_pc s ∈ bps)) as [Hin | Hin].
  { split.
    - intros [= <-]. exists 0%nat. split; [lia |]. by split; [constructor |].
    - intros (j & _ & Hr & _). by destruct Hr. }
  destruct (sim_step_inst s) as [[s1 cbs] |] eqn:E; cbn [mbind res_bind].
  2:{ split; [done |]. intros (j & _ & Hr & Hb). destruct Hr; [done | congruence]. }
  destruct (sim_halted s1) eqn:Eh.
  { split; [done |]. intros (j & _ & Hr & Hb). destruct Hr; [done | congruence]. }
  rewrite IH. split.
  - intros (j & Hj & Hr & Hb). exists (S j). split; [lia |]. split; [by econstructor | done].
  - intros (j & Hj & Hr & Hb). destruct Hr as [| j s s2 s' cbs2 _ E2 _ Hr]; [done |].
    rewrite E in E2. injection E2 as -> _. exists j. split; [lia |]. done.
Qed.
End gdb.
End Gdb.

(** ** KonataLog *)
Module Konata.

(** The commands of the file; what follows a number is written after a tab. *)
Inductive line :=
  | LHeader                                (* Kanata 0004 *)
  | LStart (cycle : Z)                     (* C= *)
  | LCycle (n : Z)                         (* C *)
  | LInst (fileID simID threadID : Z)      (* I *)
  | LLabel (id : Z) (hover : bool) (text : list Z)
  | LStage (id lane : Z) (name : list Z)   (* S *)
  | LRetire (id retireID : Z) (flushed : bool).

(** The number of characters of a number, with the fuel of a 64-bit one, and of a line. *)
Fixpoint digits (fuel : nat) (n : Z) : Z :=
  match fuel with O => 1 | S fuel => if n <? 10 then 1 else 1 + digits fuel (n / 10) end.
Definition num (n : Z) : Z := 1 + digits 20 n.
Definition line_size (l : line) : Z :=
  1 + match l with
      | LHeader => 11
      | LStart c => 2 + num c
      | LCycle n => 1 + num n
      | LInst a b c => 1 + num a + num b + num c
      | LLabel i _ t => 1 + num i + 2 + (1 + Z.of_nat (length t))
      | LStage i l n => 1 + num i + num l + (1 + Z.of_nat (length n))
      | LRetire i r _ => 1 + num i + num r + 2
      end.

Definition kMaxLogFileSize : Z := 64 * 1024 * 1024.

(** The file and whether it is still open, _LastOutputCycle, _lastRetireInfo, __NxtRetireID. *)
Record KonataLogger := Logger {
  file : list line; is_open : bool; LastOutputCycle : Z;
  lastRetireInfo : Z * Z * bool; NxtRetireID : Z }.

Definition new_logger : KonataLogger := Logger [] true 0 (0, 0, false) 1.

Definition file_size (f : list line) : Z := foldr (fun l n => line_size l + n) 0 f.

(** _output: nothing more is written to a closed file. *)
Definition output (l : line) (k : KonataLogger) : KonataLogger :=
  if is_open k then
    if kMaxLogFileSize <=? file_size (file k)
    then Logger (file k) false (LastOutputCycle k) (lastRetireInfo k) (NxtRetireID k)
    else Logger (file k ++ [l]) true (LastOutputCycle k) (lastRetireInfo k) (NxtRetireID k)
  else k.

Definition set_cycle (c : Z) (k : KonataLogger) : KonataLogger :=
  Logger (file k) (is_open k) c (lastRetireInfo k) (NxtRetireID k).

(** A cycle number that goes back throws. *)
Definition log (cyc : Z) (l : line) (k : KonataLogger) : res KonataLogger :=
  if cyc <? LastOutputCycle k then Fault FPanic
  else
    let k := if LastOutputCycle k <? cyc then output (LCycle (cyc - LastOutputCycle k)) k else k in
    Ok (output l (set_cycle cyc k)).

Definition start (cyc : Z) (k : KonataLogger) : KonataLogger :=
  set_cycle cyc (output (LStart cyc) (output LHeader k)).

Definition retire (cyc id retireID : Z) (isFlushed : bool) (k : KonataLogger) : res KonataLogger :=
  if bool_decide ((id, retireID, isFlushed) = lastRetireInfo k) then Ok k
  else log cyc (LRetire id retireID isFlushed)
         (Logger (file k) (is_open k) (LastOutputCycle k) (id, retireID, isFlushed) (NxtRetireID k)).

Definition stage_names : list (list Z) := bytes <$> ["IF"; "DE"; "EX"; "LS"; "WB"]%string.
Definition getStageName (stageID : Z) : list Z :=
  nth (Z.to_nat stageID) stage_names (bytes "UNKNOWN").

(** [disasm] is the text of the label of the instruction at a pc, [now] the text of the
    simulation time. *)
Definition handleEvent (disasm : Z -> list Z) (now : list Z) (cyc eventKind stageID iid data : Z)
    (k : KonataLogger) : res KonataLogger :=
  if eventKind =? 0 then
    k ← (if stageID =? 0 then
           k ← log cyc (LInst iid iid 0) k;
           k ← log cyc (LLabel iid false (disasm data)) k;
           log cyc (LLabel iid true now) k
         else Ok k);
    log cyc (LStage iid 0 (getStageName stageID)) k
  else if eventKind =? 1 then
    retire cyc iid (NxtRetireID k)
      false (Logger (file k) (is_open k) (LastOutputCycle k) (lastRetireInfo k) (u64 (NxtRetireID k + 1)))
  else if eventKind =? 2 then retire cyc iid 0 true k
  else Ok k.

(** *** Reading the file back *)

(** The viewer's reading of a file: every line with the cycle it belongs to. *)
Fixpoint replay (cyc : Z) (f : list line) : list (Z * line) :=
  match f with
  | [] => []
  | LHeader :: f => replay cyc f
  | LStart c :: f => replay c f
  | LCycle n :: f => replay (cyc + n) f
  | l :: f => (cyc, l) :: replay cyc f
  end.

Fixpoint end_cycle (cyc : Z) (f : list line) : Z :=
  match f with
  | [] => cyc
  | LStart c :: f => end_cycle c f
  | LCycle n :: f => end_cycle (cyc + n) f
  | _ :: f => end_cycle cyc f
  end.

Definition is_event (l : line) : bool :=
  match l with LHeader | LStart _ | LCycle _ => false | _ => true end.

(** The lines [evs] were logged: all are in an open file, a closed file has the first ones. *)
Definition holds (evs : list (Z * line)) (k : KonataLogger) : Prop :=
  if is_open k then replay 0 (file k) = evs /\ end_cycle 0 (file k) = LastOutputCycle k
  else replay 0 (file k) `prefix_of` evs.

Lemma replay_snoc f l : forall c, replay c (f ++ [l]) =
  replay c f ++ if is_event l then [(end_cycle c f, l)] else [].
Proof.
  induction f as [| x f IH]; intros c; [by destruct l |].
  destruct x; cbn; by rewrite ?IH.
Qed.

Lemma end_cycle_snoc f l : forall c, end_cycle c (f ++ [l]) =
  match l with LStart x => x | LCycle n => end_cycle c f + n | _ => end_cycle c f end.
Proof. induction f as [| x f IH]; intros c; [by destruct l |]. destruct x; cbn; by rewrite ?IH. Qed.

(** A line that is not written closes the file, which then stays as it is. *)
Lemma output_cases l k :
  (is_open k = true /\ output l k = Logger (file k ++ [l]) true (LastOutputCycle k) (lastRetireInfo k) (NxtRetireID k)) \/
  (is_open (output l k) = false /\ file (output l k) = file k).
Proof.
  unfold output. destruct (is_open k) eqn:E; [| by right]. destruct (_ <=? _); [by right | by left].
Qed.

Lemma holds_prefix evs k : holds evs k -> replay 0 (file k) `prefix_of` evs.
Proof. unfold holds. destruct (is_open k); [by intros [<- _] | done]. Qed.

Lemma output_event evs cyc l k : is_event l = true -> cyc = LastOutputCycle k ->
  holds evs k -> holds (evs ++ [(cyc, l)]) (output l k).
Proof.
  intros Hl -> H. destruct (output_cases l k) as [[Ho ->] | [Ho Hf]].
  - unfold holds in *. rewrite Ho in H. destruct H as [<- Hc]. cbn.
    rewrite replay_snoc, end_cycle_snoc, Hl, Hc. by destruct l.
  - apply holds_prefix in H. unfold holds. rewrite Ho, Hf. by apply prefix_app_r.
Qed.

Lemma output_cycle evs cyc k : holds evs k ->
  holds evs (set_cycle cyc (output (LCycle (cyc - LastOutputCycle k)) k)).
Proof.
  intros H. destruct (output_cases (LCycle (cyc - LastOutputCycle k)) k) as [[Ho ->] | [Ho Hf]].
  - unfold holds in *. rewrite Ho in H. destruct H as [<- Hc]. cbn.
    rewrite replay_snoc, end_cycle_snoc, Hc, app_nil_r. split; [done | lia].
  - apply holds_prefix in H. unfold holds. cbn. by rewrite Ho, Hf.
Qed.

Lemma log_holds evs cyc l k : is_event l = true -> LastOutputCycle k <= cyc -> holds evs k ->
  exists k', log cyc l k = Ok k' /\ LastOutputCycle k' = cyc /\ holds (evs ++ [(cyc, l)]) k'.
Proof.
  intros Hl Hc H. unfold log. rewrite (proj2 (Z.ltb_ge _ _)) by lia. eexists. split; [done |].
  assert (forall x k0, LastOutputCycle (output x k0) = LastOutputCycle k0) as Hlast.
  { intros x k0. unfold output. destruct (is_open k0); [destruct (_ <=? _) |]; done. }
  split; [by rewrite Hlast |]. apply output_event; [done.. |].
  destruct (Z.ltb_spec (LastOutputCycle k) cyc); [by apply output_cycle |].
  replace cyc with (LastOutputCycle k) by lia. by destruct k.
Qed.

(** The lines an event adds, for a logger in the state of [k]. *)
Definition event_lines (disasm : Z -> list Z) (now : list Z) (eventKind stageID iid data : Z)
    (k : KonataLogger) : list line :=
  if eventKind =? 0 then
    (if stageID =? 0 then [LInst iid iid 0; LLabel iid false (disasm data); LLabel iid true now] else []) ++
    [LStage iid 0 (getStageName stageID)]
  else if eventKind =? 1 then
    if bool_decide ((iid, NxtRetireID k, false) = lastRetireInfo k) then [] else [LRetire iid (NxtRetireID k) false]
  else if eventKind =? 2 then
    if bool_decide ((iid, 0, true) = lastRetireInfo k) then [] else [LRetire iid 0 true]
  else [].

(** An event of the model: the cycle it happens in and the arguments of the call. *)
Record event := Event { ev_cycle : Z; ev_now : list Z; ev_kind : Z; ev_stage : Z; ev_iid : Z; ev_data : Z }.

(** The calls of a run, and the lines they stand for with their cycles. *)
Fixpoint handle_all (disasm : Z -> list Z) (es : list event) (k : KonataLogger)
  : res (KonataLogger * list (Z * line)) :=
  match es with
  | [] => Ok (k, [])
  | e :: es =>
      let ls := event_lines disasm (ev_now e) (ev_kind e) (ev_stage e) (ev_iid e) (ev_data e) k in
      k ← handleEvent disasm (ev_now e) (ev_cycle e) (ev_kind e) (ev_stage e) (ev_iid e) (ev_data e) k;
      '(k, rest) ← handle_all disasm es k;
      Ok (k, ((ev_cycle e,.) <$> ls) ++ rest)
  end.

Lemma handleEvent_holds disasm now cyc kind stage iid data evs k :
  LastOutputCycle k <= cyc -> holds evs k ->
  exists k', handleEvent disasm now cyc kind stage iid data k = Ok k' /\
    LastOutputCycle k <= LastOutputCycle k' <= cyc /\
    holds (evs ++ ((cyc,.) <$> event_lines disasm now kind stage iid data k)) k'.
Proof.
  intros Hc H. unfold handleEvent, event_lines.
  assert (forall id r fl (k0 : KonataLogger), LastOutputCycle k0 = LastOutputCycle k -> holds evs k0 ->
    exists k', retire cyc id r fl k0 = Ok k' /\ LastOutputCycle k <= LastOutputCycle k' <= cyc /\
      holds (evs ++ ((cyc,.) <$> if bool_decide ((id, r, fl) = lastRetireInfo k0) then [] else [LRetire id r fl])) k')
    as Hret.
  { intros id r fl k0 E0 H0. unfold retire. destruct (bool_decide _).
    - exists k0. cbn. rewrite app_nil_r. split; [done |]. split; [lia | done].
    - edestruct (log_holds evs cyc (LRetire id r fl)) as (k' & E & Hl & Hh); [done | | | ].
      3:{ exists k'. split; [exact E |]. split; [lia | exact Hh]. }
      + cbn. lia.
      + exact H0. }
  destruct (kind =? 0); [| destruct (kind =? 1); [exact (Hret _ _ _ (Logger _ _ _ _ _) eq_refl H) | destruct (kind =? 2); [by apply Hret |]]].
  - assert (exists k1, (if stage =? 0 then
             k ← log cyc (LInst iid iid 0) k; k ← log cyc (LLabel iid false (disasm data)) k;
             log cyc (LLabel iid true now) k else Ok k) = Ok k1 /\
        LastOutputCycle k <= LastOutputCycle k1 <= cyc /\
        holds (evs ++ ((cyc,.) <$> if stage =? 0 then [LInst iid iid 0; LLabel iid false (disasm data);
           LLabel iid true now] else [])) k1) as (k1 & -> & Hk1 & H1).
    { destruct (stage =? 0); [| exists k; cbn; rewrite app_nil_r; split; [done |]; split; [lia | done]].
      destruct (log_holds evs cyc (LInst iid iid 0) k) as (ka & -> & Ha & HA); [done.. |]. cbn [mbind res_bind].
      destruct (log_holds _ cyc (LLabel iid false (disasm data)) ka ltac:(done) ltac:(lia) HA) as (kb & -> & Hb & HB).
      cbn [mbind res_bind].
      destruct (log_holds _ cyc (LLabel iid true now) kb ltac:(done) ltac:(lia) HB) as (kc & -> & Hcc & HC).
      exists kc. split; [done |]. split; [lia |]. by rewrite <- !app_assoc in HC. }
    cbn [mbind res_bind].
    destruct (log_holds _ cyc (LStage iid 0 (getStageName stage)) k1 ltac:(done) ltac:(lia) H1) as (k2 & E2 & Hk2 & H2).
    exists k2. split; [exact E2 |]. split; [lia |]. by rewrite fmap_app, app_assoc.
  - exists k. cbn. rewrite app_nil_r. split; [done |]. split; [lia | done].
Qed.

(** C37. The pipeline log: for events in the order of their cycles the logger never throws, and a
    viewer that adds up the cycle commands of the file gets every line with the cycle its event
    happened in; a file that was closed at its size limit holds the first of these lines. *)
Theorem konata_log_replays disasm c0 es :
  Forall (fun e => c0 <= ev_cycle e) es -> Sorted Z.le (ev_cycle <$> es) ->
  exists k lines, handle_all disasm es (start c0 new_logger) = Ok (k, lines) /\
    replay 0 (file k) `prefix_of` lines /\ (is_open k = true -> replay 0 (file k) = lines).
Proof.
  intros Hf Hs. apply Sorted_StronglySorted in Hs; [| intros ? ? ?; lia].
  assert (forall es evs k, holds evs k -> Forall (fun e => LastOutputCycle k <= ev_cycle e) es ->
    StronglySorted Z.le (ev_cycle <$> es) ->
    exists k' lines, handle_all disasm es k = Ok (k', lines) /\ holds (evs ++ lines) k') as Hrun.
  { clear. induction es as [| e es IH]; intros evs k Hk Hf Hs; cbn [handle_all].
    - exists k, []. by rewrite app_nil_r.
    - inversion Hf as [| ? ? He Hf']; subst. cbn in Hs. inversion Hs as [| ? ? Hs' Hall]; subst.
      destruct (handleEvent_holds disasm (ev_now e) (ev_cycle e) (ev_kind e) (ev_stage e) (ev_iid e) (ev_data e)
        evs k He Hk) as (k1 & -> & Hl & H1). cbn [mbind res_bind].
      destruct (IH _ k1 H1) as (k2 & lines & E2 & H2); [| done |].
      { apply Forall_forall. intros x Hx. rewrite Forall_fmap, Forall_forall in Hall.
        specialize (Hall x Hx). cbn in Hall. lia. }
      rewrite E2. cbn [mbind res_bind]. eexists _, _. split; [done |]. by rewrite <- app_assoc in H2. }
  destruct (Hrun es [] (start c0 new_logger)) as (k & lines & E & H); [done | done | done |].
  exists k, lines. split; [done |]. cbn in H. split; [by apply holds_prefix |].
  intros Ho. unfold holds in H. rewrite Ho in H. apply H.
Qed.
End Konata.

(** ** Witnesses *)

Definition word_memory : list Guest.mem_region :=
  [Guest.RDirect (Direct.Mem (Traits 0x80000000 0x80000010 "irom") 16 0)].
Definition word_store : store := [Container 4 (fun i => 0x44332211 + i)].

(** Four bytes at once, one half word, and a refused odd half word. *)
Lemma gdb_reads_memory_witness :
  Gdb.op_read_mem word_memory 0x80000004 4 word_store = Ok (None, [0x12; 0x22; 0x33; 0x44]) /\
  Gdb.op_read_mem word_memory 0x80000006 2 word_store = Ok (None, [0x33; 0x44]) /\
  Gdb.op_read_mem word_memory 0x80000005 2 word_store = Ok (Some Gdb.not_supported, []).
Proof.
  assert (forall b, 0x80000004 <= b < 0x80000008 ->
    Gdb.guest_byte word_memory word_store b = Ok (Some (nth (Z.to_nat (b - 0x80000004)) [0x12; 0x22; 0x33; 0x44] 0))) as H.
  { intros b Hb. assert (b = 0x80000004 \/ b = 0x80000005 \/ b = 0x80000006 \/ b = 0x80000007)
      as [-> | [-> | [-> | ->]]] by lia; reflexivity. }
  split; [| split].
  - rewrite (Gdb.gdb_reads_memory word_memory word_store _ 0x80000004 4 ltac:(lia) ltac:(lia) ltac:(lia) H).
    reflexivity.
  - rewrite (Gdb.gdb_reads_memory word_memory word_store _ 0x80000006 2 ltac:(lia) ltac:(lia) ltac:(lia)
      (fun b Hb => H b ltac:(lia))). reflexivity.
  - rewrite (Gdb.gdb_reads_memory word_memory word_store _ 0x80000005 2 ltac:(lia) ltac:(lia) ltac:(lia)
      (fun b Hb => H b ltac:(lia))). reflexivity.
Defined.

(** An instruction fetched in cycle 31, decoded in 33 and retired in 36. *)
Definition sample_events : list Konata.event :=
  [Konata.Event 31 [] 0 0 7 0x80000000; Konata.Event 33 [] 0 1 7 0; Konata.Event 36 [] 1 0 7 0].

Lemma konata_log_replays_witness :
  exists k lines, Konata.handle_all (fun _ => []) sample_events (Konata.start 30 Konata.new_logger) = Ok (k, lines) /\
    length (Konata.file k) = 11%nat /\ Konata.replay 0 (Konata.file k) = lines /\ (fst <$> lines) = [31; 31; 31; 31; 33; 36].
Proof.
  destruct (Konata.konata_log_replays (fun _ => []) 30 sample_events
    ltac:(repeat constructor; cbn; lia) ltac:(cbn; repeat constructor; lia)) as (k & lines & E & _ & H).
  exists k, lines. split; [exact E |]. vm_compute in E. injection E as <- <-.
  split; [reflexivity |]. split; [apply H; reflexivity | reflexivity].
Defined.
