(* ===== verification/AmRuntime.v ===== *)
(** * AmRuntime: the guest side of the board support (abstract-machine/am)

    - [Libgcc]: 64-bit multiplication and shift for a processor without them
      (riscv/npc/libgcc: multi3.c, ashldi3.c, muldi3.S);
    - [JydBoard]: start, end and clock of a program on the contest board (riscv/jyd);
    - [Boot]: the two-stage boot loader of ysyxSoC (riscv/ysyxsoc/trm.c), which copies the program
      from flash;
    - [Cte]: trap dispatch (riscv/npc/cte.c). *)
From S2P Require Import Prelude Int64 SocMem.

(** ** Compiler support *)
Module Libgcc.

(** __mulsi3, the assembly loop: a0 is the sum, a1 and a2 the shifted operands. *)
Fixpoint mulsi3_loop (fuel : nat) (a0 a1 a2 : Z) : res Z :=
  match fuel with
  | O => Fault FFuel
  | S fuel =>
      let a3 := a1 &&& 1 in
      let a0 := if a3 =? 0 then a0 else u32 (a0 + a2) in
      let a1 := a1 >>> 1 in
      let a2 := u32 (a2 <<< 1) in
      if a1 =? 0 then Ok a0 else mulsi3_loop fuel a0 a1 a2
  end.
Definition __mulsi3 (a b : Z) : res Z := mulsi3_loop 32 0 b a.

(** With a multiplier, __muluw3 is a product of words. *)
Definition __muluw3 (a b : Z) : Z := u32 (a * b).

(** The loop of __multi3 on (u_low, v_low, w_low, w_high, w_high_tmp). *)
Fixpoint mul_loop (fuel : nat) (u_low v_low w_low w_high w_high_tmp : Z) : res (Z * Z) :=
  match fuel with
  | O => Fault FFuel
  | S fuel =>
      let new_w_low := u32 (w_low + u_low) in
      let w_high_tmp2x := u32 (w_high_tmp <<< 1) in
      let w_high_tmp := u32 (w_high_tmp + w_high) in
      let '(w_low, w_high) :=
        if negb ((v_low &&& 1) =? 0) then
          let carry := b2z (new_w_low <? w_low) in
          (new_w_low, u32 (carry + w_high_tmp))
        else (w_low, w_high) in
      let u_low_msb := u_low >>> 31 in
      let v_low := v_low >>> 1 in
      let u_low := u32 (u_low <<< 1) in
      let w_high_tmp := u_low_msb ||| w_high_tmp2x in
      if v_low =? 0 then Ok (w_low, w_high)
      else mul_loop fuel u_low v_low w_low w_high w_high_tmp
  end.

(** __multi3 is __muldi3 on a 32-bit machine.  The words of a union are unsigned here. *)
Definition __muldi3 (u v : Z) : res Z :=
  let uh := hi (u64 u) in
  let vh := hi (u64 v) in
  '(w_low, w_high) ← mul_loop 32 (lo u) (lo v) 0 0 0;
  let w_high := if uh =? 0 then w_high else u32 (w_high + __muluw3 (lo v) uh) in
  let w_high := if vh =? 0 then w_high else u32 (w_high + __muluw3 (lo u) vh) in
  Ok (s64 (dword w_high w_low)).

(** A shift by the width of a word or more is undefined. *)
Definition shl32 (x b : Z) : res Z :=
  if (0 <=? b) && (b <? 32) then Ok (u32 (x <<< b)) else Fault FUndef.
Definition __ashldi3 (u b : Z) : res Z :=
  if b =? 0 then Ok u
  else
    let uh := hi (u64 u) in
    let ul := lo u in
    let bm := 32 - b in
    if bm <=? 0 then
      h ← shl32 ul (- bm); Ok (s64 (dword h 0))
    else
      let carries := ul >>> bm in
      l ← shl32 ul b;
      h ← shl32 uh b;
      Ok (s64 (dword (h ||| carries) l)).

(** *** Properties *)

Lemma half_div v : v >>> 1 = v / 2.
Proof. by rewrite Z.shiftr_div_pow2 by lia. Qed.

Lemma half_range k v : in_range (Z.of_nat (S k)) v -> in_range (Z.of_nat k) (v / 2).
Proof.
  unfold in_range. rewrite Nat2Z.inj_succ, Z.pow_succ_r by lia. intros [H0 H1].
  split; [apply Z.div_pos; lia | apply Z.div_lt_upper_bound; lia].
Qed.

Lemma range_pos k v : in_range (Z.of_nat k) v -> v <> 0 -> (0 < k)%nat.
Proof. intros H Hv. destruct k; [| lia]. unfold in_range in H. cbn in H. lia. Qed.

Lemma mulsi3_loop_correct k : forall a0 a1 a2, (0 < k)%nat -> in_range (Z.of_nat k) a1 ->
  in_range 32 a0 -> mulsi3_loop k a0 a1 a2 = Ok (u32 (a0 + a1 * a2)).
Proof.
  induction k as [| k IH]; intros a0 a1 a2 Hk H1 H0; [lia |]. cbn [mulsi3_loop]. rewrite land_1, half_div.
  pose proof (Z.div_mod a1 2 ltac:(lia)) as Hb. apply half_range in H1 as Hh.
  pose proof (Z.mod_pos_bound a1 2 ltac:(lia)) as Hbit.
  assert ((if a1 mod 2 =? 0 then a0 else u32 (a0 + a2)) = u32 (a0 + a1 mod 2 * a2)) as ->.
  { destruct (Z.eqb_spec (a1 mod 2) 0) as [-> |]; [by rewrite Z.add_0_r, wrap_small |].
    f_equal. replace (a1 mod 2) with 1 by lia. lia. }
  destruct (Z.eqb_spec (a1 / 2) 0) as [E | E]; [rewrite E in Hb; f_equal; f_equal; nia |].
  rewrite IH by (done || auto with cint || by eapply range_pos). f_equal.
  rewrite Z.shiftl_mul_pow2 by lia. change (2 ^ 1) with 2.
  rewrite wrap_add_l, <- wrap_add_r, wrap_mul_r, wrap_add_r. f_equal. nia.
Qed.

(** The assembly routine computes the product of words. *)
Lemma mulsi3_correct a b : in_range 32 b -> __mulsi3 a b = Ok (__muluw3 a b).
Proof.
  intros Hb. unfold __mulsi3. rewrite mulsi3_loop_correct by (done || lia). unfold __muluw3.
  do 2 f_equal. lia.
Qed.

(** The words of a double word modulo 2^64. *)
Definition words (l h : Z) : Z := l + 2 ^ 32 * h.

Lemma words_add l h l' h' : in_range 32 l -> in_range 32 l' -> in_range 32 h -> in_range 32 h' ->
  u64 (words (u32 (l + l')) (u32 (b2z (u32 (l + l') <? l) + u32 (h + h')))) =
  u64 (words l h + words l' h').
Proof.
  intros Hl Hl' Hh Hh'. unfold words, in_range in *.
  assert (u32 (l + l') = l + l' - 2 ^ 32 * b2z (u32 (l + l') <? l)) as E.
  { unfold wrap. destruct (Z.ltb_spec (l + l') (2 ^ 32)).
    - rewrite Z.mod_small by lia. rewrite (proj2 (Z.ltb_ge _ _)) by lia. cbn. lia.
    - assert ((l + l') mod 2 ^ 32 = l + l' - 2 ^ 32) as E
        by (symmetry; apply Z.mod_unique_pos with 1; lia).
      rewrite E, (proj2 (Z.ltb_lt _ _)) by lia. cbn. lia. }
  set (c := b2z (u32 (l + l') <? l)) in *. rewrite E.
  rewrite wrap_add_r. unfold wrap at 1 3.
  pose proof (Z.div_mod (c + (h + h')) (2 ^ 32) ltac:(lia)) as Hd.
  unfold wrap. set (q := (c + (h + h')) / 2 ^ 32) in *. set (r := (c + (h + h')) mod 2 ^ 32) in *.
  replace (l + 2 ^ 32 * h + (l' + 2 ^ 32 * h')) with (l + l' - 2 ^ 32 * c + 2 ^ 32 * r + q * 2 ^ 64) by nia.
  by rewrite Z.mod_add by lia.
Qed.

Lemma lor_low_bit x b : in_range 1 b -> b ||| u32 (x <<< 1) = u32 (2 * x) + b.
Proof.
  intros Hb. rewrite Z.lor_comm, Z.shiftl_mul_pow2, Z.mul_comm by lia. change (2 ^ 1) with 2.
  assert (exists y, u32 (2 * x) = 2 * y) as [y ->].
  { exists (wrap 31 x). unfold wrap. change (2 ^ 32) with (2 * 2 ^ 31). by rewrite Z.mul_mod_distr_l by lia. }
  assert (b = 0 \/ b = 1) as [-> | ->] by (unfold in_range in Hb; lia); [by rewrite Z.lor_0_r, Z.add_0_r |].
  by destruct y as [| [] | []].
Qed.

Lemma words_double u t : in_range 32 u -> in_range 32 t ->
  u64 (words (u32 (u <<< 1)) ((u >>> 31) ||| u32 (t <<< 1))) = u64 (2 * words u t).
Proof.
  intros Hu Ht. assert (in_range 1 (u >>> 31)) as Hm.
  { unfold in_range in *. rewrite Z.shiftr_div_pow2 by lia.
    split; [apply Z.div_pos; lia | apply Z.div_lt_upper_bound; lia]. }
  rewrite lor_low_bit by done. unfold words. rewrite Z.shiftl_mul_pow2, Z.shiftr_div_pow2 in * by lia.
  unfold wrap. pose proof (Z.div_mod (u * 2 ^ 1) (2 ^ 32) ltac:(lia)) as H1.
  pose proof (Z.div_mod (2 * t) (2 ^ 32) ltac:(lia)) as H2.
  assert (u / 2 ^ 31 = u * 2 ^ 1 / 2 ^ 32) as E
    by (change (2 ^ 32) with (2 ^ 31 * 2 ^ 1); by rewrite Z.div_mul_cancel_r by lia).
  rewrite E. set (q := u * 2 ^ 1 / 2 ^ 32) in *. set (r := (u * 2 ^ 1) mod 2 ^ 32) in *.
  set (q' := 2 * t / 2 ^ 32) in *. set (r' := (2 * t) mod 2 ^ 32) in *.
  replace (2 * (u + 2 ^ 32 * t)) with (r + 2 ^ 32 * (r' + q) + q' * 2 ^ 64) by nia.
  by rewrite Z.mod_add by lia.
Qed.

Lemma mul_loop_correct k : forall u v wl wh wt, (0 < k)%nat -> in_range (Z.of_nat k) v ->
  in_range 32 u -> in_range 32 wl -> in_range 32 wh -> in_range 32 wt ->
  exists l h, mul_loop k u v wl wh wt = Ok (l, h) /\ in_range 32 l /\ in_range 32 h /\
    u64 (words l h) = u64 (words wl wh + v * words u wt).
Proof.
  induction k as [| k IH]; intros u v wl wh wt Hk Hv Hu Hwl Hwh Hwt; [lia |].
  cbn [mul_loop]. rewrite land_1, half_div.
  pose proof (Z.div_mod v 2 ltac:(lia)) as Hd. apply half_range in Hv as Hh.
  pose proof (Z.mod_pos_bound v 2 ltac:(lia)) as Hbit.
  set (st := if negb (v mod 2 =? 0) then _ else _).
  assert (in_range 32 st.1 /\ in_range 32 st.2 /\
    u64 (words st.1 st.2) = u64 (words wl wh + v mod 2 * words u wt)) as (H1 & H2 & H3).
  { unfold st. destruct (Z.eqb_spec (v mod 2) 0) as [-> |]; cbn [negb fst snd].
    - split; [done |]. split; [done |]. f_equal. lia.
    - split; [auto with cint |]. split; [auto with cint |].
      rewrite (Z.add_comm wt wh), words_add by done. f_equal. replace (v mod 2) with 1 by lia. lia. }
  destruct st as [l h]. cbn [fst snd] in *.
  destruct (Z.eqb_spec (v / 2) 0) as [E | E].
  { exists l, h. split_and!; try done. rewrite H3. f_equal. rewrite E in Hd. nia. }
  assert (in_range 1 (u >>> 31)) as Hm.
  { unfold in_range in *. rewrite Z.shiftr_div_pow2 by lia.
    split; [apply Z.div_pos; lia | apply Z.div_lt_upper_bound; lia]. }
  destruct (IH (u32 (u <<< 1)) (v / 2) l h ((u >>> 31) ||| u32 (wt <<< 1))) as (l' & h' & El & Hl & Hh' & Hw);
    try done; [by eapply range_pos | auto with cint | |].
  { apply lor_range; [lia | | auto with cint]. unfold in_range in *. lia. }
  exists l', h'. split_and!; try done. rewrite Hw.
  rewrite <- wrap_add_l, H3, <- wrap_add_r, <- wrap_mul_r, words_double by done.
  rewrite wrap_mul_r, wrap_add_r, wrap_add_l. f_equal. nia.
Qed.

Lemma words_wrap_high l h : u64 (words l (u32 h)) = u64 (words l h).
Proof.
  unfold words, wrap. pose proof (Z.div_mod h (2 ^ 32) ltac:(lia)) as H.
  replace (l + 2 ^ 32 * h) with (l + 2 ^ 32 * (h mod 2 ^ 32) + h / 2 ^ 32 * 2 ^ 64) by nia.
  by rewrite Z.mod_add by lia.
Qed.

Lemma add_part w y x : in_range 32 w ->
  (if x =? 0 then w else u32 (w + __muluw3 y x)) = u32 (w + y * x).
Proof.
  intros Hw. unfold __muluw3. destruct (Z.eqb_spec x 0) as [-> |]; [| by rewrite wrap_add_r].
  by rewrite Z.mul_0_r, Z.add_0_r, wrap_small.
Qed.

Lemma testbit_shl x b i : 0 <= i -> Z.testbit (x <<< b) i = Z.testbit x (i - b).
Proof. intros Hi. by apply Z.shiftl_spec. Qed.

Lemma ashldi3_low u b : 0 < b < 32 ->
  dword (u32 (hi (u64 u) <<< b) ||| (lo u >>> (32 - b))) (u32 (lo u <<< b)) = u64 (u <<< b).
Proof.
  intros Hb. unfold dword, hi, lo. zbits.
  destruct (Z.ltb_spec i 32), (Z.ltb_spec i 64), (Z.ltb_spec (i - 32) 32); try lia; cbn [andb orb].
  - rewrite !(Z.testbit_neg_r _ (i - 32)) by lia. cbn [orb].
    rewrite !testbit_shl, testbit_wrap by lia. by rewrite (proj2 (Z.ltb_lt (i - b) 32)) by lia.
  - rewrite orb_false_r, !testbit_shl, (Z.shiftr_spec (u32 u)) by lia.
    destruct (Z.ltb_spec (i - 32) b).
    + rewrite (Z.testbit_neg_r _ (i - 32 - b)) by lia. cbn [orb]. rewrite testbit_wrap by lia.
      rewrite (proj2 (Z.ltb_lt (i - 32 + (32 - b)) 32)) by lia. cbn. f_equal. lia.
    + rewrite Z.shiftr_spec, !testbit_wrap by lia.
      rewrite (proj2 (Z.ltb_lt (i - 32 - b + 32) 64)), (proj2 (Z.ltb_ge (i - 32 + (32 - b)) 32)) by lia.
      cbn. rewrite orb_false_r. f_equal. lia.
  - rewrite Z.shiftr_spec, testbit_wrap, orb_false_r by lia.
    by rewrite (proj2 (Z.ltb_ge (i - 32 + (32 - b)) 32)) by lia.
Qed.

Lemma ashldi3_high u b : 32 <= b < 64 -> dword (u32 (lo u <<< (b - 32))) 0 = u64 (u <<< b).
Proof.
  intros Hb. unfold dword, lo. zbits. rewrite Z.bits_0, orb_false_r, (testbit_shl u b i) by lia.
  destruct (Z.ltb_spec i 32).
  { rewrite (Z.testbit_neg_r u), andb_false_r by lia. destruct (i - 32 <? 32); [| done]. cbn.
    by rewrite Z.testbit_neg_r by lia. }
  rewrite testbit_shl, testbit_wrap by lia.
  destruct (Z.ltb_spec (i - 32) 32), (Z.ltb_spec i 64); cbn [andb]; try lia; try done.
  rewrite (proj2 (Z.ltb_lt (i - 32 - (b - 32)) 32)) by lia. cbn. f_equal. lia.
Qed.

(** C39. The compiler's 64-bit product: for all operands __muldi3 returns the product reduced to 64 bits
    (the loop ends within its 32 rounds), and __ashldi3 shifts by 0 to 63 places. *)
Theorem muldi3_correct u v b : in_srange 64 u ->
  __muldi3 u v = Ok (s64 (u * v)) /\ (0 <= b < 64 -> __ashldi3 u b = Ok (s64 (u * 2 ^ b))).
Proof.
  intros Hu. split.
  - unfold __muldi3.
    assert (forall x, in_range 32 (lo x)) as Hlo by (intros x; unfold lo; auto with cint).
    destruct (mul_loop_correct 32 (lo u) (lo v) 0 0 0) as (l & h & -> & Hl & Hh & Hw); [lia | apply Hlo | done..|].
    cbn [mbind res_bind]. rewrite (add_part h) by done. rewrite add_part by auto with cint.
    rewrite dword_add by done. f_equal. rewrite <- sext_wrap, <- (sext_wrap 64 (u * v)). f_equal.
    rewrite (Z.add_comm _ l), (Z.mul_comm _ (2 ^ 32)). fold (words l (u32 (u32 (h + lo v * hi (u64 u)) + lo u * hi (u64 v)))).
    rewrite wrap_add_l, words_wrap_high.
    replace (words l (h + lo v * hi (u64 u) + lo u * hi (u64 v)))
      with (words l h + 2 ^ 32 * (lo v * hi (u64 u) + lo u * hi (u64 v))) by (unfold words; lia).
    rewrite <- wrap_add_l, Hw, wrap_add_l.
    rewrite <- (wrap_mul_l 64 u), <- (wrap_mul_r 64 (u64 u)).
    assert (forall x, u64 x = hi (u64 x) * 2 ^ 32 + lo x) as Hx.
    { intros x. rewrite (hi_lo (u64 x)) at 1. f_equal. unfold lo. by rewrite wrap_wrap_le by lia. }
    pose proof (Hx u) as Eu. pose proof (Hx v) as Ev. clear Hx Hw.
    set (uh := hi (u64 u)) in *. set (vh := hi (u64 v)) in *. clearbody uh vh. rewrite Eu, Ev.
    replace ((uh * 2 ^ 32 + lo u) * (vh * 2 ^ 32 + lo v)) with (words 0 0 + lo v * words (lo u) 0 +
      2 ^ 32 * (lo v * uh + lo u * vh) + uh * vh * 2 ^ 64) by (unfold words; ring).
    unfold wrap at 2. by rewrite Z.mod_add by lia.
  - intros Hb. unfold __ashldi3, shl32. destruct (Z.eqb_spec b 0) as [-> |].
    { by rewrite Z.mul_1_r, sext_small by (done || lia). }
    rewrite <- Z.shiftl_mul_pow2 by lia.
    destruct (Z.leb_spec (32 - b) 0).
    + rewrite (proj2 (Z.leb_le 0 (- (32 - b)))), (proj2 (Z.ltb_lt (- (32 - b)) 32)) by lia.
      cbn [andb mbind res_bind]. replace (- (32 - b)) with (b - 32) by lia.
      by rewrite ashldi3_high, sext_wrap by lia.
    + rewrite (proj2 (Z.leb_le 0 b)), (proj2 (Z.ltb_lt b 32)) by lia. cbn [andb mbind res_bind].
      by rewrite ashldi3_low, sext_wrap by lia.
Qed.
End Libgcc.

(** ** The contest board (riscv/jyd) *)
Module JydBoard.

Definition CNT_MAGIC_CMD_START : Z := 0x80000000.
Definition CNT_MAGIC_CMD_STOP : Z := 0xffffffff.
Definition LED_MAGIC_SHAPE_CORRECT : Z := 0x1221c08.
Definition LED_MAGIC_SHAPE_WRONG : Z := 0x24181824.

(** The device registers a program writes, and its end by ebreak. *)
Inductive dev_access := WCnt (v : Z) | WSeg (v : Z) | WLed (v : Z) | WSerial (ch : Z) | Ebreak (a0 : Z).

Definition _start_cnt : list dev_access := replicate 10 (WCnt CNT_MAGIC_CMD_START).
Definition _stop_cnt : list dev_access := replicate 10 (WCnt CNT_MAGIC_CMD_STOP).

(** The loop of _tobcd, [n] rounds from [shift]. *)
Fixpoint tobcd_loop (n : nat) (shift x res : Z) : Z :=
  match n with
  | O => res
  | S n => tobcd_loop n (shift + 4) (x / 10) (res ||| u32 ((x mod 10) <<< shift))
  end.
Definition _tobcd (x : Z) : Z := tobcd_loop 8 0 x 0.

Definition _update_seg (v : Z) : list dev_access := [WSeg (_tobcd v)].

(** [cnt] is what the counter register reads. *)
Definition halt (cnt code : Z) : list dev_access :=
  _update_seg cnt ++
  [WLed (if code =? 0 then LED_MAGIC_SHAPE_CORRECT else LED_MAGIC_SHAPE_WRONG); Ebreak code].

(** [main] is the program: its device accesses and its answer; [cnt] the counter at the end. *)
Definition _trm_init (cnt : Z) (main : list dev_access * Z) : list dev_access :=
  (WSerial <$> bytes "[JYD] UART ready" ++ [10]) ++ _start_cnt ++ main.1 ++ _stop_cnt ++ halt cnt main.2.

(** timer.c: the counter runs at 50 MHz. *)
Definition __am_timer_uptime (start ticks : Z) : Z := u32 (ticks - start) / 50.

(** What the simulated board (SocMem) shows after the accesses. *)
Definition on_board (l : list dev_access) (b : Jyd.jyd_state) : Jyd.jyd_state :=
  foldl (fun b a => match a with
                    | WSeg v => Jyd.jyd_update_seg v b
                    | WLed v => Jyd.jyd_update_led v b
                    | _ => b
                    end) b l.

(** The digit at place [i] of the display. *)
Definition digit (v : Z) (i : nat) : Z := (v >>> (4 * Z.of_nat i)) &&& 0xf.

(** The digits of a number, four bits each. *)
Fixpoint packed (n : nat) (x : Z) : Z :=
  match n with O => 0 | S n => x mod 10 + 16 * packed n (x / 10) end.

Lemma tobcd_loop_packed n : forall shift x res, 0 <= shift -> shift + 4 * Z.of_nat n <= 32 ->
  in_range shift res -> tobcd_loop n shift x res = res + packed n x * 2 ^ shift.
Proof.
  induction n as [| n IH]; intros shift x res Hs Hn Hr; cbn [tobcd_loop packed]; [lia |].
  pose proof (Z.mod_pos_bound x 10 ltac:(lia)) as Hd.
  assert (2 ^ (shift + 4) = 16 * 2 ^ shift) as Hp by (rewrite Z.pow_add_r by lia; lia).
  assert (2 ^ (shift + 4) <= 2 ^ 32) as Hle by (apply Z.pow_le_mono_r; lia).
  assert (0 < 2 ^ shift) by (apply Z.pow_pos_nonneg; lia). unfold in_range in *.
  rewrite wrap_small by (unfold in_range; rewrite Z.shiftl_mul_pow2 by lia; nia).
  rewrite Z.lor_comm, lor_add by (done || lia).
  rewrite IH by (unfold in_range; lia || nia). rewrite Hp. lia.
Qed.

Lemma packed_digit n : forall x i, (i < n)%nat -> digit (packed n x) i = x / 10 ^ Z.of_nat i mod 10.
Proof.
  unfold digit. change 0xf with (Z.ones 4).
  induction n as [| n IH]; intros x i Hi; [lia |]. cbn [packed].
  pose proof (Z.mod_pos_bound x 10 ltac:(lia)) as Hd. rewrite Z.land_ones by lia.
  rewrite Z.shiftr_div_pow2 by lia. destruct i as [| i].
  - cbn [Z.of_nat]. rewrite Z.mul_0_r, !Z.div_1_r. change (2 ^ 4) with 16.
    rewrite Z.mul_comm, Z.mod_add by lia. apply Z.mod_small. lia.
  - replace (4 * Z.of_nat (S i)) with (4 + 4 * Z.of_nat i) by lia.
    rewrite Z.pow_add_r, <- Z.div_div by lia. change (2 ^ 4) with 16 at 1.
    rewrite (Z.mul_comm 16), Z.div_add, (Z.div_small (x mod 10)), Z.add_0_l by lia.
    rewrite <- Z.shiftr_div_pow2, <- Z.land_ones, IH by lia.
    rewrite Nat2Z.inj_succ, Z.pow_succ_r, <- Z.div_div by lia. done.
Qed.

Lemma packed_range n : forall x, in_range (4 * Z.of_nat n) (packed n x).
Proof.
  induction n as [| n IH]; intros x; [done |]. cbn [packed]. specialize (IH (x / 10)).
  pose proof (Z.mod_pos_bound x 10 ltac:(lia)). unfold in_range in *.
  replace (4 * Z.of_nat (S n)) with (4 + 4 * Z.of_nat n) by lia. rewrite Z.pow_add_r by lia. lia.
Qed.

Lemma tobcd_packed x : _tobcd x = packed 8 x.
Proof. unfold _tobcd. rewrite tobcd_loop_packed by done. lia. Qed.

Lemma on_board_halt cnt code b :
  Jyd.last_segs (on_board (halt cnt code) b) = u32 (_tobcd cnt) /\
  Jyd.last_led (on_board (halt cnt code) b) =
    u32 (if code =? 0 then LED_MAGIC_SHAPE_CORRECT else LED_MAGIC_SHAPE_WRONG).
Proof. done. Qed.

(** C40. The end of a program on the board: whatever the program did, the display shows the decimal
    digits of the counter, the LEDs the shape the simulator takes for success exactly when the
    program returned 0, and its answer reaches ebreak. *)
Theorem board_shows_result cnt main b :
  let l := _trm_init cnt main in
  let b' := on_board l b in
  (forall i, (i < 8)%nat -> digit (Jyd.last_segs b') i = cnt / 10 ^ Z.of_nat i mod 10) /\
  (Jyd.last_led b' = Jyd.good_trap_led_1 <-> main.2 = 0) /\
  Jyd.last_led b' <> Jyd.good_trap_led_2 /\ last l = Some (Ebreak main.2).
Proof.
  unfold _trm_init. cbv zeta. destruct main as [acc code]. cbn [fst snd].
  rewrite !(assoc_L (++)). set (l0 := ((_ ++ _) ++ acc) ++ _).
  assert (on_board (l0 ++ halt cnt code) b = on_board (halt cnt code) (on_board l0 b)) as ->
    by apply foldl_app.
  destruct (on_board_halt cnt code (on_board l0 b)) as [-> ->]. rewrite tobcd_packed.
  rewrite (wrap_small 32 (packed 8 cnt)) by apply (packed_range 8).
  split; [intros i Hi; by apply packed_digit |].
  split; [| split].
  - destruct (Z.eqb_spec code 0); [done |]. split; [done | intros; lia].
  - by destruct (code =? 0).
  - unfold halt. rewrite last_app. done.
Qed.
End JydBoard.

(** ** The boot loader of ysyxSoC (riscv/ysyxsoc/trm.c) *)
Module Boot.

(** A failed BOOT_ASSERT prints a message and halts. *)
Definition IS_4BYTE_ALIGNED (x : Z) : bool := (x &&& 3) =? 0.

(** The registers written, after LCR was read back. *)
Definition init_serial (lcr : Z) : res (list (Z * Z)) :=
  if negb (lcr =? 0x83) then Fault FPanic
  else Ok [(3, 0x83); (1, 0); (0, 1); (3, 3); (2, 0xc0); (1, 0)].

(** d[i] = s[i] for words and for bytes. *)
Definition copy_word (dst src i : Z) (m : mem) : mem :=
  le_write 4 m (dst + 4 * i) (le_read 4 m (src + 4 * i)).
Definition copy_byte (dst src i : Z) (m : mem) : mem := mwrite m (dst + i) (m (src + i)).

(** The loop over blocks of four words, the loops over the remaining words and bytes. *)
Fixpoint copy_blocks (fuel : nat) (dst src nWords i : Z) (m : mem) : res (Z * mem) :=
  match fuel with
  | O => Fault FFuel
  | S fuel =>
      if i <? nWords then
        let m := copy_word dst src i m in
        let m := copy_word dst src (i + 1) m in
        let m := copy_word dst src (i + 2) m in
        let m := copy_word dst src (i + 3) m in
        copy_blocks fuel dst src nWords (i + 4) m
      else Ok (i, m)
  end.
Fixpoint copy_while (copy : Z -> mem -> mem) (fuel : nat) (i n : Z) (m : mem) : res mem :=
  match fuel with
  | O => Fault FFuel
  | S fuel => if i <? n then copy_while copy fuel (i + 1) n (copy i m) else Ok m
  end.

Definition _ssbl_memcpy (dst src n : Z) (m : mem) : res mem :=
  c_assert (negb (n =? 0));;
  c_assert (IS_4BYTE_ALIGNED dst);;
  c_assert (IS_4BYTE_ALIGNED src);;
  let nWords := n / 4 in
  let fuel := S (Z.to_nat n) in
  '(i, m) ← copy_blocks fuel dst src nWords 0 m;
  m ← copy_while (copy_word dst src) fuel i nWords m;
  copy_while (copy_byte dst src) fuel (nWords * 4) n m.

(** The first stage has its own copy of the function. *)
Definition boot_memcpy (dst src n : Z) (m : mem) : res mem := _ssbl_memcpy dst src n m.

Definition _ssbl_clear_word_aligned (dst n : Z) (m : mem) : res mem :=
  c_assert (IS_4BYTE_ALIGNED dst);;
  c_assert (IS_4BYTE_ALIGNED n);;
  copy_while (fun i m => le_write 4 m (dst + 4 * i) 0) (S (Z.to_nat n)) 0 (n / 4) m.

Definition _ssbl_clear (dst n : Z) (m : mem) : res mem :=
  if n =? 0 then Ok m
  else
    c_assert (IS_4BYTE_ALIGNED dst);;
    let aligned_n := Z.land n (Z.lnot 3) in
    m ← _ssbl_clear_word_aligned dst aligned_n m;
    let remaining := n - aligned_n in
    if remaining =? 0 then Ok m
    else copy_while (fun i m => mwrite m (dst + aligned_n + i) 0) 4 0 remaining m.

(** The symbols of the linker script: where a section runs, where it is loaded from, its size. *)
Record section := Sec { run_at : Z; load_at : Z; size : Z }.
Record layout := Layout {
  ssbl : section; text : section; rodata : section; data : section;
  bss : Z * Z; bss_extra : Z * Z; data_extra : section; heap : Z * Z }.

Definition copy_section (s : section) (m : mem) : res mem :=
  _ssbl_memcpy (run_at s) (load_at s) (size s) m.

(** The memory [main] starts with. *)
Definition _second_boot (L : layout) (m : mem) : res mem :=
  m ← copy_section (rodata L) m;
  m ← copy_section (text L) m;
  m ← copy_section (data L) m;
  m ← _ssbl_clear (fst (bss L)) (snd (bss L)) m;
  m ← (if snd (bss_extra L) =? 0 then Ok m else _ssbl_clear (fst (bss_extra L)) (snd (bss_extra L)) m);
  m ← (if size (data_extra L) =? 0 then Ok m else copy_section (data_extra L) m);
  c_assert (fst (heap L) <? snd (heap L));;
  Ok m.

Definition _trm_init (lcr : Z) (L : layout) (m : mem) : res mem :=
  _ ← init_serial lcr;
  m ← boot_memcpy (run_at (ssbl L)) (load_at (ssbl L)) (size (ssbl L)) m;
  _second_boot L m.

(** *** Copying *)

(** [len] bytes from [src] in place of those at [dst]. *)
Definition filled (dst src len : Z) (m : mem) : mem :=
  fun x => if (dst <=? x) && (x <? dst + len) then m (x - dst + src) else m x.

Lemma filled_inside dst src len m x : dst <= x < dst + len -> filled dst src len m x = m (x - dst + src).
Proof. intros H. unfold filled. destruct (Z.leb_spec dst x), (Z.ltb_spec x (dst + len)); lia || done. Qed.
Lemma filled_outside dst src len m x : x < dst \/ dst + len <= x -> filled dst src len m x = m x.
Proof. intros H. unfold filled. destruct (Z.leb_spec dst x), (Z.ltb_spec x (dst + len)); lia || done. Qed.

Lemma filled_bytes dst src len m : bytes_ok m -> bytes_ok (filled dst src len m).
Proof. intros H x. unfold filled. destruct (_ && _); apply H. Qed.

Lemma bytes_ok_ext m m' : (forall x, m' x = m x) -> bytes_ok m -> bytes_ok m'.
Proof. intros E H x. rewrite E. apply H. Qed.

Lemma le_read_byte n m a k : bytes_ok m -> 0 <= k < Z.of_nat n ->
  u8 (le_read n m a >>> (8 * k)) = m (a + k).
Proof.
  intros Hb. revert a k. induction n as [| n IH]; intros a k Hk; [lia |]. cbn [le_read].
  pose proof (Hb a) as Ha. rewrite Z.lor_comm, lor_add by (done || lia). unfold in_range in Ha.
  destruct (Z.eq_dec k 0) as [-> | Hk0].
  - rewrite Z.mul_0_r, Z.shiftr_0_r, Z.add_0_r. unfold wrap. rewrite Z.add_comm, Z.mod_add by lia.
    by apply Z.mod_small.
  - replace (8 * k) with (8 + 8 * (k - 1)) by lia. rewrite <- Z.shiftr_shiftr by lia.
    rewrite (Z.shiftr_div_pow2 _ 8), Z.add_comm, Z.div_add, Z.div_small, Z.add_0_l by lia.
    rewrite IH by lia. f_equal. lia.
Qed.

(** The memory after [len] bytes, for a source and a target that stay apart over [W] bytes. *)
Definition copied (dst src len : Z) (m m' : mem) : Prop := forall x, m' x = filled dst src len m x.
Definition apart (dst src W : Z) : Prop := src + W <= dst \/ dst + W <= src.

Lemma copied_bytes dst src len m m' : bytes_ok m -> copied dst src len m m' -> bytes_ok m'.
Proof. intros Hm H. eapply bytes_ok_ext; [exact H |]. by apply filled_bytes. Qed.

Lemma copy_word_copied dst src W i len m m' : bytes_ok m -> apart dst src W -> 0 <= i -> 4 * i + 4 <= W ->
  4 * i <= len <= W -> copied dst src len m m' ->
  copied dst src (Z.max len (4 * i + 4)) m (copy_word dst src i m').
Proof.
  intros Hm Ha Hi HW Hlen H x. pose proof (copied_bytes _ _ _ _ _ Hm H) as Hm'.
  unfold copy_word. rewrite le_write_lookup. unfold filled in *. unfold apart in Ha.
  destruct (Z.leb_spec (dst + 4 * i) x), (Z.ltb_spec x (dst + 4 * i + Z.of_nat 4)); cbn [andb].
  - rewrite le_read_byte by (done || lia). rewrite H. unfold filled.
    destruct (Z.leb_spec dst x), (Z.ltb_spec x (dst + Z.max len (4 * i + 4))); try lia; cbn [andb].
    replace (src + 4 * i + (x - (dst + 4 * i))) with (x - dst + src) by lia.
    destruct (Z.leb_spec dst (x - dst + src)), (Z.ltb_spec (x - dst + src) (dst + len)); cbn; lia || done.
  - rewrite H. unfold filled. destruct (Z.leb_spec dst x), (Z.ltb_spec x (dst + len)),
      (Z.ltb_spec x (dst + Z.max len (4 * i + 4))); cbn; lia || done.
  - rewrite H. unfold filled. destruct (Z.leb_spec dst x), (Z.ltb_spec x (dst + len)),
      (Z.ltb_spec x (dst + Z.max len (4 * i + 4))); cbn; lia || done.
  - lia.
Qed.

Lemma copy_byte_copied dst src W i len m m' : apart dst src W -> 0 <= i -> i + 1 <= W ->
  i <= len <= W -> copied dst src len m m' -> copied dst src (Z.max len (i + 1)) m (copy_byte dst src i m').
Proof.
  intros Ha Hi HW Hlen H x. unfold copy_byte, mwrite. unfold apart in Ha. rewrite !H. unfold filled.
  destruct (Z.eqb_spec x (dst + i)) as [-> |].
  - destruct (Z.leb_spec dst (dst + i)), (Z.ltb_spec (dst + i) (dst + Z.max len (i + 1))); try lia; cbn [andb].
    destruct (Z.leb_spec dst (src + i)), (Z.ltb_spec (src + i) (dst + len)); cbn; try lia; f_equal; lia.
  - destruct (Z.leb_spec dst x), (Z.ltb_spec x (dst + len)),
      (Z.ltb_spec x (dst + Z.max len (i + 1))); cbn; lia || done.
Qed.
(** The words the block loop copies: the next multiple of four. *)
Definition block_words (nWords : Z) : Z := 4 * ((nWords + 3) / 4).

Lemma copy_blocks_copied dst src W nWords m : bytes_ok m -> apart dst src W -> 0 <= nWords ->
  4 * block_words nWords <= W -> forall fuel q m', 4 * q <= block_words nWords -> 0 <= q ->
  block_words nWords - 4 * q < 4 * Z.of_nat fuel -> copied dst src (16 * q) m m' ->
  exists m'', copy_blocks fuel dst src nWords (4 * q) m' = Ok (block_words nWords, m'') /\
    copied dst src (4 * block_words nWords) m m''.
Proof.
  intros Hm Ha Hn HW. induction fuel as [| fuel IH]; intros q m' Hq H0 Hf H; [lia |]. cbn [copy_blocks].
  assert (nWords <= block_words nWords < nWords + 4) as HB.
  { unfold block_words. pose proof (Z.div_mod (nWords + 3) 4 ltac:(lia)).
    pose proof (Z.mod_pos_bound (nWords + 3) 4 ltac:(lia)). lia. }
  assert (block_words nWords mod 4 = 0) as HB4 by (unfold block_words; rewrite Z.mul_comm; apply Z.mod_mul; lia).
  pose proof (Z.div_mod (block_words nWords) 4 ltac:(lia)) as HBq.
  destruct (Z.ltb_spec (4 * q) nWords).
  - replace (4 * q + 4) with (4 * (q + 1)) by lia. apply IH; [lia | lia | lia |].
    apply (copy_word_copied _ _ W (4 * q)) in H; [| done | done | lia..].
    apply (copy_word_copied _ _ W (4 * q + 1)) in H; [| done | done | lia..].
    apply (copy_word_copied _ _ W (4 * q + 2)) in H; [| done | done | lia..].
    apply (copy_word_copied _ _ W (4 * q + 3)) in H; [| done | done | lia..].
    replace (16 * (q + 1)) with (Z.max (Z.max (Z.max (Z.max (16 * q) (4 * (4 * q) + 4)) (4 * (4 * q + 1) + 4))
      (4 * (4 * q + 2) + 4)) (4 * (4 * q + 3) + 4)) by lia. exact H.
  - exists m'. assert (4 * q = block_words nWords) as E by lia. rewrite <- E. split; [done |].
    by replace (4 * (4 * q)) with (16 * q) by lia.
Qed.

Lemma copy_bytes_copied dst src W n m : apart dst src W -> n <= W -> forall fuel i len m', 0 <= i ->
  Z.max 0 (n - i) < Z.of_nat fuel -> i <= len <= W -> copied dst src len m m' ->
  exists m'', copy_while (copy_byte dst src) fuel i n m' = Ok m'' /\ copied dst src (Z.max len n) m m''.
Proof.
  intros Ha HW. induction fuel as [| fuel IH]; intros i len m' Hi Hf Hl H; [| cbn [copy_while]].
  { lia. }
  destruct (Z.ltb_spec i n).
  - apply (copy_byte_copied _ _ W i) in H; [| done | lia..].
    destruct (IH (i + 1) (Z.max len (i + 1)) _ ltac:(lia) ltac:(lia) ltac:(lia) H) as (m'' & E & H'').
    exists m''. split; [done |]. by replace (Z.max len n) with (Z.max (Z.max len (i + 1)) n) by lia.
  - exists m'. split; [done |]. by rewrite Z.max_l by lia.
Qed.

(** The bytes a copy writes. *)
Definition written (n : Z) : Z := Z.max n (4 * block_words (n / 4)).

Lemma written_bounds n : 0 <= n -> n <= written n <= n + 12.
Proof. intros Hn. unfold written, block_words. Z.to_euclidean_division_equations; lia. Qed.

Lemma aligned_mod x : IS_4BYTE_ALIGNED x = (x mod 4 =? 0).
Proof. unfold IS_4BYTE_ALIGNED. by rewrite land_3. Qed.

Lemma ssbl_memcpy_copied dst src n m : bytes_ok m -> 0 < n -> dst mod 4 = 0 -> src mod 4 = 0 ->
  apart dst src (written n) ->
  exists m', _ssbl_memcpy dst src n m = Ok m' /\ copied dst src (written n) m m'.
Proof.
  intros Hm Hn Hd Hs Ha. unfold _ssbl_memcpy. rewrite !aligned_mod, Hd, Hs.
  rewrite (proj2 (Z.eqb_neq n 0)) by lia. cbn [negb c_assert mbind res_bind Z.eqb].
  pose proof (Z.div_mod n 4 ltac:(lia)). pose proof (Z.mod_pos_bound n 4 ltac:(lia)).
  assert (n / 4 <= block_words (n / 4) < n / 4 + 4) as HB.
  { unfold block_words. Z.to_euclidean_division_equations; lia. }
  destruct (copy_blocks_copied dst src (written n) (n / 4) m Hm Ha ltac:(lia) ltac:(unfold written; lia)
    (S (Z.to_nat n)) 0 m) as (m1 & E1 & H1); [lia | lia | lia | |].
  { intros x. unfold filled. destruct (Z.leb_spec dst x), (Z.ltb_spec x (dst + 16 * 0)); cbn; lia || done. }
  rewrite Z.mul_0_r in E1. rewrite E1. cbn [mbind res_bind].
  assert (copy_while (copy_word dst src) (S (Z.to_nat n)) (block_words (n / 4)) (n / 4) m1 = Ok m1) as ->
    by (cbn [copy_while]; by rewrite (proj2 (Z.ltb_ge _ _)) by lia).
  cbn [mbind res_bind].
  destruct (copy_bytes_copied dst src (written n) n m Ha ltac:(unfold written; lia) (S (Z.to_nat n)) (n / 4 * 4)
    (4 * block_words (n / 4)) m1) as (m2 & E2 & H2); [lia | lia | unfold written; lia | done |].
  exists m2. split; [done |]. unfold written. by rewrite Z.max_comm.
Qed.
(** *** Clearing *)

Definition zeroed (dst len : Z) (m m' : mem) : Prop :=
  forall x, m' x = if (dst <=? x) && (x <? dst + len) then 0 else m x.

Lemma clear_while dst base w (f : Z -> mem -> mem) m :
  (forall i m', 0 <= i -> zeroed dst (base + w * i) m m' -> zeroed dst (base + w * (i + 1)) m (f i m')) ->
  forall fuel i k m', 0 <= i <= k -> k - i < Z.of_nat fuel -> zeroed dst (base + w * i) m m' ->
  exists m'', copy_while f fuel i k m' = Ok m'' /\ zeroed dst (base + w * k) m m''.
Proof.
  intros Hf. induction fuel as [| fuel IH]; intros i k m' Hi Hfu H; [lia |]. cbn [copy_while].
  destruct (Z.ltb_spec i k).
  - apply IH; [lia | lia |]. apply Hf; [lia | done].
  - exists m'. split; [done |]. by replace k with i by lia.
Qed.

Lemma ssbl_clear_zeroed dst n m : 0 <= n -> dst mod 4 = 0 ->
  exists m', _ssbl_clear dst n m = Ok m' /\ zeroed dst n m m'.
Proof.
  intros Hn Hd. unfold _ssbl_clear, _ssbl_clear_word_aligned. rewrite !aligned_mod, land_not_3, Hd.
  replace (n - n mod 4) with (4 * (n / 4)) by (pose proof (Z.div_mod n 4 ltac:(lia)); lia).
  assert (zeroed dst 0 m m) as H0.
  { intros x. destruct (Z.leb_spec dst x), (Z.ltb_spec x (dst + 0)); cbn; lia || done. }
  destruct (Z.eqb_spec n 0) as [-> |]; [by exists m |]. cbn [Z.eqb c_assert mbind res_bind].
  rewrite (Z.mul_comm 4 (n / 4)), Z.mod_mul, Z.div_mul by lia. cbn [Z.eqb c_assert mbind res_bind].
  pose proof (Z.div_mod n 4 ltac:(lia)) as Hdm. pose proof (Z.mod_pos_bound n 4 ltac:(lia)) as Hmb.
  assert (0 <= n / 4) as Hq by (apply Z.div_pos; lia).
  destruct (clear_while dst 0 4 (fun i m => le_write 4 m (dst + 4 * i) 0) m) with
    (fuel := S (Z.to_nat (n / 4 * 4))) (i := 0) (k := n / 4) (m' := m) as (m1 & -> & H1); [| lia | lia | done |].
  { intros i m' Hi H' x. rewrite le_write_lookup, H', Z.shiftr_0_l.
    destruct (Z.leb_spec (dst + 4 * i) x), (Z.ltb_spec x (dst + 4 * i + Z.of_nat 4)), (Z.leb_spec dst x),
      (Z.ltb_spec x (dst + (0 + 4 * i))), (Z.ltb_spec x (dst + (0 + 4 * (i + 1)))); cbn; lia || done. }
  cbn [mbind res_bind]. destruct (Z.eqb_spec (n - n / 4 * 4) 0).
  { exists m1. split; [done |]. by replace n with (0 + 4 * (n / 4)) by lia. }
  destruct (clear_while dst (n / 4 * 4) 1 (fun i m => mwrite m (dst + n / 4 * 4 + i) 0) m) with
    (fuel := 4%nat) (i := 0) (k := n - n / 4 * 4) (m' := m1) as (m2 & E2 & H2).
  { intros i m' Hi H' x. unfold mwrite. rewrite H'.
    destruct (Z.eqb_spec x (dst + n / 4 * 4 + i)), (Z.leb_spec dst x),
      (Z.ltb_spec x (dst + (n / 4 * 4 + 1 * i))), (Z.ltb_spec x (dst + (n / 4 * 4 + 1 * (i + 1)))); cbn; lia || done. }
  { lia. }
  { lia. }
  { by replace (n / 4 * 4 + 1 * 0) with (0 + 4 * (n / 4)) by lia. }
  exists m2. split; [exact E2 |]. by replace n with (n / 4 * 4 + 1 * (n - n / 4 * 4)) at 1 by lia.
Qed.

(** *** The program after booting *)

(** A section that can be copied. *)
Definition copyable (s : section) : Prop := 0 < size s /\ run_at s mod 4 = 0 /\ load_at s mod 4 = 0.

(** The memory regions of the linker script. *)
Definition FLASH : Z * Z := (0x30000000, 0x31000000).
Definition SRAM : Z * Z := (0x0f000000, 0x0f002000).
Definition RUNTIME : Z * Z := (0xa0000000, 0xa2000000).
Definition in_region (r : Z * Z) (a n : Z) : Prop := fst r <= a /\ a + n <= snd r.

(** A section with what its copy writes: it is loaded from flash and runs in [r]. *)
Definition placed (r : Z * Z) (s : section) : Prop :=
  copyable s /\ in_region FLASH (load_at s) (written (size s)) /\ in_region r (run_at s) (written (size s)).

(** A layout: the second stage in SRAM, the sections in order in the runtime memory, all
    loaded from flash, wherever there (the script does not tie the distances between sections
    in flash to those in memory).  The extra sections are empty, the default of the script. *)
Record layout_ok (L : layout) : Prop := {
  lo_ssbl : placed SRAM (ssbl L);
  lo_text : placed RUNTIME (text L);
  lo_rodata : placed RUNTIME (rodata L);
  lo_data : placed RUNTIME (data L);
  lo_order : run_at (text L) + size (text L) <= run_at (rodata L) /\
    run_at (rodata L) + size (rodata L) <= run_at (data L) /\ run_at (data L) + size (data L) <= fst (bss L);
  lo_bss : 0 <= snd (bss L) /\ fst (bss L) mod 4 = 0 /\ fst (bss L) + snd (bss L) <= snd RUNTIME;
  lo_extra : snd (bss_extra L) = 0 /\ size (data_extra L) = 0;
  lo_heap : fst (heap L) < snd (heap L)
}.

Definition within (s : section) (x : Z) : Prop := run_at s <= x < run_at s + size s.

(** The section's bytes in [m'] are those flash had in [m]. *)
Definition loaded (m : mem) (s : section) (m' : mem) : Prop :=
  forall x, within s x -> m' x = m (x - run_at s + load_at s).

(** Copying a placed section, from a memory whose flash is that of [m0]. *)
Lemma copy_section_placed m0 m r s : bytes_ok m -> placed r s -> snd r <= fst FLASH \/ snd FLASH <= fst r ->
  (forall y, fst FLASH <= y < snd FLASH -> m y = m0 y) ->
  exists m', _ssbl_memcpy (run_at s) (load_at s) (size s) m = Ok m' /\ bytes_ok m' /\
    (forall y, fst FLASH <= y < snd FLASH -> m' y = m0 y) /\
    (forall x, run_at s <= x < run_at s + written (size s) -> m' x = m0 (x - run_at s + load_at s)) /\
    (forall x, x < run_at s \/ run_at s + written (size s) <= x -> m' x = m x).
Proof.
  intros Hm [[Hn [H1 H2]] [[F1 F2] [R1 R2]]] Hr Hf. pose proof (written_bounds (size s) ltac:(lia)).
  destruct (ssbl_memcpy_copied (run_at s) (load_at s) (size s) m) as (m' & E & H'); [done.. | unfold apart; lia |].
  exists m'. split; [done |]. split; [by eapply copied_bytes |]. split; [| split].
  - intros y Hy. rewrite H', filled_outside by lia. by apply Hf.
  - intros x Hx. rewrite H', filled_inside by lia. apply Hf. lia.
  - intros x Hx. rewrite H'. by apply filled_outside.
Qed.

(** C38. Booting from reset, when the UART answers: both stages succeed, and afterwards the second
    stage, the program's code and its data are the bytes in flash, and the uninitialised data is
    zero - although a copy writes up to twelve bytes more than its size.  The constants are copied first, and
    the copy of the code overruns into them: a byte of the constants that the overrun reaches
    is the flash byte at the code's distance, every other one its own.  So the constants are
    right when the overrun ends before them or both sections have the same distance from
    flash; the linker script enforces neither.  When the UART does not answer, booting
    halts. *)
Theorem boot_loads_program lcr L m : bytes_ok m -> layout_ok L ->
  if negb (lcr =? 0x83) then _trm_init lcr L m = Fault FPanic
  else
    let overrun := run_at (text L) + written (size (text L)) in
    exists m', _trm_init lcr L m = Ok m' /\
      loaded m (ssbl L) m' /\ loaded m (text L) m' /\ loaded m (data L) m' /\
      (forall x, within (rodata L) x ->
         m' x = m (if x <? overrun then x - run_at (text L) + load_at (text L)
                   else x - run_at (rodata L) + load_at (rodata L))) /\
      (overrun <= run_at (rodata L) \/ load_at (text L) - run_at (text L) = load_at (rodata L) - run_at (rodata L) ->
       loaded m (rodata L) m') /\
      (forall x, fst (bss L) <= x < fst (bss L) + snd (bss L) -> m' x = 0).
Proof.
  intros Hm [Ps Pt Pr Pd (O1 & O2 & O3) (Hb & Hb4 & Hbe) [X1 X2] Hh]. unfold _trm_init, init_serial.
  destruct (negb (lcr =? 0x83)); [done |]. cbv zeta. cbn [mbind res_bind].
  destruct (copy_section_placed m m SRAM (ssbl L)) as (m1 & E1 & B1 & F1 & I1 & U1); [done | done | cbn; lia | done |].
  unfold boot_memcpy. rewrite E1. cbn [mbind res_bind]. unfold _second_boot, copy_section.
  destruct (copy_section_placed m m1 RUNTIME (rodata L)) as (m2 & E2 & B2 & F2 & I2 & U2); [done | done | cbn; lia | done |].
  rewrite E2. cbn [mbind res_bind].
  destruct (copy_section_placed m m2 RUNTIME (text L)) as (m3 & E3 & B3 & F3 & I3 & U3); [done | done | cbn; lia | done |].
  rewrite E3. cbn [mbind res_bind].
  destruct (copy_section_placed m m3 RUNTIME (data L)) as (m4 & E4 & B4 & F4 & I4 & U4); [done | done | cbn; lia | done |].
  rewrite E4. cbn [mbind res_bind].
  destruct (ssbl_clear_zeroed (fst (bss L)) (snd (bss L)) m4 Hb Hb4) as (m5 & -> & H5).
  cbn [mbind res_bind]. rewrite X1, X2, (proj2 (Z.ltb_lt _ _)) by done. cbn [Z.eqb c_assert mbind res_bind].
  exists m5. split; [done |].
  assert (forall x, x < fst (bss L) -> m5 x = m4 x) as U5.
  { intros x Hx. rewrite H5. by rewrite (proj2 (Z.leb_gt _ _)) by lia. }
  unfold placed, in_region, copyable in *. cbn [fst snd FLASH SRAM RUNTIME] in *.
  pose proof (written_bounds (size (ssbl L)) ltac:(lia)). pose proof (written_bounds (size (text L)) ltac:(lia)).
  pose proof (written_bounds (size (rodata L)) ltac:(lia)). pose proof (written_bounds (size (data L)) ltac:(lia)).
  assert (forall x, within (rodata L) x ->
    m5 x = m (if x <? run_at (text L) + written (size (text L)) then x - run_at (text L) + load_at (text L)
              else x - run_at (rodata L) + load_at (rodata L))) as Hro.
  { intros x Hx. unfold within in Hx. rewrite U5, U4 by lia.
    destruct (Z.ltb_spec x (run_at (text L) + written (size (text L)))); [apply I3; lia |].
    rewrite U3 by lia. apply I2. lia. }
  split_and!.
  - intros x Hx. unfold within in Hx. rewrite U5, U4, U3, U2 by lia. apply I1. lia.
  - intros x Hx. unfold within in Hx. rewrite U5, U4 by lia. apply I3. lia.
  - intros x Hx. unfold within in Hx. rewrite U5 by lia. apply I4. lia.
  - exact Hro.
  - intros Hc x Hx. rewrite Hro by done. unfold within in Hx. f_equal. destruct (Z.ltb_spec x (run_at (text L) + written (size (text L)))); lia.
  - intros x Hx. rewrite H5. destruct (Z.leb_spec (fst (bss L)) x), (Z.ltb_spec x (fst (bss L) + snd (bss L))); lia || done.
Qed.

(** Four bytes of code and constants aligned to eight, packed in flash: the copy of the code
    overwrites the first constant with the flash byte after it. *)
Definition packed_layout : layout :=
  Layout (Sec 0x0f000000 0x30000100 4) (Sec 0xa0000000 0x30000200 4) (Sec 0xa0000008 0x30000204 8)
    (Sec 0xa0000010 0x3000020c 4) (0xa0000014, 4) (0xa0000018, 0) (Sec 0 0 0) (0xa0000018, 0xa2000000).

Example packed_layout_corrupts :
  let m := fun x => u8 x in
  match _trm_init 0x83 packed_layout m with
  | Ok m' => m' 0xa0000008 = 8 /\ m 0x30000204 = 4
  | Fault _ => False
  end.
Proof. vm_compute. split; reflexivity. Qed.
End Boot.

(** ** Traps (riscv/npc/cte.c) *)
Module Cte.

Inductive event := EVENT_NULL | EVENT_YIELD | EVENT_ERROR.
Record Context := Ctx { gpr : list Z; mcause : Z; mstatus : Z; mepc : Z }.

(** GPR1 is a7, register 17; the context is found by the address the assembly code passes.  A null
    context is a panic. *)
Definition __am_irq_handle (user_handler : option (event -> Context -> option Context)) (c : Context)
  : res Context :=
  match user_handler with
  | None => Ok c
  | Some h =>
      '(ev, c) ← (if mcause c =? 11 then
                    if aget 0 (gpr c) 17 =? 0xffffffff
                    then Ok (EVENT_YIELD, Ctx (gpr c) (mcause c) (mstatus c) (u32 (mepc c + 4)))
                    else Fault FPanic
                  else Ok (EVENT_ERROR, c));
      match h ev c with None => Fault FPanic | Some c => Ok c end
  end.

(** The context at the top of a stack: its address and its fields. *)
Definition kcontext (kstack_end entry arg : Z) : Z * Context :=
  (kstack_end - 4 * (32 + 3), Ctx (aset (replicate 32 0) 10 arg) 0 0x1800 entry).

(** A yield resumes the context the handler chooses; the context that yielded continues behind its
    environment call when it is chosen again. *)
Lemma yield_switches h c c' : mcause c = 11 -> aget 0 (gpr c) 17 = 0xffffffff ->
  h EVENT_YIELD (Ctx (gpr c) 11 (mstatus c) (u32 (mepc c + 4))) = Some c' ->
  __am_irq_handle (Some h) c = Ok c'.
Proof. intros Hc Hg Hh. unfold __am_irq_handle. rewrite Hc, Hg. cbn [Z.eqb Pos.eqb mbind res_bind]. by rewrite Hh. Qed.
End Cte.

(** ** Witnesses *)

Lemma muldi3_correct_witness :
  Libgcc.__muldi3 (-3) 0x100000007 = Ok (- 3 * 0x100000007) /\
  Libgcc.__ashldi3 (-3) 40 = Ok (- 3 * 2 ^ 40).
Proof.
  destruct (Libgcc.muldi3_correct (-3) 0x100000007 40 ltac:(unfold in_srange; lia)) as [H1 H2].
  rewrite H1, H2 by lia. split; reflexivity.
Defined.

(** Code of five bytes, constants of four, data of six, loaded from 0x30000000; the copies write 16
    bytes each. *)
Definition small_layout : Boot.layout :=
  Boot.Layout (Boot.Sec 0xf000000 0x30000100 4) (Boot.Sec 0xa0000000 0x30000000 5)
    (Boot.Sec 0xa0000008 0x30000008 4) (Boot.Sec 0xa000000c 0x3000000c 6) (0xa0000014, 10) (0, 0)
    (Boot.Sec 0 0 0) (0xa0000020, 0xa2000000).

Lemma boot_loads_program_witness :
  exists m', Boot._trm_init 0x83 small_layout (fun x => u8 x) = Ok m' /\
    m' 0x0f000001 = 1 /\ m' 0xa0000004 = 4 /\ m' 0xa0000008 = 8 /\ m' 0xa0000011 = 0x11 /\ m' 0xa0000014 = 0.
Proof.
  destruct (Boot.boot_loads_program 0x83 small_layout (fun x => u8 x)) as (m' & E & Hs & Ht & Hd & _ & Hr & Hz).
  - intros x. auto with cint.
  - split; try (repeat split; vm_compute; (discriminate || reflexivity)).
  - specialize (Hr ltac:(right; reflexivity)).
    exists m'. split; [exact E |]. rewrite Hs, Ht, Hr, Hd by (unfold Boot.within; cbn; lia).
    rewrite Hz by (cbn; lia). repeat split; reflexivity.
Defined.
